(* ===== verification/_CoqProject ===== *)
-Q . S2P
Prelude.v
GoStrings.v
GoPath.v
Go.v
Qr.v
GoNet.v
Sha256.v
Json.v
JsonRec.v
JsonSize.v
GoFmt.v
GoTime.v
Base64.v
Fs.v
Proto.v
Ipc.v
IpcJson.v
Paths.v
Receive.v
Config.v
Pairing.v
Send.v
Transfer.v
Exchange.v
Completion.v
Lan.v
Transport.v
HubConn.v
Rns.v
Hubs.v
World.v
Peer.v
QrPair.v
Signals.v
Clips.v
Dial.v
Delivery.v
HubLink.v
Queue.v
TapPair.v
TapMutual.v
IpcHandler.v
Mdns.v
Relay.v
Cli.v
Client.v
Core.v
IpcConn.v
Serve.v
Desktop.v
Startup.v
Direct.v
