(* ===== verification/Prelude.v ===== *)
(** * adrop: a verified model of the Go core

    adrop sends files and clipboard text between paired devices. The core is
    written in Go: a daemon (src/internal/daemon) that receives sessions,
    sends them, pairs devices and keeps a queue of what could not be sent; a
    command line (src/cmd/adrop) that talks to the daemon over a control
    socket; the same core embedded in the phone app (src/core); and a relay
    (src/cmd/adrop-relay) that wakes a sleeping phone. This library translates
    that code into Rocq functions and proves what it is meant to do.

    ** How the program is put together

    A daemon keeps one store of trusted devices (config.go) and serves four
    doors: TLS connections of other devices, whose certificates are checked
    against the store (transport.go, receive.go, pairing.go, tappair.go);
    direct channels over ICE and QUIC, whose setup travels as signed messages
    over Reticulum (rns.go, directch.go, direct.go); the Reticulum inbox
    itself, which carries pings and short clipboards (internal/rns,
    queue.go); and the control socket (ipc_handler.go). Sending goes the other
    way: a manifest is built, the peer is dialled with one fallback after the
    other (fresh address from mDNS, direct channel, wake push through the
    relay), and a session is run; what cannot be sent waits in the queue.

    ** How it is modelled

    Shallow embedding: a Go function is a Rocq function with the source's
    name. State is a record; a handler is a computation of the monad [M S A]
    of Go.v over the record it can reach, whose outcome [res] is a value, an
    error, [Block] (waiting for input that never comes), [Panic], or [NoFuel]
    (the fuel of a modelled loop is used up, which the termination theorems
    exclude). Errors are values of the type [error], with the wrapping that
    errors.Is and errors.As look through. A Go int is a [Z]; where it can wrap
    the model says so with [int64]. Strings and byte slices are lists of
    bytes. A map is a [gmap], a set of in-flight names a [gset].

    Concurrency is an explicit order of steps: a select is a list of picks, a
    goroutine that runs in between is a function applied at that point, and
    two handlers that race are interleaved by hand where it matters
    (Peer.v, TapPair.v, World.v). Time is a number the environment advances.
    The disk takes a schedule of faults (Fs.v), so that "whatever I/O fails"
    is a quantifier. A connection is a byte stream with what has arrived, how
    it ends, and how many more writes succeed.

    Libraries the source only calls are parameters: Reticulum-Go (class
    [Reticulum], with its laws in [ReticulumLaws]), HDLC constants ([HDLC]),
    TLS and X.509, ICE and QUIC, the QR encoder, RSA, HTTP, and the external
    programs behind notifications and the clipboard. The Go standard library is modelled as far as the
    program uses it.

    ** The files

    The ground:
    - Prelude: bytes, machine integers, list lemmas, the hint databases.
    - GoStrings, GoPath, GoFmt, GoTime, GoNet, Base64, Sha256, Qr: strings,
      strconv, path/filepath, fmt verbs, RFC 3339, host:port, base64 and PEM,
      SHA-256, and the terminal picture of pairing.go's RenderTerminal.
    - Json, JsonRec, JsonSize: encoding/json, printer and parser on bytes with
      their round trip, struct tags, and bounds on the length of what is
      printed.
    - Go: errors, outcomes, the monad with its reasoning rules ([runs],
      [keeps], [triple], [ensures], [errs]), connections.
    - Fs: the file system with faults.

    The wire and the two ends of a transfer:
    - Proto (internal/proto/proto.go): headers, their JSON, the framing.
    - Paths (daemon/util.go and the path and slot functions of receive.go).
    - Receive (daemon/receive.go): sessions, files, clipboards, directories.
    - Send (daemon/send.go): the manifest and the sender's half of a session.
    - Transfer: the two halves against each other. If the sender reports
      success the receiver has everything, whatever fails in between.
    - Exchange: two programs run against each other over one connection.
    - Completion: without a failure the two halves come to their ends.

    Trust:
    - Config (internal/config/config.go): identity and the device store.
    - Pairing (internal/pairing): pairing URIs and the code both screens show.
    - Lan (internal/transport/bindlan*.go): the interface a dial leaves through.
    - Transport (internal/transport/transport.go): pinned TLS.
    - World (daemon/daemon.go): the record of a running daemon.
    - Peer (daemon/receive.go, pairing.go): inbound connections, QR pairing.
    - QrPair: the device that shows a code and the one that scans it together.
    - TapPair (daemon/tappair.go): tap pairing, both roles.
    - TapMutual: the two roles against each other when both users say yes.

    Reaching a device:
    - Dial (daemon/send.go, dialerror.go): dialPeer with its fallbacks, Hello,
      SendFiles and SendClipboard.
    - Delivery: a send from the dial to the last acknowledgement, with the
      daemon that receives it.
    - HubConn, Rns, Hubs (internal/rns): one hub connection, the signed
      messages of the Reticulum endpoint, the manager of a few hubs.
    - Signals, Clips (daemon/rns.go, directch.go, queue.go): pings, the setup
      of direct channels, clipboards in parts. HubLink: pings and clipboards
      from one daemon to another over the hubs.
    - Direct (internal/direct/direct.go): the setup over ICE and QUIC.
    - Mdns (internal/mdns): discovery on the local network.
    - Queue (daemon/queue.go): sends that wait.
    - Relay (internal/fcm, cmd/adrop-relay): waking a phone.

    Control:
    - Ipc, IpcJson (internal/ipc/ipc.go): records of the control protocol and
      their JSON; IpcConn (conn_unix.go, conn_tcp.go): the socket and its token.
    - IpcHandler (daemon/ipc_handler.go), Cli (cmd/adrop), Client: the handler,
      the command line, and one against the other.
    - Core (core/core.go): the embedded core.
    - Serve (daemon/daemon.go, rns.go): starting the daemon.
    - Startup (cmd/adrop/daemon.go, autostart_*.go): the environment, and the
      start at login.
    - Desktop (internal/clipboard, internal/notify): the programs that hold the
      clipboard and show notifications, and the scripts they are given.

    ** What the theorems show

    - Files: no input and no failure makes a session overwrite or leave
      anything but verified files and directories below the download directory;
      success means delivery on both ends; every claim is released; every
      session on a connection that ends returns (Receive, Transfer); where
      nothing fails, the two daemons do not deadlock, and the files or the
      clipboard that one sends are what the other has (Exchange, Completion,
      Delivery).
    - Trust: certificates, fingerprints and pins decide who is served; trust
      changes only by a completed pairing or a removal; pairing, by QR code or
      by two users who say yes, ends with each device trusting the other and
      nobody else new; a save that fails leaves the old device list (Config,
      Transport, Peer, QrPair, TapPair, TapMutual, Dial).
    - Messages: only fresh messages signed by a trusted device reach the inbox;
      framing and every codec come back as they were written; a clipboard in
      parts is put together in any order; where a path is there, a ping between
      two daemons is answered and a short clipboard arrives and is acknowledged
      (Rns, HubConn, Pairing, Clips, HubLink, Queue, IpcJson).
    - Bounds and ends: dialling, waiting for a path, sessions and commands end;
      signals fit one packet; the hub manager stays within its policy (Dial,
      Rns, Clips, Hubs).
    - The host: the daemon is the one its environment asks for, a dial stays on
      the local network when it can, a notification shows its text and nothing
      else, a send that waits stays until its peer was reached (Startup, Lan,
      Desktop, Queue).
    - Control: every command gets exactly one final answer and the command line
      ends accordingly; discovery changes addresses only; a wake request is at
      most one push (IpcHandler, Client, Mdns, Relay, IpcConn, Direct).

    ** Fuel

    A loop over frames has one more unit of fuel than there are unread bytes:
    a frame is at least five bytes. uniquePath tries one more name than there
    are files and claims; a directory walk goes no deeper than the longest path
    has bytes; reading chunks takes at most one round per byte. mdns_recover
    has 12 rounds and wake_poll 31, which is what their timeouts (2 s by 200 ms,
    15 s by 500 ms) allow; [dialPeer_returns] and [receiveSession_returns] show
    that the fuel is never used up.

    ** Bounds of the model

    White space and letter case are those of ASCII (strings.Fields, TrimSpace,
    EqualFold); times are printed in UTC; symbolic links and special files are
    nodes that no operation follows; a rename replaces a file at once.
    Deadlines set on connections only matter where the code tells a timeout
    from another error. Log lines are left out.

    ** Not modelled

    - wl-copy, notify-send, PowerShell, avahi, the registry and the sockets'
      options: what they do is a parameter; what they are asked is modelled.
    - The parsing of the relay's two flags, which package flag does.
    - The transport and destination objects Reticulum-Go needs to be opened,
      and QUIC's packetConn: they only forward.
    - The user interfaces in Dart and Kotlin under src/app. *)

From Stdlib Require Import ZArith Lia String Ascii List Bool.
From stdpp Require Import base list strings gmap option numbers.

#[global] Open Scope Z_scope.

(** ** Notation *)
Declare Scope adrop_scope.
Delimit Scope adrop_scope with adrop.
#[global] Open Scope adrop_scope.

(** Go's [==] on strings. *)
Notation "a =?s b" := (String.eqb a b) (at level 70, no associativity) : adrop_scope.

(** ** Bytes and strings

    A Go [string] is a Rocq [string] (one [ascii] per byte) and a Go [[]byte]
    is a list of [ascii]; the two conversions of the language are [bs] and
    [str]. *)

Abbreviation byte := ascii (only parsing).
Abbreviation bytes := (list ascii) (only parsing).

Definition bs (s : string) : bytes := list_ascii_of_string s.
Definition str (b : bytes) : string := string_of_list_ascii b.

Lemma str_bs s : str (bs s) = s.
Proof. apply string_of_list_ascii_of_string. Qed.

Lemma bs_str b : bs (str b) = b.
Proof. apply list_ascii_of_string_of_list_ascii. Qed.

Lemma bs_inj s1 s2 : bs s1 = bs s2 → s1 = s2.
Proof. intros H. by rewrite <-(str_bs s1), H, str_bs. Qed.

Lemma str_inj b1 b2 : str b1 = str b2 → b1 = b2.
Proof. intros H. by rewrite <-(bs_str b1), H, bs_str. Qed.

Lemma bs_app s1 s2 : bs (s1 +:+ s2) = bs s1 ++ bs s2.
Proof. unfold bs. induction s1 as [|a s1 IH]; [done|]. simpl. by rewrite IH. Qed.

Lemma str_app b1 b2 : str (b1 ++ b2) = str b1 +:+ str b2.
Proof. apply bs_inj. by rewrite bs_app, !bs_str. Qed.

Lemma length_bs s : length (bs s) = String.length s.
Proof. unfold bs. induction s as [|a s IH]; [done|]. simpl. by rewrite IH. Qed.

(** The unsigned value of a byte and the byte of an integer (taken modulo
    256, as Go's [byte(x)] conversion does). *)
Definition byteZ (b : byte) : Z := Z.of_N (N_of_ascii b).
Definition Zbyte (z : Z) : byte := ascii_of_N (Z.to_N (z mod 256)).

Lemma byteZ_range b : 0 ≤ byteZ b < 256.
Proof.
  unfold byteZ. pose proof (N_ascii_bounded b) as H. lia.
Qed.

Lemma Zbyte_byteZ b : Zbyte (byteZ b) = b.
Proof.
  unfold Zbyte. rewrite Z.mod_small by apply byteZ_range.
  unfold byteZ. rewrite N2Z.id. apply ascii_N_embedding.
Qed.

Lemma byteZ_Zbyte z : byteZ (Zbyte z) = z mod 256.
Proof.
  pose proof (Z.mod_pos_bound z 256 ltac:(lia)) as H.
  unfold byteZ, Zbyte. rewrite N_ascii_embedding by lia. lia.
Qed.

Lemma byteZ_inj a b : byteZ a = byteZ b → a = b.
Proof. intros H. by rewrite <-(Zbyte_byteZ a), H, Zbyte_byteZ. Qed.

(** ** Machine integers

    Go's [int] and [int64] are 64 bits wide on every supported platform and
    wrap around silently. *)
Definition minInt64 : Z := - 2 ^ 63.
Definition maxInt64 : Z := 2 ^ 63 - 1.
Definition int64 (z : Z) : Z := (z + 2 ^ 63) mod 2 ^ 64 - 2 ^ 63.
Definition inInt64 (z : Z) : Prop := minInt64 ≤ z ≤ maxInt64.
#[export] Instance inInt64_dec z : Decision (inInt64 z).
Proof. unfold inInt64. apply _. Defined.

Lemma int64_range z : inInt64 (int64 z).
Proof.
  unfold inInt64, minInt64, maxInt64, int64.
  pose proof (Z.mod_pos_bound (z + 2 ^ 63) (2 ^ 64) ltac:(lia)). lia.
Qed.

Lemma int64_id z : inInt64 z → int64 z = z.
Proof.
  unfold inInt64, minInt64, maxInt64, int64. intros H.
  rewrite Z.mod_small by lia. lia.
Qed.

Lemma int64_add_l a b : int64 (int64 a + b) = int64 (a + b).
Proof.
  unfold int64. f_equal.
  replace ((a + 2 ^ 63) mod 2 ^ 64 - 2 ^ 63 + b + 2 ^ 63) with ((a + 2 ^ 63) mod 2 ^ 64 + b) by lia.
  rewrite Zplus_mod_idemp_l. f_equal. lia.
Qed.

(** ** Lists *)
Lemma take_app_exact {A} (l k : list A) n : n = length l → take n (l ++ k) = l.
Proof. intros ->. by rewrite take_app_length. Qed.

Lemma drop_app_exact {A} (l k : list A) n : n = length l → drop n (l ++ k) = k.
Proof. intros ->. by rewrite drop_app_length. Qed.

Lemma Forall_removelast {A} (P : A → Prop) l : Forall P l → Forall P (removelast l).
Proof. induction 1 as [|x [|y l] Hx _ IH]; [done|constructor|by constructor]. Qed.

(** ** Automation *)
Create HintDb adrop.
Create Rewrite HintDb adrop.
#[export] Hint Resolve byteZ_range int64_range : adrop.
#[export] Hint Rewrite str_bs bs_str bs_app str_app length_bs : adrop.

(** Split the [if]s and [match]es of a hypothesis that says an operation
    returned a given value, discarding the branches that return another. *)
Ltac branches H :=
  repeat (case_match; simplify_eq/=; try discriminate H).
