(* ===== verification/GoStrings.v ===== *)
(** * The parts of Go's strings, strconv, path/filepath, encoding/hex and
    encoding/base64 packages the program uses

    Paths are Unix paths (the separator is a slash, so [filepath.ToSlash] and
    [filepath.FromSlash] are the identity). Case folding and white space are
    those of ASCII. *)

From S2P Require Import Prelude.
From Stdlib Require Import ZArith Lia String Ascii List Bool.
From stdpp Require Import base list strings gmap option numbers.

#[local] Open Scope string_scope.
#[local] Open Scope list_scope.
#[local] Open Scope Z_scope.

(** ** strings *)

Definition has_prefix (s p : string) : bool :=
  bool_decide (take (String.length p) (bs s) = bs p).
Definition drop_str (n : nat) (s : string) : string := str (drop n (bs s)).

Definition trim_prefix (s p : string) : string :=
  if has_prefix s p then drop_str (String.length p) s else s.

Definition rev_str (s : string) : string := str (rev (bs s)).

Definition has_suffix (s p : string) : bool :=
  bool_decide (String.length p ≤ String.length s)%nat &&
  bool_decide (drop (String.length s - String.length p) (bs s) = bs p).
Definition trim_suffix (s p : string) : string :=
  if has_suffix s p then str (take (String.length s - String.length p) (bs s)) else s.

(** [strings.CutPrefix] *)
Definition cut_prefix (s p : string) : option string :=
  if has_prefix s p then Some (drop_str (String.length p) s) else None.

Definition contains_byte (s : string) (c : ascii) : bool := existsb (Ascii.eqb c) (bs s).
Definition contains_any (s chars : string) : bool := existsb (contains_byte chars) (bs s).

(** [strings.Split] with a one-byte separator: never empty. *)
Fixpoint split_on (c : ascii) (s : string) : list string :=
  match s with
  | EmptyString => [EmptyString]
  | String a s' =>
      if Ascii.eqb a c then EmptyString :: split_on c s'
      else match split_on c s' with
           | h :: t => String a h :: t
           | [] => [String a EmptyString]
           end
  end.

(** [strings.SplitN] with a one-byte separator and [n > 0]. *)
Fixpoint splitn_on (n : nat) (c : ascii) (s : string) : list string :=
  match n with
  | O => []
  | S O => [s]
  | S n' =>
      match split_on c s with
      | h :: (_ :: _) =>
          h :: splitn_on n' c (drop_str (S (String.length h)) s)
      | l => l
      end
  end.

Definition join_with (sep : string) (l : list string) : string := String.concat sep l.

Definition is_space (a : ascii) : bool :=
  let n := byteZ a in bool_decide (n = 32 ∨ 9 ≤ n ≤ 13).

Fixpoint trim_left_fun (f : ascii → bool) (s : string) : string :=
  match s with
  | EmptyString => EmptyString
  | String a s' => if f a then trim_left_fun f s' else s
  end.
Definition trim_right_fun (f : ascii → bool) (s : string) : string :=
  rev_str (trim_left_fun f (rev_str s)).

Definition trim_left (s cutset : string) : string := trim_left_fun (contains_byte cutset) s.
Definition trim_cut (s cutset : string) : string :=
  trim_right_fun (contains_byte cutset) (trim_left s cutset).
Definition trim_space (s : string) : string := trim_right_fun is_space (trim_left_fun is_space s).

(** [strings.Fields]: the maximal runs of non-space bytes. *)
Fixpoint fields_aux (cur : string) (s : string) : list string :=
  let flush := match cur with EmptyString => [] | _ => [rev_str cur] end in
  match s with
  | EmptyString => flush
  | String a s' =>
      if is_space a then flush ++ fields_aux EmptyString s' else fields_aux (String a cur) s'
  end.
Definition fields (s : string) : list string := fields_aux EmptyString s.

Definition lower_byte (a : ascii) : ascii :=
  let n := byteZ a in if (65 <=? n) && (n <=? 90) then Zbyte (n + 32) else a.
Definition to_lower (s : string) : string := str (map lower_byte (bs s)).
Definition equal_fold (s t : string) : bool := String.eqb (to_lower s) (to_lower t).

(** Go compares strings byte by byte. *)
Definition str_lt (a b : string) : bool := String.ltb a b.

Lemma split_on_ne c s : split_on c s ≠ [].
Proof. destruct s; simpl; [done|]. case_match; [done|]. by case_match. Qed.

Lemma str_concat_cons sep x l :
  l ≠ [] → String.concat sep (x :: l) = x +:+ sep +:+ String.concat sep l.
Proof. by destruct l. Qed.

Lemma join_split c s : join_with (String c EmptyString) (split_on c s) = s.
Proof.
  unfold join_with. induction s as [|a s IH]; [done|]. simpl.
  destruct (Ascii.eqb_spec a c) as [->|Hne].
  - rewrite str_concat_cons by apply split_on_ne. by rewrite IH.
  - destruct (split_on c s) as [|h t] eqn:E; [by destruct (split_on_ne c s)|].
    destruct t as [|h' t].
    + simpl in IH |- *. by subst.
    + rewrite str_concat_cons by done. rewrite str_concat_cons in IH by done. by rewrite <-IH.
Qed.

Lemma has_prefix_app p s : has_prefix (p +:+ s) p = true.
Proof.
  unfold has_prefix. apply bool_decide_eq_true. rewrite bs_app.
  apply take_app_exact. by rewrite length_bs.
Qed.

Lemma has_prefix_inv s p : has_prefix s p = true → s = p +:+ drop_str (String.length p) s.
Proof.
  unfold has_prefix, drop_str. rewrite bool_decide_eq_true. intros H.
  apply bs_inj. rewrite bs_app, bs_str, <-H. by rewrite take_drop.
Qed.

Lemma drop_str_app p s : drop_str (String.length p) (p +:+ s) = s.
Proof.
  unfold drop_str. rewrite bs_app, drop_app_exact by (by rewrite length_bs). apply str_bs.
Qed.

Lemma cut_prefix_app p s : cut_prefix (p +:+ s) p = Some s.
Proof. unfold cut_prefix. by rewrite has_prefix_app, drop_str_app. Qed.

Lemma length_strapp a b : String.length (a +:+ b) = (String.length a + String.length b)%nat.
Proof. by rewrite <-!length_bs, bs_app, length_app. Qed.

Lemma trim_suffix_app s p : trim_suffix (s +:+ p) p = s.
Proof.
  unfold trim_suffix, has_suffix. rewrite length_strapp, Nat.add_sub, bs_app.
  rewrite bool_decide_eq_true_2 by lia.
  rewrite drop_app_exact, take_app_exact by (by rewrite length_bs).
  rewrite bool_decide_eq_true_2 by done. apply str_bs.
Qed.

Lemma strapp_assoc (a b c : string) : (a +:+ b) +:+ c = a +:+ (b +:+ c).
Proof. apply bs_inj. by rewrite !bs_app, app_assoc. Qed.

Lemma strapp_nil_r (a : string) : a +:+ "" = a.
Proof. apply bs_inj. by rewrite bs_app, app_nil_r. Qed.

Lemma strapp_inj_l (a b c : string) : a +:+ b = a +:+ c → b = c.
Proof. intros H. apply bs_inj. apply (f_equal bs) in H. rewrite !bs_app in H. by simplify_list_eq. Qed.

Lemma strapp_inj_r (a b c : string) : a +:+ c = b +:+ c → a = b.
Proof. intros H. apply bs_inj. apply (f_equal bs) in H. rewrite !bs_app in H. by simplify_list_eq. Qed.

(** *** Splitting *)

(** The separator does not occur. *)
Definition no_byte (c : ascii) (s : string) : Prop := c ∉ bs s.

Lemma no_byte_app c a b : no_byte c (a +:+ b) ↔ no_byte c a ∧ no_byte c b.
Proof. unfold no_byte. rewrite bs_app, not_elem_of_app. done. Qed.

Lemma no_byte_test c s : contains_byte s c = false → no_byte c s.
Proof.
  unfold no_byte, contains_byte. intros H Hin%list_elem_of_In.
  assert (existsb (Ascii.eqb c) (bs s) = true) as E; [|congruence].
  apply existsb_exists. exists c. by rewrite Ascii.eqb_refl.
Qed.

Lemma split_on_no_byte c s : no_byte c s → split_on c s = [s].
Proof.
  unfold no_byte. induction s as [|a s IH]; [done|]. cbn [bs list_ascii_of_string].
  rewrite not_elem_of_cons. intros [Hne H]. simpl.
  apply not_eq_sym, Ascii.eqb_neq in Hne. rewrite Hne. fold (bs s) in H. by rewrite IH.
Qed.

Lemma split_on_parts c s : Forall (no_byte c) (split_on c s).
Proof.
  unfold no_byte. induction s as [|a s IH]; simpl.
  - repeat constructor. cbn. apply not_elem_of_nil.
  - destruct (Ascii.eqb_spec a c) as [->|Hne].
    + constructor; [apply not_elem_of_nil|done].
    + destruct (split_on c s) as [|h t]; [by repeat constructor; set_solver|].
      apply Forall_cons_1 in IH as [Hh Ht]. constructor; [|done].
      cbn. apply not_elem_of_cons. done.
Qed.

Lemma split_on_sep c a b :
  split_on c (a +:+ String c b) = split_on c a ++ split_on c b.
Proof.
  induction a as [|x a IH]; simpl.
  - by rewrite Ascii.eqb_refl.
  - destruct (Ascii.eqb x c); [by rewrite IH|]. rewrite IH.
    destruct (split_on c a) as [|h t] eqn:E; [by destruct (split_on_ne c a)|]. done.
Qed.

(** Text without separators appended to [s] extends its last part. *)
Lemma split_on_app_no_byte c s x :
  no_byte c x →
  split_on c (s +:+ x) = removelast (split_on c s) ++ [List.last (split_on c s) "" +:+ x].
Proof.
  intros Hx. induction s as [|a s IH]; simpl; [by rewrite split_on_no_byte|].
  pose proof (split_on_ne c s).
  destruct (Ascii.eqb a c).
  - rewrite IH. by destruct (split_on c s).
  - rewrite IH. destruct (split_on c s) as [|h [|h' t]]; done.
Qed.

Lemma split_on_join c l :
  l ≠ [] → Forall (no_byte c) l → split_on c (join_with (String c "") l) = l.
Proof.
  unfold join_with. intros Hne H. induction H as [|x l Hx Hl IH]; [done|].
  destruct l as [|y l].
  - by apply split_on_no_byte.
  - rewrite str_concat_cons by done. change (String c "" +:+ ?s) with (String c s).
    rewrite split_on_sep, IH by done. by rewrite split_on_no_byte.
Qed.

Lemma join_snoc sep l x : l ≠ [] → join_with sep (l ++ [x]) = join_with sep l +:+ sep +:+ x.
Proof.
  unfold join_with. intros Hne. induction l as [|y l IH]; [done|]. destruct l as [|z l].
  - done.
  - change ((y :: z :: l) ++ [x]) with (y :: ((z :: l) ++ [x])).
    rewrite !str_concat_cons by done. rewrite IH by done. by rewrite !strapp_assoc.
Qed.

(** ** strconv *)

Lemma has_suffix_spec s p : has_suffix s p = true ↔ ∃ z, s = z +:+ p.
Proof.
  unfold has_suffix. rewrite andb_true_iff, !bool_decide_eq_true. split.
  - intros [_ H]. exists (str (take (String.length s - String.length p) (bs s))).
    apply bs_inj. by rewrite bs_app, bs_str, <-H, take_drop.
  - intros [z ->]. rewrite length_strapp. split; [lia|].
    rewrite bs_app, drop_app_exact; [done|]. rewrite length_bs. lia.
Qed.

Lemma has_suffix_app s p : has_suffix (s +:+ p) p = true.
Proof. apply has_suffix_spec. eauto. Qed.

(** A byte the suffix does not have separates it from what comes before. *)
Lemma has_suffix_sep c x y p :
  no_byte c p → has_suffix (x +:+ String c y) p = has_suffix y p.
Proof.
  intros Hp. apply eq_true_iff_eq. rewrite !has_suffix_spec. split.
  - intros [z E]. apply (f_equal bs) in E. rewrite !bs_app in E.
    change (bs (String c y)) with (c :: bs y) in E.
    apply app_eq_inv in E as [(k & E1 & E2)|(k & E1 & E2)].
    + exfalso. apply Hp. rewrite E2. apply elem_of_app. right. by left.
    + destruct k as [|a k]; [by exfalso; apply Hp; simpl in E2; rewrite <-E2; left|].
      simpl in E2. injection E2 as <- E2. exists (str k). apply bs_inj. by rewrite bs_app, bs_str.
  - intros [z ->]. exists (x +:+ String c z). apply bs_inj. rewrite !bs_app.
    change (bs (String c (z +:+ p))) with (c :: bs (z +:+ p)).
    change (bs (String c z)) with (c :: bs z). by rewrite bs_app, <-app_assoc.
Qed.

(** The decimal digits of [n ≥ 0], most significant first, in front of [acc]. *)
Fixpoint dec_digits (fuel : nat) (n : Z) (acc : bytes) : bytes :=
  match fuel with
  | O => acc
  | S fuel' =>
      let acc' := Zbyte (48 + n mod 10) :: acc in
      if n <? 10 then acc' else dec_digits fuel' (n / 10) acc'
  end.

Definition dec_bytes (n : Z) : bytes := dec_digits (S (Z.to_nat (Z.log2 n))) n [].

(** [strconv.Itoa] and the [%d] verb. *)
Definition itoa_bytes (z : Z) : bytes :=
  if z <? 0 then "-"%char :: dec_bytes (- z) else dec_bytes z.
Definition itoa (z : Z) : string := str (itoa_bytes z).

Definition is_digit (a : ascii) : bool := let n := byteZ a in (48 <=? n) && (n <=? 57).

Definition digits_val (acc : Z) (s : bytes) : Z :=
  fold_left (λ acc a, acc * 10 + (byteZ a - 48)) s acc.

(** [strconv.ParseInt(s, 10, 64)]: an optional sign, at least one digit,
    nothing else, and a value in range; [None] is its error. [strconv.Atoi]
    is the same on 64-bit platforms. *)
Definition parse_digits (s : bytes) : option Z :=
  match s with
  | [] => None
  | _ => if forallb is_digit s then Some (digits_val 0 s) else None
  end.
Definition parse_int_bytes (s : bytes) : option Z :=
  let v :=
    match s with
    | a :: rest =>
        if Ascii.eqb a "-" then Z.opp <$> parse_digits rest
        else if Ascii.eqb a "+" then parse_digits rest
        else parse_digits (a :: rest)
    | [] => None
    end in
  match v with
  | Some z => if bool_decide (inInt64 z) then Some z else None
  | None => None
  end.
Definition parse_int (s : string) : option Z := parse_int_bytes (bs s).

Lemma byteZ_digit n : 0 ≤ n < 10 → byteZ (Zbyte (48 + n)) = 48 + n.
Proof. intros. rewrite byteZ_Zbyte. apply Z.mod_small. lia. Qed.

Lemma is_digit_Zbyte n : is_digit (Zbyte (48 + n mod 10)) = true.
Proof.
  pose proof (Z.mod_pos_bound n 10 ltac:(lia)).
  unfold is_digit. rewrite byteZ_digit by lia. lia.
Qed.

Lemma dec_digits_digit fuel n acc :
  forallb is_digit acc = true → forallb is_digit (dec_digits fuel n acc) = true.
Proof.
  revert n acc. induction fuel as [|fuel IH]; intros n acc H; [done|].
  cbn [dec_digits].
  assert (forallb is_digit (Zbyte (48 + n mod 10) :: acc) = true).
  { cbn [forallb]. by rewrite is_digit_Zbyte. }
  case_match; auto.
Qed.

Lemma dec_digits_val fuel n acc :
  0 ≤ n < 2 ^ Z.of_nat fuel →
  digits_val 0 (dec_digits fuel n acc) = digits_val n acc.
Proof.
  revert n acc. induction fuel as [|fuel IH]; intros n acc H.
  { cbn in *. by replace n with 0 by lia. }
  pose proof (Z.mod_pos_bound n 10 ltac:(lia)).
  pose proof (Z.div_mod n 10 ltac:(lia)).
  cbn [dec_digits]. destruct (Z.ltb_spec n 10) as [Hn|Hn].
  - unfold digits_val. cbn [fold_left]. rewrite byteZ_digit by lia.
    f_equal. rewrite Z.mod_small by lia. lia.
  - rewrite IH.
    + unfold digits_val. cbn [fold_left]. rewrite byteZ_digit by lia. f_equal. lia.
    + rewrite Nat2Z.inj_succ, Z.pow_succ_r in H by lia. lia.
Qed.

Lemma dec_bytes_cons n : ∃ a l, dec_bytes n = a :: l ∧ is_digit a = true.
Proof.
  assert (∀ fuel m acc, forallb is_digit acc = true → (fuel ≠ 0%nat ∨ acc ≠ []) →
    ∃ a l, dec_digits fuel m acc = a :: l ∧ is_digit a = true) as H.
  { induction fuel as [|fuel IH]; intros m acc Hd Hne.
    - destruct acc as [|a l]; [by destruct Hne|]. exists a, l. cbn in *.
      by apply andb_true_iff in Hd as [-> _].
    - cbn [dec_digits]. case_match.
      + eexists _, _. split; [done|]. apply is_digit_Zbyte.
      + apply IH; [|by right]. cbn [forallb]. by rewrite is_digit_Zbyte. }
  apply H; [done|]. by left.
Qed.

Lemma parse_dec_bytes n : 0 ≤ n → parse_digits (dec_bytes n) = Some n.
Proof.
  intros Hn. unfold parse_digits.
  assert (forallb is_digit (dec_bytes n) = true) as Hd by by apply dec_digits_digit.
  destruct (dec_bytes_cons n) as (a & l & E & _). rewrite E at 1. rewrite Hd.
  f_equal. unfold dec_bytes. rewrite dec_digits_val; [done|]. split; [done|].
  destruct (decide (n = 0)) as [->|]; [done|].
  rewrite Nat2Z.inj_succ, Z2Nat.id by apply Z.log2_nonneg.
  apply Z.log2_spec. lia.
Qed.

Lemma digit_not_sign a : is_digit a = true → a ≠ "-"%char ∧ a ≠ "+"%char.
Proof. intros H. split; intros ->; done. Qed.

(** Printing an [int64] and parsing it back. *)
Lemma parse_int_itoa z : inInt64 z → parse_int_bytes (itoa_bytes z) = Some z.
Proof.
  intros Hz. unfold parse_int_bytes, itoa_bytes.
  destruct (Z.ltb_spec z 0).
  - rewrite Ascii.eqb_refl, parse_dec_bytes by lia. simpl.
    rewrite Z.opp_involutive. by rewrite bool_decide_eq_true_2.
  - destruct (dec_bytes_cons z) as (a & l & E & Ha).
    rewrite E. apply digit_not_sign in Ha as [??].
    destruct (Ascii.eqb_spec a "-"); [done|]. destruct (Ascii.eqb_spec a "+"); [done|].
    rewrite <-E, parse_dec_bytes by done. by rewrite bool_decide_eq_true_2.
Qed.

(** ** path/filepath (Unix) *)

(** The components of a path, [""] and ["."] dropped and [".."] resolved
    against the stack [out] (in reverse order); a rooted path drops a [".."]
    at its root, a relative one keeps it. *)
Fixpoint clean_comps (rooted : bool) (out : list string) (l : list string) : list string :=
  match l with
  | [] => rev out
  | c :: l' =>
      if (c =?s "") || (c =?s ".") then clean_comps rooted out l'
      else if c =?s ".." then
        match out with
        | top :: out' =>
            if top =?s ".." then clean_comps rooted (c :: out) l'
            else clean_comps rooted out' l'
        | [] => if rooted then clean_comps rooted [] l' else clean_comps rooted [c] l'
        end
      else clean_comps rooted (c :: out) l'
  end.

Definition is_rooted (p : string) : bool := has_prefix p "/".

(** [filepath.Clean] *)
Definition path_clean (p : string) : string :=
  if p =?s "" then "."
  else
    let body := join_with "/" (clean_comps (is_rooted p) [] (split_on "/" p)) in
    if is_rooted p then "/" +:+ body
    else if body =?s "" then "." else body.

(** [filepath.Base]: the last component, trailing slashes removed. *)
Definition path_base (p : string) : string :=
  if p =?s "" then "."
  else
    match trim_right_fun (Ascii.eqb "/") p with
    | EmptyString => "/"
    | q => List.last (split_on "/" q) ""
    end.

(** [filepath.Dir]: everything before the last component, cleaned. *)
Definition path_dir (p : string) : string :=
  path_clean (join_with "/" (removelast (split_on "/" p)) +:+
              (if contains_byte p "/" then "/" else "")).

(** [filepath.Join] of two elements. *)
Definition path_join (a b : string) : string :=
  if a =?s "" then (if b =?s "" then "" else path_clean b)
  else if b =?s "" then path_clean a
  else path_clean (a +:+ "/" +:+ b).

(** [filepath.Ext]: from the last dot of the last component, or empty. *)
Definition path_ext (p : string) : string :=
  let base := List.last (split_on "/" p) "" in
  match rev (split_on "." base) with
  | suffix :: (_ :: _) => "." +:+ suffix
  | _ => ""
  end.

(** ** encoding/hex *)

Definition hex_digit (n : Z) : ascii := if n <? 10 then Zbyte (48 + n) else Zbyte (87 + n).

(** [hex.EncodeToString] *)
Definition hex_encode (b : bytes) : string :=
  str (flat_map (λ a, [hex_digit (byteZ a / 16); hex_digit (byteZ a mod 16)]) b).

Definition hex_val (a : ascii) : option Z :=
  let n := byteZ a in
  if (48 <=? n) && (n <=? 57) then Some (n - 48)
  else if (97 <=? n) && (n <=? 102) then Some (n - 87)
  else if (65 <=? n) && (n <=? 70) then Some (n - 55)
  else None.

(** [hex.DecodeString]; [None] is its error (an odd length or a byte that is
    no hex digit). *)
Fixpoint hex_decode_bytes (s : bytes) : option bytes :=
  match s with
  | [] => Some []
  | [_] => None
  | a :: b :: s' =>
      match hex_val a, hex_val b, hex_decode_bytes s' with
      | Some x, Some y, Some r => Some (Zbyte (16 * x + y) :: r)
      | _, _, _ => None
      end
  end.
Definition hex_decode (s : string) : option bytes := hex_decode_bytes (bs s).

Lemma hex_val_digit n : 0 ≤ n < 16 → hex_val (hex_digit n) = Some n.
Proof.
  intros Hn. unfold hex_digit, hex_val. destruct (Z.ltb_spec n 10).
  - rewrite byteZ_digit by lia.
    replace (48 <=? 48 + n) with true by lia. replace (48 + n <=? 57) with true by lia.
    simpl. f_equal. lia.
  - rewrite byteZ_Zbyte, Z.mod_small by lia.
    replace (87 + n <=? 57) with false by lia. rewrite andb_false_r.
    replace (97 <=? 87 + n) with true by lia. replace (87 + n <=? 102) with true by lia.
    simpl. f_equal. lia.
Qed.

Lemma hex_decode_encode b : hex_decode (hex_encode b) = Some b.
Proof.
  unfold hex_decode, hex_encode. rewrite bs_str.
  induction b as [|a b IH]; [done|]. cbn [flat_map app hex_decode_bytes].
  pose proof (byteZ_range a).
  pose proof (Z.mod_pos_bound (byteZ a) 16 ltac:(lia)).
  pose proof (Z.div_mod (byteZ a) 16 ltac:(lia)).
  rewrite !hex_val_digit, IH by (try apply Z.mod_pos_bound; nia).
  rewrite <-Z.div_mod by lia. by rewrite Zbyte_byteZ.
Qed.

Lemma hex_encode_length b : String.length (hex_encode b) = (2 * length b)%nat.
Proof.
  unfold hex_encode. rewrite <-length_bs, bs_str.
  induction b as [|a b IH]; [done|]. cbn. rewrite IH. lia.
Qed.

Lemma hex_encode_inj a b : hex_encode a = hex_encode b → a = b.
Proof.
  intros H. pose proof (hex_decode_encode a) as Ha.
  rewrite H, hex_decode_encode in Ha. by simplify_eq.
Qed.
