(* ===== verification/GoPath.v ===== *)
(** * Clean absolute paths as lists of components

    [abs_path cs] is the path with components [cs]; on plain components the
    functions of path/filepath act on the list: Join appends, Dir drops the
    last component, Base returns it. *)

From S2P Require Import Prelude GoStrings.
From Stdlib Require Import ZArith Lia String Ascii List Bool.
From stdpp Require Import base list strings gmap option numbers.

#[local] Open Scope string_scope.
#[local] Open Scope list_scope.

(** A component that [filepath.Clean] keeps as it is. *)
Definition plain (c : string) : Prop :=
  c ≠ "" ∧ c ≠ "." ∧ c ≠ ".." ∧ no_byte "/" c.

Definition rel_path (cs : list string) : string := join_with "/" cs.
Definition abs_path (cs : list string) : string := "/" +:+ rel_path cs.

Lemma plain_no_byte cs : Forall plain cs → Forall (no_byte "/") cs.
Proof. apply Forall_impl. by intros c (_ & _ & _ & ?). Qed.

Lemma plain_test c : plain c → (c =?s "") = false ∧ (c =?s ".") = false ∧ (c =?s "..") = false.
Proof. intros (H1 & H2 & H3 & _). by rewrite !String.eqb_neq. Qed.

Lemma clean_comps_plain rooted out l :
  Forall plain l → clean_comps rooted out l = rev out ++ l.
Proof.
  intros H. revert out. induction H as [|c l Hc _ IH]; intros out; simpl.
  - by rewrite app_nil_r.
  - destruct (plain_test c Hc) as (-> & -> & ->). simpl. rewrite IH. simpl.
    by rewrite <-app_assoc.
Qed.

Lemma clean_comps_empty rooted out l :
  clean_comps rooted out ("" :: l) = clean_comps rooted out l.
Proof. done. Qed.

Lemma split_abs cs :
  cs ≠ [] → Forall plain cs → split_on "/" (abs_path cs) = "" :: cs.
Proof.
  intros Hne H. unfold abs_path, rel_path.
  change ("/" +:+ ?s) with ("" +:+ String "/" s).
  rewrite split_on_sep, split_on_join; [done|done|by apply plain_no_byte].
Qed.

Lemma split_rel cs : cs ≠ [] → Forall plain cs → split_on "/" (rel_path cs) = cs.
Proof. intros. by apply split_on_join, plain_no_byte. Qed.

Lemma rooted_abs cs : is_rooted (abs_path cs) = true.
Proof. unfold is_rooted, abs_path. apply has_prefix_app. Qed.

Lemma abs_path_ne cs : (abs_path cs =?s "") = false.
Proof. by apply String.eqb_neq. Qed.

Lemma path_clean_abs cs : Forall plain cs → path_clean (abs_path cs) = abs_path cs.
Proof.
  intros H. destruct cs as [|c cs]; [by vm_compute|].
  unfold path_clean. rewrite abs_path_ne, rooted_abs, split_abs by done.
  rewrite clean_comps_empty. by rewrite clean_comps_plain.
Qed.

Lemma abs_path_inj cs ds :
  Forall plain cs → Forall plain ds → abs_path cs = abs_path ds → cs = ds.
Proof.
  intros Hc Hd E. apply (f_equal (split_on "/")) in E.
  assert (∀ c l, Forall plain (c :: l) → split_on "/" (abs_path []) ≠ "" :: c :: l) as H0.
  { intros c l [(? & _) _]%Forall_cons_1. by change (split_on "/" (abs_path [])) with [""; ""]; intros [=]. }
  destruct cs as [|c cs], ds as [|d ds]; [done| | |]; rewrite ?(split_abs (_ :: _)) in E by done.
  - by apply H0 in E.
  - symmetry in E. by apply H0 in E.
  - by simplify_eq.
Qed.

Lemma rel_path_app cs ds :
  cs ≠ [] → ds ≠ [] → rel_path (cs ++ ds) = rel_path cs +:+ "/" +:+ rel_path ds.
Proof.
  intros Hc Hd. unfold rel_path, join_with.
  induction cs as [|c cs IH]; [done|]. destruct cs as [|c' cs].
  - change ([c] ++ ds) with (c :: ds). by rewrite (str_concat_cons _ c ds) by done.
  - change ((c :: c' :: cs) ++ ds) with (c :: ((c' :: cs) ++ ds)).
    rewrite (str_concat_cons _ c ((c' :: cs) ++ ds)), (str_concat_cons _ c (c' :: cs)) by done.
    rewrite IH by done. by rewrite !strapp_assoc.
Qed.

Lemma rel_path_ne cs : cs ≠ [] → Forall plain cs → rel_path cs ≠ "".
Proof.
  intros Hne H E. apply (f_equal (split_on "/")) in E. rewrite split_rel in E by done.
  vm_compute in E. subst. by apply Forall_cons_1 in H as [(? & _) _].
Qed.

Lemma has_prefix_cons a s b p :
  has_prefix (String a s) (String b p) = Ascii.eqb a b && has_prefix s p.
Proof.
  unfold has_prefix. cbn [String.length bs list_ascii_of_string take].
  fold (bs s) (bs p). destruct (Ascii.eqb_spec a b) as [->|Hne]; cbn [andb].
  - apply bool_decide_ext. split; [by intros [=]|by intros ->].
  - apply bool_decide_eq_false. by intros [= ?].
Qed.

Lemma rel_not_rooted cs : Forall plain cs → is_rooted (rel_path cs) = false.
Proof.
  intros H. destruct cs as [|c cs]; [done|].
  apply Forall_cons_1 in H as [(Hne & _ & _ & Hb) _].
  destruct c as [|a c]; [done|].
  assert (∃ s, rel_path (String a c :: cs) = String a s) as [s ->].
  { unfold rel_path, join_with. destruct cs; simpl; eauto. }
  unfold is_rooted. rewrite has_prefix_cons.
  destruct (Ascii.eqb_spec a "/") as [->|]; [|done]. exfalso. apply Hb. by left.
Qed.

Lemma path_clean_rel cs : cs ≠ [] → Forall plain cs → path_clean (rel_path cs) = rel_path cs.
Proof.
  intros Hne H. unfold path_clean. pose proof (rel_path_ne cs Hne H) as E.
  apply String.eqb_neq in E. rewrite E, rel_not_rooted, split_rel by done.
  rewrite clean_comps_plain by done. cbn [rev app]. fold (rel_path cs). by rewrite E.
Qed.

Lemma path_join_rel pre x :
  Forall plain pre → plain x → path_join (rel_path pre) x = rel_path (pre ++ [x]).
Proof.
  intros Hp Hx. unfold path_join. destruct (plain_test x Hx) as (Ex & _).
  destruct pre as [|y pre].
  - change (rel_path [] =?s "") with true. cbn iota. rewrite Ex.
    change x with (rel_path [x]) at 1. rewrite path_clean_rel; [done|done|auto].
  - pose proof (rel_path_ne (y :: pre) ltac:(done) Hp) as E. apply String.eqb_neq in E.
    rewrite E, Ex. change x with (rel_path [x]) at 1. rewrite <-rel_path_app by done.
    apply path_clean_rel; [done|]. apply Forall_app. auto.
Qed.

Lemma path_join_abs ds rs :
  ds ≠ [] → rs ≠ [] → Forall plain ds → Forall plain rs →
  path_join (abs_path ds) (rel_path rs) = abs_path (ds ++ rs).
Proof.
  intros Hd Hr Pd Pr. unfold path_join.
  rewrite abs_path_ne. destruct (String.eqb_spec (rel_path rs) "") as [E|_].
  { by apply rel_path_ne in E. }
  replace (abs_path ds +:+ "/" +:+ rel_path rs) with (abs_path (ds ++ rs)).
  - apply path_clean_abs, Forall_app. done.
  - unfold abs_path. rewrite rel_path_app by done. by rewrite !strapp_assoc.
Qed.

Lemma clean_comps_trailing rooted l out :
  Forall plain l → clean_comps rooted out (l ++ [""]) = rev out ++ l.
Proof.
  intros H. revert out. induction H as [|c l Hc _ IH]; intros out; simpl.
  - by rewrite app_nil_r.
  - destruct (plain_test c Hc) as (-> & -> & ->). simpl. rewrite IH. simpl.
    by rewrite <-app_assoc.
Qed.

Lemma path_dir_abs ds x :
  Forall plain ds → plain x → path_dir (abs_path (ds ++ [x])) = abs_path ds.
Proof.
  intros Hd Hx. unfold path_dir.
  rewrite split_abs by (try apply Forall_app; try (by destruct ds); auto).
  assert (contains_byte (abs_path (ds ++ [x])) "/" = true) as ->.
  { unfold contains_byte, abs_path. rewrite bs_app. simpl. done. }
  change ("" :: ds ++ [x]) with (("" :: ds) ++ [x]). rewrite removelast_last.
  destruct ds as [|d ds]; [by vm_compute|].
  unfold path_clean, join_with. rewrite str_concat_cons by done.
  change ("" +:+ ?s) with s. fold (join_with "/" (d :: ds)).
  change ("/" +:+ join_with "/" (d :: ds)) with (abs_path (d :: ds)).
  replace (abs_path (d :: ds) +:+ "/" =?s "") with false by (symmetry; by apply String.eqb_neq).
  replace (is_rooted (abs_path (d :: ds) +:+ "/")) with true.
  2:{ symmetry. unfold abs_path. rewrite strapp_assoc. apply has_prefix_app. }
  change (abs_path (d :: ds) +:+ "/") with (abs_path (d :: ds) +:+ String "/" "").
  rewrite split_on_sep, split_abs by done. change (split_on "/" "") with [""].
  cbn [app]. rewrite clean_comps_empty.
  change (d :: ds ++ [""]) with ((d :: ds) ++ [""]). by rewrite clean_comps_trailing.
Qed.

Lemma path_dir_rel cs x :
  cs ≠ [] → Forall plain cs → plain x → path_dir (rel_path (cs ++ [x])) = rel_path cs.
Proof.
  intros Hne Hc Hx. unfold path_dir.
  rewrite split_rel by (try apply Forall_app; try (by destruct cs); auto).
  rewrite removelast_last, rel_path_app by done.
  assert (contains_byte (rel_path cs +:+ "/" +:+ rel_path [x]) "/" = true) as ->.
  { unfold contains_byte. rewrite !bs_app, !existsb_app. simpl. by rewrite orb_true_r. }
  fold (rel_path cs). unfold path_clean.
  replace (rel_path cs +:+ "/" =?s "") with false.
  2:{ symmetry. apply String.eqb_neq. intros E%(f_equal String.length).
      rewrite length_strapp in E. simpl in E. lia. }
  replace (is_rooted (rel_path cs +:+ "/")) with false.
  2:{ symmetry. pose proof (rel_not_rooted cs Hc) as Hr. pose proof (rel_path_ne cs Hne Hc) as Hn.
      unfold is_rooted in *. destruct (rel_path cs) as [|a s]; [done|].
      change (String a s +:+ "/") with (String a (s +:+ "/")).
      rewrite has_prefix_cons in Hr |- *. destruct (Ascii.eqb a "/"); [|done]. by destruct s. }
  change "/" with (String "/" "") at 2.
  rewrite split_on_sep, split_rel by done. change (split_on "/" "") with [""].
  rewrite clean_comps_trailing by done. cbn [rev app]. fold (rel_path cs).
  destruct (String.eqb_spec (rel_path cs) "") as [E|]; [by apply rel_path_ne in E|done].
Qed.

Lemma rev_str_involutive s : rev_str (rev_str s) = s.
Proof. unfold rev_str. by rewrite bs_str, rev_involutive, str_bs. Qed.

Lemma trim_right_id f s b a : bs s = b ++ [a] → f a = false → trim_right_fun f s = s.
Proof.
  intros E Ha. unfold trim_right_fun.
  assert (rev_str s = String a (str (rev b))) as Hr.
  { unfold rev_str. by rewrite E, rev_app_distr. }
  rewrite Hr. cbn [trim_left_fun]. by rewrite Ha, <-Hr, rev_str_involutive.
Qed.

(** The last byte of a path is that of its last component, no slash. *)
Lemma abs_path_last ds x :
  plain x → ∃ b a, bs (abs_path (ds ++ [x])) = b ++ [a] ∧ Ascii.eqb "/" a = false.
Proof.
  intros (Hne & _ & _ & Hnb).
  assert (∃ p, abs_path (ds ++ [x]) = p +:+ x) as [p ->].
  { unfold abs_path, rel_path. destruct ds as [|d ds]; [by exists "/"|].
    rewrite join_snoc by done. eexists. by rewrite <-!strapp_assoc. }
  destruct (@exists_last _ (bs x)) as (b & a & E).
  { intros E. apply Hne, bs_inj. by rewrite E. }
  exists (bs p ++ b), a. rewrite bs_app, E, app_assoc. split; [done|].
  apply Ascii.eqb_neq. intros <-. apply Hnb. rewrite E. set_solver.
Qed.

Lemma path_base_abs ds x : Forall plain ds → plain x → path_base (abs_path (ds ++ [x])) = x.
Proof.
  intros Hd Hx. unfold path_base. rewrite abs_path_ne.
  assert (Forall plain (ds ++ [x])) as Hall by (apply Forall_app; auto).
  destruct (abs_path_last ds x Hx) as (b & a & Eb & Ea). rewrite (trim_right_id _ _ _ _ Eb Ea).
  destruct (abs_path (ds ++ [x])) eqn:E; [by apply (f_equal String.length) in E|].
  rewrite <-E, split_abs by (by destruct ds). change ("" :: ds ++ [x]) with (("" :: ds) ++ [x]).
  apply last_last.
Qed.

(** ** Numbering: the extension of the last component *)

Lemma ext_split name :
  ∃ st, List.last (split_on "/" name) "" = st +:+ path_ext name ∧ no_byte "/" (path_ext name).
Proof.
  unfold path_ext. set (base := List.last (split_on "/" name) "").
  assert (no_byte "/" base) as Hb.
  { pose proof (split_on_parts "/" name) as H. pose proof (split_on_ne "/" name) as Hne.
    destruct (exists_last Hne) as (l & x & E). unfold base. rewrite E, last_last.
    rewrite E in H. by apply Forall_app in H as [_ H%Forall_inv]. }
  destruct (rev (split_on "." base)) as [|x [|y l]] eqn:E.
  - exists base. split; [by rewrite strapp_nil_r|apply not_elem_of_nil].
  - exists base. split; [by rewrite strapp_nil_r|apply not_elem_of_nil].
  - apply (f_equal (@rev _)) in E. rewrite rev_involutive in E.
    change (rev (x :: y :: l)) with (rev (y :: l) ++ [x]) in E.
    pose proof (join_split "." base) as J. rewrite E in J.
    rewrite join_snoc in J by (simpl; by destruct (rev l)).
    exists (join_with "." (rev (y :: l))). split; [done|].
    rewrite <-J in Hb. by apply no_byte_app in Hb as [_ Hb].
Qed.

(** [name] split as its stem and extension, and the components of the stem
    followed by anything without a slash and the extension. *)
Lemma stem_ext name :
  name = trim_suffix name (path_ext name) +:+ path_ext name ∧
  ∃ st, List.last (split_on "/" name) "" = st +:+ path_ext name ∧
    ∀ x, no_byte "/" x →
      split_on "/" (trim_suffix name (path_ext name) +:+ x) =
      removelast (split_on "/" name) ++ [st +:+ x].
Proof.
  destruct (ext_split name) as (st & Hl & Hb).
  pose proof (split_on_ne "/" name) as Hne. destruct (exists_last Hne) as (l & y & E).
  rewrite E, last_last in Hl. subst y.
  pose proof (split_on_parts "/" name) as Hp. rewrite E in Hp.
  apply Forall_app in Hp as [Hp Hy%Forall_inv]. apply no_byte_app in Hy as [Hst _].
  set (stem := join_with "/" (l ++ [st])).
  assert (split_on "/" stem = l ++ [st]) as Hs.
  { apply split_on_join; [by destruct l|]. apply Forall_app. auto. }
  assert (name = stem +:+ path_ext name) as Hname.
  { rewrite <-(join_split "/" name) at 1. rewrite E. unfold stem.
    destruct l as [|a l]; [done|]. rewrite !join_snoc by done. by rewrite !strapp_assoc. }
  assert (trim_suffix name (path_ext name) = stem) as ->.
  { rewrite Hname at 1. apply trim_suffix_app. }
  split; [done|]. exists st. rewrite E, last_last, removelast_last. split; [done|].
  intros x Hx. by rewrite split_on_app_no_byte, Hs, last_last, removelast_last.
Qed.
