(* ===== verification/Go.v ===== *)
(** * The Go run-time behaviour the program relies on

    Error values, the outcome of a call, the state monad the handlers are
    written in, and the byte-stream connection ([net.Conn]). *)

From S2P Require Import Prelude GoStrings.
From Stdlib Require Import ZArith Lia String Ascii List Bool.
From stdpp Require Import base list strings gmap option numbers.

#[local] Open Scope Z_scope.

(** ** config.Device

    Declared here because the error of an unreachable peer carries one. Times
    are Unix nanoseconds; [zeroTime] is Go's zero [time.Time]. *)
Definition zeroTime : Z := -62135596800 * 10 ^ 9.

Record Device := mkDevice {
  dev_Name : string;
  dev_Fingerprint : string;
  dev_Addr : string;
  dev_PairedAt : Z;
  dev_FcmToken : string;
  dev_RNS : string;
}.
#[export] Instance Device_eq_dec : EqDecision Device.
Proof. solve_decision. Defined.

Definition zeroDevice : Device := mkDevice "" "" "" zeroTime "" "".

(** ** Errors *)

(** The [syscall.Errno] values the program meets or tests for. *)
Inductive errno :=
  | ENOENT | EEXIST | ENOTDIR | EISDIR | EIO | EPIPE | ECONNRESET
  | ECONNREFUSED | EHOSTUNREACH | ENETUNREACH | EPERM | EACCES | ETIMEDOUT.
#[export] Instance errno_eq_dec : EqDecision errno.
Proof. solve_decision. Defined.

(** Error values. [Errorf] is an error that wraps nothing ([errors.New], or
    [fmt.Errorf] without [%w]); [Wrapf pre e] is [fmt.Errorf("pre: %w", e)];
    [Unreachable] is the daemon's unreachableError. *)
Inductive error :=
  | EOF
  | ErrUnexpectedEOF
  | ErrTooLarge
  | ErrUntrustedPeer
  | ErrNoTapPairing
  | Canceled
  | DeadlineExceeded
  | Errno (e : errno)
  | Errorf (msg : string)
  | Wrapf (pre : string) (e : error)
  | Unreachable (dev : Device) (e : error).
#[export] Instance error_eq_dec : EqDecision error.
Proof. solve_decision. Defined.

Definition errno_text (e : errno) : string :=
  match e with
  | ENOENT => "no such file or directory"
  | EEXIST => "file exists"
  | ENOTDIR => "not a directory"
  | EISDIR => "is a directory"
  | EIO => "input/output error"
  | EPIPE => "broken pipe"
  | ECONNRESET => "connection reset by peer"
  | ECONNREFUSED => "connection refused"
  | EHOSTUNREACH => "no route to host"
  | ENETUNREACH => "network is unreachable"
  | EPERM => "operation not permitted"
  | EACCES => "permission denied"
  | ETIMEDOUT => "connection timed out"
  end.

(** The [Error()] method. *)
Fixpoint error_text (e : error) : string :=
  match e with
  | EOF => "EOF"
  | ErrUnexpectedEOF => "unexpected EOF"
  | ErrTooLarge => "proto: frame exceeds limit"
  | ErrUntrustedPeer => "transport: peer certificate not in trusted set"
  | ErrNoTapPairing => "transport: peer does not accept tap pairing"
  | Canceled => "context canceled"
  | DeadlineExceeded => "context deadline exceeded"
  | Errno n => errno_text n
  | Errorf m => m
  | Wrapf pre e' => pre +:+ ": " +:+ error_text e'
  | Unreachable _ e' => error_text e'
  end.

(** [errors.Is] for a [syscall.Errno], following [Unwrap]. *)
Fixpoint is_errno (n : errno) (e : error) : bool :=
  match e with
  | Errno m => bool_decide (m = n)
  | Wrapf _ e' | Unreachable _ e' => is_errno n e'
  | _ => false
  end.

(** [errors.As] for the daemon's [*unreachableError]. *)
Fixpoint as_unreachable (e : error) : option Device :=
  match e with
  | Unreachable dev _ => Some dev
  | Wrapf _ e' => as_unreachable e'
  | _ => None
  end.

(** ** Outcomes and the state monad

    A call returns a value or an error, waits forever on input that has not
    come ([Block]), panics, or exceeds the fuel of a modelled loop ([NoFuel],
    which the termination theorems exclude). *)
Inductive res (A : Type) :=
  | Ok (a : A)
  | Err (e : error)
  | Block
  | Panic
  | NoFuel.
Arguments Ok {A} a.
Arguments Err {A} e.
Arguments Block {A}.
Arguments Panic {A}.
Arguments NoFuel {A}.

Definition M (S A : Type) : Type := S → res A * S.

Definition ret {S A} (a : A) : M S A := λ s, (Ok a, s).
Definition throw {S A} (e : error) : M S A := λ s, (Err e, s).
Definition panic {S A} : M S A := λ s, (Panic, s).
Definition out_of_fuel {S A} : M S A := λ s, (NoFuel, s).

Definition recast {A B} (r : res A) : res B :=
  match r with
  | Ok _ => Block
  | Err e => Err e
  | Block => Block
  | Panic => Panic
  | NoFuel => NoFuel
  end.

Definition bind {S A B} (m : M S A) (k : A → M S B) : M S B := λ s,
  match m s with
  | (Ok a, s') => k a s'
  | (r, s') => (recast r, s')
  end.

(** [try m] is the call whose error the caller inspects. *)
Definition try {S A} (m : M S A) : M S (A + error) := λ s,
  match m s with
  | (Ok a, s') => (Ok (inl a), s')
  | (Err e, s') => (Ok (inr e), s')
  | (r, s') => (recast r, s')
  end.

(** [_ = m]: the error is dropped. *)
Definition ignore {S A} (m : M S A) : M S unit := bind (try m) (λ _, ret ()).

Definition get_state {S} : M S S := λ s, (Ok s, s).
Definition gets {S A} (f : S → A) : M S A := λ s, (Ok (f s), s).
Definition modify {S} (f : S → S) : M S unit := λ s, (Ok (), f s).
Definition of_res {S A} (r : A + error) : M S A :=
  match r with inl a => ret a | inr e => throw e end.

(** Run a computation on a component of the state. *)
Definition zoom {S T A} (proj : S → T) (upd : T → S → S) (m : M T A) : M S A := λ s,
  let '(r, t) := m (proj s) in (r, upd t s).

Declare Scope go_scope.
Delimit Scope go_scope with go.
Notation "x <- m ;; k" := (bind m (λ x, k))
  (at level 100, m at next level, right associativity) : go_scope.
Notation "m ;;; k" := (bind m (λ _, k)) (at level 100, right associativity) : go_scope.
#[global] Open Scope go_scope.

(** [if cond { return err }] *)
Definition guard {S} (b : bool) (e : error) : M S unit := if b then throw e else ret ().

(** *** Laws of the monad *)
Lemma bind_ret_l {S A B} (a : A) (k : A → M S B) s : bind (ret a) k s = k a s.
Proof. done. Qed.

Lemma bind_assoc {S A B C} (m : M S A) (k : A → M S B) (h : B → M S C) s :
  bind (bind m k) h s = bind m (λ a, bind (k a) h) s.
Proof. unfold bind. by destruct (m s) as [[]]. Qed.

Lemma bind_Ok {S A B} (m : M S A) (k : A → M S B) s a s' :
  m s = (Ok a, s') → bind m k s = k a s'.
Proof. unfold bind. by intros ->. Qed.

Lemma bind_Err {S A B} (m : M S A) (k : A → M S B) s e s' :
  m s = (Err e, s') → bind m k s = (Err e, s').
Proof. unfold bind. by intros ->. Qed.

Lemma try_Ok {S A} (m : M S A) s a s' : m s = (Ok a, s') → try m s = (Ok (inl a), s').
Proof. unfold try. by intros ->. Qed.

Lemma try_Err {S A} (m : M S A) s e s' : m s = (Err e, s') → try m s = (Ok (inr e), s').
Proof. unfold try. by intros ->. Qed.

(** A call that returned a value went through its first half. *)
Lemma bind_inv {S A B} (m : M S A) (k : A → M S B) s r s' :
  bind m k s = (r, s') →
  (∃ a s1, m s = (Ok a, s1) ∧ k a s1 = (r, s')) ∨
  (∃ r0, m s = (r0, s') ∧ (∀ a, r0 ≠ Ok a) ∧ r = recast r0).
Proof.
  unfold bind. destruct (m s) as [[] s1] eqn:E; intros H; simplify_eq; eauto;
    right; eexists; split_and!; try done.
Qed.

Lemma bind_Ok_inv {S A B} (m : M S A) (k : A → M S B) s b s' :
  bind m k s = (Ok b, s') → ∃ a s1, m s = (Ok a, s1) ∧ k a s1 = (Ok b, s').
Proof.
  intros E. apply bind_inv in E as [(a & s1 & E1 & E2)|(r0 & _ & Hr & E)]; [eauto|].
  destruct r0; cbn in *; naive_solver.
Qed.

(** *** Computations that finish

    [runs P m]: from a state with [P], [m] comes back with a value or an error
    and [P] holds again; it neither waits, panics nor runs out of fuel. *)
Definition finished {A} (r : res A) : bool :=
  match r with Ok _ | Err _ => true | _ => false end.

Definition runs {S A} (P : S → Prop) (m : M S A) : Prop :=
  ∀ s, P s → finished (m s).1 = true ∧ P (m s).2.

Section runs.
Context {S : Type} (P : S → Prop).

Lemma runs_ret {A} (a : A) : runs P (ret a).
Proof. by intros s Hs. Qed.
Lemma runs_throw {A} e : runs P (throw (A:=A) e).
Proof. by intros s Hs. Qed.
Lemma runs_modify f : (∀ s, P s → P (f s)) → runs P (modify f).
Proof. intros H s Hs. split; [done|]. by apply H. Qed.
Lemma runs_get_state : runs P get_state.
Proof. by intros s Hs. Qed.
Lemma runs_gets {A} (f : S → A) : runs P (gets f).
Proof. by intros s Hs. Qed.
Lemma runs_bind {A B} (m : M S A) (k : A → M S B) :
  runs P m → (∀ a, runs P (k a)) → runs P (bind m k).
Proof.
  intros Hm Hk s Hs. unfold bind. destruct (Hm s Hs) as [H1 H2].
  destruct (m s) as [[] s1]; try done. by apply Hk.
Qed.
Lemma runs_try {A} (m : M S A) : runs P m → runs P (try m).
Proof.
  intros Hm s Hs. unfold try. destruct (Hm s Hs) as [H1 H2]. by destruct (m s) as [[] s1].
Qed.
Lemma runs_ignore {A} (m : M S A) : runs P m → runs P (ignore m).
Proof. intros. apply runs_bind; [by apply runs_try|]. intros _. apply runs_ret. Qed.
Lemma runs_guard b e : runs P (guard b e).
Proof. unfold guard. destruct b; [apply runs_throw|apply runs_ret]. Qed.
End runs.

Lemma runs_zoom {S T A} (P : S → Prop) (Q : T → Prop) proj upd (m : M T A) :
  runs Q m → (∀ s, P s → Q (proj s)) → (∀ s t, P s → Q t → P (upd t s)) →
  runs P (zoom proj upd m).
Proof.
  intros Hm Hp Hu s Hs. unfold zoom. destruct (Hm (proj s) (Hp s Hs)) as [H1 H2].
  destruct (m (proj s)) as [r t]. cbn in *. auto.
Qed.

Lemma finished_bind {S A B} (m : M S A) (k : A → M S B) s :
  finished (m s).1 = true → (∀ a s', finished (k a s').1 = true) → finished (bind m k s).1 = true.
Proof. intros Hm Hk. unfold bind. by destruct (m s) as [[] s1]. Qed.

(** What is ignored returns, when it ends at all. *)
Lemma ignore_returns {S A} P (m : M S A) s : runs P m → P s → ∃ s', ignore m s = (Ok (), s').
Proof.
  intros Hm Hs. destruct (Hm s Hs) as [Hf _]. unfold ignore, bind, try.
  destruct (m s) as [[] s']; try done; by eexists.
Qed.

Create HintDb runs.
#[export] Hint Resolve runs_ret runs_throw runs_get_state runs_gets runs_bind runs_try
  runs_ignore runs_guard : runs.

(** *** Results of the combinators *)
Lemma try_inv {S A} (m : M S A) s r s' :
  try m s = (r, s') → ∃ r0, m s = (r0, s') ∧
    match r0 with Ok a => r = Ok (inl a) | Err e => r = Ok (inr e) | _ => r = recast r0 end.
Proof. unfold try. destruct (m s) as [r0 s0] eqn:E. intros H. exists r0. by destruct r0; simplify_eq. Qed.

Lemma ignore_inv {S A} (m : M S A) s r s' : ignore m s = (r, s') → ∃ r0, m s = (r0, s').
Proof.
  unfold ignore. intros E. apply bind_inv in E as [(a & s1 & E1 & E2)|(r0 & E1 & _)].
  - injection E2 as <- <-. apply try_inv in E1 as (r0 & ? & _). eauto.
  - apply try_inv in E1 as (r1 & ? & _). eauto.
Qed.

Lemma zoom_inv {S T A} (proj : S → T) upd (m : M T A) s r s' :
  zoom proj upd m s = (r, s') → ∃ t, m (proj s) = (r, t) ∧ s' = upd t s.
Proof. unfold zoom. destruct (m (proj s)) as [r0 t]. intros. simplify_eq. eauto. Qed.

(** Dropping the error of a call that comes back. *)
Lemma ignore_Ok {S A} (P : S → Prop) (m : M S A) s :
  runs P m → P s → ∃ s', ignore m s = (Ok (), s').
Proof.
  intros Hm Hs. unfold ignore, bind, try. destruct (Hm s Hs) as [H _].
  destruct (m s) as [[] s1]; try done; by eexists.
Qed.

(** *** Computations that respect a preorder on states

    [keeps R m]: however [m] ends, the state after it is above the one
    before. *)
Definition keeps {S A} (R : S → S → Prop) (m : M S A) : Prop :=
  ∀ s r s', m s = (r, s') → R s s'.

Section keeps.
Context {S : Type} (R : S → S → Prop) `{!PreOrder R}.

Lemma keeps_ret {A} (a : A) : keeps R (ret a).
Proof. by intros s r s' [= <- <-]. Qed.
Lemma keeps_throw {A} e : keeps R (throw (A:=A) e).
Proof. by intros s r s' [= <- <-]. Qed.
Lemma keeps_out_of_fuel {A} : keeps R (out_of_fuel (A:=A)).
Proof. by intros s r s' [= <- <-]. Qed.
Lemma keeps_gets {A} (f : S → A) : keeps R (gets f).
Proof. by intros s r s' [= <- <-]. Qed.
Lemma keeps_get_state : keeps R get_state.
Proof. by intros s r s' [= <- <-]. Qed.
Lemma keeps_modify f : (∀ s, R s (f s)) → keeps R (modify f).
Proof. by intros H s r s' [= <- <-]. Qed.
Lemma keeps_guard b e : keeps R (guard b e).
Proof. unfold guard. destruct b; [apply keeps_throw|apply keeps_ret]. Qed.
Lemma keeps_bind {A B} (m : M S A) (k : A → M S B) :
  keeps R m → (∀ a, keeps R (k a)) → keeps R (bind m k).
Proof.
  intros Hm Hk s r s' E.
  apply bind_inv in E as [(a & s1 & E1 & E2)|(r0 & E1 & _)].
  - etransitivity; [by eapply Hm|by eapply Hk].
  - by eapply Hm.
Qed.
Lemma keeps_try {A} (m : M S A) : keeps R m → keeps R (try m).
Proof. intros Hm s r s' (r0 & E & _)%try_inv. by eapply Hm. Qed.
Lemma keeps_ignore {A} (m : M S A) : keeps R m → keeps R (ignore m).
Proof. intros Hm s r s' (r0 & E)%ignore_inv. by eapply Hm. Qed.
End keeps.

Lemma keeps_zoom {S T A} (R : S → S → Prop) (Q : T → T → Prop) proj upd (m : M T A) :
  keeps Q m → (∀ s t, Q (proj s) t → R s (upd t s)) → keeps R (zoom proj upd m).
Proof. intros Hm Hu s r s' (t & E & ->)%zoom_inv. apply Hu. by eapply Hm. Qed.

Create HintDb keeps.
#[export] Hint Resolve keeps_ret keeps_throw keeps_out_of_fuel keeps_gets keeps_get_state
  keeps_guard keeps_bind keeps_try keeps_ignore : keeps.

(** *** Triples

    [triple P m Q E]: from a state with [P], [m] either returns an [a] in a
    state with [Q a], or ends in some other way in a state with [E]. *)
Definition triple {S A} (P : S → Prop) (m : M S A) (Q : A → S → Prop) (E : S → Prop) : Prop :=
  ∀ s r s', P s → m s = (r, s') → match r with Ok a => Q a s' | _ => E s' end.

Lemma triple_bind {S A B} P (m : M S A) (k : A → M S B) Q R E :
  triple P m Q E → (∀ a, triple (Q a) (k a) R E) → triple P (bind m k) R E.
Proof.
  intros Hm Hk s r s' Hs Eq. apply bind_inv in Eq as [(a & s1 & E1 & E2)|(r0 & E1 & Hr & ->)].
  - eapply Hk; [|done]. by apply (Hm s (Ok a) s1).
  - pose proof (Hm _ _ _ Hs E1) as H. destruct r0; try done. by destruct (Hr a).
Qed.

Lemma triple_try {S A} P (m : M S A) Q E :
  triple P m Q E →
  triple P (try m) (λ r s, match r with inl a => Q a s | inr _ => E s end) E.
Proof.
  intros Hm s r s' Hs (r0 & E0 & H)%try_inv. pose proof (Hm _ _ _ Hs E0) as H'.
  by destruct r0; subst r.
Qed.

Lemma triple_ret {S A} (P E : S → Prop) (a : A) : triple P (ret a) (λ x s, x = a ∧ P s) E.
Proof. by intros s r s' Hs [= <- <-]. Qed.

Lemma triple_throw {S A} (P : S → Prop) e Q : triple P (throw (A:=A) e) Q P.
Proof. by intros s r s' Hs [= <- <-]. Qed.

Lemma triple_gets {S A} (P E : S → Prop) (f : S → A) :
  triple P (gets f) (λ x s, x = f s ∧ P s) E.
Proof. by intros s r s' Hs [= <- <-]. Qed.

Lemma triple_conseq {S A} (P P' : S → Prop) (m : M S A) Q Q' (E E' : S → Prop) :
  triple P' m Q' E' → (∀ s, P s → P' s) → (∀ a s, Q' a s → Q a s) → (∀ s, E' s → E s) →
  triple P m Q E.
Proof.
  intros Hm HP HQ HE s r s' Hs Eq. pose proof (Hm _ _ _ (HP _ Hs) Eq) as H.
  destruct r; auto.
Qed.

Lemma triple_pre {S A} (P P' : S → Prop) (m : M S A) Q (E : S → Prop) :
  triple P' m Q E → (∀ s, P s → P' s) → triple P m Q E.
Proof. intros Hm HP. eapply triple_conseq; [done|done|auto..]. Qed.

(** A computation above a preorder that [P] is closed under. *)
Lemma triple_keeps {S A} (R : S → S → Prop) (P : S → Prop) (m : M S A) :
  keeps R m → (∀ s s', P s → R s s' → P s') → triple P m (λ _, P) P.
Proof. intros Hm HP s r s' Hs Eq%Hm. destruct r; eauto. Qed.

(** What follows never returns a value, so only [E] is at stake. *)
Lemma triple_bind_throw {S A B} P (m : M S A) e (Q : B → S → Prop) :
  triple P m (λ _, P) P → triple P (bind m (λ _, throw e)) Q P.
Proof. intros Hm. eapply triple_bind; [done|]. intros a. apply triple_throw. Qed.

(** What follows a [throw] never returns. *)
Lemma bind_throw_not_Ok {S A B} (m : M S A) e s (r : res B) s' :
  bind m (λ _, throw e) s = (r, s') → ∀ b, r ≠ Ok b.
Proof.
  intros E b ->. apply bind_Ok_inv in E as (a & s1 & _ & E). done.
Qed.

(** *** What a returned value or an error satisfies

    [ensures m Q]: a value that [m] returns satisfies [Q]. [errs P E m]: from a
    state with [P], [m] leaves one with [P] and fails only with errors in [E]. *)
Definition ensures {S A} (m : M S A) (Q : A → Prop) : Prop := ∀ s a s', m s = (Ok a, s') → Q a.

Lemma ensures_any {S A} (m : M S A) : ensures m (λ _, True).
Proof. done. Qed.
Lemma ensures_ret {S A} (a : A) (Q : A → Prop) : Q a → ensures (S:=S) (ret a) Q.
Proof. by intros HQ s a' s' [= <- <-]. Qed.
Lemma ensures_throw {S A} e (Q : A → Prop) : ensures (S:=S) (throw e) Q.
Proof. done. Qed.
Lemma ensures_bind {S A B} (m : M S A) (k : A → M S B) Q R :
  ensures m Q → (∀ a, Q a → ensures (k a) R) → ensures (bind m k) R.
Proof. intros Hm Hk s b s' (a & s1 & E1 & E2)%bind_Ok_inv. eapply Hk; [by eapply Hm|exact E2]. Qed.
Lemma ensures_bind_any {S A B} (m : M S A) (k : A → M S B) R :
  (∀ a, ensures (k a) R) → ensures (bind m k) R.
Proof. intros Hk. apply ensures_bind with (Q := λ _, True); [done|]. auto. Qed.
Lemma ensures_try {S A} (m : M S A) (Q : A → Prop) :
  ensures m Q → ensures (try m) (λ r, match r with inl a => Q a | inr _ => True end).
Proof.
  intros Hm s a s' (r0 & E & Hr)%try_inv. destruct r0; simplify_eq; [by eapply Hm|done].
Qed.
Lemma ensures_zoom {S T A} proj upd (m : M T A) (Q : A → Prop) :
  ensures m Q → ensures (S:=S) (zoom proj upd m) Q.
Proof. intros Hm s a s' (t & E & _)%zoom_inv. by eapply Hm. Qed.

Definition errs {S A} (P : S → Prop) (E : error → Prop) (m : M S A) : Prop :=
  ∀ s r s', P s → m s = (r, s') → P s' ∧ ∀ e, r = Err e → E e.

Section errs.
Context {S : Type} (P : S → Prop) (E : error → Prop).

Lemma errs_ret {A} (a : A) : errs P E (ret a).
Proof. by intros s r s' Hs [= <- <-]. Qed.
Lemma errs_throw {A} e : E e → errs P E (throw (A:=A) e).
Proof. intros He s r s' Hs [= <- <-]. split; [done|]. by intros ? [= <-]. Qed.
Lemma errs_gets {A} (f : S → A) : errs P E (gets f).
Proof. by intros s r s' Hs [= <- <-]. Qed.
Lemma errs_get_state : errs P E get_state.
Proof. by intros s r s' Hs [= <- <-]. Qed.
Lemma errs_modify f : (∀ s, P s → P (f s)) → errs P E (modify f).
Proof. intros Hf s r s' Hs [= <- <-]. split; [by apply Hf|done]. Qed.
Lemma errs_bind {A B} (m : M S A) (k : A → M S B) :
  errs P E m → (∀ a, errs P E (k a)) → errs P E (bind m k).
Proof.
  intros Hm Hk s r s' Hs [(a & s1 & E1 & E2)|(r0 & E1 & Hr & ->)]%bind_inv.
  - eapply Hk; [by eapply Hm|exact E2].
  - destruct (Hm _ _ _ Hs E1) as [? He]. split; [done|]. intros e Hre. apply He. by destruct r0; simplify_eq/=.
Qed.
Lemma errs_try {A} (m : M S A) : errs P (λ _, True) m → errs P E (try m).
Proof.
  intros Hm s r s' Hs (r0 & E0 & Hr)%try_inv. split; [by eapply Hm|]. intros e ->. by destruct r0.
Qed.
Lemma errs_ignore {A} (m : M S A) : errs P (λ _, True) m → errs P E (ignore m).
Proof. intros Hm. apply errs_bind; [by apply errs_try|]. intros _. apply errs_ret. Qed.
Lemma errs_weaken {A} (E' : error → Prop) (m : M S A) :
  (∀ e, E' e → E e) → errs P E' m → errs P E m.
Proof. intros He Hm s r s' Hs E0. destruct (Hm _ _ _ Hs E0). eauto. Qed.
End errs.

Lemma errs_zoom {S T A} (P : S → Prop) (Q : T → Prop) E proj upd (m : M T A) :
  errs Q E m → (∀ s, P s → Q (proj s)) → (∀ s t, P s → Q t → P (upd t s)) → errs P E (zoom proj upd m).
Proof.
  intros Hm Hp Hu s r s' Hs (t & E0 & ->)%zoom_inv. destruct (Hm _ _ _ (Hp _ Hs) E0). eauto.
Qed.
Lemma errs_True {S A} (m : M S A) : errs (λ _, True) (λ _, True) m.
Proof. done. Qed.

Create HintDb errs.
#[export] Hint Resolve errs_ret errs_throw errs_gets errs_get_state errs_bind errs_try errs_ignore : errs.

(** ** net.Conn

    One side's view of a byte stream: the bytes that have arrived and were
    not read, how the stream ends after them ([None]: it stays open, and a
    read waits), the bytes written, and how many more writes the network
    takes before they fail ([None]: all of them). *)
Record conn := mkConn {
  c_in : bytes;
  c_end : option error;
  c_out : bytes;
  c_writes : option nat;
}.

Definition conn_of (input : bytes) : conn := mkConn input None [] None.
Definition conn_closed (input : bytes) : conn := mkConn input (Some EOF) [] None.

(** [w.Write(b)] *)
Definition conn_write (b : bytes) : M conn unit := λ c,
  match c_writes c with
  | Some O => (Err (Errno EPIPE), c)
  | Some (S n) => (Ok (), mkConn (c_in c) (c_end c) (c_out c ++ b) (Some n))
  | None => (Ok (), mkConn (c_in c) (c_end c) (c_out c ++ b) None)
  end.

Definition set_c_in (i : bytes) (c : conn) : conn := mkConn i (c_end c) (c_out c) (c_writes c).

(** [io.ReadFull] of [n] bytes: what arrived is consumed in any case; a
    stream that ends after some of them gives ErrUnexpectedEOF instead of
    EOF. *)
Definition read_full (n : nat) : M conn bytes := λ c,
  if decide (n ≤ length (c_in c))%nat
  then (Ok (take n (c_in c)), set_c_in (drop n (c_in c)) c)
  else
    match c_end c with
    | None => (Block, set_c_in [] c)
    | Some EOF =>
        (Err (if decide (c_in c = []) then EOF else ErrUnexpectedEOF), set_c_in [] c)
    | Some e => (Err e, set_c_in [] c)
    end.

Lemma read_full_app n b rest c :
  length b = n → c_in c = b ++ rest → read_full n c = (Ok b, set_c_in rest c).
Proof.
  intros Hn Hc. unfold read_full. rewrite Hc, length_app.
  rewrite decide_True by lia. by rewrite take_app_exact, drop_app_exact.
Qed.

Lemma set_c_in_id c : set_c_in (c_in c) c = c.
Proof. by destruct c. Qed.

(** The number of unread bytes never grows. *)
Lemma read_full_shrinks n c r c' :
  read_full n c = (r, c') → (length (c_in c') ≤ length (c_in c))%nat.
Proof.
  unfold read_full. intros H. repeat case_match; simplify_eq/=; rewrite ?length_drop; lia.
Qed.

Lemma read_full_ok n c b c' :
  read_full n c = (Ok b, c') →
  length b = n ∧ c_in c = b ++ c_in c' ∧ c_out c' = c_out c ∧ c_end c' = c_end c ∧
  c_writes c' = c_writes c.
Proof.
  unfold read_full. intros H. repeat case_match; simplify_eq/=.
  rewrite length_take, take_drop. split_and!; [lia|done..].
Qed.
