(* ===== verification/Qr.v ===== *)
(** * internal/pairing/pairing.go: the QR code on a terminal

    [qr.Encode] is a parameter: the modules of the code for a text. *)

From S2P Require Import Prelude GoStrings Go.
From Stdlib Require Import ZArith Lia String Ascii List Bool.
From stdpp Require Import base list strings gmap option numbers.

#[local] Open Scope string_scope.
#[local] Open Scope list_scope.
#[local] Open Scope nat_scope.

(** A [qr.Code]: its side and its black modules. *)
Record qr_code := mkQr { qr_Size : nat; qr_Black : nat → nat → bool }.

Definition quiet : nat := 2.
Definition qr_dim (c : qr_code) : nat := qr_Size c + quiet * 2.
(** The module at a position, with the quiet zone around the code. *)
Definition qr_at (c : qr_code) (x y : nat) : bool :=
  if (x <? quiet) || (y <? quiet) || (qr_Size c + quiet <=? x) || (qr_Size c + quiet <=? y)
  then false else qr_Black c (x - quiet) (y - quiet).

(** Block elements in UTF-8. *)
Definition block_rune (z : Z) : bytes := [Zbyte 226; Zbyte 150; Zbyte z].
Definition cell (top bot : bool) : bytes :=
  match top, bot with
  | true, true => block_rune 136
  | true, false => block_rune 128
  | false, true => block_rune 132
  | false, false => [" "%char]
  end.
Definition newline : ascii := "010".

Definition render_row (c : qr_code) (y : nat) : bytes :=
  concat (map (λ x, cell (qr_at c x y) ((y + 1 <? qr_dim c) && qr_at c x (y + 1))) (seq 0 (qr_dim c)))
  ++ [newline].
(** [for y := 0; y < dim; y += 2] *)
Definition render_rows (c : qr_code) : bytes :=
  concat (map (λ k, render_row c (2 * k)) (seq 0 ((qr_dim c + 1) / 2))).

Definition RenderTerminal (encode : string → qr_code + error) (uri : string) : string + error :=
  match encode uri with
  | inr e => inr e
  | inl c => inl (str (render_rows c))
  end.
(** RenderPNG: the library draws. *)
Definition RenderPNG (encode : string → qr_code + error) (png : qr_code → bytes) (uri : string) : bytes + error :=
  match encode uri with
  | inr e => inr e
  | inl c => inl (png c)
  end.

(** ** Reading the picture back

    What an eye (or a scanner) makes of the text: characters are cells of two
    modules, lines are pairs of rows. *)
Fixpoint read_cells (fuel : nat) (b : bytes) : option (list (bool * bool) * bytes) :=
  match fuel with
  | O => None
  | S fuel =>
      match b with
      | [] => None
      | a :: b' =>
          if Ascii.eqb a newline then Some ([], b')
          else
            let k cellv rest := '(l, r) ← read_cells fuel rest; Some (cellv :: l, r) in
            if bool_decide (take 3 b = block_rune 136) then k (true, true) (drop 3 b)
            else if bool_decide (take 3 b = block_rune 128) then k (true, false) (drop 3 b)
            else if bool_decide (take 3 b = block_rune 132) then k (false, true) (drop 3 b)
            else if Ascii.eqb a " " then k (false, false) b' else None
      end
  end.
Fixpoint read_lines (fuel : nat) (b : bytes) : option (list (list (bool * bool))) :=
  match fuel with
  | O => None
  | S fuel =>
      match b with
      | [] => Some []
      | _ => '(l, r) ← read_cells (S (length b)) b; ls ← read_lines fuel r; Some (l :: ls)
      end
  end.
Definition read_picture (s : string) : option (list (list (bool * bool))) :=
  read_lines (S (String.length s)) (bs s).
(** The module of a picture at (x, y). *)
Definition picture_at (p : list (list (bool * bool))) (x y : nat) : option bool :=
  row ← p !! (y / 2); c ← row !! x; Some (if Nat.even y then c.1 else c.2).

Lemma read_cells_cell fuel t b rest l r :
  read_cells fuel rest = Some (l, r) → read_cells (S fuel) (cell t b ++ rest) = Some ((t, b) :: l, r).
Proof.
  intros E. destruct t, b; [by apply (bind_Some _ (read_cells fuel rest)); eexists..|]. cbn [cell app read_cells].
  assert (∀ z, bool_decide (take 3 (" "%char :: rest) = block_rune z) = false) as H.
  { intros z. apply bool_decide_eq_false. by intros [=]. }
  rewrite !H. cbn. by rewrite E.
Qed.
Lemma read_cells_row cells rest fuel :
  length cells < fuel →
  read_cells fuel (concat (map (λ p, cell p.1 p.2) cells) ++ newline :: rest) = Some (cells, rest).
Proof.
  revert fuel. induction cells as [|[t b] cells IH]; intros fuel Hf.
  - destruct fuel; [cbn in Hf; lia|]. reflexivity.
  - destruct fuel; [cbn in Hf; lia|]. cbn [map concat fst snd]. rewrite <-app_assoc.
    apply read_cells_cell, IH. cbn in Hf. lia.
Qed.
Lemma read_lines_rows rows fuel :
  length rows < fuel →
  read_lines fuel (concat (map (λ cells, concat (map (λ p, cell p.1 p.2) cells) ++ [newline]) rows)) = Some rows.
Proof.
  revert fuel. induction rows as [|cells rows IH]; intros fuel Hf; (destruct fuel; [cbn in Hf; lia|]); [done|].
  cbn [map concat]. rewrite <-app_assoc. cbn [app]. cbn [read_lines].
  set (b := concat (map _ cells) ++ _).
  assert (length cells < S (length b)) as Hl.
  { subst b. rewrite length_app. clear. induction cells as [|[t v] cells IH]; cbn; [lia|].
    rewrite length_app. cbn in IH. destruct t, v; cbn; lia. }
  assert (read_cells (S (length b)) b = Some (cells, concat (map
    (λ cells, concat (map (λ p, cell p.1 p.2) cells) ++ [newline]) rows))) as E by by apply read_cells_row.
  destruct b as [|a b'] eqn:Eb; [by destruct cells|]. rewrite E. cbn [mbind option_bind].
  rewrite IH by (cbn in Hf; lia). reflexivity.
Qed.

(** The picture on the terminal is the code: read back, it has a module
    for every module of the QR code and of the quiet zone of two around it,
    black exactly where the code is black. *)
Theorem RenderTerminal_shows encode uri c :
  encode uri = inl c →
  ∃ art p, RenderTerminal encode uri = inl art ∧ read_picture art = Some p ∧
    ∀ x y, x < qr_dim c → y < qr_dim c → picture_at p x y = Some (qr_at c x y).
Proof.
  intros E. unfold RenderTerminal. rewrite E.
  set (row := λ k, map (λ x, (qr_at c x (2 * k), (2 * k + 1 <? qr_dim c) && qr_at c x (2 * k + 1))) (seq 0 (qr_dim c))).
  set (rows := map row (seq 0 ((qr_dim c + 1) / 2))).
  assert (render_rows c = concat (map (λ cells, concat (map (λ p, cell p.1 p.2) cells) ++ [newline]) rows)) as Er.
  { unfold render_rows, rows. rewrite map_map. f_equal. apply map_ext. intros k. unfold render_row, row.
    by rewrite map_map. }
  exists (str (render_rows c)), rows. split; [done|]. split.
  - unfold read_picture. rewrite bs_str. rewrite Er at 2. apply read_lines_rows.
    rewrite <-length_bs, bs_str, Er. clear. induction rows as [|r rows IH]; cbn; [lia|].
    rewrite !length_app. cbn. lia.
  - intros x y Hx Hy. unfold picture_at, rows.
    assert (y / 2 < (qr_dim c + 1) / 2) as Hk.
    { pose proof (Nat.div_mod_eq y 2). pose proof (Nat.div_mod_eq (qr_dim c + 1) 2).
      pose proof (Nat.mod_upper_bound y 2). pose proof (Nat.mod_upper_bound (qr_dim c + 1) 2). lia. }
    rewrite list_lookup_fmap, lookup_seq_lt by done. cbn [fmap option_fmap option_map mbind option_bind].
    unfold row. rewrite list_lookup_fmap, lookup_seq_lt by done.
    cbn [fmap option_fmap option_map mbind option_bind Nat.add fst snd]. f_equal.
    pose proof (Nat.div_mod_eq y 2) as Hd. rewrite <-Nat.bit0_mod, Nat.bit0_odd in Hd.
    rewrite <-Nat.negb_odd. destruct (Nat.odd y); cbn [negb Nat.b2n] in *.
    + replace (2 * (y / 2) + 1) with y by lia. apply Nat.ltb_lt in Hy as ->. done.
    + by replace (2 * (y / 2)) with y by lia.
Qed.

Definition demo_code : qr_code := mkQr 3 (λ x y, Nat.even (x + y)).
Lemma RenderTerminal_shows_witness :
  ∃ art p, RenderTerminal (λ _, inl demo_code) "adrop://pair" = inl art ∧ read_picture art = Some p ∧
    ∀ x y, x < qr_dim demo_code → y < qr_dim demo_code → picture_at p x y = Some (qr_at demo_code x y).
Proof. apply (RenderTerminal_shows (λ _, inl demo_code) "adrop://pair" demo_code). reflexivity. Defined.
