(* ===== verification/GoNet.v ===== *)
(** * net: host:port strings and IP addresses

    [SplitHostPort], [JoinHostPort] and [ParseIP] of the Go standard library,
    as the daemon uses them on addresses that come from a peer. *)

From S2P Require Import Prelude GoStrings Go.
From Stdlib Require Import ZArith Lia String Ascii List Bool.
From stdpp Require Import base list strings gmap option numbers.

#[local] Open Scope string_scope.
#[local] Open Scope list_scope.
#[local] Open Scope Z_scope.

(** ** Positions of a byte *)
Fixpoint index_byte (c : ascii) (s : bytes) : option nat :=
  match s with
  | [] => None
  | a :: s' => if Ascii.eqb a c then Some O else S <$> index_byte c s'
  end.
Fixpoint last_index_byte (c : ascii) (s : bytes) : option nat :=
  match s with
  | [] => None
  | a :: s' =>
      match last_index_byte c s' with
      | Some i => Some (S i)
      | None => if Ascii.eqb a c then Some O else None
      end
  end.

Lemma index_byte_None c s : index_byte c s = None ↔ c ∉ s.
Proof.
  induction s as [|a s IH]; cbn [index_byte].
  { split; [intros _; apply not_elem_of_nil|done]. }
  rewrite not_elem_of_cons. destruct (Ascii.eqb_spec a c) as [->|Hne]; [naive_solver|].
  rewrite fmap_None. naive_solver.
Qed.

Lemma last_index_None c s : c ∉ s → last_index_byte c s = None.
Proof.
  induction s as [|a s IH]; [done|]. rewrite not_elem_of_cons. intros [Hne Hs]. cbn [last_index_byte].
  rewrite IH by done. by destruct (Ascii.eqb_spec a c) as [->|].
Qed.

Lemma last_index_app c a b : c ∉ b → last_index_byte c (a ++ c :: b) = Some (length a).
Proof.
  intros Hb. induction a as [|x a IH]; cbn [app last_index_byte length].
  - by rewrite last_index_None, Ascii.eqb_refl.
  - by rewrite IH.
Qed.

Lemma index_byte_app c a b : c ∉ a → index_byte c (a ++ c :: b) = Some (length a).
Proof.
  induction a as [|x a IH]; cbn [app index_byte length]; [by rewrite Ascii.eqb_refl|].
  rewrite not_elem_of_cons. intros [Hne Ha]. rewrite IH by done.
  by destruct (Ascii.eqb_spec x c) as [->|].
Qed.

(** ** host:port *)

Definition addr_error (addr why : string) : error :=
  Errorf ("address " +:+ addr +:+ ": " +:+ why).
Definition has_byte (c : ascii) (s : bytes) : bool := existsb (Ascii.eqb c) s.

(** The tail of the two cases: no bracket where none may be. *)
Definition finish_split (hostport : string) (s host : bytes) (i j k : nat)
  : (string * string) + error :=
  if has_byte "[" (drop j s) then inr (addr_error hostport "unexpected '[' in address")
  else if has_byte "]" (drop k s) then inr (addr_error hostport "unexpected ']' in address")
  else inl (str host, str (drop (S i) s)).

(** The host between brackets: the first closing one just before the last
    colon. *)
Definition split_bracket (hostport : string) (s : bytes) (i : nat) : (string * string) + error :=
  match index_byte "]" s with
  | None => inr (addr_error hostport "missing ']' in address")
  | Some e =>
      if (S e =? length s)%nat then inr (addr_error hostport "missing port in address")
      else if (S e =? i)%nat then finish_split hostport s (take (e - 1) (drop 1 s)) i 1 (S e)
      else if bool_decide (s !! S e = Some ":"%char)
      then inr (addr_error hostport "too many colons in address")
      else inr (addr_error hostport "missing port in address")
  end.

Definition SplitHostPort (hostport : string) : (string * string) + error :=
  let s := bs hostport in
  match last_index_byte ":" s with
  | None => inr (addr_error hostport "missing port in address")
  | Some i =>
      if bool_decide (s !! O = Some "["%char) then split_bracket hostport s i
      else if has_byte ":" (take i s) then inr (addr_error hostport "too many colons in address")
      else finish_split hostport s (take i s) i 0 0
  end.

Definition JoinHostPort (host port : string) : string :=
  if contains_byte host ":" then "[" +:+ host +:+ "]:" +:+ port else host +:+ ":" +:+ port.

Lemma has_byte_false c s : has_byte c s = false ↔ c ∉ s.
Proof.
  unfold has_byte. rewrite <-not_true_iff_false, existsb_exists.
  split; intros H Hc; apply H.
  - exists c. split; [by apply list_elem_of_In|apply Ascii.eqb_refl].
  - destruct Hc as (x & Hx & ->%Ascii.eqb_eq). by apply list_elem_of_In.
Qed.

(** Text that has a meaning inside an address. *)
Definition host_text (s : string) : Prop := no_byte "[" s ∧ no_byte "]" s.
Definition port_text (s : string) : Prop := no_byte ":" s ∧ no_byte "[" s ∧ no_byte "]" s.

Lemma finish_split_ok hp s host i j k :
  "["%char ∉ drop j s → "]"%char ∉ drop k s →
  finish_split hp s host i j k = inl (str host, str (drop (S i) s)).
Proof. intros H1%has_byte_false H2%has_byte_false. unfold finish_split. by rewrite H1, H2. Qed.

(** Splitting undoes joining. *)
Lemma Split_Join host port :
  host_text host → port_text port → SplitHostPort (JoinHostPort host port) = inl (host, port).
Proof.
  unfold host_text, port_text, no_byte. intros [Hh1 Hh2] (Hp0 & Hp1 & Hp2).
  unfold JoinHostPort. destruct (contains_byte host ":") eqn:Ec.
  - unfold SplitHostPort.
    assert (bs ("[" +:+ host +:+ "]:" +:+ port) =
      ("["%char :: bs host ++ ["]"%char]) ++ ":"%char :: bs port) as ->.
    { rewrite !bs_app. cbn. by rewrite <-app_assoc. }
    rewrite last_index_app by done. cbv zeta. rewrite bool_decide_eq_true_2 by done.
    unfold split_bracket.
    replace (("["%char :: bs host ++ ["]"%char]) ++ ":"%char :: bs port)
      with (("["%char :: bs host) ++ "]"%char :: ":"%char :: bs port)
      by (cbn; by rewrite <-app_assoc).
    rewrite index_byte_app by (rewrite elem_of_cons; naive_solver).
    cbn [length app]. rewrite !length_app. cbn [length].
    rewrite (proj2 (Nat.eqb_neq _ _)), (proj2 (Nat.eqb_eq _ _)) by lia.
    rewrite finish_split_ok; cbn [drop].
    + replace (S (length (bs host)) - 1)%nat with (length (bs host)) by lia.
      rewrite drop_0, take_app_exact by done.
      replace (bs host ++ "]"%char :: ":"%char :: bs port)
        with ((bs host ++ ["]"%char; ":"%char]) ++ bs port) by (by rewrite <-app_assoc).
      rewrite drop_app_exact by (rewrite length_app; cbn; lia). by rewrite !str_bs.
    + rewrite drop_0, elem_of_app, !elem_of_cons. naive_solver.
    + rewrite drop_app_ge by lia. replace (S (length (bs host)) - length (bs host))%nat with 1%nat by lia.
      cbn [drop]. rewrite elem_of_cons. naive_solver.
  - apply no_byte_test in Ec. unfold no_byte in Ec. unfold SplitHostPort.
    assert (bs (host +:+ ":" +:+ port) = bs host ++ ":"%char :: bs port) as -> by by rewrite !bs_app.
    rewrite last_index_app by done. cbv zeta. rewrite bool_decide_eq_false_2.
    2: { destruct (bs host); cbn; [done|]. rewrite elem_of_cons in Hh1. naive_solver. }
    rewrite take_app_exact by done. rewrite (proj2 (has_byte_false _ _)) by done.
    rewrite finish_split_ok; [|rewrite drop_0, elem_of_app, elem_of_cons; naive_solver..].
    replace (bs host ++ ":"%char :: bs port) with ((bs host ++ [":"%char]) ++ bs port)
      by (by rewrite <-app_assoc).
    rewrite drop_app_exact by (rewrite length_app; cbn; lia). by rewrite !str_bs.
Qed.

(** ** IP addresses

    [net.ParseIP]: the 16 bytes of the address, IPv4 in the mapped form. *)
Definition ip := list Z.

Definition v4_field (s : string) : option Z :=
  match bs s with
  | [] => None
  | a :: rest =>
      if forallb is_digit (a :: rest) then
        if Ascii.eqb a "0" && negb (bool_decide (rest = [])) then None
        else
          let v := digits_val 0 (a :: rest) in
          if v <=? 255 then Some v else None
      else None
  end.
Definition v4_fields (s : string) : option (list Z) :=
  l ← mapM v4_field (split_on "." s);
  if (length l =? 4)%nat then Some l else None.
Definition v4_mapped (l : list Z) : ip := repeat 0 10 ++ [255; 255] ++ l.

(** The hexadecimal digits at the front of [s] and their value; [None] when
    there are none or more than four. *)
Fixpoint hex_group (n : nat) (acc : Z) (s : bytes) : option (Z * bytes) :=
  match s with
  | a :: s' =>
      match hex_val a with
      | Some d => match n with O => None | S n' => hex_group n' (16 * acc + d) s' end
      | None => Some (acc, s)
      end
  | [] => Some (acc, [])
  end.
Definition hex_group16 (s : bytes) : option (Z * bytes) :=
  match hex_group 4 0 s with
  | Some (v, rest) => if (length rest =? length s)%nat then None else Some (v, rest)
  | None => None
  end.

(** The loop of parseIPv6: the bytes so far, where the ellipsis was. The
    result is the bytes, the ellipsis and what is left of the string. *)
Fixpoint v6_groups (fuel : nat) (ellipsis : option nat) (out : list Z) (s : bytes)
  : option (list Z * option nat * bytes) :=
  match fuel with
  | O => Some (out, ellipsis, s)
  | S fuel =>
      if (16 <=? length out)%nat then Some (out, ellipsis, s)
      else
        '(v, rest) ← hex_group16 s;
        match rest with
        | "."%char :: _ =>
            if bool_decide (ellipsis = None) && negb (length out =? 12)%nat then None
            else if (16 <? length out + 4)%nat then None
            else l ← v4_fields (str s); Some (out ++ l, ellipsis, [])
        | _ =>
            let out := out ++ [v / 256; v mod 256] in
            match rest with
            | [] => Some (out, ellipsis, [])
            | [":"%char] => None
            | ":"%char :: ":"%char :: rest' =>
                if bool_decide (ellipsis = None) then
                  if bool_decide (rest' = []) then Some (out, Some (length out), [])
                  else v6_groups fuel (Some (length out)) out rest'
                else None
            | ":"%char :: rest' => v6_groups fuel ellipsis out rest'
            | _ => None
            end
        end
  end.

(** An address with a zone is no [net.IP]. Eight groups are the most. *)
Definition parse_v6 (s : string) : option ip :=
  if contains_byte s "%" then None
  else
    let b := bs s in
    let start := bool_decide (take 2 b = bs "::") in
    let b := if start then drop 2 b else b in
    if start && bool_decide (b = []) then Some (repeat 0 16)
    else
      '(out, ellipsis, rest) ← v6_groups 9 (if start then Some O else None) [] b;
      if negb (bool_decide (rest = [])) then None
      else
        match ellipsis with
        | None => if (length out =? 16)%nat then Some out else None
        | Some e =>
            if (length out <? 16)%nat
            then Some (take e out ++ repeat 0 (16 - length out) ++ drop e out)
            else None
        end.

(** Which family: the first of these three bytes decides. *)
Fixpoint ip_kind (s : bytes) : option ascii :=
  match s with
  | [] => None
  | a :: s' => if existsb (Ascii.eqb a) (bs ".:%") then Some a else ip_kind s'
  end.
Definition ParseIP (s : string) : option ip :=
  match ip_kind (bs s) with
  | Some "."%char => v4_mapped <$> v4_fields s
  | Some ":"%char => parse_v6 s
  | _ => None
  end.

Definition ip_to4 (a : ip) : option (list Z) :=
  if bool_decide (take 12 a = repeat 0 10 ++ [255; 255]) then Some (drop 12 a) else None.
Definition IsLoopback (a : ip) : bool :=
  match ip_to4 a with
  | Some l => bool_decide (l !! O = Some 127)
  | None => bool_decide (a = repeat 0 15 ++ [1])
  end.
Definition IsUnspecified (a : ip) : bool :=
  bool_decide (a = v4_mapped [0; 0; 0; 0]) || bool_decide (a = repeat 0 16).

Example parse_v4 : ParseIP "192.168.1.5" = Some (v4_mapped [192; 168; 1; 5]).
Proof. by vm_compute. Qed.
Example parse_v4_zero : ParseIP "192.168.01.5" = None.
Proof. by vm_compute. Qed.
Example parse_loopback6 : (IsLoopback <$> ParseIP "::1") = Some true.
Proof. by vm_compute. Qed.
Example parse_link_local : ParseIP "fe80::1:2" = Some ([254; 128] ++ repeat 0 10 ++ [0; 1; 0; 2]).
Proof. by vm_compute. Qed.
Example parse_mapped : (IsLoopback <$> ParseIP "::ffff:127.0.0.1") = Some true.
Proof. by vm_compute. Qed.
