(* ===== verification/Sha256.v ===== *)
(** * crypto/sha256

    FIPS 180-4 SHA-256 on byte lists, executable, with words as integers
    below 2^32. [sha256.Sum256] of the program is [sha256]; a [hash.Hash] that
    is written piece by piece is modelled by the bytes written so far. *)

From S2P Require Import Prelude.
From Stdlib Require Import ZArith Lia String Ascii List Bool.
From stdpp Require Import base list strings numbers.

#[local] Open Scope Z_scope.

Definition w32 (z : Z) : Z := z mod 2 ^ 32.
Definition add32 (x y : Z) : Z := w32 (x + y).
Definition rotr (n x : Z) : Z := Z.lor (Z.shiftr x n) (w32 (Z.shiftl x (32 - n))).
Definition not32 (x : Z) : Z := Z.lxor x (2 ^ 32 - 1).

Definition Ch (x y z : Z) : Z := Z.lxor (Z.land x y) (Z.land (not32 x) z).
Definition Maj (x y z : Z) : Z := Z.lxor (Z.lxor (Z.land x y) (Z.land x z)) (Z.land y z).
Definition Sigma0 (x : Z) : Z := Z.lxor (Z.lxor (rotr 2 x) (rotr 13 x)) (rotr 22 x).
Definition Sigma1 (x : Z) : Z := Z.lxor (Z.lxor (rotr 6 x) (rotr 11 x)) (rotr 25 x).
Definition sigma0 (x : Z) : Z := Z.lxor (Z.lxor (rotr 7 x) (rotr 18 x)) (Z.shiftr x 3).
Definition sigma1 (x : Z) : Z := Z.lxor (Z.lxor (rotr 17 x) (rotr 19 x)) (Z.shiftr x 10).

Definition K256 : list Z :=
  [1116352408; 1899447441; 3049323471; 3921009573; 961987163; 1508970993; 2453635748; 2870763221;
   3624381080; 310598401; 607225278; 1426881987; 1925078388; 2162078206; 2614888103; 3248222580;
   3835390401; 4022224774; 264347078; 604807628; 770255983; 1249150122; 1555081692; 1996064986;
   2554220882; 2821834349; 2952996808; 3210313671; 3336571891; 3584528711; 113926993; 338241895;
   666307205; 773529912; 1294757372; 1396182291; 1695183700; 1986661051; 2177026350; 2456956037;
   2730485921; 2820302411; 3259730800; 3345764771; 3516065817; 3600352804; 4094571909; 275423344;
   430227734; 506948616; 659060556; 883997877; 958139571; 1322822218; 1537002063; 1747873779;
   1955562222; 2024104815; 2227730452; 2361852424; 2428436474; 2756734187; 3204031479; 3329325298].

Record hstate := H8 { ha : Z; hb : Z; hc : Z; hd : Z; he : Z; hf : Z; hg : Z; hh : Z }.

Definition H_init : hstate :=
  H8 1779033703 3144134277 1013904242 2773480762 1359893119 2600822924 528734635 1541459225.

Definition be_word (b : bytes) : Z := fold_left (λ acc a, acc * 256 + byteZ a) b 0.

Fixpoint be_words (n : nat) (b : bytes) : list Z :=
  match n with
  | O => []
  | S n' => be_word (take 4 b) :: be_words n' (drop 4 b)
  end.

(** The message schedule; [w] holds the last 16 words, newest first. *)
Fixpoint schedule (n : nat) (w : list Z) (acc : list Z) : list Z :=
  match n with
  | O => rev acc
  | S n' =>
      let x := add32 (add32 (sigma1 (nth 1 w 0)) (nth 6 w 0))
                     (add32 (sigma0 (nth 14 w 0)) (nth 15 w 0)) in
      schedule n' (x :: take 15 w) (x :: acc)
  end.

Definition round (s : hstate) (kw : Z * Z) : hstate :=
  let t1 := add32 (add32 (add32 (hh s) (Sigma1 (he s))) (Ch (he s) (hf s) (hg s)))
                  (add32 (fst kw) (snd kw)) in
  let t2 := add32 (Sigma0 (ha s)) (Maj (ha s) (hb s) (hc s)) in
  H8 (add32 t1 t2) (ha s) (hb s) (hc s) (add32 (hd s) t1) (he s) (hf s) (hg s).

Definition compress (s : hstate) (block : bytes) : hstate :=
  let w := be_words 16 block in
  let ws := w ++ schedule 48 (rev w) [] in
  let r := fold_left round (combine K256 ws) s in
  H8 (add32 (ha s) (ha r)) (add32 (hb s) (hb r)) (add32 (hc s) (hc r)) (add32 (hd s) (hd r))
     (add32 (he s) (he r)) (add32 (hf s) (hf r)) (add32 (hg s) (hg r)) (add32 (hh s) (hh r)).

Fixpoint compress_all (n : nat) (s : hstate) (b : bytes) : hstate :=
  match n with
  | O => s
  | S n' => compress_all n' (compress s (take 64 b)) (drop 64 b)
  end.

(** [binary.BigEndian]: the [n] low-order bytes, most significant first. *)
Fixpoint be_bytes (n : nat) (z : Z) : bytes :=
  match n with
  | O => []
  | S n' => Zbyte (Z.shiftr z (8 * Z.of_nat n')) :: be_bytes n' z
  end.

Definition pad (b : bytes) : bytes :=
  let n := Z.of_nat (length b) in
  b ++ [Zbyte 128] ++ repeat (Zbyte 0) (Z.to_nat ((55 - n) mod 64)) ++ be_bytes 8 (8 * n).

Definition sha256 (b : bytes) : bytes :=
  let p := pad b in
  let s := compress_all (length p / 64) H_init p in
  flat_map (be_bytes 4) [ha s; hb s; hc s; hd s; he s; hf s; hg s; hh s].

Lemma be_bytes_length n z : length (be_bytes n z) = n.
Proof. induction n; simpl; congruence. Qed.

Lemma sha256_length b : length (sha256 b) = 32%nat.
Proof. unfold sha256. cbn [flat_map]. by rewrite !length_app, !be_bytes_length. Qed.

(** Big-endian integers: reading back what was written. *)
Lemma be_word_bytes_acc n z acc :
  fold_left (λ acc a, acc * 256 + byteZ a) (be_bytes n z) acc =
  acc * 2 ^ (8 * Z.of_nat n) + z mod 2 ^ (8 * Z.of_nat n).
Proof.
  revert acc. induction n as [|n IH]; intros acc.
  { simpl. rewrite Z.mod_1_r. lia. }
  cbn [be_bytes fold_left]. rewrite IH, byteZ_Zbyte.
  rewrite Z.shiftr_div_pow2 by lia.
  replace (8 * Z.of_nat (S n)) with (8 * Z.of_nat n + 8) by lia.
  rewrite Z.pow_add_r by lia. change (2 ^ 8) with 256.
  set (P := 2 ^ (8 * Z.of_nat n)). assert (0 < P) by (apply Z.pow_pos_nonneg; lia).
  rewrite Z.rem_mul_r by lia. lia.
Qed.

Lemma be_word_bytes n z : 0 ≤ z < 2 ^ (8 * Z.of_nat n) → be_word (be_bytes n z) = z.
Proof. intros. unfold be_word. rewrite be_word_bytes_acc, Z.mod_small by done. lia. Qed.

Lemma be_word_range b : 0 ≤ be_word b < 2 ^ (8 * Z.of_nat (length b)).
Proof.
  unfold be_word. induction b as [|a b IH] using rev_ind; [done|].
  rewrite fold_left_app, length_app. cbn [fold_left length].
  pose proof (byteZ_range a).
  replace (8 * Z.of_nat (length b + 1)) with (8 * Z.of_nat (length b) + 8) by lia.
  rewrite Z.pow_add_r by lia. lia.
Qed.
