(* ===== verification/Json.v ===== *)
(** * encoding/json: the text layer

    JSON values, Go's compact encoder ([json.Marshal], HTML escaping on) and
    the decoder's grammar, on bytes. Strings are arbitrary byte strings: like
    Go, both directions replace every byte that is not part of valid UTF-8 by
    U+FFFD. [parse_print] is the round trip. *)

From S2P Require Import Prelude GoStrings.
From Stdlib Require Import ZArith Lia String Ascii List Bool.
From stdpp Require Import base list strings gmap option numbers.

#[local] Open Scope Z_scope.

(** ** UTF-8 *)

Definition in_range (lo hi : Z) (a : ascii) : bool := (lo <=? byteZ a) && (byteZ a <=? hi).
Definition is_cont (a : ascii) : bool := in_range 128 191 a.

(** The allowed second bytes of three- and four-byte sequences. *)
Definition second3 (a b : ascii) : bool :=
  if byteZ a =? 224 then in_range 160 191 b
  else if byteZ a =? 237 then in_range 128 159 b
  else is_cont b.
Definition second4 (a b : ascii) : bool :=
  if byteZ a =? 240 then in_range 144 191 b
  else if byteZ a =? 244 then in_range 128 143 b
  else is_cont b.

(** [utf8.DecodeRune]: the length of the valid sequence at the head, 0 when
    the first byte starts none (Go's RuneError of width 1). *)
Definition rune_len (s : bytes) : nat :=
  match s with
  | [] => 0%nat
  | a :: s1 =>
      if byteZ a <? 128 then 1%nat
      else if in_range 194 223 a then
        match s1 with
        | b :: _ => if is_cont b then 2%nat else 0%nat
        | _ => 0%nat
        end
      else if in_range 224 239 a then
        match s1 with
        | b :: c :: _ => if second3 a b && is_cont c then 3%nat else 0%nat
        | _ => 0%nat
        end
      else if in_range 240 244 a then
        match s1 with
        | b :: c :: d :: _ => if second4 a b && is_cont c && is_cont d then 4%nat else 0%nat
        | _ => 0%nat
        end
      else 0%nat
  end.

(** The valid sequences of a string in order; [None] stands for a bad byte. *)
Fixpoint runes_fuel (fuel : nat) (s : bytes) : list (option bytes) :=
  match fuel, s with
  | S fuel', a :: s' =>
      match rune_len s with
      | O => None :: runes_fuel fuel' s'
      | n => Some (take n s) :: runes_fuel fuel' (drop n s)
      end
  | _, _ => []
  end.
Definition runes (s : bytes) : list (option bytes) := runes_fuel (length s) s.

Definition replacement : bytes := [Zbyte 239; Zbyte 191; Zbyte 189].
Definition rune_bytes (r : option bytes) : bytes := default replacement r.

(** [strings.ToValidUTF8(s, "\uFFFD")], one replacement per bad byte. *)
Definition to_valid_bytes (s : bytes) : bytes := flat_map rune_bytes (runes s).
Definition to_valid (s : string) : string := str (to_valid_bytes (bs s)).

Definition utf8_encode (r : Z) : bytes :=
  if r <? 128 then [Zbyte r]
  else if r <? 2048 then [Zbyte (192 + r / 64); Zbyte (128 + r mod 64)]
  else if (55296 <=? r) && (r <=? 57343) then replacement
  else if r <? 65536 then
    [Zbyte (224 + r / 4096); Zbyte (128 + r / 64 mod 64); Zbyte (128 + r mod 64)]
  else [Zbyte (240 + r / 262144); Zbyte (128 + r / 4096 mod 64);
        Zbyte (128 + r / 64 mod 64); Zbyte (128 + r mod 64)].

(** ** Values *)

Inductive json :=
  | JNull
  | JBool (b : bool)
  | JNum (lit : bytes)
  | JStr (s : string)
  | JArr (l : list json)
  | JObj (l : list (string * json)).

Definition JInt (z : Z) : json := JNum (itoa_bytes z).

(** ** Encoding *)

Definition dq : ascii := "034".
Definition backslash : ascii := "092".
Definition lf : ascii := "010".

Definition u4 (n : Z) : bytes :=
  backslash :: "u"%char :: map (λ k, hex_digit (n / 16 ^ k mod 16)) [3; 2; 1; 0].

Definition quote_rune (r : option bytes) : bytes :=
  match r with
  | None => u4 65533
  | Some [a] =>
      let n := byteZ a in
      if Ascii.eqb a dq || Ascii.eqb a backslash then [backslash; a]
      else if n =? 8 then [backslash; "b"%char]
      else if n =? 12 then [backslash; "f"%char]
      else if n =? 10 then [backslash; "n"%char]
      else if n =? 13 then [backslash; "r"%char]
      else if n =? 9 then [backslash; "t"%char]
      else if (n <? 32) || (n =? 60) || (n =? 62) || (n =? 38) then u4 n
      else [a]
  | Some r =>
      if bool_decide (map byteZ r = [226; 128; 168]) then u4 8232
      else if bool_decide (map byteZ r = [226; 128; 169]) then u4 8233
      else r
  end.

Definition json_quote (s : string) : bytes :=
  [dq] ++ flat_map quote_rune (runes (bs s)) ++ [dq].

Fixpoint sep_by (sep : bytes) (l : list bytes) : bytes :=
  match l with
  | [] => []
  | [x] => x
  | x :: l' => x ++ sep ++ sep_by sep l'
  end.

(** The printer is shared by [json.Marshal] and [json.MarshalIndent]: [nl d]
    is what separates elements at depth [d] and [colon] what follows the colon
    of a member. *)
Section layout.
Context (nl : nat → bytes) (colon : bytes).

Fixpoint print_at (d : nat) (v : json) : bytes :=
  match v with
  | JNull => bs "null"
  | JBool true => bs "true"
  | JBool false => bs "false"
  | JNum lit => lit
  | JStr s => json_quote s
  | JArr [] => ["["%char; "]"%char]
  | JArr l =>
      "["%char :: nl (S d) ++ sep_by (","%char :: nl (S d)) (map (print_at (S d)) l) ++ nl d ++ ["]"%char]
  | JObj [] => ["{"%char; "}"%char]
  | JObj l =>
      "{"%char :: nl (S d) ++
      sep_by (","%char :: nl (S d))
        (map (λ kv, match kv with
                    | (k, x) => json_quote k ++ ":"%char :: colon ++ print_at (S d) x
                    end) l)
      ++ nl d ++ ["}"%char]
  end.
End layout.

(** [json.Marshal] *)
Definition print (v : json) : bytes := print_at (λ _, []) [] 0 v.

(** [json.MarshalIndent(v, "", "  ")] *)
Definition print_indent (v : json) : bytes :=
  print_at (λ d, lf :: repeat " "%char (2 * d)) [" "%char] 0 v.

(** ** Decoding *)

Definition is_ws (a : ascii) : bool :=
  let n := byteZ a in (n =? 32) || (n =? 9) || (n =? 10) || (n =? 13).

Fixpoint skip_ws (s : bytes) : bytes :=
  match s with
  | a :: s' => if is_ws a then skip_ws s' else s
  | [] => []
  end.

Definition hex4 (s : bytes) : option (Z * bytes) :=
  match s with
  | a :: b :: c :: d :: s' =>
      match hex_val a, hex_val b, hex_val c, hex_val d with
      | Some w, Some x, Some y, Some z => Some (w * 4096 + x * 256 + y * 16 + z, s')
      | _, _, _, _ => None
      end
  | _ => None
  end.

(** A [\u] escape after its [u]: the text it stands for and what follows. A
    high surrogate combines with a low one right after it; a lone surrogate
    is U+FFFD. *)
Definition unescape_u (s : bytes) : option (bytes * bytes) :=
  match hex4 s with
  | None => None
  | Some (n, s') =>
      if (55296 <=? n) && (n <=? 57343) then
        match s' with
        | b1 :: b2 :: s2 =>
            if Ascii.eqb b1 backslash && Ascii.eqb b2 "u" then
              match hex4 s2 with
              | Some (m, s3) =>
                  if (n <=? 56319) && (56320 <=? m) && (m <=? 57343)
                  then Some (utf8_encode (65536 + (n - 55296) * 1024 + (m - 56320)), s3)
                  else Some (replacement, s')
              | None => Some (replacement, s')
              end
            else Some (replacement, s')
        | _ => Some (replacement, s')
        end
      else Some (utf8_encode n, s')
  end.

(** The text of a string after its opening json_quote, and what follows the
    closing one. *)
Fixpoint parse_str (fuel : nat) (s : bytes) : option (bytes * bytes) :=
  match fuel with
  | O => None
  | S fuel' =>
      let continue (out rest : bytes) :=
        match parse_str fuel' rest with
        | Some (b, r) => Some (out ++ b, r)
        | None => None
        end in
      match s with
      | [] => None
      | a :: s' =>
          if Ascii.eqb a dq then Some ([], s')
          else if Ascii.eqb a backslash then
            match s' with
            | [] => None
            | e :: r =>
                if Ascii.eqb e dq || Ascii.eqb e backslash || Ascii.eqb e "/" then continue [e] r
                else if Ascii.eqb e "b" then continue [Zbyte 8] r
                else if Ascii.eqb e "f" then continue [Zbyte 12] r
                else if Ascii.eqb e "n" then continue [Zbyte 10] r
                else if Ascii.eqb e "r" then continue [Zbyte 13] r
                else if Ascii.eqb e "t" then continue [Zbyte 9] r
                else if Ascii.eqb e "u" then
                  match unescape_u r with
                  | Some (out, r') => continue out r'
                  | None => None
                  end
                else None
            end
          else if byteZ a <? 32 then None
          else
            match rune_len s with
            | O => continue replacement s'
            | n => continue (take n s) (drop n s)
            end
      end
  end.

Fixpoint span_digits (s : bytes) : bytes * bytes :=
  match s with
  | a :: s' => if is_digit a then let '(d, r) := span_digits s' in (a :: d, r) else ([], s)
  | [] => ([], [])
  end.

(** The number grammar: the literal and what follows it. *)
Definition scan_exp (s : bytes) : option (bytes * bytes) :=
  match s with
  | e :: r =>
      if Ascii.eqb e "e" || Ascii.eqb e "E" then
        let '(sign, r1) :=
          match r with
          | g :: r' => if Ascii.eqb g "+" || Ascii.eqb g "-" then ([g], r') else ([], r)
          | [] => ([], r)
          end in
        match span_digits r1 with
        | ([], _) => None
        | (d, r2) => Some ([e] ++ sign ++ d, r2)
        end
      else Some ([], s)
  | [] => Some ([], s)
  end.
Definition scan_frac (s : bytes) : option (bytes * bytes) :=
  match s with
  | e :: r =>
      if Ascii.eqb e "." then
        match span_digits r with
        | ([], _) => None
        | (d, r2) => Some (e :: d, r2)
        end
      else Some ([], s)
  | [] => Some ([], s)
  end.
Definition scan_number (s : bytes) : option (bytes * bytes) :=
  let '(sign, s1) :=
    match s with
    | a :: r => if Ascii.eqb a "-" then ([a], r) else ([], s)
    | [] => ([], s)
    end in
  let ip :=
    match s1 with
    | a :: r =>
        if Ascii.eqb a "0" then Some ([a], r)
        else if is_digit a then Some (span_digits s1)
        else None
    | [] => None
    end in
  match ip with
  | None => None
  | Some (int, s2) =>
      match scan_frac s2 with
      | None => None
      | Some (frac, s3) =>
          match scan_exp s3 with
          | None => None
          | Some (ex, s4) => Some (sign ++ int ++ frac ++ ex, s4)
          end
      end
  end.

Definition eat (lit : string) (v : json) (s : bytes) : option (json * bytes) :=
  if bool_decide (take (String.length lit) s = bs lit)
  then Some (v, drop (String.length lit) s) else None.

(** Values, array elements and object members; each call spends one unit of
    fuel and a value of [n] bytes needs at most [n]. *)
Fixpoint parse_val (fuel : nat) (s : bytes) : option (json * bytes) :=
  match fuel with
  | O => None
  | S f =>
      match skip_ws s with
      | [] => None
      | a :: r =>
          if Ascii.eqb a "{" then
            match skip_ws r with
            | b :: r' => if Ascii.eqb b "}" then Some (JObj [], r')
                         else match parse_members f (b :: r') with
                              | Some (l, r2) => Some (JObj l, r2)
                              | None => None
                              end
            | [] => None
            end
          else if Ascii.eqb a "[" then
            match skip_ws r with
            | b :: r' => if Ascii.eqb b "]" then Some (JArr [], r')
                         else match parse_elems f (b :: r') with
                              | Some (l, r2) => Some (JArr l, r2)
                              | None => None
                              end
            | [] => None
            end
          else if Ascii.eqb a dq then
            match parse_str f r with
            | Some (b, r') => Some (JStr (str b), r')
            | None => None
            end
          else if Ascii.eqb a "t" then eat "true" (JBool true) (a :: r)
          else if Ascii.eqb a "f" then eat "false" (JBool false) (a :: r)
          else if Ascii.eqb a "n" then eat "null" JNull (a :: r)
          else match scan_number (a :: r) with
               | Some (lit, r') => Some (JNum lit, r')
               | None => None
               end
      end
  end
with parse_elems (fuel : nat) (s : bytes) : option (list json * bytes) :=
  match fuel with
  | O => None
  | S f =>
      match parse_val f s with
      | None => None
      | Some (v, r) =>
          match skip_ws r with
          | b :: r' =>
              if Ascii.eqb b "]" then Some ([v], r')
              else if Ascii.eqb b "," then
                match parse_elems f r' with
                | Some (l, r2) => Some (v :: l, r2)
                | None => None
                end
              else None
          | [] => None
          end
      end
  end
with parse_members (fuel : nat) (s : bytes) : option (list (string * json) * bytes) :=
  match fuel with
  | O => None
  | S f =>
      match skip_ws s with
      | q :: r =>
          if Ascii.eqb q dq then
            match parse_str f r with
            | None => None
            | Some (k, r1) =>
                match skip_ws r1 with
                | c :: r2 =>
                    if Ascii.eqb c ":" then
                      match parse_val f r2 with
                      | None => None
                      | Some (v, r3) =>
                          match skip_ws r3 with
                          | b :: r' =>
                              if Ascii.eqb b "}" then Some ([(str k, v)], r')
                              else if Ascii.eqb b "," then
                                match parse_members f r' with
                                | Some (l, r4) => Some ((str k, v) :: l, r4)
                                | None => None
                                end
                              else None
                          | [] => None
                          end
                      end
                    else None
                | [] => None
                end
            end
          else None
      | [] => None
      end
  end.

(** One whole document: [json.Unmarshal]'s syntax check. *)
Definition parse (s : bytes) : option json :=
  match parse_val (S (length s)) s with
  | Some (v, r) => if bool_decide (skip_ws r = []) then Some v else None
  | None => None
  end.

(** ** The round trip *)

(** *** Runes *)

Definition rune_ok (r : bytes) : Prop := r ≠ [] ∧ rune_len r = length r.
Definition rune_wf (r : option bytes) : Prop :=
  match r with Some x => rune_ok x | None => True end.

(** Split every test of [rune_len] applied to a list of known shape. *)
Ltac rune_cases :=
  simpl in *; repeat (match goal with
  | H : context [if ?b then _ else _] |- _ => destruct b eqn:?
  | |- context [if ?b then _ else _] => destruct b eqn:?
  end; simpl in *; try done).

Lemma rune_len_take s : rune_len s ≠ 0%nat → rune_ok (take (rune_len s) s).
Proof.
  unfold rune_ok. intros H.
  destruct s as [|a [|b [|c [|d s]]]]; rune_cases; (split; [done|]); rune_cases; done.
Qed.

Lemma rune_len_app r tl : rune_ok r → rune_len (r ++ tl) = length r.
Proof.
  unfold rune_ok, rune_len. intros [Hne H].
  destruct r as [|a [|b [|c [|d [|e r]]]]]; simpl in *; try done;
    repeat (case_match; simpl in *; simplify_eq; try done).
Qed.

Lemma rune_len_le s : (rune_len s ≤ length s)%nat.
Proof. unfold rune_len. repeat case_match; simpl; lia. Qed.

Lemma runes_wf s : Forall rune_wf (runes s).
Proof.
  unfold runes. generalize (length s) as n. intros n. revert s.
  induction n as [|n IH]; intros s; [constructor|]. cbn [runes_fuel].
  destruct s as [|a s]; [constructor|].
  destruct (rune_len (a :: s)) as [|k] eqn:E.
  - by constructor.
  - constructor; [|done]. rewrite <-E. apply rune_len_take. by rewrite E.
Qed.

(** A valid rune is one ASCII byte, or starts with a byte that is none. *)
Lemma rune_ok_inv r :
  rune_ok r →
  (∃ a, r = [a] ∧ byteZ a < 128) ∨
  (∃ a b l, r = a :: b :: l ∧ 128 ≤ byteZ a).
Proof.
  unfold rune_ok, rune_len. intros [Hne H].
  destruct r as [|a [|b l]]; [done| |].
  - left. exists a. split; [done|]. case_match; [lia|].
    repeat (case_match; try done).
  - right. exists a, b, l. split; [done|]. case_match; [done|]. lia.
Qed.

Definition prepend (out : bytes) (r : option (bytes * bytes)) : option (bytes * bytes) :=
  match r with Some (b, q) => Some (out ++ b, q) | None => None end.

Lemma parse_str_ascii f a tl :
  byteZ a < 128 →
  parse_str (S f) (quote_rune (Some [a]) ++ tl) = prepend [a] (parse_str f tl).
Proof.
  intros H. destruct a as [[] [] [] [] [] [] [] []];
    first [exfalso; vm_compute in H; discriminate H | reflexivity].
Qed.

Lemma byteZ_big a : 128 ≤ byteZ a →
  Ascii.eqb a dq = false ∧ Ascii.eqb a backslash = false ∧ (byteZ a <? 32) = false.
Proof.
  intros H. split_and!; [| |lia];
    (apply Ascii.eqb_neq; intros ->; vm_compute in H; by apply H).
Qed.

Lemma parse_str_multi f a b l tl :
  rune_ok (a :: b :: l) → 128 ≤ byteZ a →
  parse_str (S f) ((a :: b :: l) ++ tl) = prepend (a :: b :: l) (parse_str f tl).
Proof.
  intros Hok Ha. pose proof (rune_len_app _ tl Hok) as Hl.
  destruct (byteZ_big _ Ha) as (E1 & E2 & E3).
  change ((a :: b :: l) ++ tl) with (a :: (b :: l) ++ tl) in *.
  cbn [parse_str]. rewrite E1, E2, E3, Hl. cbn [length].
  change (a :: (b :: l) ++ tl) with ((a :: b :: l) ++ tl).
  rewrite take_app_exact, drop_app_exact by done. done.
Qed.

Lemma quote_rune_multi a b l :
  quote_rune (Some (a :: b :: l)) =
  if bool_decide (map byteZ (a :: b :: l) = [226; 128; 168]) then u4 8232
  else if bool_decide (map byteZ (a :: b :: l) = [226; 128; 169]) then u4 8233
  else a :: b :: l.
Proof. done. Qed.

Lemma map_byteZ_inj l k : map byteZ l = map byteZ k → l = k.
Proof.
  revert k. induction l as [|a l IH]; intros [|b k] H; simplify_eq/=; [done|].
  f_equal; [by apply byteZ_inj|auto].
Qed.

Lemma parse_str_rune f r tl :
  rune_wf r →
  parse_str (S f) (quote_rune r ++ tl) = prepend (rune_bytes r) (parse_str f tl).
Proof.
  destruct r as [r|]; [|reflexivity]. intros Hok. cbn in Hok.
  destruct (rune_ok_inv r Hok) as [(a & -> & Ha)|(a & b & l & -> & Ha)].
  - by apply parse_str_ascii.
  - rewrite quote_rune_multi. case_bool_decide as E1; [|case_bool_decide as E2].
    + change [226; 128; 168] with (map byteZ [Zbyte 226; Zbyte 128; Zbyte 168]) in E1.
      apply map_byteZ_inj in E1. rewrite E1. reflexivity.
    + change [226; 128; 169] with (map byteZ [Zbyte 226; Zbyte 128; Zbyte 169]) in E2.
      apply map_byteZ_inj in E2. rewrite E2. reflexivity.
    + by apply parse_str_multi.
Qed.

Lemma parse_str_runes rs fuel rest :
  Forall rune_wf rs → (length rs < fuel)%nat →
  parse_str fuel (flat_map quote_rune rs ++ dq :: rest) =
  Some (flat_map rune_bytes rs, rest).
Proof.
  intros Hwf. revert fuel. induction Hwf as [|r rs Hr _ IH]; intros [|fuel] Hf;
    cbn [length] in Hf; try lia; [reflexivity|].
  cbn [flat_map]. rewrite <-!app_assoc, parse_str_rune by done.
  rewrite IH by lia. done.
Qed.

Lemma quote_rune_nonempty r : rune_wf r → (1 ≤ length (quote_rune r))%nat.
Proof.
  destruct r as [[|a [|b l]]|]; cbn [rune_wf]; intros H.
  - by destruct H.
  - cbn [quote_rune]. repeat case_match; simpl; lia.
  - rewrite quote_rune_multi. repeat case_match; simpl; lia.
  - simpl. lia.
Qed.

Lemma quote_length rs :
  Forall rune_wf rs → (length rs ≤ length (flat_map quote_rune rs))%nat.
Proof.
  induction 1 as [|r rs Hr _ IH]; [done|]. cbn [flat_map length].
  rewrite length_app. pose proof (quote_rune_nonempty _ Hr). lia.
Qed.

Lemma parse_str_quote s fuel rest :
  (length (json_quote s) ≤ S fuel)%nat →
  parse_str fuel (flat_map quote_rune (runes (bs s)) ++ dq :: rest) =
  Some (to_valid_bytes (bs s), rest).
Proof.
  intros H. unfold json_quote in H. rewrite !length_app in H. cbn in H.
  pose proof (quote_length _ (runes_wf (bs s))).
  apply parse_str_runes; [apply runes_wf|lia].
Qed.

(** *** Numbers *)

Definition num_stop (rest : bytes) : bool :=
  match rest with
  | [] => true
  | a :: _ => negb (is_digit a || Ascii.eqb a "." || Ascii.eqb a "e" || Ascii.eqb a "E")
  end.

Lemma span_digits_all d rest :
  forallb is_digit d = true → num_stop rest = true → span_digits (d ++ rest) = (d, rest).
Proof.
  intros Hd Hr. induction d as [|a d IH].
  - destruct rest as [|a rest]; [done|]. cbn in *. destruct (is_digit a); done.
  - cbn in *. apply andb_true_iff in Hd as [-> Hd]. by rewrite IH.
Qed.

Lemma scan_tail rest :
  num_stop rest = true → scan_frac rest = Some ([], rest) ∧ scan_exp rest = Some ([], rest).
Proof.
  destruct rest as [|a rest]; [done|]. unfold num_stop, scan_frac, scan_exp.
  rewrite negb_true_iff, !orb_false_iff. intros [[[_ ->] ->] ->]. done.
Qed.

Lemma dec_digits_head fuel n acc :
  0 < n < 2 ^ Z.of_nat fuel →
  ∃ a l, dec_digits fuel n acc = a :: l ∧ is_digit a = true ∧ a ≠ "0"%char.
Proof.
  revert n acc. induction fuel as [|fuel IH]; intros n acc H; [cbn in H; lia|].
  cbn [dec_digits]. destruct (Z.ltb_spec n 10).
  - eexists _, _. split; [done|]. split; [apply is_digit_Zbyte|].
    rewrite Z.mod_small by lia. intros E. apply (f_equal byteZ) in E.
    rewrite byteZ_digit in E by lia. change (byteZ "0") with 48 in E. lia.
  - apply IH. rewrite Nat2Z.inj_succ, Z.pow_succ_r in H by lia.
    pose proof (Z.div_mod n 10 ltac:(lia)). pose proof (Z.mod_pos_bound n 10 ltac:(lia)). lia.
Qed.

Lemma scan_dec n rest :
  0 ≤ n → num_stop rest = true →
  (∃ a l, dec_bytes n = a :: l ∧ is_digit a = true ∧
     (if Ascii.eqb a "0" then Some ([a], l ++ rest)
      else if is_digit a then Some (span_digits (dec_bytes n ++ rest)) else None)
     = Some (dec_bytes n, rest)).
Proof.
  intros Hn Hr. destruct (decide (n = 0)) as [->|Hne].
  { exists "0"%char, []. done. }
  destruct (dec_digits_head (S (Z.to_nat (Z.log2 n))) n []) as (a & l & E & Hd & H0).
  { rewrite Nat2Z.inj_succ, Z2Nat.id by apply Z.log2_nonneg. pose proof (Z.log2_spec n ltac:(lia)). lia. }
  exists a, l. unfold dec_bytes at 1. split; [done|]. split; [done|].
  apply Ascii.eqb_neq in H0. rewrite H0, Hd, span_digits_all; [done| |done].
  by apply dec_digits_digit.
Qed.

Lemma scan_number_itoa z rest :
  num_stop rest = true → scan_number (itoa_bytes z ++ rest) = Some (itoa_bytes z, rest).
Proof.
  intros Hr. destruct (scan_tail _ Hr) as [Hf He]. unfold itoa_bytes.
  destruct (Z.ltb_spec z 0) as [Hz|Hz].
  - destruct (scan_dec (- z) rest ltac:(lia) Hr) as (a & l & E & _ & Hs).
    unfold scan_number. rewrite <-app_comm_cons, Ascii.eqb_refl.
    rewrite E in Hs |- *. rewrite <-app_comm_cons in Hs |- *.
    rewrite Hs, Hf, He. by rewrite !app_nil_r.
  - destruct (scan_dec z rest Hz Hr) as (a & l & E & Hd & Hs).
    unfold scan_number. rewrite E in Hs |- *. rewrite <-app_comm_cons in Hs |- *.
    apply digit_not_sign in Hd as [Hm _]. apply Ascii.eqb_neq in Hm.
    rewrite Hm, Hs, Hf, He. by rewrite !app_nil_r.
Qed.

(** *** Values *)

(** The induction principle that reaches inside arrays and objects. *)
Section json_induction.
Context (P : json → Prop).
Context (HNull : P JNull) (HBool : ∀ b, P (JBool b)) (HNum : ∀ l, P (JNum l))
        (HStr : ∀ s, P (JStr s))
        (HArr : ∀ l, Forall P l → P (JArr l))
        (HObj : ∀ l, Forall (λ kv, P kv.2) l → P (JObj l)).
Fixpoint json_nested_ind (v : json) : P v :=
  match v with
  | JNull => HNull
  | JBool b => HBool b
  | JNum l => HNum l
  | JStr s => HStr s
  | JArr l => HArr l
      ((fix go l : Forall P l :=
          match l with
          | [] => Forall_nil_2 P
          | x :: l' => Forall_cons_2 P x l' (json_nested_ind x) (go l')
          end) l)
  | JObj l => HObj l
      ((fix go l : Forall (λ kv, P kv.2) l :=
          match l with
          | [] => Forall_nil_2 _
          | (k, x) :: l' =>
              Forall_cons_2 (λ kv, P kv.2) (k, x) l' (json_nested_ind x) (go l')
          end) l)
  end.
End json_induction.

(** The values the program encodes: every number is a printed integer. *)
Inductive json_wf : json → Prop :=
  | wf_null : json_wf JNull
  | wf_bool b : json_wf (JBool b)
  | wf_int z : json_wf (JInt z)
  | wf_str s : json_wf (JStr s)
  | wf_arr l : Forall json_wf l → json_wf (JArr l)
  | wf_obj l : Forall (λ kv, json_wf kv.2) l → json_wf (JObj l).
#[export] Hint Constructors json_wf : adrop.

(** What decoding gives back: every string with its bad bytes replaced. *)
Fixpoint norm (v : json) : json :=
  match v with
  | JStr s => JStr (to_valid s)
  | JArr l => JArr (map norm l)
  | JObj l => JObj (map (λ kv, match kv with (k, x) => (to_valid k, norm x) end) l)
  | v => v
  end.

Definition norm_member (kv : string * json) : string * json :=
  match kv with (k, x) => (to_valid k, norm x) end.

Definition ok_head (s : bytes) : Prop :=
  ∃ a l, s = a :: l ∧ is_ws a = false ∧ Ascii.eqb a "]" = false ∧ Ascii.eqb a "}" = false.

Lemma itoa_head z :
  ∃ a l, itoa_bytes z = a :: l ∧ (a = "-"%char ∨ is_digit a = true).
Proof.
  unfold itoa_bytes. destruct (z <? 0); [eauto|].
  destruct (dec_bytes_cons z) as (a & l & -> & Hd). eauto.
Qed.

(** The bytes that can start a number start nothing else. *)
Lemma num_head a :
  a = "-"%char ∨ is_digit a = true →
  is_ws a = false ∧ Ascii.eqb a "]" = false ∧ Ascii.eqb a "}" = false ∧
  Ascii.eqb a "{" = false ∧ Ascii.eqb a "[" = false ∧ Ascii.eqb a dq = false ∧
  Ascii.eqb a "t" = false ∧ Ascii.eqb a "f" = false ∧ Ascii.eqb a "n" = false.
Proof.
  intros [->|H]; [done|].
  destruct a as [[] [] [] [] [] [] [] []];
    first [exfalso; vm_compute in H; discriminate H | done].
Qed.

Lemma quote_head s rest : ∃ l, json_quote s ++ rest = dq :: l ∧
  l = flat_map quote_rune (runes (bs s)) ++ dq :: rest.
Proof. eexists. unfold json_quote. split; [|reflexivity]. by rewrite <-!app_assoc. Qed.

Lemma ok_head_skip s rest : ok_head s → skip_ws (s ++ rest) = s ++ rest.
Proof. intros (a & l & -> & H & _). simpl. by rewrite H. Qed.

Lemma skip_ws_app w s : forallb is_ws w = true → skip_ws (w ++ s) = skip_ws s.
Proof.
  induction w as [|a w IH]; [done|]. cbn [forallb app skip_ws].
  intros [-> H]%andb_true_iff. by apply IH.
Qed.

Lemma ws_stop w rest : forallb is_ws w = true → num_stop rest = true → num_stop (w ++ rest) = true.
Proof.
  destruct w as [|a w]; [done|]. cbn [forallb app num_stop]. intros [H _]%andb_true_iff _.
  unfold is_ws in H. rewrite !orb_true_iff, !Z.eqb_eq in H.
  assert (∀ b, byteZ a = byteZ b → a = b) as Hb by (intros b; apply byteZ_inj).
  destruct H as [[[H|H]|H]|H];
    [rewrite (Hb " "%char H)|rewrite (Hb "009"%char H)|rewrite (Hb "010"%char H)|
     rewrite (Hb "013"%char H)]; done.
Qed.

(** *** The round trip, for every layout of whitespace *)
Section layout_roundtrip.
Context (nl : nat → bytes) (colon : bytes).
Context (Hnl : ∀ d, forallb is_ws (nl d) = true) (Hcolon : forallb is_ws colon = true).

Let pr := print_at nl colon.

Definition print_member (d : nat) (kv : string * json) : bytes :=
  match kv with (k, x) => json_quote k ++ ":"%char :: colon ++ print_at nl colon d x end.

Lemma print_head d v : json_wf v → ok_head (pr d v).
Proof.
  destruct 1 as [|[]|z|s|[|v l] _|[|m l] _]; unfold ok_head, pr; cbn [print_at JInt];
    try by (eexists _, _; split_and!; reflexivity).
  destruct (itoa_head z) as (a & l & -> & H). apply num_head in H as (?&?&?&_). eauto 8.
Qed.

Definition parses (d : nat) (v : json) : Prop :=
  ∀ fuel rest, (length (pr d v) ≤ fuel)%nat → num_stop rest = true →
    parse_val fuel (pr d v ++ rest) = Some (norm v, rest).

Lemma parse_val_ws fuel w s :
  forallb is_ws w = true → parse_val fuel (w ++ s) = parse_val fuel s.
Proof. intros H. destruct fuel; [done|]. cbn [parse_val]. by rewrite skip_ws_app. Qed.
Lemma parse_elems_ws fuel w s :
  forallb is_ws w = true → parse_elems fuel (w ++ s) = parse_elems fuel s.
Proof. intros H. destruct fuel; [done|]. cbn [parse_elems]. by rewrite parse_val_ws. Qed.
Lemma parse_members_ws fuel w s :
  forallb is_ws w = true → parse_members fuel (w ++ s) = parse_members fuel s.
Proof. intros H. destruct fuel; [done|]. cbn [parse_members]. by rewrite skip_ws_app. Qed.

Lemma parses_head d v : json_wf v → (1 ≤ length (pr d v))%nat.
Proof. intros H. destruct (print_head d v H) as (a & l & -> & _). simpl. lia. Qed.

Lemma parse_elems_print d sep w v l fuel rest :
  forallb is_ws sep = true → forallb is_ws w = true →
  Forall (λ x, json_wf x ∧ parses d x) (v :: l) →
  (length (sep_by (","%char :: sep) (map (pr d) (v :: l))) < fuel)%nat →
  parse_elems fuel (sep_by (","%char :: sep) (map (pr d) (v :: l)) ++ w ++ "]"%char :: rest) =
  Some (map norm (v :: l), rest).
Proof.
  intros Hs Hw' Hl. revert v Hl fuel.
  induction l as [|u l IH]; intros v Hl [|fuel] Hf; try lia;
    apply Forall_cons_1 in Hl as [[Hw Hp] Hl].
  - cbn [map sep_by] in *. cbn [parse_elems].
    rewrite Hp; [|lia|by apply ws_stop]. by rewrite skip_ws_app.
  - change (sep_by (","%char :: sep) (map (pr d) (v :: u :: l)))
      with (pr d v ++ (","%char :: sep) ++ sep_by (","%char :: sep) (map (pr d) (u :: l))) in *.
    rewrite !length_app in Hf. cbn [length] in Hf.
    rewrite <-!app_assoc. cbn [parse_elems]. rewrite Hp by (done || lia).
    cbn [app skip_ws is_ws]. change (is_ws ",") with false. cbn [Ascii.eqb].
    rewrite parse_elems_ws by done. rewrite IH by (done || lia). done.
Qed.

Lemma parse_member_step d k v f tl :
  parses d v → num_stop tl = true → (length (print_member d (k, v)) < S f)%nat →
  parse_members (S f) (print_member d (k, v) ++ tl) =
  match skip_ws tl with
  | b :: r' =>
      if Ascii.eqb b "}" then Some ([norm_member (k, v)], r')
      else if Ascii.eqb b "," then
        match parse_members f r' with
        | Some (l, r4) => Some (norm_member (k, v) :: l, r4)
        | None => None
        end
      else None
  | [] => None
  end.
Proof.
  intros Hp Hs Hf. unfold print_member in *. rewrite length_app in Hf. cbn [length] in Hf.
  rewrite length_app in Hf. fold (pr d v) in *.
  rewrite <-app_assoc. destruct (quote_head k ((":"%char :: colon ++ pr d v) ++ tl)) as (q & -> & ->).
  cbn [parse_members skip_ws]. change (is_ws dq) with false. cbn match.
  rewrite Ascii.eqb_refl, parse_str_quote by lia. cbn [app skip_ws].
  change (is_ws ":") with false. cbn match. rewrite Ascii.eqb_refl, <-app_assoc, parse_val_ws by done.
  rewrite Hp by (done || lia). done.
Qed.

Lemma parse_members_print d sep w m l fuel rest :
  forallb is_ws sep = true → forallb is_ws w = true →
  Forall (λ x, json_wf x.2 ∧ parses d x.2) (m :: l) →
  (length (sep_by (","%char :: sep) (map (print_member d) (m :: l))) < fuel)%nat →
  parse_members fuel
    (sep_by (","%char :: sep) (map (print_member d) (m :: l)) ++ w ++ "}"%char :: rest) =
  Some (map norm_member (m :: l), rest).
Proof.
  intros Hs Hw' Hl. revert m Hl fuel.
  induction l as [|[k' v'] l IH]; intros [k v] Hl [|fuel] Hf; try lia;
    apply Forall_cons_1 in Hl as [[Hw Hp] Hl].
  - cbn [map sep_by] in *. rewrite parse_member_step; [|done|by apply ws_stop|done].
    by rewrite skip_ws_app.
  - change (sep_by (","%char :: sep) (map (print_member d) ((k, v) :: (k', v') :: l)))
      with (print_member d (k, v) ++ (","%char :: sep) ++
            sep_by (","%char :: sep) (map (print_member d) ((k', v') :: l))) in *.
    rewrite !length_app in Hf. cbn [length] in Hf.
    rewrite <-!app_assoc, parse_member_step by (done || lia). cbn [app skip_ws].
    change (is_ws ",") with false. cbn match.
    change (Ascii.eqb "," "}") with false. change (Ascii.eqb "," ",") with true. cbn match.
    rewrite parse_members_ws by done. rewrite IH by (done || lia). done.
Qed.

Lemma parse_num z fuel rest :
  num_stop rest = true →
  parse_val (S fuel) (itoa_bytes z ++ rest) = Some (JInt z, rest).
Proof.
  intros Hs. pose proof (scan_number_itoa z rest Hs) as Hn.
  destruct (itoa_head z) as (a & l & E & H).
  destruct (num_head a H) as (E1 & E2 & E3 & E4 & E5 & E6 & E7 & E8 & E9).
  unfold JInt. rewrite E in Hn |- *. rewrite <-app_comm_cons in Hn |- *.
  cbn [parse_val skip_ws]. rewrite E1, E4, E5, E6, E7, E8, E9, Hn. done.
Qed.

Lemma sep_by_head sep x l rest : ok_head x → ∃ b s,
  sep_by sep (x :: l) ++ rest = b :: s ∧ is_ws b = false ∧
  Ascii.eqb b "]" = false ∧ Ascii.eqb b "}" = false.
Proof. intros (a & k & -> & ?). destruct l; simpl; eauto. Qed.

Lemma print_member_head d m : ok_head (print_member d m).
Proof. destruct m as [k v]. unfold ok_head. cbn. eauto 8. Qed.

Lemma parse_arr d l fuel rest :
  Forall (λ x, json_wf x ∧ parses (S d) x) l →
  (length (pr d (JArr l)) ≤ fuel)%nat →
  parse_val fuel (pr d (JArr l) ++ rest) = Some (norm (JArr l), rest).
Proof.
  intros Hl Hf. destruct fuel as [|fuel]; [destruct l; cbn in Hf; lia|].
  destruct l as [|v l]; [done|].
  change (pr d (JArr (v :: l))) with ("["%char :: nl (S d) ++
    sep_by (","%char :: nl (S d)) (map (pr (S d)) (v :: l)) ++ nl d ++ ["]"%char]) in *.
  cbn [length] in Hf. rewrite !length_app in Hf. cbn [length] in Hf.
  rewrite <-app_comm_cons, <-!app_assoc.
  pose proof (Forall_inv Hl) as [Hw _].
  destruct (sep_by_head (","%char :: nl (S d)) (pr (S d) v) (map (pr (S d)) l)
    (nl d ++ ["]"%char] ++ rest) (print_head (S d) v Hw)) as (b & s & E & E1 & E2 & _).
  cbn [parse_val skip_ws]. change (is_ws "[") with false. cbn match.
  change (Ascii.eqb "[" "{") with false. change (Ascii.eqb "[" "[") with true. cbn match.
  rewrite skip_ws_app by done.
  cbn [map]. rewrite E. cbn [skip_ws]. rewrite E1, E2, <-E. cbn [app].
  rewrite (parse_elems_print (S d) (nl (S d)) (nl d) v l) by (done || lia). done.
Qed.

Lemma parse_obj d l fuel rest :
  Forall (λ x, json_wf x.2 ∧ parses (S d) x.2) l →
  (length (pr d (JObj l)) ≤ fuel)%nat →
  parse_val fuel (pr d (JObj l) ++ rest) = Some (norm (JObj l), rest).
Proof.
  intros Hl Hf. destruct fuel as [|fuel]; [destruct l; cbn in Hf; lia|].
  destruct l as [|m l]; [done|].
  change (pr d (JObj (m :: l))) with ("{"%char :: nl (S d) ++
    sep_by (","%char :: nl (S d)) (map (print_member (S d)) (m :: l)) ++ nl d ++ ["}"%char]) in *.
  cbn [length] in Hf. rewrite !length_app in Hf. cbn [length] in Hf.
  rewrite <-app_comm_cons, <-!app_assoc.
  destruct (sep_by_head (","%char :: nl (S d)) (print_member (S d) m) (map (print_member (S d)) l)
    (nl d ++ ["}"%char] ++ rest) (print_member_head (S d) m)) as (b & s & E & E1 & _ & E2).
  cbn [parse_val skip_ws]. change (is_ws "{") with false. cbn match.
  change (Ascii.eqb "{" "{") with true. cbn match. rewrite skip_ws_app by done.
  cbn [map]. rewrite E. cbn [skip_ws]. rewrite E1, E2, <-E. cbn [app].
  rewrite (parse_members_print (S d) (nl (S d)) (nl d) m l) by (done || lia). done.
Qed.

Lemma print_parses v : json_wf v → ∀ d, parses d v.
Proof.
  induction v as [|b|lit|s|l IH|l IH] using json_nested_ind; intros Hwf d fuel rest Hf Hs.
  - destruct fuel; [cbn in Hf; lia|]. reflexivity.
  - destruct fuel; [destruct b; cbn in Hf; lia|]. by destruct b.
  - inversion Hwf as [| |z| | |]; subst. pose proof (parses_head d _ Hwf).
    destruct fuel; [lia|]. by apply parse_num.
  - destruct fuel; [cbn in Hf; lia|].
    change (pr d (JStr s)) with (json_quote s) in *. destruct (quote_head s rest) as (q & -> & ->).
    cbn [parse_val skip_ws]. change (is_ws dq) with false. cbn match.
    change (Ascii.eqb dq "{") with false. change (Ascii.eqb dq "[") with false. cbn match.
    rewrite Ascii.eqb_refl, parse_str_quote by done. done.
  - inversion Hwf; subst. apply parse_arr; [|done].
    rewrite Forall_forall in *. naive_solver.
  - inversion Hwf; subst. apply parse_obj; [|done].
    rewrite Forall_forall in *. naive_solver.
Qed.

Lemma parse_print_at v : json_wf v → parse (pr 0 v) = Some (norm v).
Proof.
  intros Hwf. unfold parse. pose proof (print_parses v Hwf 0 (S (length (pr 0 v))) []) as H.
  rewrite app_nil_r in H. by rewrite H by (done || lia).
Qed.
End layout_roundtrip.

(** Decoding an encoded value gives it back, each string made valid UTF-8. *)
Lemma parse_print v : json_wf v → parse (print v) = Some (norm v).
Proof. intros H. by apply (parse_print_at (λ _, []) []). Qed.

Lemma parse_print_indent v : json_wf v → parse (print_indent v) = Some (norm v).
Proof.
  intros H. apply parse_print_at; [|done|done].
  intros d. cbn [forallb]. apply forallb_forall. intros a Ha%repeat_spec. by subst a.
Qed.

Lemma print_obj_length l : (2 ≤ length (print (JObj l)))%nat.
Proof.
  unfold print. destruct l as [|m l]; [done|]. cbn [print_at length].
  rewrite !length_app. cbn [length]. lia.
Qed.
