(* ===== verification/JsonRec.v ===== *)
(** * encoding/json: the struct layer

    How the struct tags of the program encode and decode a record: fields in
    order, [omitempty], members matched by name. Shared by every record that
    goes over the wire or to the disk. *)

From S2P Require Import Prelude GoStrings Json.
From Stdlib Require Import ZArith Lia String Ascii List Bool.
From stdpp Require Import base list strings gmap option numbers.

#[local] Open Scope string_scope.
#[local] Open Scope list_scope.
#[local] Open Scope Z_scope.

(** ** Encoding: [omitempty] drops a zero value, a field without it stays *)
Definition req_str (k : string) (s : string) : list (string * json) := [(k, JStr s)].
Definition req_int (k : string) (z : Z) : list (string * json) := [(k, JInt z)].
Definition opt_str (k : string) (s : string) : list (string * json) :=
  if s =?s "" then [] else [(k, JStr s)].
Definition opt_int (k : string) (z : Z) : list (string * json) :=
  if z =? 0 then [] else [(k, JInt z)].
Definition opt_bool (k : string) (b : bool) : list (string * json) :=
  if b then [(k, JBool true)] else [].

(** ** Decoding: members in order, unknown ones ignored, names matched without
    regard to case, [null] leaves a field alone, and a value of the wrong type
    is an error *)
Section decode.
Context {A : Type}.
Definition field : Type := json → A → option A.

Fixpoint field_index (names : list string) (k : string) : option nat :=
  match names with
  | [] => None
  | n :: names' => if equal_fold k n then Some O else S <$> field_index names' k
  end.
Definition find_field (fs : list (string * field)) (k : string) : option field :=
  match field_index (map fst fs) k with
  | Some i => snd <$> nth_error fs i
  | None => None
  end.

Fixpoint decode_members (fs : list (string * field)) (ms : list (string * json)) (a : A)
  : option A :=
  match ms with
  | [] => Some a
  | (k, v) :: ms' =>
      match find_field fs k with
      | None => decode_members fs ms' a
      | Some set =>
          match set v a with
          | Some a' => decode_members fs ms' a'
          | None => None
          end
      end
  end.

Definition decode_object (fs : list (string * field)) (zero : A) (v : json) : option A :=
  match v with
  | JNull => Some zero
  | JObj ms => decode_members fs ms zero
  | _ => None
  end.

Definition str_field (set : string → A → A) : field := λ v a,
  match v with JNull => Some a | JStr s => Some (set s a) | _ => None end.
Definition bool_field (set : bool → A → A) : field := λ v a,
  match v with JNull => Some a | JBool b => Some (set b a) | _ => None end.
Definition int_field (set : Z → A → A) : field := λ v a,
  match v with
  | JNull => Some a
  | JNum lit => match parse_int_bytes lit with Some z => Some (set z a) | None => None end
  | _ => None
  end.
End decode.
Arguments field A : clear implicits.

(** ** The round trip, field by field *)

Lemma json_wf_map {A} (f : A → json) l : (∀ a, json_wf (f a)) → Forall json_wf (map f l).
Proof. intros H. induction l; constructor; auto. Qed.

Definition wf_members (l : list (string * json)) : Prop := Forall (λ kv, json_wf kv.2) l.

Lemma wf_app a b : wf_members a → wf_members b → wf_members (a ++ b).
Proof. apply Forall_app_2. Qed.
Lemma wf_req_str k s : wf_members (req_str k s).
Proof. repeat constructor. Qed.
Lemma wf_req_int k z : wf_members (req_int k z).
Proof. repeat constructor. Qed.
Lemma wf_opt_str k s : wf_members (opt_str k s).
Proof. unfold opt_str. case_match; repeat constructor. Qed.
Lemma wf_opt_int k z : wf_members (opt_int k z).
Proof. unfold opt_int. case_match; repeat constructor. Qed.
Lemma wf_opt_bool k b : wf_members (opt_bool k b).
Proof. unfold opt_bool. case_match; repeat constructor. Qed.
Create HintDb wire.
#[export] Hint Resolve wf_app wf_req_str wf_req_int wf_opt_str wf_opt_int wf_opt_bool : wire.

Ltac wire_wf := match goal with |- Forall _ ?l => change (wf_members l) end; auto 30 with wire.


(** A segment of the encoding, decoded on top of [a]: the field is set to the
    encoded value, provided an omitted field is still zero in [a]. *)
Section segments.
Context {A : Type} (fs : list (string * field A)).

Lemma decode_members_cons k v set ms a a' :
  find_field fs k = Some set → set v a = Some a' →
  decode_members fs ((k, v) :: ms) a = decode_members fs ms a'.
Proof. intros H1 H2. cbn [decode_members]. by rewrite H1, H2. Qed.

Lemma seg_req_str k s upd ms a :
  find_field fs (to_valid k) = Some (str_field upd) →
  decode_members fs (map norm_member (req_str k s) ++ ms) a =
  decode_members fs ms (upd (to_valid s) a).
Proof. intros H. by apply (decode_members_cons _ _ _ _ _ _ H). Qed.

Lemma seg_opt_str k s upd ms a :
  find_field fs (to_valid k) = Some (str_field upd) → upd "" a = a →
  decode_members fs (map norm_member (opt_str k s) ++ ms) a =
  decode_members fs ms (upd (to_valid s) a).
Proof.
  intros H Hz. unfold opt_str. destruct (String.eqb_spec s "") as [->|Hne].
  - cbn [map app]. change (to_valid "") with "". by rewrite Hz.
  - by apply (decode_members_cons _ _ _ _ _ _ H).
Qed.

Lemma int_field_JInt upd z a : inInt64 z → int_field (A:=A) upd (JInt z) a = Some (upd z a).
Proof. intros H. unfold int_field, JInt. by rewrite parse_int_itoa. Qed.

Lemma seg_req_int k z upd ms a :
  find_field fs (to_valid k) = Some (int_field upd) → inInt64 z →
  decode_members fs (map norm_member (req_int k z) ++ ms) a = decode_members fs ms (upd z a).
Proof.
  intros H Hz. apply (decode_members_cons _ _ _ _ _ _ H). by apply int_field_JInt.
Qed.

Lemma seg_opt_int k z upd ms a :
  find_field fs (to_valid k) = Some (int_field upd) → upd 0 a = a → inInt64 z →
  decode_members fs (map norm_member (opt_int k z) ++ ms) a = decode_members fs ms (upd z a).
Proof.
  intros H H0 Hz. unfold opt_int. destruct (Z.eqb_spec z 0) as [->|Hne].
  - cbn [map app]. by rewrite H0.
  - by apply seg_req_int.
Qed.

Lemma seg_opt_bool k b upd ms a :
  find_field fs (to_valid k) = Some (bool_field upd) → upd false a = a →
  decode_members fs (map norm_member (opt_bool k b) ++ ms) a = decode_members fs ms (upd b a).
Proof.
  intros H H0. unfold opt_bool. destruct b.
  - by apply (decode_members_cons _ _ _ _ _ _ H).
  - cbn [map app]. by rewrite H0.
Qed.
End segments.

Lemma find_field_index {A} (fs : list (string * field A)) k i n f :
  field_index (map fst fs) k = Some i → nth_error fs i = Some (n, f) →
  find_field fs k = Some f.
Proof. intros H1 H2. unfold find_field. by rewrite H1, H2. Qed.

(** Decode the segments one by one; the field of each is found by
    computation. *)
Ltac find_segment := eapply find_field_index; [vm_compute; reflexivity|reflexivity].
Ltac decode_step :=
  rewrite <-?app_assoc;
  first
    [ erewrite seg_opt_str; [|find_segment|reflexivity]
    | erewrite seg_opt_bool; [|find_segment|reflexivity]
    | erewrite seg_opt_int; [|find_segment|reflexivity|assumption]
    | erewrite seg_req_str; [|find_segment]
    | erewrite seg_req_int; [|find_segment|assumption] ].

Lemma decode_members_nil {A} (fs : list (string * field A)) ms a :
  decode_members fs ms a = decode_members fs (ms ++ []) a.
Proof. by rewrite app_nil_r. Qed.

(** *** Text that the wire leaves alone *)
Definition utf8 (s : string) : Prop := to_valid s = s.

Lemma runes_ascii b :
  Forall (λ a, byteZ a < 128) b → to_valid_bytes b = b.
Proof.
  unfold to_valid_bytes, runes. induction 1 as [|a b Ha _ IH]; [done|].
  assert (rune_len (a :: b) = 1%nat) as Hr.
  { unfold rune_len. by replace (byteZ a <? 128) with true by lia. }
  cbn [length runes_fuel]. rewrite Hr. simpl. rewrite drop_0. by rewrite IH.
Qed.

Definition ascii_only (s : string) : bool := forallb (λ a, byteZ a <? 128) (bs s).
Lemma ascii_utf8 s : ascii_only s = true → utf8 s.
Proof.
  intros H. unfold utf8, to_valid. rewrite runes_ascii; [apply str_bs|].
  unfold ascii_only in H. rewrite forallb_forall in H. rewrite List.Forall_forall.
  intros a Ha%H. lia.
Qed.

(** ** Slices of strings *)
Definition opt_strs (k : string) (l : list string) : list (string * json) :=
  match l with [] => [] | _ => [(k, JArr (map JStr l))] end.
Definition str_of_json (v : json) : option string :=
  match v with JNull => Some "" | JStr s => Some s | _ => None end.
Definition strs_field {A} (set : list string → A → A) : field A := λ v a,
  match v with
  | JNull => Some (set [] a)
  | JArr l => (λ l, set l a) <$> mapM str_of_json l
  | _ => None
  end.
Lemma wf_opt_strs k l : wf_members (opt_strs k l).
Proof.
  destruct l as [|s l]; [constructor|]. constructor; [|constructor]. cbn [snd]. constructor.
  apply json_wf_map. constructor.
Qed.
#[export] Hint Resolve wf_opt_strs : wire.

Section strings.
Context {A : Type} (fs : list (string * field A)).
Lemma strs_of_json l : mapM str_of_json (map norm (map JStr l)) = Some (map to_valid l).
Proof. induction l as [|s l IH]; [done|]. cbn [map norm mapM str_of_json]. simpl. by rewrite IH. Qed.
Lemma seg_opt_strs k l upd ms a :
  find_field fs (to_valid k) = Some (strs_field upd) → upd [] a = a →
  decode_members fs (map norm_member (opt_strs k l) ++ ms) a =
  decode_members fs ms (upd (map to_valid l) a).
Proof.
  intros Hf Hz. destruct l as [|s l]; [cbn [opt_strs map app]; by rewrite Hz|].
  apply (decode_members_cons _ _ _ _ _ _ _ Hf). unfold strs_field.
  cbn [norm]. by rewrite strs_of_json.
Qed.
End strings.

(** ** Pointers to structs and slices of structs

    A nil pointer and an empty slice are left out; a value is decoded on top
    of what the pointer already holds. *)
Definition opt_ptr {B} (k : string) (members : B → list (string * json)) (o : option B) : list (string * json) :=
  match o with Some b => [(k, JObj (members b))] | None => [] end.
Definition opt_objs {B} (k : string) (members : B → list (string * json)) (l : list B) : list (string * json) :=
  match l with [] => [] | _ => [(k, JArr (map (λ b, JObj (members b)) l))] end.
Definition ptr_field {A B} (fs : list (string * field B)) (zero : B) (get : A → option B)
    (set : option B → A → A) : field A := λ v a,
  match v with
  | JNull => Some (set None a)
  | JObj ms => (λ b, set (Some b) a) <$> decode_members fs ms (default zero (get a))
  | _ => None
  end.
Definition objs_field {A B} (fs : list (string * field B)) (zero : B) (set : list B → A → A) : field A := λ v a,
  match v with
  | JNull => Some (set [] a)
  | JArr l => (λ bs, set bs a) <$> mapM (decode_object fs zero) l
  | _ => None
  end.

Section structs.
Context {A B : Type} (fs : list (string * field A)) (bfs : list (string * field B)) (zero : B).
(** The round trip of the inner record, and what it gives back. *)
Context (members : B → list (string * json)) (valid : B → B) (ok : B → Prop).
Context (wf : ∀ b, wf_members (members b)).
Context (inner : ∀ b, ok b → decode_members bfs (map norm_member (members b)) zero = Some (valid b)).

Lemma wf_opt_ptr k o : wf_members (opt_ptr k members o).
Proof. destruct o; [|constructor]. constructor; [|constructor]. constructor. apply wf. Qed.
Lemma wf_opt_objs k l : wf_members (opt_objs k members l).
Proof.
  destruct l as [|b l]; [constructor|]. constructor; [|constructor]. cbn [snd]. constructor.
  apply json_wf_map. intros b'. constructor. apply wf.
Qed.
Lemma seg_opt_ptr k get upd o ms a :
  find_field fs (to_valid k) = Some (ptr_field bfs zero get upd) → upd None a = a → get a = None →
  (∀ b, o = Some b → ok b) →
  decode_members fs (map norm_member (opt_ptr k members o) ++ ms) a = decode_members fs ms (upd (valid <$> o) a).
Proof.
  intros Hf Hz Hg Ho. destruct o as [b|]; [|cbn; by rewrite Hz].
  apply (decode_members_cons _ _ _ _ _ _ _ Hf). unfold ptr_field. cbn [norm]. fold norm_member.
  rewrite Hg. cbn [default]. by rewrite inner by auto.
Qed.
Lemma objs_of_json l : Forall ok l →
  mapM (decode_object bfs zero) (map norm (map (λ b, JObj (members b)) l)) = Some (map valid l).
Proof.
  induction 1 as [|b l Hb _ IH]; [done|]. cbn [map mapM norm]. fold norm_member. cbn [decode_object].
  rewrite inner by done. simpl. by rewrite IH.
Qed.
Lemma seg_opt_objs k upd l ms a :
  find_field fs (to_valid k) = Some (objs_field bfs zero upd) → upd [] a = a → Forall ok l →
  decode_members fs (map norm_member (opt_objs k members l) ++ ms) a = decode_members fs ms (upd (map valid l) a).
Proof.
  intros Hf Hz Hl. destruct l as [|b l]; [cbn; by rewrite Hz|].
  apply (decode_members_cons _ _ _ _ _ _ _ Hf). unfold objs_field. cbn [norm].
  by rewrite objs_of_json.
Qed.
End structs.
