(* ===== verification/JsonSize.v ===== *)
(** * How long JSON gets

    Bounds on the length of what [print] writes, for the limits the program
    puts on headers and signals. *)

From S2P Require Import Prelude GoStrings Json JsonRec.
From Stdlib Require Import ZArith Lia String Ascii List Bool.
From stdpp Require Import base list strings gmap option numbers.

#[local] Open Scope string_scope.
#[local] Open Scope list_scope.
#[local] Open Scope Z_scope.

(** ** Strings *)

(** The source bytes a rune stands for. *)
Definition rune_size (r : option bytes) : nat := match r with Some x => length x | None => 1 end.

Lemma quote_rune_bound r : rune_wf r → (length (quote_rune r) ≤ 6 * rune_size r)%nat.
Proof.
  destruct r as [[|a [|b l]]|]; cbn [rune_wf rune_size]; intros H.
  - by destruct H as [[] _].
  - cbn [quote_rune length]. unfold u4. repeat case_match; cbn [length map]; lia.
  - rewrite quote_rune_multi. unfold u4. repeat case_match; cbn [length map]; lia.
  - cbn. lia.
Qed.

Lemma runes_fuel_size fuel s : (sum_list_with rune_size (runes_fuel fuel s) ≤ length s)%nat.
Proof.
  revert s. induction fuel as [|fuel IH]; intros s; [cbn; lia|]. cbn [runes_fuel].
  destruct s as [|a s]; [cbn; lia|]. pose proof (rune_len_le (a :: s)) as Hl.
  destruct (rune_len (a :: s)) as [|k]; cbn [sum_list_with].
  - specialize (IH s). cbn [length rune_size]. lia.
  - specialize (IH (drop (S k) (a :: s))). rewrite length_drop in IH.
    unfold rune_size at 1. rewrite length_take. lia.
Qed.

Lemma quote_runes_bound rs :
  Forall rune_wf rs → (length (flat_map quote_rune rs) ≤ 6 * sum_list_with rune_size rs)%nat.
Proof.
  induction 1 as [|r rs Hr _ IH]; [cbn; lia|]. cbn [flat_map sum_list_with]. rewrite length_app.
  pose proof (quote_rune_bound r Hr). lia.
Qed.

(** Any string, escaped and quoted. *)
Lemma json_quote_bound s : (length (json_quote s) ≤ 2 + 6 * String.length s)%nat.
Proof.
  unfold json_quote. rewrite !length_app. cbn [length].
  pose proof (runes_fuel_size (length (bs s)) (bs s)) as H. fold (runes (bs s)) in H.
  rewrite length_bs in H. pose proof (quote_runes_bound _ (runes_wf (bs s))). lia.
Qed.

(** Text that needs no escape. *)
Definition plain_byte (a : ascii) : bool :=
  let n := byteZ a in
  (32 <=? n) && (n <? 127) &&
  negb ((n =? 34) || (n =? 92) || (n =? 60) || (n =? 62) || (n =? 38)).

Lemma plain_rune a l : plain_byte a = true → rune_len (a :: l) = 1%nat ∧ quote_rune (Some [a]) = [a].
Proof.
  unfold plain_byte. intros H. split.
  - unfold rune_len. by replace (byteZ a <? 128) with true by lia.
  - cbn [quote_rune]. cbv zeta.
    assert (Ascii.eqb a dq = false) as ->.
    { apply Ascii.eqb_neq. intros ->. by vm_compute in H. }
    assert (Ascii.eqb a backslash = false) as ->.
    { apply Ascii.eqb_neq. intros ->. by vm_compute in H. }
    cbn [orb]. repeat (match goal with |- context [if ?b then _ else _] => replace b with false by lia end).
    done.
Qed.

Lemma json_quote_plain s :
  forallb plain_byte (bs s) = true → length (json_quote s) = (2 + String.length s)%nat.
Proof.
  intros H. unfold json_quote. rewrite !length_app. cbn [length].
  assert (flat_map quote_rune (runes (bs s)) = bs s) as ->; [|rewrite length_bs; lia].
  unfold runes. revert H. induction (bs s) as [|a l IH]; [done|]. cbn [forallb length runes_fuel].
  intros [Ha Hl]%andb_true_iff. destruct (plain_rune a l Ha) as [Hr Hq]. rewrite Hr.
  change (take 1 (a :: l)) with [a]. change (drop 1 (a :: l)) with l.
  cbn [flat_map]. rewrite Hq. cbn [app]. f_equal. by apply IH.
Qed.

(** ** Numbers *)

Lemma dec_digits_bound fuel n acc :
  (length (dec_digits fuel n acc) ≤ fuel + length acc)%nat.
Proof.
  revert n acc. induction fuel as [|fuel IH]; intros n acc; [done|]. cbn [dec_digits]. cbv zeta.
  case_match; [cbn; lia|]. etransitivity; [apply IH|]. cbn. lia.
Qed.

Lemma dec_bytes_length n : 0 ≤ n ≤ 2 ^ 63 → (length (dec_bytes n) ≤ 64)%nat.
Proof.
  intros Hn. unfold dec_bytes.
  pose proof (dec_digits_bound (S (Z.to_nat (Z.log2 n))) n []) as Hb. cbn [length] in Hb.
  pose proof (Z.log2_le_mono n (2 ^ 63) ltac:(lia)) as Hl. rewrite Z.log2_pow2 in Hl by lia.
  pose proof (Z.log2_nonneg n). lia.
Qed.

Lemma itoa_length z : inInt64 z → (length (itoa_bytes z) ≤ 65)%nat.
Proof.
  intros Hz. unfold inInt64, minInt64, maxInt64 in Hz. unfold itoa_bytes.
  destruct (Z.ltb_spec z 0).
  - pose proof (dec_bytes_length (- z) ltac:(lia)). cbn [length]. lia.
  - pose proof (dec_bytes_length z ltac:(lia)). lia.
Qed.

Lemma itoa_small z : 0 ≤ z < 100 → (length (itoa_bytes z) ≤ 2)%nat.
Proof.
  intros Hz.
  assert (forallb (λ z, (length (itoa_bytes z) <=? 2)%nat) (seqZ 0 100) = true) as H by by vm_compute.
  rewrite forallb_forall in H. apply Nat.leb_le, H, list_elem_of_In, elem_of_seqZ. lia.
Qed.

(** ** Objects *)

(** The bytes a member takes, with the comma after it. *)
Definition member_size (kv : string * json) : nat := S (length (print_member (λ _, []) [] 1 kv)).
Definition members_size (l : list (string * json)) : nat := sum_list_with member_size l.

Lemma members_size_app a b : members_size (a ++ b) = (members_size a + members_size b)%nat.
Proof. apply sum_list_with_app. Qed.

(** A separator fewer than elements. *)
Lemma sep_by_length sep x l :
  (length sep + length (sep_by sep (x :: l)) ≤ sum_list_with (λ x, length sep + length x) (x :: l))%nat.
Proof.
  revert x. induction l as [|y l IH]; intros x; [cbn; lia|].
  change (sep_by sep (x :: y :: l)) with (x ++ sep ++ sep_by sep (y :: l)).
  specialize (IH y). rewrite !length_app. cbn [sum_list_with] in *. lia.
Qed.

(** A brace, and every member with the comma or brace that follows it. *)
Lemma print_obj_cons_size m l : (length (print (JObj (m :: l))) ≤ 1 + members_size (m :: l))%nat.
Proof.
  unfold print.
  change (print_at (λ _, []) [] 0 (JObj (m :: l))) with
    ("{"%char :: [] ++ sep_by [","%char] (map (print_member (λ _, []) [] 1) (m :: l)) ++ [] ++ ["}"%char]).
  cbn [app length]. rewrite length_app. cbn [length].
  pose proof (sep_by_length [","%char] (print_member (λ _, []) [] 1 m) (map (print_member (λ _, []) [] 1) l)) as H.
  assert (∀ k, sum_list_with (λ x, length [","%char] + length x)%nat
    (map (print_member (λ _, []) [] 1) k) = members_size k) as Hs.
  { intros k. unfold members_size, member_size. induction k as [|x k IH]; [done|].
    cbn [map sum_list_with]. rewrite IH. done. }
  change (print_member (λ _, []) [] 1 m :: map (print_member (λ _, []) [] 1) l)
    with (map (print_member (λ _, []) [] 1) (m :: l)) in H.
  rewrite Hs in H. cbn [length] in H. lia.
Qed.
Lemma print_obj_size l : (length (print (JObj l)) ≤ 2 + members_size l)%nat.
Proof. destruct l as [|m l]; [cbn; lia|]. pose proof (print_obj_cons_size m l). lia. Qed.

Lemma member_size_str k v :
  member_size (k, JStr v) = (2 + length (json_quote k) + length (json_quote v))%nat.
Proof. unfold member_size. cbn. rewrite length_app. cbn. lia. Qed.
Lemma member_size_int k z :
  member_size (k, JInt z) = (2 + length (json_quote k) + length (itoa_bytes z))%nat.
Proof. unfold member_size. cbn. rewrite length_app. cbn. lia. Qed.

Lemma members_opt_str k v :
  (members_size (opt_str k v) ≤ 2 + length (json_quote k) + length (json_quote v))%nat.
Proof.
  unfold opt_str. case_match; [cbn; lia|]. cbn [members_size sum_list_with].
  unfold members_size. cbn [sum_list_with]. rewrite member_size_str. lia.
Qed.
Lemma members_opt_int k z :
  (members_size (opt_int k z) ≤ 2 + length (json_quote k) + length (itoa_bytes z))%nat.
Proof.
  unfold opt_int. case_match; [cbn; lia|]. unfold members_size. cbn [sum_list_with].
  rewrite member_size_int. lia.
Qed.
