(* ===== verification/GoFmt.v ===== *)
(** * The formatting verbs of fmt the program's messages use

    [%d] is [itoa] of GoStrings; here are [%q] and [%06d]. *)

From S2P Require Import Prelude GoStrings Json.
From Stdlib Require Import ZArith Lia String Ascii List Bool.
From stdpp Require Import base list strings gmap option numbers.

#[local] Open Scope string_scope.
#[local] Open Scope list_scope.
#[local] Open Scope Z_scope.

Definition hex2 (n : Z) : bytes :=
  [backslash; "x"%char; hex_digit (n / 16); hex_digit (n mod 16)].

(** One rune of [strconv.Quote]. Every rune from U+00A1 on is taken to be
    printable. *)
Definition quote_go_rune (bad : ascii) (r : option bytes) : bytes :=
  match r with
  | None => hex2 (byteZ bad)
  | Some [a] =>
      let n := byteZ a in
      if Ascii.eqb a dq || Ascii.eqb a backslash then [backslash; a]
      else if n =? 7 then [backslash; "a"%char]
      else if n =? 8 then [backslash; "b"%char]
      else if n =? 9 then [backslash; "t"%char]
      else if n =? 10 then [backslash; "n"%char]
      else if n =? 11 then [backslash; "v"%char]
      else if n =? 12 then [backslash; "f"%char]
      else if n =? 13 then [backslash; "r"%char]
      else if (n <? 32) || (n =? 127) then hex2 n
      else [a]
  | Some [a; b] =>
      let n := (byteZ a - 192) * 64 + (byteZ b - 128) in
      if n <=? 160 then u4 n else [a; b]
  | Some l => l
  end.

Fixpoint quote_bytes (fuel : nat) (s : bytes) : bytes :=
  match fuel, s with
  | S fuel', a :: s' =>
      match rune_len s with
      | O => quote_go_rune a None ++ quote_bytes fuel' s'
      | n => quote_go_rune a (Some (take n s)) ++ quote_bytes fuel' (drop n s)
      end
  | _, _ => []
  end.

(** The [%q] verb on a string. *)
Definition quote (s : string) : string :=
  str (dq :: quote_bytes (String.length s) (bs s) ++ [dq]).

(** The [%06d] verb on a value that is not negative. *)
Definition pad6 (n : Z) : string :=
  let d := dec_bytes n in str (repeat "0"%char (6 - length d) ++ d).
