(* ===== verification/GoTime.v ===== *)
(** * time: RFC 3339 text of instants

    Instants are Unix nanoseconds; the zone is UTC, so the text ends in [Z].
    The proleptic Gregorian calendar is computed from days since the epoch. *)

From S2P Require Import Prelude GoStrings.
From Stdlib Require Import ZArith Lia String Ascii List Bool.
From stdpp Require Import base list strings gmap option numbers.

#[local] Open Scope string_scope.
#[local] Open Scope list_scope.
#[local] Open Scope Z_scope.

(** ** The calendar

    Years run from March, in eras of 400 years; [doe] is the day of the era
    and [mp] the month counted from March. *)
Definition civil_of_days (z : Z) : Z * Z * Z :=
  let z := z + 719468 in
  let era := z / 146097 in
  let doe := z mod 146097 in
  let c := Z.min (doe / 36524) 3 in
  let doc := doe - c * 36524 in
  let q := doc / 1461 in
  let doq := doc mod 1461 in
  let yq := Z.min (doq / 365) 3 in
  let doy := doq - yq * 365 in
  let mp := (5 * doy + 2) / 153 in
  let d := doy - (153 * mp + 2) / 5 + 1 in
  let m := if mp <? 10 then mp + 3 else mp - 9 in
  (era * 400 + c * 100 + q * 4 + yq + (if m <=? 2 then 1 else 0), m, d).

Definition days_of_civil (y m d : Z) : Z :=
  let y := y - (if m <=? 2 then 1 else 0) in
  let era := y / 400 in
  let yoe := y mod 400 in
  let mp := if 2 <? m then m - 3 else m + 9 in
  let doy := (153 * mp + 2) / 5 + d - 1 in
  era * 146097 + (yoe * 365 + yoe / 4 - yoe / 100 + doy) - 719468.

Definition leap (y : Z) : bool :=
  (y mod 4 =? 0) && (negb (y mod 100 =? 0) || (y mod 400 =? 0)).
Definition days_in (y m : Z) : Z :=
  if m =? 2 then (if leap y then 29 else 28)
  else if (m =? 4) || (m =? 6) || (m =? 9) || (m =? 11) then 30 else 31.

(** The parts a day splits into, and the bounds on them. *)
Record civil_parts (z era c q yq doy mp : Z) : Prop := {
  cp_day : z + 719468 = era * 146097 + (c * 36524 + (q * 1461 + (yq * 365 + doy)));
  cp_c : 0 ≤ c ≤ 3;
  cp_q : 0 ≤ q ≤ 24;
  cp_yq : 0 ≤ yq ≤ 3;
  cp_doy : 0 ≤ doy ≤ 365;
  cp_leap : doy = 365 → yq = 3 ∧ (q = 24 → c = 3);
  cp_mp : mp = (5 * doy + 2) / 153;
  cp_civil : civil_of_days z =
    (era * 400 + c * 100 + q * 4 + yq + (if (if mp <? 10 then mp + 3 else mp - 9) <=? 2 then 1 else 0),
     if mp <? 10 then mp + 3 else mp - 9, doy - (153 * mp + 2) / 5 + 1);
}.

Lemma civil_decomp z : ∃ era c q yq doy mp, civil_parts z era c q yq doy mp.
Proof.
  set (w := z + 719468).
  pose proof (Z.div_mod w 146097 ltac:(lia)) as Ew.
  pose proof (Z.mod_pos_bound w 146097 ltac:(lia)) as Bw.
  exists (w / 146097), (Z.min (w mod 146097 / 36524) 3).
  set (era := w / 146097) in *. set (doe := w mod 146097) in *.
  set (c := Z.min (doe / 36524) 3).
  assert (0 ≤ c ≤ 3 ∧ 0 ≤ doe - c * 36524 < 36525 ∧ (c < 3 → doe - c * 36524 < 36524))
    as (Hc & Hdoc & Hdoc').
  { subst c. clearbody doe. Z.to_euclidean_division_equations. lia. }
  set (doc := doe - c * 36524).
  pose proof (Z.div_mod doc 1461 ltac:(lia)) as Eq.
  pose proof (Z.mod_pos_bound doc 1461 ltac:(lia)) as Bq.
  assert (0 ≤ doc / 1461 ≤ 24) as Hq
    by (subst doc; clearbody c doe; Z.to_euclidean_division_equations; lia).
  exists (doc / 1461). set (q := doc / 1461) in *. set (doq := doc mod 1461) in *.
  exists (Z.min (doq / 365) 3). set (yq := Z.min (doq / 365) 3).
  assert (0 ≤ yq ≤ 3 ∧ 0 ≤ doq - yq * 365 ≤ 365 ∧ (doq - yq * 365 = 365 → yq = 3)) as (Hy & Hdoy & Hl).
  { subst yq. clearbody doq. Z.to_euclidean_division_equations. lia. }
  exists (doq - yq * 365), ((5 * (doq - yq * 365) + 2) / 153).
  split; try done; lia.
Qed.

Lemma mp_range doy : 0 ≤ doy ≤ 365 → 0 ≤ (5 * doy + 2) / 153 ≤ 11.
Proof. intros. Z.to_euclidean_division_equations. lia. Qed.

Lemma civil_roundtrip z :
  let '(y, m, d) := civil_of_days z in days_of_civil y m d = z.
Proof.
  destruct (civil_decomp z) as (era & c & q & yq & doy & mp & [Hz Hc Hq Hy Hd _ Hmp E]). rewrite E.
  pose proof (mp_range doy Hd) as Hr. rewrite <-Hmp in Hr. clear E. unfold days_of_civil.
  set (yoe := c * 100 + q * 4 + yq).
  assert (0 ≤ yoe < 400) as Hyoe by lia.
  assert (yoe / 4 = c * 25 + q ∧ yoe / 100 = c) as [H4 H100].
  { subst yoe. split; Z.to_euclidean_division_equations; lia. }
  destruct (Z.ltb_spec mp 10).
  - replace (mp + 3 <=? 2) with false by lia. replace (2 <? mp + 3) with true by lia.
    replace (era * 400 + c * 100 + q * 4 + yq + 0 - 0) with (yoe + era * 400) by lia.
    rewrite Z.div_add, Z.mod_add, Z.div_small, Z.mod_small, H4, H100 by lia.
    replace (mp + 3 - 3) with mp by lia. lia.
  - replace (mp - 9 <=? 2) with true by lia. replace (2 <? mp - 9) with false by lia.
    replace (era * 400 + c * 100 + q * 4 + yq + 1 - 1) with (yoe + era * 400) by lia.
    rewrite Z.div_add, Z.mod_add, Z.div_small, Z.mod_small, H4, H100 by lia.
    replace (mp - 9 + 9) with mp by lia. lia.
Qed.

Lemma leap_year era c q yq :
  0 ≤ c ≤ 3 → 0 ≤ q ≤ 24 → yq = 3 → (q = 24 → c = 3) →
  leap (era * 400 + c * 100 + q * 4 + yq + 1) = true.
Proof.
  intros Hc Hq -> Hl. unfold leap. set (k := c * 25 + q + 1).
  replace (era * 400 + c * 100 + q * 4 + 3 + 1) with (k * 4 + era * 400) by lia.
  assert ((k * 4 + era * 400) mod 4 = 0) as -> by (Z.to_euclidean_division_equations; lia).
  cbn [Z.eqb andb]. apply orb_true_iff. destruct (decide (q = 24)) as [->|Hne].
  - right. subst k. rewrite (Hl eq_refl). apply Z.eqb_eq.
    replace ((3 * 25 + 24 + 1) * 4 + era * 400) with ((era + 1) * 400) by lia.
    apply Z.mod_mul. lia.
  - left. apply negb_true_iff, Z.eqb_neq. subst k.
    replace ((c * 25 + q + 1) * 4 + era * 400) with (4 * q + 4 + (c + 4 * era) * 100) by lia.
    rewrite Z.mod_add, Z.mod_small by lia. lia.
Qed.

Lemma civil_range z y m d :
  civil_of_days z = (y, m, d) → 1 ≤ m ≤ 12 ∧ 1 ≤ d ≤ days_in y m.
Proof.
  destruct (civil_decomp z) as (era & c & q & yq & doy & mp & [Hz Hc Hq Hy Hd Hl Hmp E]). rewrite E.
  intros [= <- <- <-]. pose proof (mp_range doy Hd) as Hr. rewrite <-Hmp in Hr.
  assert (1 ≤ doy - (153 * mp + 2) / 5 + 1) as Hlo by (subst mp; Z.to_euclidean_division_equations; lia).
  assert (doy < (153 * (mp + 1) + 2) / 5) as Hhi by (subst mp; Z.to_euclidean_division_equations; lia).
  assert (mp = 0 ∨ mp = 1 ∨ mp = 2 ∨ mp = 3 ∨ mp = 4 ∨ mp = 5 ∨ mp = 6 ∨ mp = 7 ∨ mp = 8 ∨
    mp = 9 ∨ mp = 10 ∨ mp = 11) as Hcases by lia. clear Hmp E Hr.
  assert (doy = 365 → leap (era * 400 + c * 100 + q * 4 + yq + 1) = true) as Hleap.
  { intros Hdoy. destruct (Hl Hdoy) as [-> Hl']. by apply leap_year. }
  unfold days_in.
  destruct Hcases as [->|[->|[->|[->|[->|[->|[->|[->|[->|[->|[->| ->]]]]]]]]]]];
    (split; [repeat case_match; lia|split; [lia|]]);
    repeat case_match; try (Z.to_euclidean_division_equations; lia).
  destruct (decide (doy = 365)) as [Hdoy|]; [|Z.to_euclidean_division_equations; lia].
  specialize (Hleap Hdoy). cbn in *. congruence.
Qed.

(** ** Fixed-width decimal fields *)
Fixpoint digits_w (w : nat) (n : Z) : bytes :=
  match w with
  | O => []
  | S w' => digits_w w' (n / 10) ++ [Zbyte (48 + n mod 10)]
  end.

Definition parse_fixed (w : nat) (s : bytes) : option (Z * bytes) :=
  if bool_decide (w ≤ length s)%nat && forallb is_digit (take w s)
  then Some (digits_val 0 (take w s), drop w s) else None.

Definition eat_byte (c : ascii) (s : bytes) : option bytes :=
  match s with
  | a :: s' => if Ascii.eqb a c then Some s' else None
  | [] => None
  end.

Lemma digits_w_length w n : length (digits_w w n) = w.
Proof. revert n. induction w; intros n; [done|]. cbn. rewrite length_app, IHw. simpl. lia. Qed.

Lemma digits_w_digit w n : forallb is_digit (digits_w w n) = true.
Proof.
  revert n. induction w; intros n; [done|]. cbn [digits_w].
  by rewrite forallb_app, IHw; cbn [forallb]; rewrite is_digit_Zbyte.
Qed.

Lemma digits_w_val w n : 0 ≤ n < 10 ^ Z.of_nat w → digits_val 0 (digits_w w n) = n.
Proof.
  revert n. induction w as [|w IH]; intros n Hn; [cbn in *; lia|].
  rewrite Nat2Z.inj_succ, Z.pow_succ_r in Hn by lia. cbn [digits_w].
  unfold digits_val in *. rewrite fold_left_app. cbn [fold_left].
  rewrite IH by (Z.to_euclidean_division_equations; lia).
  pose proof (Z.mod_pos_bound n 10 ltac:(lia)). rewrite byteZ_digit by lia.
  Z.to_euclidean_division_equations; lia.
Qed.

Lemma parse_fixed_digits w n rest :
  0 ≤ n < 10 ^ Z.of_nat w → parse_fixed w (digits_w w n ++ rest) = Some (n, rest).
Proof.
  intros Hn. unfold parse_fixed. rewrite length_app, digits_w_length.
  rewrite bool_decide_eq_true_2 by lia.
  rewrite take_app_exact, drop_app_exact by (by rewrite digits_w_length).
  by rewrite digits_w_digit, digits_w_val.
Qed.

(** ** The fraction of a second: nine digits, trailing zeros dropped *)
Fixpoint drop_zeros (s : bytes) : bytes :=
  match s with
  | a :: s' =>
      match drop_zeros s' with
      | [] => if Ascii.eqb a "0" then [] else [a]
      | t => a :: t
      end
  | [] => []
  end.

Lemma drop_zeros_pad s : drop_zeros s ++ repeat "0"%char (length s - length (drop_zeros s)) = s.
Proof.
  induction s as [|a s IH]; [done|]. cbn [drop_zeros length].
  destruct (drop_zeros s) as [|b t] eqn:E.
  - cbn [app length] in IH. rewrite Nat.sub_0_r in IH.
    destruct (Ascii.eqb_spec a "0") as [->|].
    + cbn. by f_equal.
    + cbn [app length]. cbn. rewrite Nat.sub_0_r. by f_equal.
  - cbn [app length] in *. f_equal. exact IH.
Qed.

Lemma drop_zeros_length s : (length (drop_zeros s) ≤ length s)%nat.
Proof.
  induction s as [|a s IH]; [done|]. cbn [drop_zeros length].
  destruct (drop_zeros s); [case_match|]; cbn in *; lia.
Qed.

Lemma drop_zeros_digit s : forallb is_digit s = true → forallb is_digit (drop_zeros s) = true.
Proof.
  induction s as [|a s IH]; [done|]. cbn [drop_zeros forallb].
  intros [Ha Hs]%andb_true_iff. specialize (IH Hs).
  destruct (drop_zeros s); [case_match; cbn; by rewrite ?Ha|]. cbn [forallb] in *. by rewrite Ha.
Qed.

Fixpoint span_dig (s : bytes) : bytes * bytes :=
  match s with
  | a :: s' => if is_digit a then let '(d, r) := span_dig s' in (a :: d, r) else ([], s)
  | [] => ([], [])
  end.

Lemma span_dig_app d rest :
  forallb is_digit d = true → (∀ a r, rest = a :: r → is_digit a = false) →
  span_dig (d ++ rest) = (d, rest).
Proof.
  intros Hd Hr. induction d as [|a d IH].
  - destruct rest as [|a r]; [done|]. simpl. by rewrite (Hr a r).
  - cbn [forallb] in Hd. apply andb_true_iff in Hd as [Ha Hd]. cbn. by rewrite Ha, IH.
Qed.

Definition fraction (ns : Z) : bytes :=
  match drop_zeros (digits_w 9 ns) with [] => [] | d => "."%char :: d end.

Definition parse_fraction (s : bytes) : Z * bytes :=
  match s with
  | a :: s' =>
      if Ascii.eqb a "." then
        match span_dig s' with
        | ([], _) => (0, s)
        | (d, r) => let d := take 9 d in
                    (digits_val 0 (d ++ repeat "0"%char (9 - length d)), r)
        end
      else (0, s)
  | [] => (0, s)
  end.

Lemma parse_fraction_ok ns rest :
  0 ≤ ns < 10 ^ 9 → (∀ a r, rest = a :: r → is_digit a = false ∧ a ≠ "."%char) →
  parse_fraction (fraction ns ++ rest) = (ns, rest).
Proof.
  intros Hn Hr. pose proof (drop_zeros_pad (digits_w 9 ns)) as Hp.
  pose proof (drop_zeros_length (digits_w 9 ns)) as Hl.
  pose proof (drop_zeros_digit _ (digits_w_digit 9 ns)) as Hd.
  rewrite digits_w_length in *. unfold fraction.
  pose proof (digits_w_val 9 ns Hn) as Hv.
  destruct (drop_zeros (digits_w 9 ns)) as [|a d] eqn:E.
  - cbn [app]. cbn [app length] in Hp. rewrite <-Hp in Hv.
    change (digits_val 0 (repeat "0"%char (9 - 0))) with 0 in Hv. subst ns.
    destruct rest as [|b r]; [done|]. destruct (Hr b r eq_refl) as [_ Hb].
    unfold parse_fraction. by apply Ascii.eqb_neq in Hb as ->.
  - rewrite <-app_comm_cons. unfold parse_fraction. rewrite Ascii.eqb_refl.
    rewrite span_dig_app by (done || intros b r Er; by apply (Hr b r)).
    rewrite take_ge by done. by rewrite Hp, Hv.
Qed.

(** ** time.Time's text *)
Definition nsec : Z := 10 ^ 9.

Definition format_rfc3339 (z : Z) : bytes :=
  let secs := z / nsec in
  let days := secs / 86400 in
  let sod := secs mod 86400 in
  let '(y, m, d) := civil_of_days days in
  digits_w 4 y ++ "-"%char :: digits_w 2 m ++ "-"%char :: digits_w 2 d ++ "T"%char ::
  digits_w 2 (sod / 3600) ++ ":"%char :: digits_w 2 (sod / 60 mod 60) ++ ":"%char ::
  digits_w 2 (sod mod 60) ++ fraction (z mod nsec) ++ ["Z"%char].

(** [MarshalJSON] refuses years outside 0..9999. *)
Definition year_ok (z : Z) : bool :=
  let '(y, _, _) := civil_of_days (z / nsec / 86400) in (0 <=? y) && (y <=? 9999).

(** A zone: [Z], or a signed offset, in seconds east of UTC. *)
Definition parse_zone (s : bytes) : option Z :=
  match s with
  | [a] => if Ascii.eqb a "Z" then Some 0 else None
  | a :: r =>
      sign ← (if Ascii.eqb a "+" then Some 1 else if Ascii.eqb a "-" then Some (-1) else None);
      '(h, r) ← parse_fixed 2 r;
      r ← eat_byte ":" r;
      '(m, r) ← parse_fixed 2 r;
      if (h <=? 23) && (m <=? 59) && bool_decide (r = []) then Some (sign * (h * 3600 + m * 60))
      else None
  | [] => None
  end.

Definition parse_rfc3339 (s : bytes) : option Z :=
  '(y, s) ← parse_fixed 4 s;
  s ← eat_byte "-" s;
  '(m, s) ← parse_fixed 2 s;
  s ← eat_byte "-" s;
  '(d, s) ← parse_fixed 2 s;
  s ← eat_byte "T" s;
  '(hh, s) ← parse_fixed 2 s;
  s ← eat_byte ":" s;
  '(mm, s) ← parse_fixed 2 s;
  s ← eat_byte ":" s;
  '(ss, s) ← parse_fixed 2 s;
  let '(ns, s) := parse_fraction s in
  off ← parse_zone s;
  if (1 <=? m) && (m <=? 12) && (1 <=? d) && (d <=? days_in y m) && (hh <=? 23) &&
     (mm <=? 59) && (ss <=? 59)
  then Some ((days_of_civil y m d * 86400 + hh * 3600 + mm * 60 + ss - off) * nsec + ns)
  else None.

Lemma rfc3339_roundtrip z : year_ok z = true → parse_rfc3339 (format_rfc3339 z) = Some z.
Proof.
  unfold year_ok, format_rfc3339. cbv zeta.
  pose proof (civil_roundtrip (z / nsec / 86400)) as Hc.
  destruct (civil_of_days (z / nsec / 86400)) as [[y m] d] eqn:E.
  intros Hy. destruct (civil_range _ _ _ _ E) as [Hm Hd].
  assert (days_in y m ≤ 31) by (unfold days_in; repeat case_match; lia).
  pose proof (Z.mod_pos_bound (z / nsec) 86400 ltac:(lia)) as Hs.
  pose proof (Z.mod_pos_bound z nsec ltac:(done)) as Hns.
  set (sod := (z / nsec) mod 86400) in *.
  assert (0 ≤ sod / 3600 ≤ 23 ∧ 0 ≤ sod / 60 mod 60 ≤ 59 ∧ 0 ≤ sod mod 60 ≤ 59 ∧
    sod / 3600 * 3600 + sod / 60 mod 60 * 60 + sod mod 60 = sod) as (H1 & H2 & H3 & H4)
    by (Z.to_euclidean_division_equations; lia).
  unfold parse_rfc3339.
  repeat (rewrite parse_fixed_digits by (cbn; lia);
          cbn [mbind option_bind eat_byte]; rewrite ?Ascii.eqb_refl; cbn [mbind option_bind]).
  rewrite parse_fraction_ok; [|done|by intros a r [= <- <-]].
  cbn [parse_zone]. rewrite Ascii.eqb_refl. cbn [mbind option_bind].
  replace (_ && _) with true by lia. f_equal. rewrite Hc.
  rewrite Z.sub_0_r.
  replace (z / nsec / 86400 * 86400 + sod / 3600 * 3600 + sod / 60 mod 60 * 60 + sod mod 60)
    with (z / nsec) by (pose proof (Z.div_mod (z / nsec) 86400 ltac:(lia)); lia).
  pose proof (Z.div_mod z nsec ltac:(done)). lia.
Qed.

(** ** Durations

    [Duration.String] and [Round(time.Millisecond)] of nanoseconds. *)
Definition unit_text (d : Z) (prec : nat) (unit : string) : string :=
  itoa (d / 10 ^ Z.of_nat prec) +:+
  str (match drop_zeros (digits_w prec (d mod 10 ^ Z.of_nat prec)) with
       | [] => []
       | l => "."%char :: l
       end) +:+ unit.
Definition micro : string := str [Zbyte 194; Zbyte 181] +:+ "s".
Definition duration_text (d : Z) : string :=
  if d =? 0 then "0s"
  else
    let u := Z.abs d in
    let text :=
      if u <? 1000 then itoa u +:+ "ns"
      else if u <? 10 ^ 6 then unit_text u 3 micro
      else if u <? nsec then unit_text u 6 "ms"
      else
        let s := u / nsec in
        let secs := unit_text (s mod 60 * nsec + u mod nsec) 9 "s" in
        if s <? 60 then secs
        else if s <? 3600 then itoa (s / 60) +:+ "m" +:+ secs
        else itoa (s / 3600) +:+ "h" +:+ itoa (s / 60 mod 60) +:+ "m" +:+ secs in
    if d <? 0 then "-" +:+ text else text.
Definition round_ms (d : Z) : Z :=
  let m := 10 ^ 6 in
  let half u := if u mod m + u mod m <? m then u - u mod m else u + (m - u mod m) in
  if d <? 0 then - half (- d) else half d.

Example duration_texts :
  map duration_text [0; 5; 1500; 12 * 10 ^ 6; round_ms 1234567890; 61500 * 10 ^ 6; 3600 * nsec; -nsec] =
  ["0s"; "5ns"; "1.5" +:+ micro; "12ms"; "1.235s"; "1m1.5s"; "1h0m0s"; "-1s"].
Proof. vm_compute. reflexivity. Qed.
