(* ===== verification/Base64.v ===== *)
(** * encoding/base64 and encoding/pem

    The standard alphabet with padding (PEM bodies) and the URL alphabet
    without (pairing URIs); PEM blocks as [pem.EncodeToMemory] writes them
    (no headers) and as [pem.Decode] finds them. *)

From S2P Require Import Prelude GoStrings.
From Stdlib Require Import ZArith Lia String Ascii List Bool.
From stdpp Require Import base list strings gmap option numbers.

#[local] Open Scope string_scope.
#[local] Open Scope list_scope.
#[local] Open Scope Z_scope.

(** ** The alphabets: [url] selects [-_] over [+/] *)
Definition b64_char (url : bool) (n : Z) : ascii :=
  if n <? 26 then Zbyte (65 + n)
  else if n <? 52 then Zbyte (71 + n)
  else if n <? 62 then Zbyte (n - 4)
  else if n =? 62 then (if url then "-"%char else "+"%char)
  else (if url then "_"%char else "/"%char).

Definition b64_val (url : bool) (a : ascii) : option Z :=
  let n := byteZ a in
  if (65 <=? n) && (n <=? 90) then Some (n - 65)
  else if (97 <=? n) && (n <=? 122) then Some (n - 71)
  else if (48 <=? n) && (n <=? 57) then Some (n + 4)
  else if Ascii.eqb a (if url then "-" else "+") then Some 62
  else if Ascii.eqb a (if url then "_" else "/") then Some 63
  else None.

(** The sextets of a group of bytes. *)
Fixpoint b64_encode (url pad : bool) (b : bytes) : bytes :=
  let c := b64_char url in
  match b with
  | x :: y :: z :: t =>
      c (byteZ x / 4) :: c (byteZ x mod 4 * 16 + byteZ y / 16) ::
      c (byteZ y mod 16 * 4 + byteZ z / 64) :: c (byteZ z mod 64) :: b64_encode url pad t
  | [x; y] =>
      [c (byteZ x / 4); c (byteZ x mod 4 * 16 + byteZ y / 16); c (byteZ y mod 16 * 4)] ++
      (if pad then ["="%char] else [])
  | [x] =>
      [c (byteZ x / 4); c (byteZ x mod 4 * 16)] ++ (if pad then ["="%char; "="%char] else [])
  | [] => []
  end.

Definition join2 (p q : Z) : ascii := Zbyte (p * 4 + q / 16).
Definition join3 (q r : Z) : ascii := Zbyte (q mod 16 * 16 + r / 4).
Definition join4 (r s : Z) : ascii := Zbyte (r mod 4 * 64 + s).

(** Decoding of a text without line breaks; the unused bits of the last
    group are not looked at. *)
Fixpoint b64_decode (url pad : bool) (s : bytes) : option bytes :=
  match s with
  | [] => Some []
  | [a; b; c; d] =>
      if pad && Ascii.eqb d "=" then
        if Ascii.eqb c "=" then
          match b64_val url a, b64_val url b with
          | Some p, Some q => Some [join2 p q]
          | _, _ => None
          end
        else
          match b64_val url a, b64_val url b, b64_val url c with
          | Some p, Some q, Some r => Some [join2 p q; join3 q r]
          | _, _, _ => None
          end
      else
        match b64_val url a, b64_val url b, b64_val url c, b64_val url d with
        | Some p, Some q, Some r, Some s => Some [join2 p q; join3 q r; join4 r s]
        | _, _, _, _ => None
        end
  | a :: b :: c :: d :: t =>
      match b64_val url a, b64_val url b, b64_val url c, b64_val url d, b64_decode url pad t with
      | Some p, Some q, Some r, Some s, Some l => Some (join2 p q :: join3 q r :: join4 r s :: l)
      | _, _, _, _, _ => None
      end
  | [a; b] =>
      if pad then None
      else match b64_val url a, b64_val url b with
           | Some p, Some q => Some [join2 p q]
           | _, _ => None
           end
  | [a; b; c] =>
      if pad then None
      else match b64_val url a, b64_val url b, b64_val url c with
           | Some p, Some q, Some r => Some [join2 p q; join3 q r]
           | _, _, _ => None
           end
  | [_] => None
  end.

Definition RawURL_encode (b : bytes) : string := str (b64_encode true false b).
(** Go's decoder skips line breaks anywhere. *)
Definition no_breaks (s : bytes) : bytes :=
  List.filter (λ a, negb (Ascii.eqb a "010" || Ascii.eqb a "013")) s.
Definition RawURL_decode (s : string) : option bytes := b64_decode true false (no_breaks (bs s)).
Definition Std_decode (s : bytes) : option bytes := b64_decode false true (no_breaks s).

(** ** The round trip *)
Lemma b64_val_char url n : 0 ≤ n < 64 → b64_val url (b64_char url n) = Some n.
Proof.
  intros Hn.
  assert (forallb (λ n, bool_decide (b64_val true (b64_char true n) = Some n) &&
    bool_decide (b64_val false (b64_char false n) = Some n)) (seqZ 0 64) = true) as H by by vm_compute.
  rewrite forallb_forall in H. specialize (H n).
  rewrite andb_true_iff, !bool_decide_eq_true in H.
  destruct H as [H1 H2]; [apply list_elem_of_In, elem_of_seqZ; lia|]. by destruct url.
Qed.

(** The characters of the alphabets are no padding, no dash of a PEM marker
    and no space. *)
Definition b64_safe (a : ascii) : bool :=
  negb (Ascii.eqb a "=" || Ascii.eqb a "-" || Ascii.eqb a ":" || is_space a).
Lemma b64_char_safe n : 0 ≤ n < 64 → b64_safe (b64_char false n) = true.
Proof.
  intros Hn.
  assert (forallb (λ n, b64_safe (b64_char false n)) (seqZ 0 64) = true) as H by by vm_compute.
  rewrite forallb_forall in H. apply H, list_elem_of_In, elem_of_seqZ. lia.
Qed.
Lemma b64_char_text url n : 0 ≤ n < 64 →
  Ascii.eqb (b64_char url n) "=" = false ∧ is_space (b64_char url n) = false.
Proof.
  intros Hn.
  assert (forallb (λ n, negb (Ascii.eqb (b64_char true n) "=") && negb (is_space (b64_char true n)) &&
    negb (Ascii.eqb (b64_char false n) "=") && negb (is_space (b64_char false n))) (seqZ 0 64) = true)
    as H by by vm_compute.
  rewrite forallb_forall in H. specialize (H n).
  rewrite !andb_true_iff, !negb_true_iff in H.
  destruct H as [[[H1 H2] H3] H4]; [apply list_elem_of_In, elem_of_seqZ; lia|]. by destruct url.
Qed.

Lemma join2_ok x y : join2 (byteZ x / 4) (byteZ x mod 4 * 16 + byteZ y / 16) = x.
Proof.
  unfold join2. rewrite <-(Zbyte_byteZ x) at 3. f_equal.
  pose proof (byteZ_range x). pose proof (byteZ_range y). Z.to_euclidean_division_equations; lia.
Qed.
Lemma join2_last x : join2 (byteZ x / 4) (byteZ x mod 4 * 16) = x.
Proof.
  unfold join2. rewrite <-(Zbyte_byteZ x) at 3. f_equal.
  pose proof (byteZ_range x). Z.to_euclidean_division_equations; lia.
Qed.
Lemma join3_ok x y z :
  join3 (byteZ x mod 4 * 16 + byteZ y / 16) (byteZ y mod 16 * 4 + byteZ z / 64) = y.
Proof.
  unfold join3. rewrite <-(Zbyte_byteZ y) at 3. f_equal.
  pose proof (byteZ_range x). pose proof (byteZ_range y). pose proof (byteZ_range z).
  Z.to_euclidean_division_equations; lia.
Qed.
Lemma join3_last x y :
  join3 (byteZ x mod 4 * 16 + byteZ y / 16) (byteZ y mod 16 * 4) = y.
Proof.
  unfold join3. rewrite <-(Zbyte_byteZ y) at 3. f_equal.
  pose proof (byteZ_range x). pose proof (byteZ_range y). Z.to_euclidean_division_equations; lia.
Qed.
Lemma join4_ok y z : join4 (byteZ y mod 16 * 4 + byteZ z / 64) (byteZ z mod 64) = z.
Proof.
  unfold join4. rewrite <-(Zbyte_byteZ z) at 3. f_equal.
  pose proof (byteZ_range y). pose proof (byteZ_range z). Z.to_euclidean_division_equations; lia.
Qed.

Lemma sextets x y z :
  0 ≤ byteZ x / 4 < 64 ∧ 0 ≤ byteZ x mod 4 * 16 + byteZ y / 16 < 64 ∧
  0 ≤ byteZ y mod 16 * 4 + byteZ z / 64 < 64 ∧ 0 ≤ byteZ z mod 64 < 64 ∧
  0 ≤ byteZ x mod 4 * 16 < 64 ∧ 0 ≤ byteZ y mod 16 * 4 < 64.
Proof.
  pose proof (byteZ_range x). pose proof (byteZ_range y). pose proof (byteZ_range z).
  repeat split; Z.to_euclidean_division_equations; lia.
Qed.

Lemma list_ind3 {A} (P : list A → Prop) :
  P [] → (∀ x, P [x]) → (∀ x y, P [x; y]) → (∀ x y z t, P t → P (x :: y :: z :: t)) → ∀ l, P l.
Proof.
  intros H0 H1 H2 H3. fix IH 1. intros [|x [|y [|z t]]]; [done..|]. apply H3, IH.
Qed.

Lemma b64_decode_encode url pad b : b64_decode url pad (b64_encode url pad b) = Some b.
Proof.
  induction b as [|x|x y|x y z t IH] using list_ind3; [done|..].
  - pose proof (sextets x x x) as (H1 & _ & _ & _ & H2 & _).
    destruct pad; cbn [b64_encode app b64_decode andb]; rewrite ?Ascii.eqb_refl, !b64_val_char by done;
      by rewrite join2_last.
  - pose proof (sextets x y y) as (H1 & H2 & _ & _ & _ & H3).
    destruct pad; cbn [b64_encode app b64_decode andb].
    + rewrite Ascii.eqb_refl. destruct (b64_char_text url _ H3) as [-> _].
      rewrite !b64_val_char by done. by rewrite join2_ok, join3_last.
    + rewrite !b64_val_char by done. by rewrite join2_ok, join3_last.
  - pose proof (sextets x y z) as (H1 & H2 & H3 & H4 & _).
    cbn [b64_encode]. destruct (b64_encode url pad t) as [|e l] eqn:E.
    + cbn [b64_decode]. destruct (b64_char_text url _ H4) as [-> _]. rewrite andb_false_r.
      rewrite !b64_val_char by done. rewrite join2_ok, join3_ok, join4_ok.
      destruct t as [|? [|? [|??]]]; cbn in E; destruct pad; done.
    + change (b64_decode url pad (?a :: ?b :: ?c :: ?d :: e :: l)) with
        (match b64_val url a, b64_val url b, b64_val url c, b64_val url d,
               b64_decode url pad (e :: l) with
         | Some p, Some q, Some r, Some s, Some l => Some (join2 p q :: join3 q r :: join4 r s :: l)
         | _, _, _, _, _ => None end).
      rewrite IH, !b64_val_char by done. by rewrite join2_ok, join3_ok, join4_ok.
Qed.

Lemma b64_encode_chars url pad b :
  Forall (λ a, is_space a = false ∧ (a = "="%char ∨ ∃ n, 0 ≤ n < 64 ∧ a = b64_char url n))
    (b64_encode url pad b).
Proof.
  assert (∀ n, 0 ≤ n < 64 → is_space (b64_char url n) = false ∧
    (b64_char url n = "="%char ∨ ∃ m, 0 ≤ m < 64 ∧ b64_char url n = b64_char url m)) as Hc.
  { intros n Hn. split; [by apply b64_char_text|eauto]. }
  assert (is_space "=" = false ∧ ("="%char = "="%char ∨ ∃ m, 0 ≤ m < 64 ∧ "="%char = b64_char url m))
    as He by (split; [done|by left]).
  induction b as [|x|x y|x y z t IH] using list_ind3; [constructor|..].
  - pose proof (sextets x x x) as (? & ? & ? & ? & ? & ?).
    destruct pad; cbn [b64_encode app]; repeat (apply Forall_cons_2; [first [exact He|by apply Hc]|]); apply Forall_nil_2.
  - pose proof (sextets x y y) as (? & ? & ? & ? & ? & ?).
    destruct pad; cbn [b64_encode app]; repeat (apply Forall_cons_2; [first [exact He|by apply Hc]|]); apply Forall_nil_2.
  - pose proof (sextets x y z) as (? & ? & ? & ? & ? & ?).
    cbn [b64_encode]. repeat (apply Forall_cons_2; [by apply Hc|]). done.
Qed.

Lemma no_breaks_id s : Forall (λ a, is_space a = false) s → no_breaks s = s.
Proof.
  unfold no_breaks. induction 1 as [|a s Ha _ IH]; [done|]. cbn.
  destruct (Ascii.eqb_spec a "010") as [->|]; [done|].
  destruct (Ascii.eqb_spec a "013") as [->|]; [done|]. cbn. by rewrite IH.
Qed.

Lemma RawURL_roundtrip b : RawURL_decode (RawURL_encode b) = Some b.
Proof.
  unfold RawURL_decode, RawURL_encode. rewrite bs_str, no_breaks_id.
  - apply b64_decode_encode.
  - eapply Forall_impl; [|apply b64_encode_chars]. by intros a [? _].
Qed.

(** ** PEM *)
Definition nl : ascii := "010".

(** The first occurrence of [pat]: what is before it and what is after. *)
Fixpoint cut_on (pat s : bytes) : option (bytes * bytes) :=
  if bool_decide (take (length pat) s = pat) then Some ([], drop (length pat) s)
  else match s with
       | [] => None
       | a :: s' => match cut_on pat s' with Some (x, y) => Some (a :: x, y) | None => None end
       end.

(** [getLine]: the line without trailing blanks, and what follows it. *)
Definition get_line (s : bytes) : bytes * bytes :=
  let '(line, rest) := default (s, []) (cut_on [nl] s) in
  let line := match rev line with
              | a :: r => if Ascii.eqb a "013" && (length line <? length s)%nat then rev r else line
              | [] => line
              end in
  (bs (trim_right_fun (λ a, Ascii.eqb a " " || Ascii.eqb a "009") (str line)), rest).

Definition pem_begin : bytes := nl :: bs "-----BEGIN ".
Definition pem_end : bytes := nl :: bs "-----END ".
Definition pem_eol : bytes := bs "-----".

Fixpoint pem_lines (fuel : nat) (s : bytes) : bytes :=
  match fuel, s with
  | S f, _ :: _ => take 64 s ++ nl :: pem_lines f (drop 64 s)
  | _, _ => []
  end.

Definition pem_encode (typ : string) (b : bytes) : bytes :=
  let body := b64_encode false true b in
  bs "-----BEGIN " ++ bs typ ++ pem_eol ++ nl :: pem_lines (length body) body ++
  bs "-----END " ++ bs typ ++ pem_eol ++ [nl].

(** The end of a block of type [typ] whose body starts at [rest]. *)
Definition pem_body (typ : bytes) (headers : bool) (rest : bytes) : option (bytes * bytes) :=
  match (if negb headers && bool_decide (take 9 rest = bs "-----END ")
         then Some ([], drop 9 rest) else cut_on pem_end rest) with
  | None => None
  | Some (body, trailer) =>
      let marker := typ ++ pem_eol in
      if bool_decide (take (length marker) trailer = marker) then
        match get_line (drop (length marker) trailer) with
        | ([], after) =>
            match Std_decode (List.filter (λ a, negb (Ascii.eqb a " " || Ascii.eqb a "009")) body) with
            | Some der => Some (der, after)
            | None => None
            end
        | _ => None
        end
      else None
  end.

(** Header lines are skipped: whether there were any, and what follows. *)
Fixpoint pem_headers (fuel : nat) (seen : bool) (rest : bytes) : option (bool * bytes) :=
  match fuel, rest with
  | S f, _ :: _ =>
      let '(line, next) := get_line rest in
      match cut_on [":"%char] line with
      | Some _ => pem_headers f true next
      | None => Some (seen, rest)
      end
  | _, _ => None
  end.

(** [pem.Decode]: the type and content of the first block, and the rest. *)
Fixpoint pem_scan (fuel : nat) (s : bytes) : option (string * bytes * bytes) :=
  match fuel with
  | O => None
  | S f =>
      match (if bool_decide (take 11 s = bs "-----BEGIN ") then Some (drop 11 s)
             else match cut_on pem_begin s with Some (_, r) => Some r | None => None end) with
      | None => None
      | Some r =>
          let '(line, rest) := get_line r in
          if has_suffix (str line) "-----" then
            let typ := trim_suffix (str line) "-----" in
            match pem_headers (S (length rest)) false rest with
            | None => None
            | Some (seen, rest) =>
                match pem_body (bs typ) seen rest with
                | Some (der, after) => Some (typ, der, after)
                | None => pem_scan f rest
                end
            end
          else pem_scan f rest
      end
  end.
Definition pem_decode (s : bytes) : option (string * bytes * bytes) := pem_scan (S (length s)) s.

(** *** The round trip *)
Lemma cut_on_app c d p body t :
  (c ∉ body) ∨ ((d ∉ body) ∧ c ≠ d) →
  cut_on (c :: d :: p) (body ++ (c :: d :: p) ++ t) = Some (body, t).
Proof.
  intros Hb. induction body as [|a body IH].
  - cbn [app cut_on]. rewrite bool_decide_eq_true_2.
    + by rewrite (drop_app_exact (c :: d :: p) t).
    + by rewrite (take_app_exact (c :: d :: p) t).
  - assert (cut_on (c :: d :: p) (body ++ (c :: d :: p) ++ t) = Some (body, t)) as E.
    { apply IH. rewrite !not_elem_of_cons in Hb. tauto. }
    cbn [app] in E. cbn [app cut_on]. rewrite bool_decide_eq_false_2.
    + by rewrite E.
    + intros Ht. cbn [length take] in Ht. injection Ht as -> Ht.
      destruct Hb as [Hc|[Hd Hne]]; [by apply Hc; left|].
      destruct body as [|b body]; cbn [app take] in Ht; injection Ht as -> _; [done|].
      apply Hd. right. by left.
Qed.

Lemma cut_on_byte c body t : c ∉ body → cut_on [c] (body ++ c :: t) = Some (body, t).
Proof.
  intros Hb. induction body as [|a body IH].
  - cbn. by rewrite bool_decide_eq_true_2.
  - rewrite not_elem_of_cons in Hb. destruct Hb as [Ha Hb]. cbn [app cut_on].
    rewrite bool_decide_eq_false_2; [by rewrite IH|]. cbn. congruence.
Qed.
Lemma cut_on_none c s : c ∉ s → cut_on [c] s = None.
Proof.
  intros Hs. induction s as [|a s IH]; [done|]. rewrite not_elem_of_cons in Hs.
  destruct Hs as [Ha Hs]. cbn [cut_on]. rewrite bool_decide_eq_false_2 by (cbn; congruence).
  by rewrite IH.
Qed.

(** A line that ends in no blank is read as it is. *)
Lemma get_line_app l a rest :
  nl ∉ l ++ [a] → is_space a = false → get_line ((l ++ [a]) ++ nl :: rest) = (l ++ [a], rest).
Proof.
  intros Hn Ha. unfold get_line. rewrite cut_on_byte by done.
  change (default ?x (Some ?y)) with y. cbv beta iota.
  rewrite rev_app_distr. cbn [rev app].
  assert (Ascii.eqb a "013" = false ∧ Ascii.eqb a " " = false ∧ Ascii.eqb a "009" = false) as (-> & H1 & H2).
  { repeat split; apply Ascii.eqb_neq; intros ->; done. }
  cbn [andb]. f_equal. unfold trim_right_fun, rev_str. rewrite !bs_str, rev_app_distr.
  cbn [rev app str string_of_list_ascii trim_left_fun]. rewrite H1, H2. cbn [orb].
  fold (str (rev l)). change (String a (str (rev l))) with (str (a :: rev l)).
  rewrite bs_str. cbn [rev]. by rewrite rev_involutive.
Qed.

Lemma get_line_sub s a : a ∈ (get_line s).1 → a ∈ s.
Proof.
  assert (∀ c s x y, cut_on [c] s = Some (x, y) → ∀ b, b ∈ x → b ∈ s) as Hcut.
  { clear. intros c s. induction s as [|b s IH]; intros x y; cbn [cut_on].
    - case_match; intros; by simplify_eq.
    - case_match; [intros; simplify_eq; set_solver|].
      destruct (cut_on [c] s) as [[x' y']|] eqn:E; [|done]. intros [= <- <-] b' Hb.
      apply elem_of_cons in Hb as [->|Hb]; [by left|]. right. by eapply IH. }
  unfold get_line. destruct (default (s, []) (cut_on [nl] s)) as [line rest] eqn:E.
  assert (∀ b, b ∈ line → b ∈ s) as Hline.
  { destruct (cut_on [nl] s) as [[x y]|] eqn:E'; cbn in E; simplify_eq; [by eapply Hcut|done]. }
  cbn. set (l' := match rev line with [] => line | _ => _ end).
  assert (∀ b, b ∈ l' → b ∈ line) as Hl'.
  { intros b. subst l'. destruct (rev line) as [|c r] eqn:Er; [done|]. case_match; [|done].
    intros Hb. rewrite <-(rev_involutive line), Er. cbn. apply elem_of_app. by left. }
  intros Ha. apply Hline, Hl'. revert Ha. generalize l'. clear.
  assert (∀ f t, ∀ b, b ∈ bs (trim_left_fun f t) → b ∈ bs t) as Htl.
  { intros f t b. induction t as [|c t IH]; cbn; [done|]. case_match; [|done].
    intros Hb%IH. by right. }
  intros l Ha. unfold trim_right_fun, rev_str in Ha. rewrite !bs_str in Ha.
  apply list_elem_of_In, in_rev, list_elem_of_In, Htl in Ha. rewrite !bs_str in Ha.
  by apply list_elem_of_In, in_rev, list_elem_of_In in Ha.
Qed.

Definition blank (a : ascii) : bool := negb (Ascii.eqb a " " || Ascii.eqb a "009").

(** The body of a block: no dash, no colon, and the text once blanks and
    breaks are gone. *)
Definition pem_text (a : ascii) : Prop := a ≠ "-"%char ∧ a ≠ ":"%char ∧ is_space a = false.

Lemma pem_lines_spec fuel s :
  Forall pem_text s → (length s ≤ fuel)%nat → s ≠ [] →
  ∃ a body, pem_lines fuel s = (a :: body) ++ [nl] ∧ a ≠ "-"%char ∧
    Forall (λ c, c ≠ "-"%char ∧ c ≠ ":"%char) (a :: body) ∧
    no_breaks (List.filter blank (a :: body)) = s.
Proof.
  assert (∀ l, Forall pem_text l → no_breaks (List.filter blank l) = l ∧
    Forall (λ c, c ≠ "-"%char ∧ c ≠ ":"%char) l) as Htext.
  { clear. induction 1 as [|a l (H1 & H2 & H3) _ [IH1 IH2]]; [done|]. split; [|by constructor].
    unfold no_breaks, blank in *. cbn.
    destruct (Ascii.eqb_spec a " ") as [->|]; [done|]. destruct (Ascii.eqb_spec a "009") as [->|]; [done|].
    cbn. destruct (Ascii.eqb_spec a "010") as [->|]; [done|].
    destruct (Ascii.eqb_spec a "013") as [->|]; [done|]. cbn. by rewrite IH1. }
  assert (∀ l k, no_breaks (List.filter blank (l ++ k)) =
    no_breaks (List.filter blank l) ++ no_breaks (List.filter blank k)) as Happ.
  { intros l k. unfold no_breaks. by rewrite !List.filter_app. }
  revert s. induction fuel as [|fuel IH]; intros s Hs Hl Hne; [by destruct s; cbn in Hl; [|lia]|].
  destruct s as [|a s]; [done|]. clear Hne.
  change (pem_lines (S fuel) (a :: s)) with
    (take 64 (a :: s) ++ nl :: pem_lines fuel (drop 64 (a :: s))).
  assert (a ≠ "-"%char) as Ha by (by apply Forall_cons_1 in Hs as [[? _] _]).
  pose proof (take_drop 64 (a :: s)) as Htd.
  assert (Forall pem_text (take 64 (a :: s)) ∧ Forall pem_text (drop 64 (a :: s))) as [Ht Hd]
    by (apply Forall_app; by rewrite Htd).
  destruct (Htext _ Ht) as [Ht1 Ht2].
  destruct (decide (drop 64 (a :: s) = [])) as [E|Hn].
  - rewrite E. replace (pem_lines fuel []) with (@nil ascii) by by destruct fuel.
    rewrite E, app_nil_r in Htd. exists a, s. rewrite Htd in *. done.
  - destruct (IH (drop 64 (a :: s))) as (b & body & -> & _ & Hb & Hbody); [done| |done|].
    { rewrite length_drop. cbn in *. lia. }
    change (take 64 (a :: s)) with (a :: take 63 s) in *.
    exists a, (take 63 s ++ nl :: b :: body). split_and!; [by simplify_list_eq|done| |].
    + rewrite app_comm_cons. apply Forall_app. split; [done|]. constructor; [done|done].
    + rewrite app_comm_cons, Happ. change (nl :: b :: body) with ([nl] ++ (b :: body)).
      rewrite Happ, Ht1, Hbody. exact Htd.
Qed.

Lemma b64_std_text b : Forall pem_text (b64_encode false true b).
Proof.
  eapply Forall_impl; [|apply b64_encode_chars].
  intros a [Hs Ha]. destruct Ha as [->|(n & Hn & ->)]; [done|].
  pose proof (b64_char_safe n Hn) as H. unfold b64_safe in H.
  rewrite negb_true_iff, !orb_false_iff, !Ascii.eqb_neq in H. unfold pem_text. tauto.
Qed.

Definition cert_type : string := "CERTIFICATE".

Definition pem_trailer : bytes := bs cert_type ++ pem_eol ++ [nl].

Lemma pem_body_split body rest der :
  (if bool_decide (take 9 rest = bs "-----END ")
   then Some ([], drop 9 rest) else cut_on pem_end rest) = Some (body, pem_trailer) →
  Std_decode (List.filter blank body) = Some der →
  pem_body (bs cert_type) false rest = Some (der, []).
Proof.
  intros Hc Hd. unfold pem_body. cbn [negb andb]. rewrite Hc. cbv zeta.
  rewrite bool_decide_eq_true_2 by done.
  change (get_line (drop (length (bs cert_type ++ pem_eol)) pem_trailer)) with (@nil ascii, @nil ascii).
  unfold blank in Hd. by rewrite Hd.
Qed.

(** Nothing before the body's end looks like a header. *)
Lemma pem_no_headers rest :
  rest ≠ [] → ":"%char ∉ rest → pem_headers (S (length rest)) false rest = Some (false, rest).
Proof.
  intros Hne Hc. cbn [pem_headers]. destruct rest as [|a r] eqn:E; [done|]. rewrite <-E in *. clear E.
  destruct (get_line rest) as [line next] eqn:El. rewrite cut_on_none; [by destruct rest|].
  intros Hin. apply Hc, get_line_sub. by rewrite El.
Qed.

Lemma pem_roundtrip der :
  pem_decode (pem_encode cert_type der) = Some (cert_type, der, []).
Proof.
  unfold pem_decode, pem_encode. set (body := b64_encode false true der).
  set (lines := pem_lines (length body) body).
  assert (bs "-----END " ++ bs cert_type ++ pem_eol ++ [nl] = bs "-----END " ++ pem_trailer) as -> by done.
  assert (∃ b, ((if bool_decide (take 9 (lines ++ bs "-----END " ++ pem_trailer) = bs "-----END ")
     then Some ([], drop 9 (lines ++ bs "-----END " ++ pem_trailer))
     else cut_on pem_end (lines ++ bs "-----END " ++ pem_trailer)) = Some (b, pem_trailer)) ∧
     Std_decode (List.filter blank b) = Some der ∧ ":"%char ∉ lines) as (b & Hcut & Hdec & Hcol).
  { pose proof (b64_std_text der) as Ht. fold body in Ht.
    pose proof (b64_decode_encode false true der) as Hde. fold body in Hde.
    destruct (decide (body = [])) as [E|Hne].
    - exists []. subst lines. rewrite E in *. cbn [pem_lines length app].
      rewrite bool_decide_eq_true_2 by done. split_and!; [done| |set_solver].
      unfold Std_decode. cbn. done.
    - destruct (pem_lines_spec (length body) body Ht ltac:(lia) Hne) as (a & l & E & Ha & Hl & Hb).
      exists (a :: l). fold lines in E. rewrite E, <-app_assoc.
      rewrite bool_decide_eq_false_2 by (cbn; congruence).
      assert (("-"%char ∉ a :: l) ∧ (":"%char ∉ a :: l)) as [Hd1 Hd2].
      { rewrite List.Forall_forall in Hl. split; intros Hin%list_elem_of_In%Hl; tauto. }
      split_and!.
      + apply (cut_on_app nl "-" (bs "----END ") (a :: l) pem_trailer). by right.
      + unfold Std_decode. by rewrite Hb.
      + rewrite elem_of_app, list_elem_of_singleton. intros [?|?]; done. }
  assert (":"%char ∉ lines ++ bs "-----END " ++ pem_trailer) as Hc.
  { rewrite elem_of_app. intros [?|Hin]; [done|]. revert Hin. by apply (no_byte_test ":"
      "-----END CERTIFICATE-----
"). }
  set (rest := lines ++ bs "-----END " ++ pem_trailer) in *. clearbody rest.
  cbn [pem_scan]. rewrite bool_decide_eq_true_2 by done.
  change (drop 11 (bs "-----BEGIN " ++ ?x)) with x.
  replace (bs cert_type ++ pem_eol ++ nl :: rest)
    with ((bs "CERTIFICATE----" ++ ["-"%char]) ++ nl :: rest) by done.
  rewrite get_line_app; [|by apply (no_byte_test nl "CERTIFICATE-----")|done].
  replace (has_suffix (str (bs "CERTIFICATE----" ++ ["-"%char])) "-----") with true by by vm_compute.
  replace (trim_suffix (str (bs "CERTIFICATE----" ++ ["-"%char])) "-----") with cert_type by by vm_compute.
  rewrite pem_no_headers; [|by intros ->|done].
  by rewrite (pem_body_split b rest der).
Qed.
