(* ===== verification/Fs.v ===== *)
(** * The file system the program writes to

    Nodes by absolute clean path. Directories must exist before anything is
    created in them. A schedule of faults decides which writing operations
    fail and how much of a short write reaches the disk, so that statements
    quantify over every pattern of I/O errors. Special files and symbolic
    links are one kind of node that no operation reads or writes through. *)

From S2P Require Import Prelude GoStrings Go.
From Stdlib Require Import ZArith Lia String Ascii List Bool.
From stdpp Require Import base list strings gmap option numbers.

#[local] Open Scope Z_scope.

Inductive node :=
  | NFile (b : bytes)
  | NDir
  | NOther.
#[export] Instance node_eq_dec : EqDecision node.
Proof. solve_decision. Defined.

Inductive fault :=
  | NoFault
  | FailWith (e : errno)
  | Short (k : nat).

Record fs := mkFs {
  fs_nodes : gmap string node;
  fs_faults : list fault;
}.

Definition fs_set (p : string) (n : node) (s : fs) : fs :=
  mkFs (<[p := n]> (fs_nodes s)) (fs_faults s).
Definition fs_del (p : string) (s : fs) : fs := mkFs (delete p (fs_nodes s)) (fs_faults s).

Definition is_dir (s : fs) (p : string) : bool :=
  (p =?s "/") || match fs_nodes s !! p with Some NDir => true | _ => false end.

(** The content of the regular file at [p], if there is one. *)
Definition file_at (s : fs) (p : string) : option bytes :=
  match fs_nodes s !! p with Some (NFile b) => Some b | _ => None end.

(** The next fault of the schedule. *)
Definition next_fault : M fs fault := λ s,
  match fs_faults s with
  | [] => (Ok NoFault, s)
  | f :: l => (Ok f, mkFs (fs_nodes s) l)
  end.

(** An operation that either happens or fails as a whole. *)
Definition faulty {A} (m : M fs A) : M fs A :=
  f <- next_fault ;;
  match f with
  | FailWith e => throw (Errno e)
  | _ => m
  end.

(** Writing [b] through [upd]: a short write stores a prefix and fails. *)
Definition faulty_write (b : bytes) (upd : bytes → fs → fs) : M fs unit :=
  f <- next_fault ;;
  match f with
  | FailWith e => throw (Errno e)
  | Short k => modify (upd (take k b)) ;;; throw (Errno EIO)
  | NoFault => modify (upd b)
  end.

(** [os.Stat] *)
Definition stat (p : string) : M fs node := λ s,
  if p =?s "/" then (Ok NDir, s)
  else match fs_nodes s !! p with
       | Some n => (Ok n, s)
       | None => (Err (Errno ENOENT), s)
       end.

(** [os.ReadFile] *)
Definition read_file (p : string) : M fs bytes := λ s,
  match fs_nodes s !! p with
  | Some (NFile b) => (Ok b, s)
  | Some _ => (Err (Errno EISDIR), s)
  | None => (Err (Errno ENOENT), s)
  end.

(** The checks of [open(2)] with O_CREAT on [p]. *)
Definition can_create (p : string) : M fs unit := λ s,
  match fs_nodes s !! p with
  | Some (NFile _) => (Ok (), s)
  | Some NDir => (Err (Errno EISDIR), s)
  | Some NOther => (Err (Errno EACCES), s)
  | None => if is_dir s (path_dir p) then (Ok (), s) else (Err (Errno ENOENT), s)
  end.

(** [os.OpenFile(p, O_CREATE|O_WRONLY|O_TRUNC)] *)
Definition open_trunc (p : string) : M fs unit :=
  can_create p ;;; faulty (modify (fs_set p (NFile []))).

(** [os.OpenFile(p, O_WRONLY|O_APPEND)] *)
Definition open_append (p : string) : M fs unit :=
  read_file p ;;; faulty (ret ()).

(** [f.Write(b)] at the end of the open file [p]. *)
Definition append_file (p : string) (b : bytes) : M fs unit :=
  old <- read_file p ;; faulty_write b (λ b', fs_set p (NFile (old ++ b'))).

(** [os.WriteFile]: truncate, then write. *)
Definition write_file (p : string) (b : bytes) : M fs unit :=
  can_create p ;;; faulty_write b (λ b', fs_set p (NFile b')).

(** [os.Remove] of a file. *)
Definition remove_file (p : string) : M fs unit :=
  n <- stat p ;;
  match n with
  | NFile _ => faulty (modify (fs_del p))
  | _ => throw (Errno EISDIR)
  end.

(** [os.Rename] of a file; the target is replaced. *)
Definition rename (p q : string) : M fs unit :=
  b <- read_file p ;;
  can_create q ;;;
  faulty (modify (fs_set q (NFile b) ∘ fs_del p)).

(** [os.Mkdir] *)
Definition mkdir (p : string) : M fs unit := λ s,
  if p =?s "/" then (Err (Errno EEXIST), s)
  else match fs_nodes s !! p with
  | Some _ => (Err (Errno EEXIST), s)
  | None =>
      if is_dir s (path_dir p) then faulty (modify (fs_set p NDir)) s
      else (Err (Errno ENOENT), s)
  end.

(** ** What each operation can change

    [touches p m]: every run of [m] leaves all paths but [p] as they were. *)
Definition only (P : string → Prop) (s s' : fs) : Prop :=
  ∀ q, ¬ P q → fs_nodes s' !! q = fs_nodes s !! q.

Definition touches {A} (P : string → Prop) (m : M fs A) : Prop :=
  ∀ s r s', m s = (r, s') → only P s s'.

#[export] Instance only_preorder P : PreOrder (only P).
Proof.
  split; [by intros s q|]. intros s1 s2 s3 H1 H2 q Hq. by rewrite H2, H1.
Qed.

Lemma only_weaken (P Q : string → Prop) s s' :
  (∀ p, P p → Q p) → only P s s' → only Q s s'.
Proof. intros HPQ H q Hq. apply H. auto. Qed.

Lemma touches_weaken {A} (P Q : string → Prop) (m : M fs A) :
  (∀ p, P p → Q p) → touches P m → touches Q m.
Proof. intros HPQ H s r s' E. eapply only_weaken; [done|]. by eapply H. Qed.

Lemma touches_bind {A B} P (m : M fs A) (k : A → M fs B) :
  touches P m → (∀ a, touches P (k a)) → touches P (bind m k).
Proof.
  intros Hm Hk s r s' E.
  apply bind_inv in E as [(a & s1 & E1 & E2)|(r0 & E1 & _)].
  - etransitivity; [by eapply Hm|by eapply Hk].
  - by eapply Hm.
Qed.

Lemma touches_try {A} P (m : M fs A) : touches P m → touches P (try m).
Proof.
  intros Hm s r s' E. unfold try in E.
  destruct (m s) as [r1 s1] eqn:E1. apply Hm in E1. by destruct r1; simplify_eq.
Qed.

Lemma touches_ignore {A} P (m : M fs A) : touches P m → touches P (ignore m).
Proof. intros. apply touches_bind; [by apply touches_try|]. by intros _ s r s' [= <- <-]. Qed.

Lemma touches_ret {A} P (a : A) : touches P (ret (S:=fs) a).
Proof. by intros s r s' [= <- <-]. Qed.
Lemma touches_throw {A} P e : touches P (throw (S:=fs) (A:=A) e).
Proof. by intros s r s' [= <- <-]. Qed.
Lemma touches_next_fault P : touches P next_fault.
Proof. intros s r s' E. unfold next_fault in E. case_match; by simplify_eq. Qed.

Lemma touches_set P p n : P p → touches P (modify (fs_set p n)).
Proof.
  intros Hp s r s' [= <- <-] q Hq. cbn. apply lookup_insert_ne. by intros ->.
Qed.
Lemma touches_del P p : P p → touches P (modify (fs_del p)).
Proof.
  intros Hp s r s' [= <- <-] q Hq. cbn. apply lookup_delete_ne. by intros ->.
Qed.

Lemma touches_read {A} P (m : M fs A) :
  (∀ s r s', m s = (r, s') → s' = s) → touches P m.
Proof. by intros H s r s' ->%H. Qed.

Lemma stat_pure p s r s' : stat p s = (r, s') → s' = s.
Proof. unfold stat. intros. by repeat case_match; simplify_eq. Qed.
Lemma read_file_pure p s r s' : read_file p s = (r, s') → s' = s.
Proof. unfold read_file. intros. by repeat case_match; simplify_eq. Qed.
Lemma can_create_pure p s r s' : can_create p s = (r, s') → s' = s.
Proof. unfold can_create. intros. by repeat case_match; simplify_eq. Qed.

Create HintDb fs.
#[export] Hint Resolve touches_bind touches_try touches_ignore touches_ret touches_throw
  touches_next_fault touches_set touches_del : fs.
#[export] Hint Extern 1 (touches _ (stat _)) => apply touches_read, stat_pure : fs.
#[export] Hint Extern 1 (touches _ (read_file _)) => apply touches_read, read_file_pure : fs.
#[export] Hint Extern 1 (touches _ (can_create _)) => apply touches_read, can_create_pure : fs.

Lemma touches_faulty {A} P (m : M fs A) : touches P m → touches P (faulty m).
Proof. intros. unfold faulty. apply touches_bind; [auto with fs|]. intros []; auto with fs. Qed.
Lemma touches_faulty_write P b p (f : bytes → node) :
  P p → touches P (faulty_write b (λ b', fs_set p (f b'))).
Proof.
  intros. unfold faulty_write. apply touches_bind; [auto with fs|].
  intros []; auto with fs.
Qed.
#[export] Hint Resolve touches_faulty touches_faulty_write : fs.

Lemma open_trunc_touches (P : string → Prop) p : P p → touches P (open_trunc p).
Proof. unfold open_trunc. auto with fs. Qed.
Lemma open_append_touches P p : touches P (open_append p).
Proof. unfold open_append. auto with fs. Qed.
Lemma append_file_touches (P : string → Prop) p b : P p → touches P (append_file p b).
Proof. intros. unfold append_file. apply touches_bind; [auto with fs|]. intros old. auto with fs. Qed.
Lemma write_file_touches (P : string → Prop) p b : P p → touches P (write_file p b).
Proof. intros. unfold write_file. apply touches_bind; [auto with fs|]. intros _.
  by apply (touches_faulty_write P b p NFile). Qed.
Lemma remove_file_touches (P : string → Prop) p : P p → touches P (remove_file p).
Proof. intros. unfold remove_file. apply touches_bind; [auto with fs|]. intros []; auto with fs. Qed.
Lemma mkdir_touches (P : string → Prop) p : P p → touches P (mkdir p).
Proof.
  intros Hp s r s' E. unfold mkdir in E. repeat case_match; simplify_eq; try done.
  eapply touches_faulty; [|done]. by apply touches_set.
Qed.
Lemma rename_touches (P : string → Prop) p q : P p → P q → touches P (rename p q).
Proof.
  intros Hp Hq. unfold rename. apply touches_bind; [auto with fs|]. intros b.
  apply touches_bind; [auto with fs|]. intros _. apply touches_faulty.
  intros s r s' [= <- <-] p' Hp'. cbn.
  rewrite lookup_insert_ne, lookup_delete_ne; congruence.
Qed.
#[export] Hint Resolve open_trunc_touches open_append_touches append_file_touches
  write_file_touches remove_file_touches mkdir_touches rename_touches : fs.

(** ** Every operation comes back *)
Definition any_fs (s : fs) : Prop := True.

Lemma next_fault_runs : runs any_fs next_fault.
Proof. intros s _. unfold next_fault. by destruct (fs_faults s). Qed.
Lemma modify_runs f : runs any_fs (modify f).
Proof. by intros s _. Qed.
Lemma stat_runs p : runs any_fs (stat p).
Proof. intros s _. unfold stat. repeat case_match; done. Qed.
Lemma read_file_runs p : runs any_fs (read_file p).
Proof. intros s _. unfold read_file. repeat case_match; done. Qed.
Lemma can_create_runs p : runs any_fs (can_create p).
Proof. intros s _. unfold can_create. repeat case_match; done. Qed.
#[export] Hint Resolve next_fault_runs modify_runs stat_runs read_file_runs can_create_runs : runs.

Lemma faulty_runs {A} (m : M fs A) : runs any_fs m → runs any_fs (faulty m).
Proof. intros. unfold faulty. apply runs_bind; [auto with runs|]. intros []; auto with runs. Qed.
Lemma faulty_write_runs b upd : runs any_fs (faulty_write b upd).
Proof. unfold faulty_write. apply runs_bind; [auto with runs|]. intros []; auto with runs. Qed.
#[export] Hint Resolve faulty_runs faulty_write_runs : runs.

Lemma open_trunc_runs p : runs any_fs (open_trunc p).
Proof. unfold open_trunc. auto with runs. Qed.
Lemma open_append_runs p : runs any_fs (open_append p).
Proof. unfold open_append. auto with runs. Qed.
Lemma append_file_runs p b : runs any_fs (append_file p b).
Proof. unfold append_file. auto with runs. Qed.
Lemma write_file_runs p b : runs any_fs (write_file p b).
Proof. unfold write_file. auto with runs. Qed.
Lemma remove_file_runs p : runs any_fs (remove_file p).
Proof. unfold remove_file. apply runs_bind; [auto with runs|]. intros []; auto with runs. Qed.
Lemma rename_runs p q : runs any_fs (rename p q).
Proof. unfold rename. auto 10 with runs. Qed.
Lemma mkdir_runs p : runs any_fs (mkdir p).
Proof.
  intros s Hs. unfold mkdir. repeat case_match; try done.
  by apply (faulty_runs (modify (fs_set p NDir)) (modify_runs _)).
Qed.
#[export] Hint Resolve open_trunc_runs open_append_runs append_file_runs write_file_runs
  remove_file_runs rename_runs mkdir_runs : runs.

(** ** What each operation does on success *)

Lemma next_fault_nodes s r s' : next_fault s = (r, s') → fs_nodes s' = fs_nodes s.
Proof. unfold next_fault. intros. by case_match; simplify_eq. Qed.

Lemma faulty_Ok {A} (m : M fs A) s a s' :
  faulty m s = (Ok a, s') → ∃ s1, fs_nodes s1 = fs_nodes s ∧ m s1 = (Ok a, s').
Proof.
  unfold faulty. intros E. apply bind_inv in E as [(f & s1 & E1 & E2)|(r0 & _ & Hr & E)].
  - apply next_fault_nodes in E1. destruct f; cbv [throw modify bind ret] in E2; simplify_eq; eauto.
  - destruct r0; cbn in *; naive_solver.
Qed.

Lemma faulty_write_Ok b upd s a s' :
  faulty_write b upd s = (Ok a, s') → ∃ s1, fs_nodes s1 = fs_nodes s ∧ s' = upd b s1.
Proof.
  unfold faulty_write. intros E. apply bind_inv in E as [(f & s1 & E1 & E2)|(r0 & _ & Hr & E)].
  - apply next_fault_nodes in E1. destruct f; cbv [throw modify bind ret] in E2; simplify_eq; eauto.
  - destruct r0; cbn in *; naive_solver.
Qed.

Lemma read_file_Ok p s b s' : read_file p s = (Ok b, s') → s' = s ∧ file_at s p = Some b.
Proof.
  unfold read_file, file_at. intros. by repeat case_match; simplify_eq.
Qed.

Lemma open_trunc_Ok p s s' : open_trunc p s = (Ok (), s') → file_at s' p = Some [].
Proof.
  intros ([] & s1 & E1 & E2)%bind_Ok_inv. apply faulty_Ok in E2 as (s2 & _ & E).
  injection E as <-. unfold file_at, fs_set. cbn. by rewrite lookup_insert_eq.
Qed.

Lemma open_append_Ok p s s' :
  open_append p s = (Ok (), s') → fs_nodes s' = fs_nodes s ∧ is_Some (file_at s p).
Proof.
  intros (b & s1 & E1 & E2)%bind_Ok_inv. apply read_file_Ok in E1 as [-> ?].
  apply faulty_Ok in E2 as (s2 & ? & E). injection E as <-. eauto.
Qed.

Lemma append_file_Ok p b s s' :
  append_file p b s = (Ok (), s') →
  ∃ old, file_at s p = Some old ∧ file_at s' p = Some (old ++ b).
Proof.
  intros (old & s1 & E1 & E2)%bind_Ok_inv. apply read_file_Ok in E1 as [-> ?].
  apply faulty_write_Ok in E2 as (s2 & ? & ->). exists old. split; [done|].
  unfold file_at, fs_set. cbn. by rewrite lookup_insert_eq.
Qed.

Lemma write_file_Ok p b s s' : write_file p b s = (Ok (), s') → file_at s' p = Some b.
Proof.
  intros ([] & s1 & E1 & E2)%bind_Ok_inv. apply faulty_write_Ok in E2 as (s2 & ? & ->).
  unfold file_at, fs_set. cbn. by rewrite lookup_insert_eq.
Qed.

Lemma rename_Ok p q s s' :
  p ≠ q → rename p q s = (Ok (), s') →
  ∃ b, file_at s p = Some b ∧ file_at s' q = Some b ∧ file_at s' p = None.
Proof.
  intros Hne (b & s1 & E1 & E2)%bind_Ok_inv. apply read_file_Ok in E1 as [-> ?].
  apply bind_Ok_inv in E2 as ([] & s2 & E2 & E3).
  apply faulty_Ok in E3 as (s3 & ? & E). injection E as <-.
  exists b. unfold file_at, fs_set, fs_del in *. cbn.
  rewrite lookup_insert_eq, lookup_insert_ne, lookup_delete_eq by done. done.
Qed.

Lemma faulty_not_Ok {A} (m : M fs A) s r s' :
  (∀ s r s', m s = (r, s') → ∃ a, r = Ok a) → (∀ a, r ≠ Ok a) →
  faulty m s = (r, s') → fs_nodes s' = fs_nodes s.
Proof.
  intros Hm Hr E. unfold faulty in E. apply bind_inv in E as [(f & s1 & E1 & E2)|(r0 & E1 & _)].
  - apply next_fault_nodes in E1. destruct f.
    + apply Hm in E2 as [a ->]. by destruct (Hr a).
    + by injection E2 as <- <-.
    + apply Hm in E2 as [a ->]. by destruct (Hr a).
  - by apply next_fault_nodes in E1.
Qed.

(** A rename that failed moved nothing. *)
Lemma rename_failed p q s r s' :
  (∀ a, r ≠ Ok a) → rename p q s = (r, s') → fs_nodes s' = fs_nodes s.
Proof.
  intros Hr E. unfold rename in E. apply bind_inv in E as [(b & s1 & E1 & E2)|(r0 & E1 & _)].
  2: by apply read_file_pure in E1 as ->.
  apply read_file_pure in E1 as ->.
  apply bind_inv in E2 as [([] & s2 & E2 & E3)|(r0 & E2 & _)]; apply can_create_pure in E2 as ->.
  - eapply faulty_not_Ok; [|done|done]. intros ??? [= <- <-]. eauto.
  - done.
Qed.
