(* ===== verification/Proto.v ===== *)
(** * internal/proto: the wire protocol

    The message header, its JSON form as the struct tags give it, and the
    framing: a four-byte big-endian length, the JSON header, then the payload
    the header's Length announces. *)

From S2P Require Import Prelude GoStrings Go Sha256 Json JsonRec.
From Stdlib Require Import ZArith Lia String Ascii List Bool.
From stdpp Require Import base list strings gmap option numbers.

#[local] Open Scope string_scope.
#[local] Open Scope list_scope.
#[local] Open Scope Z_scope.

Definition ProtocolVersion : Z := 1.
Definition MaxHeaderSize : Z := Z.shiftl 1 20.
Definition ChunkSize : Z := 256 * 1024.
Definition MaxClipboardSize : Z := Z.shiftl 32 20.

(** ** Message kinds: [type Type string], so any string can arrive *)
Definition TypeHello : string := "hello".
Definition TypeSessionStart : string := "session_start".
Definition TypeFileHeader : string := "file_header".
Definition TypeChunk : string := "chunk".
Definition TypeFileEnd : string := "file_end".
Definition TypeClipboardData : string := "clipboard".
Definition TypeSessionEnd : string := "session_end".
Definition TypeAck : string := "ack".
Definition TypeProgress : string := "progress".
Definition TypeResumeQuery : string := "resume_query".
Definition TypeResumeOffer : string := "resume_offer".
Definition TypePairRequest : string := "pair_request".
Definition TypePairConfirm : string := "pair_confirm".

Definition KindFiles : string := "files".
Definition KindClipboard : string := "clipboard".

(** One file of a session manifest. *)
Record FileMeta := mkFileMeta {
  fm_IsDir : bool;
  fm_Name : string;
  fm_Size : Z;
  fm_SHA256 : string;
  fm_RelPath : string;
}.
#[export] Instance FileMeta_eq_dec : EqDecision FileMeta.
Proof. solve_decision. Defined.
Definition zero_FileMeta : FileMeta := mkFileMeta false "" 0 "" "".


(** The JSON envelope of every message. *)
Record Header := mkHeader {
  hdr_Folders : bool;
  hdr_Type : string;
  hdr_Version : Z;
  hdr_Fingerprint : string;
  hdr_Name : string;
  hdr_Addr : string;
  hdr_FcmToken : string;
  hdr_RNS : string;
  hdr_Kind : string;
  hdr_Files : list FileMeta;
  hdr_Resume : bool;
  hdr_SHA256 : string;
  hdr_FileIndex : Z;
  hdr_MIME : string;
  hdr_OK : bool;
  hdr_Error : string;
  hdr_Length : Z;
  hdr_BytesDone : Z;
  hdr_TotalBytes : Z;
}.
#[export] Instance Header_eq_dec : EqDecision Header.
Proof. solve_decision. Defined.
Definition zero_Header : Header := mkHeader false "" 0 "" "" "" "" "" "" [] false "" 0 "" false "" 0 0 0.


(** ** Field updates *)
Definition set_fm_IsDir (x : bool) (h : FileMeta) : FileMeta :=
  mkFileMeta x (fm_Name h) (fm_Size h) (fm_SHA256 h) (fm_RelPath h).
Definition set_fm_Name (x : string) (h : FileMeta) : FileMeta :=
  mkFileMeta (fm_IsDir h) x (fm_Size h) (fm_SHA256 h) (fm_RelPath h).
Definition set_fm_Size (x : Z) (h : FileMeta) : FileMeta :=
  mkFileMeta (fm_IsDir h) (fm_Name h) x (fm_SHA256 h) (fm_RelPath h).
Definition set_fm_SHA256 (x : string) (h : FileMeta) : FileMeta :=
  mkFileMeta (fm_IsDir h) (fm_Name h) (fm_Size h) x (fm_RelPath h).
Definition set_fm_RelPath (x : string) (h : FileMeta) : FileMeta :=
  mkFileMeta (fm_IsDir h) (fm_Name h) (fm_Size h) (fm_SHA256 h) x.

Definition set_hdr_Folders (x : bool) (h : Header) : Header :=
  mkHeader x (hdr_Type h) (hdr_Version h) (hdr_Fingerprint h) (hdr_Name h) (hdr_Addr h)
    (hdr_FcmToken h) (hdr_RNS h) (hdr_Kind h) (hdr_Files h) (hdr_Resume h) (hdr_SHA256 h)
    (hdr_FileIndex h) (hdr_MIME h) (hdr_OK h) (hdr_Error h) (hdr_Length h) (hdr_BytesDone h)
    (hdr_TotalBytes h).
Definition set_hdr_Type (x : string) (h : Header) : Header :=
  mkHeader (hdr_Folders h) x (hdr_Version h) (hdr_Fingerprint h) (hdr_Name h) (hdr_Addr h)
    (hdr_FcmToken h) (hdr_RNS h) (hdr_Kind h) (hdr_Files h) (hdr_Resume h) (hdr_SHA256 h)
    (hdr_FileIndex h) (hdr_MIME h) (hdr_OK h) (hdr_Error h) (hdr_Length h) (hdr_BytesDone h)
    (hdr_TotalBytes h).
Definition set_hdr_Version (x : Z) (h : Header) : Header :=
  mkHeader (hdr_Folders h) (hdr_Type h) x (hdr_Fingerprint h) (hdr_Name h) (hdr_Addr h)
    (hdr_FcmToken h) (hdr_RNS h) (hdr_Kind h) (hdr_Files h) (hdr_Resume h) (hdr_SHA256 h)
    (hdr_FileIndex h) (hdr_MIME h) (hdr_OK h) (hdr_Error h) (hdr_Length h) (hdr_BytesDone h)
    (hdr_TotalBytes h).
Definition set_hdr_Fingerprint (x : string) (h : Header) : Header :=
  mkHeader (hdr_Folders h) (hdr_Type h) (hdr_Version h) x (hdr_Name h) (hdr_Addr h)
    (hdr_FcmToken h) (hdr_RNS h) (hdr_Kind h) (hdr_Files h) (hdr_Resume h) (hdr_SHA256 h)
    (hdr_FileIndex h) (hdr_MIME h) (hdr_OK h) (hdr_Error h) (hdr_Length h) (hdr_BytesDone h)
    (hdr_TotalBytes h).
Definition set_hdr_Name (x : string) (h : Header) : Header :=
  mkHeader (hdr_Folders h) (hdr_Type h) (hdr_Version h) (hdr_Fingerprint h) x (hdr_Addr h)
    (hdr_FcmToken h) (hdr_RNS h) (hdr_Kind h) (hdr_Files h) (hdr_Resume h) (hdr_SHA256 h)
    (hdr_FileIndex h) (hdr_MIME h) (hdr_OK h) (hdr_Error h) (hdr_Length h) (hdr_BytesDone h)
    (hdr_TotalBytes h).
Definition set_hdr_Addr (x : string) (h : Header) : Header :=
  mkHeader (hdr_Folders h) (hdr_Type h) (hdr_Version h) (hdr_Fingerprint h) (hdr_Name h) x
    (hdr_FcmToken h) (hdr_RNS h) (hdr_Kind h) (hdr_Files h) (hdr_Resume h) (hdr_SHA256 h)
    (hdr_FileIndex h) (hdr_MIME h) (hdr_OK h) (hdr_Error h) (hdr_Length h) (hdr_BytesDone h)
    (hdr_TotalBytes h).
Definition set_hdr_FcmToken (x : string) (h : Header) : Header :=
  mkHeader (hdr_Folders h) (hdr_Type h) (hdr_Version h) (hdr_Fingerprint h) (hdr_Name h)
    (hdr_Addr h) x (hdr_RNS h) (hdr_Kind h) (hdr_Files h) (hdr_Resume h) (hdr_SHA256 h)
    (hdr_FileIndex h) (hdr_MIME h) (hdr_OK h) (hdr_Error h) (hdr_Length h) (hdr_BytesDone h)
    (hdr_TotalBytes h).
Definition set_hdr_RNS (x : string) (h : Header) : Header :=
  mkHeader (hdr_Folders h) (hdr_Type h) (hdr_Version h) (hdr_Fingerprint h) (hdr_Name h)
    (hdr_Addr h) (hdr_FcmToken h) x (hdr_Kind h) (hdr_Files h) (hdr_Resume h) (hdr_SHA256 h)
    (hdr_FileIndex h) (hdr_MIME h) (hdr_OK h) (hdr_Error h) (hdr_Length h) (hdr_BytesDone h)
    (hdr_TotalBytes h).
Definition set_hdr_Kind (x : string) (h : Header) : Header :=
  mkHeader (hdr_Folders h) (hdr_Type h) (hdr_Version h) (hdr_Fingerprint h) (hdr_Name h)
    (hdr_Addr h) (hdr_FcmToken h) (hdr_RNS h) x (hdr_Files h) (hdr_Resume h) (hdr_SHA256 h)
    (hdr_FileIndex h) (hdr_MIME h) (hdr_OK h) (hdr_Error h) (hdr_Length h) (hdr_BytesDone h)
    (hdr_TotalBytes h).
Definition set_hdr_Files (x : list FileMeta) (h : Header) : Header :=
  mkHeader (hdr_Folders h) (hdr_Type h) (hdr_Version h) (hdr_Fingerprint h) (hdr_Name h)
    (hdr_Addr h) (hdr_FcmToken h) (hdr_RNS h) (hdr_Kind h) x (hdr_Resume h) (hdr_SHA256 h)
    (hdr_FileIndex h) (hdr_MIME h) (hdr_OK h) (hdr_Error h) (hdr_Length h) (hdr_BytesDone h)
    (hdr_TotalBytes h).
Definition set_hdr_Resume (x : bool) (h : Header) : Header :=
  mkHeader (hdr_Folders h) (hdr_Type h) (hdr_Version h) (hdr_Fingerprint h) (hdr_Name h)
    (hdr_Addr h) (hdr_FcmToken h) (hdr_RNS h) (hdr_Kind h) (hdr_Files h) x (hdr_SHA256 h)
    (hdr_FileIndex h) (hdr_MIME h) (hdr_OK h) (hdr_Error h) (hdr_Length h) (hdr_BytesDone h)
    (hdr_TotalBytes h).
Definition set_hdr_SHA256 (x : string) (h : Header) : Header :=
  mkHeader (hdr_Folders h) (hdr_Type h) (hdr_Version h) (hdr_Fingerprint h) (hdr_Name h)
    (hdr_Addr h) (hdr_FcmToken h) (hdr_RNS h) (hdr_Kind h) (hdr_Files h) (hdr_Resume h) x
    (hdr_FileIndex h) (hdr_MIME h) (hdr_OK h) (hdr_Error h) (hdr_Length h) (hdr_BytesDone h)
    (hdr_TotalBytes h).
Definition set_hdr_FileIndex (x : Z) (h : Header) : Header :=
  mkHeader (hdr_Folders h) (hdr_Type h) (hdr_Version h) (hdr_Fingerprint h) (hdr_Name h)
    (hdr_Addr h) (hdr_FcmToken h) (hdr_RNS h) (hdr_Kind h) (hdr_Files h) (hdr_Resume h)
    (hdr_SHA256 h) x (hdr_MIME h) (hdr_OK h) (hdr_Error h) (hdr_Length h) (hdr_BytesDone h)
    (hdr_TotalBytes h).
Definition set_hdr_MIME (x : string) (h : Header) : Header :=
  mkHeader (hdr_Folders h) (hdr_Type h) (hdr_Version h) (hdr_Fingerprint h) (hdr_Name h)
    (hdr_Addr h) (hdr_FcmToken h) (hdr_RNS h) (hdr_Kind h) (hdr_Files h) (hdr_Resume h)
    (hdr_SHA256 h) (hdr_FileIndex h) x (hdr_OK h) (hdr_Error h) (hdr_Length h) (hdr_BytesDone h)
    (hdr_TotalBytes h).
Definition set_hdr_OK (x : bool) (h : Header) : Header :=
  mkHeader (hdr_Folders h) (hdr_Type h) (hdr_Version h) (hdr_Fingerprint h) (hdr_Name h)
    (hdr_Addr h) (hdr_FcmToken h) (hdr_RNS h) (hdr_Kind h) (hdr_Files h) (hdr_Resume h)
    (hdr_SHA256 h) (hdr_FileIndex h) (hdr_MIME h) x (hdr_Error h) (hdr_Length h)
    (hdr_BytesDone h) (hdr_TotalBytes h).
Definition set_hdr_Error (x : string) (h : Header) : Header :=
  mkHeader (hdr_Folders h) (hdr_Type h) (hdr_Version h) (hdr_Fingerprint h) (hdr_Name h)
    (hdr_Addr h) (hdr_FcmToken h) (hdr_RNS h) (hdr_Kind h) (hdr_Files h) (hdr_Resume h)
    (hdr_SHA256 h) (hdr_FileIndex h) (hdr_MIME h) (hdr_OK h) x (hdr_Length h) (hdr_BytesDone h)
    (hdr_TotalBytes h).
Definition set_hdr_Length (x : Z) (h : Header) : Header :=
  mkHeader (hdr_Folders h) (hdr_Type h) (hdr_Version h) (hdr_Fingerprint h) (hdr_Name h)
    (hdr_Addr h) (hdr_FcmToken h) (hdr_RNS h) (hdr_Kind h) (hdr_Files h) (hdr_Resume h)
    (hdr_SHA256 h) (hdr_FileIndex h) (hdr_MIME h) (hdr_OK h) (hdr_Error h) x (hdr_BytesDone h)
    (hdr_TotalBytes h).
Definition set_hdr_BytesDone (x : Z) (h : Header) : Header :=
  mkHeader (hdr_Folders h) (hdr_Type h) (hdr_Version h) (hdr_Fingerprint h) (hdr_Name h)
    (hdr_Addr h) (hdr_FcmToken h) (hdr_RNS h) (hdr_Kind h) (hdr_Files h) (hdr_Resume h)
    (hdr_SHA256 h) (hdr_FileIndex h) (hdr_MIME h) (hdr_OK h) (hdr_Error h) (hdr_Length h) x
    (hdr_TotalBytes h).
Definition set_hdr_TotalBytes (x : Z) (h : Header) : Header :=
  mkHeader (hdr_Folders h) (hdr_Type h) (hdr_Version h) (hdr_Fingerprint h) (hdr_Name h)
    (hdr_Addr h) (hdr_FcmToken h) (hdr_RNS h) (hdr_Kind h) (hdr_Files h) (hdr_Resume h)
    (hdr_SHA256 h) (hdr_FileIndex h) (hdr_MIME h) (hdr_OK h) (hdr_Error h) (hdr_Length h)
    (hdr_BytesDone h) x.


Definition FileMeta_json (h : FileMeta) : json :=
  JObj (
    opt_bool "is_dir" (fm_IsDir h) ++
    req_str "name" (fm_Name h) ++
    req_int "size" (fm_Size h) ++
    req_str "sha256" (fm_SHA256 h) ++
    opt_str "rel_path" (fm_RelPath h)).

Definition opt_files (k : string) (l : list FileMeta) : list (string * json) :=
  match l with [] => [] | _ => [(k, JArr (map FileMeta_json l))] end.

Definition Header_json (h : Header) : json :=
  JObj (
    opt_bool "folders" (hdr_Folders h) ++
    req_str "type" (hdr_Type h) ++
    opt_int "version" (hdr_Version h) ++
    opt_str "fingerprint" (hdr_Fingerprint h) ++
    opt_str "name" (hdr_Name h) ++
    opt_str "addr" (hdr_Addr h) ++
    opt_str "fcm_token" (hdr_FcmToken h) ++
    opt_str "rns" (hdr_RNS h) ++
    opt_str "kind" (hdr_Kind h) ++
    opt_files "files" (hdr_Files h) ++
    opt_bool "resume" (hdr_Resume h) ++
    opt_str "sha256" (hdr_SHA256 h) ++
    opt_int "file_index" (hdr_FileIndex h) ++
    opt_str "mime" (hdr_MIME h) ++
    opt_bool "ok" (hdr_OK h) ++
    opt_str "error" (hdr_Error h) ++
    opt_int "length" (hdr_Length h) ++
    opt_int "bytes_done" (hdr_BytesDone h) ++
    opt_int "total_bytes" (hdr_TotalBytes h)).


Definition FileMeta_fields : list (string * (json → FileMeta → option FileMeta)) :=
  [("is_dir", bool_field set_fm_IsDir);
   ("name", str_field set_fm_Name);
   ("size", int_field set_fm_Size);
   ("sha256", str_field set_fm_SHA256);
   ("rel_path", str_field set_fm_RelPath)].

Definition FileMeta_of_json (v : json) : option FileMeta :=
  decode_object FileMeta_fields zero_FileMeta v.

Definition files_field (set : list FileMeta → Header → Header) : field Header := λ v a,
  match v with
  | JNull => Some (set [] a)
  | JArr l =>
      match mapM FileMeta_of_json l with
      | Some fs => Some (set fs a)
      | None => None
      end
  | _ => None
  end.

Definition Header_fields : list (string * (json → Header → option Header)) :=
  [("folders", bool_field set_hdr_Folders);
   ("type", str_field set_hdr_Type);
   ("version", int_field set_hdr_Version);
   ("fingerprint", str_field set_hdr_Fingerprint);
   ("name", str_field set_hdr_Name);
   ("addr", str_field set_hdr_Addr);
   ("fcm_token", str_field set_hdr_FcmToken);
   ("rns", str_field set_hdr_RNS);
   ("kind", str_field set_hdr_Kind);
   ("files", files_field set_hdr_Files);
   ("resume", bool_field set_hdr_Resume);
   ("sha256", str_field set_hdr_SHA256);
   ("file_index", int_field set_hdr_FileIndex);
   ("mime", str_field set_hdr_MIME);
   ("ok", bool_field set_hdr_OK);
   ("error", str_field set_hdr_Error);
   ("length", int_field set_hdr_Length);
   ("bytes_done", int_field set_hdr_BytesDone);
   ("total_bytes", int_field set_hdr_TotalBytes)].

Definition Header_of_json (v : json) : option Header :=
  decode_object Header_fields zero_Header v.

(** [json.Marshal(hdr)] and [json.Unmarshal(raw, &hdr)]. *)
Definition marshal_Header (h : Header) : bytes := print (Header_json h).
Definition unmarshal_Header (raw : bytes) : option Header :=
  match parse raw with Some v => Header_of_json v | None => None end.

(** ** Framing *)

(** [WriteMessage]; [payload] is [None] for a nil reader. *)
Definition WriteMessage (hdr : Header) (payload : option bytes) : M conn unit :=
  let raw := marshal_Header hdr in
  let len := Z.of_nat (length raw) in
  if MaxHeaderSize <? len then throw ErrTooLarge
  else
    conn_write (be_bytes 4 len) ;;;
    conn_write raw ;;;
    if 0 <? hdr_Length hdr then
      match payload with
      | None => throw (Errorf ("proto: header declares " +:+ itoa (hdr_Length hdr) +:+
                               " payload bytes but payload is nil"))
      | Some p =>
          let n := Z.to_nat (hdr_Length hdr) in
          conn_write (take n p) ;;;
          if (length p <? n)%nat then throw EOF else ret ()
      end
    else ret ().

(** [WriteControl]: a message with no payload. *)
Definition WriteControl (hdr : Header) : M conn unit :=
  WriteMessage (set_hdr_Length 0 hdr) None.

Definition ReadHeader : M conn Header :=
  lenbuf <- read_full 4 ;;
  let n := be_word lenbuf in
  if (n =? 0) || (MaxHeaderSize <? n) then throw ErrTooLarge
  else
    raw <- read_full (Z.to_nat n) ;;
    match unmarshal_Header raw with
    | Some hdr => ret hdr
    | None => throw (Wrapf "proto: decode header" (Errorf "json"))
    end.

(** The bytes of a message without its payload. *)
Definition frame (hdr : Header) : bytes :=
  be_bytes 4 (Z.of_nat (length (marshal_Header hdr))) ++ marshal_Header hdr.

(** The header a peer decodes: every string made valid UTF-8. *)
Definition valid_FileMeta (h : FileMeta) : FileMeta :=
  mkFileMeta (fm_IsDir h) (to_valid (fm_Name h)) (fm_Size h) (to_valid (fm_SHA256 h))
    (to_valid (fm_RelPath h)).
Definition valid_Header (h : Header) : Header :=
  mkHeader (hdr_Folders h) (to_valid (hdr_Type h)) (hdr_Version h)
    (to_valid (hdr_Fingerprint h)) (to_valid (hdr_Name h)) (to_valid (hdr_Addr h))
    (to_valid (hdr_FcmToken h)) (to_valid (hdr_RNS h)) (to_valid (hdr_Kind h))
    (map valid_FileMeta (hdr_Files h)) (hdr_Resume h) (to_valid (hdr_SHA256 h))
    (hdr_FileIndex h) (to_valid (hdr_MIME h)) (hdr_OK h) (to_valid (hdr_Error h)) (hdr_Length h)
    (hdr_BytesDone h) (hdr_TotalBytes h).


(** ** The codec round trip *)

Lemma FileMeta_json_wf m : json_wf (FileMeta_json m).
Proof. unfold FileMeta_json. constructor. wire_wf. Qed.
Lemma wf_opt_files k l : wf_members (opt_files k l).
Proof.
  unfold opt_files. destruct l; constructor; [|constructor]. cbn [snd].
  constructor. apply json_wf_map. apply FileMeta_json_wf.
Qed.
#[export] Hint Resolve wf_opt_files : wire.
Lemma Header_json_wf h : json_wf (Header_json h).
Proof. unfold Header_json. constructor. wire_wf. Qed.

(** Bring the record decoded so far back to constructor form. *)
Ltac norm_record :=
  lazymatch goal with
  | |- decode_members _ _ ?h = _ =>
      let h' := eval cbv beta iota delta [
        set_fm_IsDir set_fm_Name set_fm_Size set_fm_SHA256 set_fm_RelPath fm_IsDir fm_Name
        fm_Size fm_SHA256 fm_RelPath set_hdr_Folders set_hdr_Type set_hdr_Version
        set_hdr_Fingerprint set_hdr_Name set_hdr_Addr set_hdr_FcmToken set_hdr_RNS set_hdr_Kind
        set_hdr_Files set_hdr_Resume set_hdr_SHA256 set_hdr_FileIndex set_hdr_MIME set_hdr_OK
        set_hdr_Error set_hdr_Length set_hdr_BytesDone set_hdr_TotalBytes hdr_Folders hdr_Type
        hdr_Version hdr_Fingerprint hdr_Name hdr_Addr hdr_FcmToken hdr_RNS hdr_Kind hdr_Files
        hdr_Resume hdr_SHA256 hdr_FileIndex hdr_MIME hdr_OK hdr_Error hdr_Length hdr_BytesDone
        hdr_TotalBytes] in h in change h with h'
  end.

Definition FileMeta_ok (m : FileMeta) : Prop := inInt64 (fm_Size m).
Definition Header_ok (h : Header) : Prop :=
  inInt64 (hdr_Version h) ∧ inInt64 (hdr_FileIndex h) ∧ inInt64 (hdr_Length h) ∧
  inInt64 (hdr_BytesDone h) ∧ inInt64 (hdr_TotalBytes h) ∧ Forall FileMeta_ok (hdr_Files h).

Lemma FileMeta_roundtrip m :
  FileMeta_ok m → FileMeta_of_json (norm (FileMeta_json m)) = Some (valid_FileMeta m).
Proof.
  intros Hs. unfold FileMeta_ok in Hs. destruct m as [d n s h r]. cbn in Hs.
  unfold FileMeta_json, FileMeta_of_json, decode_object. cbn [norm]. fold norm_member.
  rewrite decode_members_nil, !map_app. unfold zero_FileMeta.
  cbn [fm_IsDir fm_Name fm_Size fm_SHA256 fm_RelPath].
  do 5 (decode_step; norm_record).
  reflexivity.
Qed.

Lemma files_roundtrip l :
  Forall FileMeta_ok l →
  mapM FileMeta_of_json (map norm (map FileMeta_json l)) = Some (map valid_FileMeta l).
Proof.
  induction 1 as [|m l Hm _ IH]; [done|]. cbn [map mapM]. rewrite FileMeta_roundtrip by done.
  simpl. by rewrite IH.
Qed.

Lemma seg_opt_files k l ms a :
  find_field Header_fields (to_valid k) = Some (files_field set_hdr_Files) →
  set_hdr_Files [] a = a → Forall FileMeta_ok l →
  decode_members Header_fields (map norm_member (opt_files k l) ++ ms) a =
  decode_members Header_fields ms (set_hdr_Files (map valid_FileMeta l) a).
Proof.
  intros H H0 Hl. unfold opt_files. destruct l as [|m l].
  - cbn [map app]. by rewrite H0.
  - apply (decode_members_cons _ _ _ _ _ _ _ H). unfold files_field. cbn [norm].
    by rewrite files_roundtrip.
Qed.

Theorem Header_roundtrip h :
  Header_ok h → Header_of_json (norm (Header_json h)) = Some (valid_Header h).
Proof.
  intros (H1 & H2 & H3 & H4 & H5 & Hf). destruct h.
  cbn [hdr_Version hdr_FileIndex hdr_Length hdr_BytesDone hdr_TotalBytes hdr_Files] in *.
  unfold Header_json, Header_of_json, decode_object. cbn [norm]. fold norm_member.
  rewrite decode_members_nil, !map_app. unfold zero_Header.
  cbn [hdr_Folders hdr_Type hdr_Version hdr_Fingerprint hdr_Name hdr_Addr hdr_FcmToken hdr_RNS
    hdr_Kind hdr_Files hdr_Resume hdr_SHA256 hdr_FileIndex hdr_MIME hdr_OK hdr_Error hdr_Length
    hdr_BytesDone hdr_TotalBytes].
  do 9 (decode_step; norm_record).
  erewrite seg_opt_files; [|find_segment|reflexivity|assumption]; norm_record.
  do 9 (decode_step; norm_record). reflexivity.
Qed.

Lemma unmarshal_marshal h :
  Header_ok h → unmarshal_Header (marshal_Header h) = Some (valid_Header h).
Proof.
  intros H. unfold unmarshal_Header, marshal_Header.
  rewrite parse_print by apply Header_json_wf. by apply Header_roundtrip.
Qed.

Definition FileMeta_utf8 (m : FileMeta) : Prop := valid_FileMeta m = m.
Definition Header_utf8 (h : Header) : Prop := valid_Header h = h.

(** *** Framing *)
Definition fits (h : Header) : Prop := Z.of_nat (length (marshal_Header h)) ≤ MaxHeaderSize.

Lemma marshal_length h : 2 ≤ Z.of_nat (length (marshal_Header h)).
Proof.
  unfold marshal_Header, Header_json.
  match goal with |- context [JObj ?l] => pose proof (print_obj_length l) end. lia.
Qed.

Lemma frame_length h : length (frame h) = (4 + length (marshal_Header h))%nat.
Proof. unfold frame. by rewrite length_app, be_bytes_length. Qed.

(** Reading a frame gives its header back and leaves what follows it. *)
Lemma ReadHeader_frame h rest c :
  Header_ok h → fits h → c_in c = frame h ++ rest →
  ReadHeader c = (Ok (valid_Header h), set_c_in rest c).
Proof.
  intros Hok Hfit Hin. unfold ReadHeader, frame in *. pose proof (marshal_length h).
  unfold fits in Hfit.
  erewrite bind_Ok; [|eapply read_full_app; [apply be_bytes_length|by rewrite Hin, <-app_assoc]].
  cbv zeta. change MaxHeaderSize with 1048576 in *.
  rewrite be_word_bytes by (change (2 ^ (8 * Z.of_nat 4)) with 4294967296; lia).
  replace (_ || _) with false by lia.
  rewrite Nat2Z.id. erewrite bind_Ok; [|by eapply read_full_app].
  by rewrite unmarshal_marshal.
Qed.

(** A header that was read consumed at least five bytes and wrote nothing. *)
Lemma ReadHeader_Ok c h c' :
  ReadHeader c = (Ok h, c') →
  (length (c_in c') + 5 ≤ length (c_in c))%nat ∧ c_out c' = c_out c ∧ c_end c' = c_end c ∧
  c_writes c' = c_writes c.
Proof.
  unfold ReadHeader. intros (lb & c1 & E1 & E2)%bind_Ok_inv.
  cbv zeta in E2. destruct (be_word lb =? 0) eqn:En; [done|].
  destruct (MaxHeaderSize <? be_word lb) eqn:Em; [done|]. cbn [orb] in E2.
  apply bind_Ok_inv in E2 as (raw & c2 & E2 & E3).
  pose proof (be_word_range lb).
  assert (c' = c2) as -> by (destruct (unmarshal_Header raw); by inversion E3).
  apply read_full_ok in E1 as (L1 & I1 & ? & ? & ?), E2 as (L2 & I2 & ? & ? & ?).
  rewrite I1, I2, !length_app. split_and!; try congruence. lia.
Qed.

(** Whatever a read returns, nothing was written and no byte reappeared. *)
Lemma ReadHeader_frame_rule c r c' :
  ReadHeader c = (r, c') →
  c_out c' = c_out c ∧ c_end c' = c_end c ∧ c_writes c' = c_writes c ∧
  (length (c_in c') ≤ length (c_in c))%nat.
Proof.
  assert (∀ n c r c', read_full n c = (r, c') → c_out c' = c_out c ∧ c_end c' = c_end c ∧
    c_writes c' = c_writes c ∧ (length (c_in c') ≤ length (c_in c))%nat) as Hrf.
  { clear. intros n c r c' E. pose proof (read_full_shrinks _ _ _ _ E).
    unfold read_full in E. repeat case_match; by simplify_eq/=. }
  unfold ReadHeader. intros E. apply bind_inv in E as [(lb & c1 & E1 & E2)|(r0 & E1 & _)].
  2: by apply Hrf in E1.
  apply Hrf in E1 as (?&?&?&?). cbv zeta in E2. case_match.
  { injection E2 as <- <-. done. }
  apply bind_inv in E2 as [(raw & c2 & E2 & E3)|(r0 & E2 & _)].
  - apply Hrf in E2 as (?&?&?&?).
    assert (c' = c2) as -> by (destruct (unmarshal_Header raw); by inversion E3).
    split_and!; try congruence. lia.
  - apply Hrf in E2 as (?&?&?&?). split_and!; try congruence. lia.
Qed.

Lemma ReadHeader_no_fuel c : (ReadHeader c).1 ≠ NoFuel ∧ (ReadHeader c).1 ≠ Panic.
Proof.
  assert (∀ n c, (read_full n c).1 ≠ NoFuel ∧ (read_full n c).1 ≠ Panic) as Hrf.
  { clear. intros n c. unfold read_full. by repeat case_match. }
  unfold ReadHeader, bind. destruct (read_full 4 c) as [r1 c1] eqn:E1.
  pose proof (Hrf 4%nat c) as H1. rewrite E1 in H1. destruct r1; try done.
  cbv zeta. destruct (_ || _); [done|]. destruct (read_full _ c1) as [r2 c2] eqn:E2.
  pose proof (Hrf (Z.to_nat (be_word a)) c1) as H2. rewrite E2 in H2. destruct r2; try done.
  by destruct (unmarshal_Header _).
  all: cbn in *; tauto.
Qed.

Definition out_of (b : bytes) (c : conn) : conn :=
  mkConn (c_in c) (c_end c) (c_out c ++ b) (c_writes c).

Lemma conn_write_ok b c : c_writes c = None → conn_write b c = (Ok (), out_of b c).
Proof. unfold conn_write, out_of. by intros ->. Qed.

Lemma out_of_app a b c : out_of b (out_of a c) = out_of (a ++ b) c.
Proof. unfold out_of. cbn. by rewrite app_assoc. Qed.

Lemma WriteMessage_ok h p c :
  fits h → c_writes c = None → 0 < hdr_Length h ≤ Z.of_nat (length p) →
  WriteMessage h (Some p) c = (Ok (), out_of (frame h ++ take (Z.to_nat (hdr_Length h)) p) c).
Proof.
  unfold fits. intros Hf Hw Hl. unfold WriteMessage, frame.
  replace (_ <? _) with false by lia.
  erewrite bind_Ok by by apply conn_write_ok. erewrite bind_Ok by by apply conn_write_ok.
  replace (0 <? _) with true by lia. erewrite bind_Ok by by apply conn_write_ok.
  replace (_ <? _)%nat with false by (symmetry; apply Nat.ltb_ge; lia).
  rewrite !out_of_app. by rewrite <-!app_assoc.
Qed.

Lemma WriteControl_ok h c :
  hdr_Length h = 0 → fits h → c_writes c = None →
  WriteControl h c = (Ok (), out_of (frame h) c).
Proof.
  unfold fits. intros Hl Hf Hw. unfold WriteControl.
  replace (set_hdr_Length 0 h) with h by (destruct h; cbn in *; by subst).
  unfold WriteMessage, frame. replace (_ <? _) with false by lia.
  erewrite bind_Ok by by apply conn_write_ok. erewrite bind_Ok by by apply conn_write_ok.
  rewrite Hl, out_of_app. done.
Qed.

(** From a prefix of a frame and what follows it, nothing but that frame's
    header is ever read. *)
Lemma ReadHeader_prefix h rest c h' c' :
  Header_ok h → fits h → c_in c `prefix_of` frame h ++ rest →
  ReadHeader c = (Ok h', c') → h' = valid_Header h ∧ c_in c' `prefix_of` rest.
Proof.
  intros Hok Hfit [k Hk] E. destruct (decide (length (frame h) ≤ length (c_in c))%nat) as [Hl|Hl].
  - assert (frame h = take (length (frame h)) (c_in c)) as Hf.
    { apply (f_equal (take (length (frame h)))) in Hk. rewrite take_app_length in Hk.
      by rewrite take_app_le in Hk. }
    pose proof (take_drop (length (frame h)) (c_in c)) as Hin. rewrite <-Hf in Hin.
    rewrite (ReadHeader_frame h (drop (length (frame h)) (c_in c)) c) in E by done.
    injection E as <- <-. split; [done|]. exists k. cbn.
    apply (f_equal (drop (length (frame h)))) in Hk. rewrite drop_app_length in Hk.
    by rewrite drop_app_le in Hk.
  - exfalso. unfold ReadHeader in E. apply bind_Ok_inv in E as (lb & c1 & E1 & E2).
    apply read_full_ok in E1 as (L1 & I1 & _). pose proof (marshal_length h) as Hm.
    assert (lb = be_bytes 4 (Z.of_nat (length (marshal_Header h)))) as ->.
    { rewrite I1 in Hk. unfold frame in Hk. rewrite <-!app_assoc in Hk.
      by apply app_inj_1 in Hk as [<- _]; [|rewrite be_bytes_length, L1]. }
    unfold fits in Hfit. cbv zeta in E2. change MaxHeaderSize with 1048576 in *.
    rewrite be_word_bytes in E2 by (change (2 ^ (8 * Z.of_nat 4)) with 4294967296; lia).
    case_match; [done|]. apply bind_Ok_inv in E2 as (raw & c2 & E2 & _).
    apply read_full_ok in E2 as (L2 & I2 & _). rewrite frame_length, I1, I2, !length_app, L1, L2 in Hl. lia.
Qed.

(** What a failed write leaves on the wire is the beginning of the frame. *)
Lemma WriteControl_out h r c c' :
  hdr_Length h = 0 → WriteControl h c = (r, c') →
  c_in c' = c_in c ∧ c_end c' = c_end c ∧
  ∃ b, c_out c' = c_out c ++ b ∧ b `prefix_of` frame h ∧ (r = Ok () → b = frame h ∧ fits h) ∧
    (b = [] ∨ fits h).
Proof.
  intros Hl. unfold WriteControl. replace (set_hdr_Length 0 h) with h by (destruct h; cbn in *; by subst).
  unfold WriteMessage, fits. destruct (MaxHeaderSize <? Z.of_nat (length (marshal_Header h))) eqn:Em.
  { intros [= <- <-]. split_and!; [done..|]. exists []. rewrite app_nil_r. split_and!; [done|apply prefix_nil|done|by left]. }
  apply Z.ltb_ge in Em. unfold frame. rewrite Hl. change (0 <? 0) with false.
  set (lb := be_bytes 4 _). set (raw := marshal_Header h). intros E.
  assert (∀ b c r c', conn_write b c = (r, c') → c_in c' = c_in c ∧ c_end c' = c_end c ∧
    (r = Ok () ∧ c_out c' = c_out c ++ b ∨ (∃ e, r = Err e) ∧ c_out c' = c_out c)) as Hw.
  { clear. intros b c r c' E. unfold conn_write in E. destruct (c_writes c) as [[]|]; injection E as <- <-; eauto 10. }
  apply bind_inv in E as [([] & c1 & E1 & E2)|(r0 & E1 & Hr & ->)].
  2: { apply Hw in E1 as (-> & -> & [[-> _]|[[e ->] ->]]); [by destruct (Hr ())|].
    split_and!; [done..|]. exists []. rewrite app_nil_r. split_and!; [done|apply prefix_nil|done|by left]. }
  apply Hw in E1 as (H1 & H2 & [[_ H3]|[[e He] _]]); [|done].
  apply bind_inv in E2 as [([] & c2 & E2 & E3)|(r0 & E2 & Hr & ->)].
  - apply Hw in E2 as (H4 & H5 & [[_ H6]|[[e He] _]]); [|done]. injection E3 as <- <-.
    split_and!; [congruence..|]. exists (lb ++ raw). rewrite H6, H3, <-app_assoc. split_and!; [done..|by right].
  - apply Hw in E2 as (H4 & H5 & [[-> _]|[[e ->] H6]]); [by destruct (Hr ())|].
    split_and!; [congruence..|]. exists lb. rewrite H6, H3. split_and!; [done|by exists raw|done|by right].
Qed.
