(* ===== verification/Ipc.v ===== *)
(** * internal/ipc: the control protocol between the CLI and the daemon

    The command names and the records both sides exchange. A pointer field is
    an option; times are already formatted text. *)

From S2P Require Import Prelude GoStrings Go.
From Stdlib Require Import ZArith String Ascii List Bool.
From stdpp Require Import base list strings gmap option numbers.

#[local] Open Scope string_scope.
#[local] Open Scope list_scope.
#[local] Open Scope Z_scope.

Definition CmdStatus : string := "status".
Definition CmdPairShow : string := "pair-show".
Definition CmdPairAdd : string := "pair-add".
Definition CmdDevices : string := "devices".
Definition CmdRevoke : string := "revoke".
Definition CmdRename : string := "rename".
Definition CmdSendFiles : string := "send-files".
Definition CmdSendClip : string := "send-clipboard".
Definition CmdSubscribe : string := "subscribe".
Definition CmdNearby : string := "nearby".
Definition CmdPairWith : string := "pair-with".
Definition CmdPairPending : string := "pair-pending".
Definition CmdPairConfirm : string := "pair-confirm".
Definition CmdPing : string := "ping".
Definition CmdQueue : string := "queue".
Definition CmdUnqueue : string := "unqueue".

Record DeviceInfo := mkDeviceInfo {
  di_Name : string;
  di_Fingerprint : string;
  di_Addr : string;
  di_PairedAt : string;
}.

Record StatusInfo := mkStatusInfo {
  st_Name : string;
  st_Fingerprint : string;
  st_ListenAddr : string;
  st_NumDevices : Z;
  st_LastPeer : string;
  st_RNSAddr : string;
  st_RNSHubs : list string;
}.

Record PairInfo := mkPairInfo {
  pi_ID : string;
  pi_Name : string;
  pi_Fingerprint : string;
  pi_Code : string;
}.
#[export] Instance PairInfo_eq_dec : EqDecision PairInfo.
Proof. solve_decision. Defined.

Record NearbyInfo := mkNearbyInfo {
  ni_Name : string;
  ni_Addr : string;
  ni_Fingerprint : string;
  ni_Paired : bool;
}.
#[export] Instance NearbyInfo_eq_dec : EqDecision NearbyInfo.
Proof. solve_decision. Defined.

Record QueueItem := mkQueueItem {
  qi_ID : string;
  qi_Peer : string;
  qi_What : string;
  qi_Paths : list string;
  qi_Added : string;
  qi_Reason : string;
  qi_Tries : Z;
}.

(** One push on a subscription. *)
Record Event := mkEvent {
  ev_Kind : string;
  ev_Peer : string;
  ev_File : string;
  ev_Index : Z;
  ev_Count : Z;
  ev_BytesDone : Z;
  ev_Total : Z;
  ev_Err : string;
  ev_Pair : option PairInfo;
  ev_Path : string;
}.
#[export] Instance Event_eq_dec : EqDecision Event.
Proof. solve_decision. Defined.

(** An event with only its kind and peer. *)
Definition event (kind peer : string) : Event := mkEvent kind peer "" 0 0 0 0 "" None "".

Record Request := mkRequest {
  rq_Cmd : string;
  rq_Target : string;
  rq_PairURI : string;
  rq_Name : string;
  rq_Files : list string;
  rq_Text : string;
  rq_MIME : string;
  rq_ID : string;
  rq_OK : bool;
}.

Record Response := mkResponse {
  rs_Line : string;
  rs_QR : string;
  rs_Devices : list DeviceInfo;
  rs_Status : option StatusInfo;
  rs_Event : option Event;
  rs_Pair : option PairInfo;
  rs_Pending : list PairInfo;
  rs_Queue : list QueueItem;
  rs_Nearby : list NearbyInfo;
  rs_Done : bool;
  rs_Err : string;
}.
Definition zero_Response : Response :=
  mkResponse "" "" [] None None None [] [] [] false "".
