(* ===== verification/IpcJson.v ===== *)
(** * internal/ipc: the records as JSON

    The struct tags of ipc.go: how each record of the control protocol is
    written and read, with the round trip of every one. *)

From S2P Require Import Prelude GoStrings Go Json JsonRec Ipc.
From Stdlib Require Import ZArith Lia String Ascii List Bool.
From stdpp Require Import base list strings gmap option numbers.

#[local] Open Scope string_scope.
#[local] Open Scope list_scope.
#[local] Open Scope Z_scope.

Definition req_bool (k : string) (b : bool) : list (string * json) := [(k, JBool b)].
Lemma wf_req_bool k b : wf_members (req_bool k b).
Proof. repeat constructor. Qed.
#[export] Hint Resolve wf_req_bool wf_opt_ptr wf_opt_objs : wire.
Lemma seg_req_bool {A} (fs : list (string * field A)) k b upd ms a :
  find_field fs (to_valid k) = Some (bool_field upd) →
  decode_members fs (map norm_member (req_bool k b) ++ ms) a = decode_members fs ms (upd b a).
Proof. intros H. by apply (decode_members_cons _ _ _ _ _ _ _ H). Qed.

(** Compute the record decoded so far. *)
Ltac norm_record reduce :=
  lazymatch goal with
  | |- decode_members _ _ ?h = _ => let h' := reduce h in change h with h'
  end.
Ltac ipc_step :=
  first
    [ decode_step
    | rewrite <-?app_assoc; erewrite seg_opt_strs; [|find_segment|reflexivity]
    | rewrite <-?app_assoc; erewrite seg_req_bool; [|find_segment] ].

(** *** DeviceInfo *)
Definition zero_DeviceInfo : DeviceInfo := mkDeviceInfo "" "" "" "".
Definition set_di_Name x a := mkDeviceInfo x (di_Fingerprint a) (di_Addr a) (di_PairedAt a).
Definition set_di_Fingerprint x a := mkDeviceInfo (di_Name a) x (di_Addr a) (di_PairedAt a).
Definition set_di_Addr x a := mkDeviceInfo (di_Name a) (di_Fingerprint a) x (di_PairedAt a).
Definition set_di_PairedAt x a := mkDeviceInfo (di_Name a) (di_Fingerprint a) (di_Addr a) x.
Definition DeviceInfo_members (a : DeviceInfo) : list (string * json) :=
  req_str "name" (di_Name a) ++ req_str "fingerprint" (di_Fingerprint a) ++ req_str "addr" (di_Addr a) ++
  req_str "paired_at" (di_PairedAt a).
Definition DeviceInfo_fields : list (string * field DeviceInfo) :=
  [("name", str_field set_di_Name); ("fingerprint", str_field set_di_Fingerprint);
   ("addr", str_field set_di_Addr); ("paired_at", str_field set_di_PairedAt)].
Definition valid_DeviceInfo (a : DeviceInfo) : DeviceInfo := mkDeviceInfo (to_valid (di_Name a))
    (to_valid (di_Fingerprint a)) (to_valid (di_Addr a)) (to_valid (di_PairedAt a)).
Lemma DeviceInfo_wf a : wf_members (DeviceInfo_members a).
Proof. unfold DeviceInfo_members. repeat apply wf_app; auto with wire. Qed.
#[export] Hint Resolve DeviceInfo_wf : wire.
Ltac norm_DeviceInfo := norm_record ltac:(fun h => eval cbv beta iota delta [set_di_Name set_di_Fingerprint
  set_di_Addr set_di_PairedAt di_Name di_Fingerprint di_Addr di_PairedAt] in h).
Lemma DeviceInfo_roundtrip a : 
  decode_members DeviceInfo_fields (map norm_member (DeviceInfo_members a)) zero_DeviceInfo = Some (valid_DeviceInfo a).
Proof.
  destruct a as [x0 x1 x2 x3].
  unfold DeviceInfo_members, zero_DeviceInfo. rewrite decode_members_nil, !map_app.
  cbn [di_Name di_Fingerprint di_Addr di_PairedAt].
  do 4 (ipc_step; norm_DeviceInfo).
  reflexivity.
Qed.

(** *** StatusInfo *)
Definition zero_StatusInfo : StatusInfo := mkStatusInfo "" "" "" 0 "" "" [].
Definition set_st_Name x a := mkStatusInfo x (st_Fingerprint a) (st_ListenAddr a) (st_NumDevices a)
    (st_LastPeer a) (st_RNSAddr a) (st_RNSHubs a).
Definition set_st_Fingerprint x a := mkStatusInfo (st_Name a) x (st_ListenAddr a) (st_NumDevices a)
    (st_LastPeer a) (st_RNSAddr a) (st_RNSHubs a).
Definition set_st_ListenAddr x a := mkStatusInfo (st_Name a) (st_Fingerprint a) x (st_NumDevices a)
    (st_LastPeer a) (st_RNSAddr a) (st_RNSHubs a).
Definition set_st_NumDevices x a := mkStatusInfo (st_Name a) (st_Fingerprint a) (st_ListenAddr a) x
    (st_LastPeer a) (st_RNSAddr a) (st_RNSHubs a).
Definition set_st_LastPeer x a := mkStatusInfo (st_Name a) (st_Fingerprint a) (st_ListenAddr a)
    (st_NumDevices a) x (st_RNSAddr a) (st_RNSHubs a).
Definition set_st_RNSAddr x a := mkStatusInfo (st_Name a) (st_Fingerprint a) (st_ListenAddr a)
    (st_NumDevices a) (st_LastPeer a) x (st_RNSHubs a).
Definition set_st_RNSHubs x a := mkStatusInfo (st_Name a) (st_Fingerprint a) (st_ListenAddr a)
    (st_NumDevices a) (st_LastPeer a) (st_RNSAddr a) x.
Definition StatusInfo_members (a : StatusInfo) : list (string * json) :=
  req_str "name" (st_Name a) ++ req_str "fingerprint" (st_Fingerprint a) ++
  req_str "listen_addr" (st_ListenAddr a) ++ req_int "num_devices" (st_NumDevices a) ++
  opt_str "last_peer" (st_LastPeer a) ++ opt_str "rns_addr" (st_RNSAddr a) ++
  opt_strs "rns_hubs" (st_RNSHubs a).
Definition StatusInfo_fields : list (string * field StatusInfo) :=
  [("name", str_field set_st_Name); ("fingerprint", str_field set_st_Fingerprint);
   ("listen_addr", str_field set_st_ListenAddr); ("num_devices", int_field set_st_NumDevices);
   ("last_peer", str_field set_st_LastPeer); ("rns_addr", str_field set_st_RNSAddr);
   ("rns_hubs", strs_field set_st_RNSHubs)].
Definition valid_StatusInfo (a : StatusInfo) : StatusInfo := mkStatusInfo (to_valid (st_Name a))
    (to_valid (st_Fingerprint a)) (to_valid (st_ListenAddr a)) (st_NumDevices a) (to_valid (st_LastPeer a))
    (to_valid (st_RNSAddr a)) (map to_valid (st_RNSHubs a)).
Definition StatusInfo_ok (a : StatusInfo) : Prop := inInt64 (st_NumDevices a).
Lemma StatusInfo_wf a : wf_members (StatusInfo_members a).
Proof. unfold StatusInfo_members. repeat apply wf_app; auto with wire. Qed.
#[export] Hint Resolve StatusInfo_wf : wire.
Ltac norm_StatusInfo := norm_record ltac:(fun h => eval cbv beta iota delta [set_st_Name set_st_Fingerprint
  set_st_ListenAddr set_st_NumDevices set_st_LastPeer set_st_RNSAddr set_st_RNSHubs st_Name st_Fingerprint
  st_ListenAddr st_NumDevices st_LastPeer st_RNSAddr st_RNSHubs] in h).
Lemma StatusInfo_roundtrip a : StatusInfo_ok a →
  decode_members StatusInfo_fields (map norm_member (StatusInfo_members a)) zero_StatusInfo = Some (valid_StatusInfo a).
Proof.
  intros Hok. unfold StatusInfo_ok in Hok. destruct a as [x0 x1 x2 x3 x4 x5 x6]. cbn in Hok. destruct_and? Hok.
  unfold StatusInfo_members, zero_StatusInfo. rewrite decode_members_nil, !map_app.
  cbn [st_Name st_Fingerprint st_ListenAddr st_NumDevices st_LastPeer st_RNSAddr st_RNSHubs].
  do 7 (ipc_step; norm_StatusInfo).
  reflexivity.
Qed.

(** *** PairInfo *)
Definition zero_PairInfo : PairInfo := mkPairInfo "" "" "" "".
Definition set_pi_ID x a := mkPairInfo x (pi_Name a) (pi_Fingerprint a) (pi_Code a).
Definition set_pi_Name x a := mkPairInfo (pi_ID a) x (pi_Fingerprint a) (pi_Code a).
Definition set_pi_Fingerprint x a := mkPairInfo (pi_ID a) (pi_Name a) x (pi_Code a).
Definition set_pi_Code x a := mkPairInfo (pi_ID a) (pi_Name a) (pi_Fingerprint a) x.
Definition PairInfo_members (a : PairInfo) : list (string * json) :=
  req_str "id" (pi_ID a) ++ req_str "name" (pi_Name a) ++ req_str "fingerprint" (pi_Fingerprint a) ++
  req_str "code" (pi_Code a).
Definition PairInfo_fields : list (string * field PairInfo) :=
  [("id", str_field set_pi_ID); ("name", str_field set_pi_Name);
   ("fingerprint", str_field set_pi_Fingerprint); ("code", str_field set_pi_Code)].
Definition valid_PairInfo (a : PairInfo) : PairInfo := mkPairInfo (to_valid (pi_ID a))
    (to_valid (pi_Name a)) (to_valid (pi_Fingerprint a)) (to_valid (pi_Code a)).
Lemma PairInfo_wf a : wf_members (PairInfo_members a).
Proof. unfold PairInfo_members. repeat apply wf_app; auto with wire. Qed.
#[export] Hint Resolve PairInfo_wf : wire.
Ltac norm_PairInfo := norm_record ltac:(fun h => eval cbv beta iota delta [set_pi_ID set_pi_Name
  set_pi_Fingerprint set_pi_Code pi_ID pi_Name pi_Fingerprint pi_Code] in h).
Lemma PairInfo_roundtrip a : 
  decode_members PairInfo_fields (map norm_member (PairInfo_members a)) zero_PairInfo = Some (valid_PairInfo a).
Proof.
  destruct a as [x0 x1 x2 x3].
  unfold PairInfo_members, zero_PairInfo. rewrite decode_members_nil, !map_app.
  cbn [pi_ID pi_Name pi_Fingerprint pi_Code].
  do 4 (ipc_step; norm_PairInfo).
  reflexivity.
Qed.

(** *** NearbyInfo *)
Definition zero_NearbyInfo : NearbyInfo := mkNearbyInfo "" "" "" false.
Definition set_ni_Name x a := mkNearbyInfo x (ni_Addr a) (ni_Fingerprint a) (ni_Paired a).
Definition set_ni_Addr x a := mkNearbyInfo (ni_Name a) x (ni_Fingerprint a) (ni_Paired a).
Definition set_ni_Fingerprint x a := mkNearbyInfo (ni_Name a) (ni_Addr a) x (ni_Paired a).
Definition set_ni_Paired x a := mkNearbyInfo (ni_Name a) (ni_Addr a) (ni_Fingerprint a) x.
Definition NearbyInfo_members (a : NearbyInfo) : list (string * json) :=
  req_str "name" (ni_Name a) ++ req_str "addr" (ni_Addr a) ++ req_str "fingerprint" (ni_Fingerprint a) ++
  req_bool "paired" (ni_Paired a).
Definition NearbyInfo_fields : list (string * field NearbyInfo) :=
  [("name", str_field set_ni_Name); ("addr", str_field set_ni_Addr);
   ("fingerprint", str_field set_ni_Fingerprint); ("paired", bool_field set_ni_Paired)].
Definition valid_NearbyInfo (a : NearbyInfo) : NearbyInfo := mkNearbyInfo (to_valid (ni_Name a))
    (to_valid (ni_Addr a)) (to_valid (ni_Fingerprint a)) (ni_Paired a).
Lemma NearbyInfo_wf a : wf_members (NearbyInfo_members a).
Proof. unfold NearbyInfo_members. repeat apply wf_app; auto with wire. Qed.
#[export] Hint Resolve NearbyInfo_wf : wire.
Ltac norm_NearbyInfo := norm_record ltac:(fun h => eval cbv beta iota delta [set_ni_Name set_ni_Addr
  set_ni_Fingerprint set_ni_Paired ni_Name ni_Addr ni_Fingerprint ni_Paired] in h).
Lemma NearbyInfo_roundtrip a : 
  decode_members NearbyInfo_fields (map norm_member (NearbyInfo_members a)) zero_NearbyInfo = Some (valid_NearbyInfo a).
Proof.
  destruct a as [x0 x1 x2 x3].
  unfold NearbyInfo_members, zero_NearbyInfo. rewrite decode_members_nil, !map_app.
  cbn [ni_Name ni_Addr ni_Fingerprint ni_Paired].
  do 4 (ipc_step; norm_NearbyInfo).
  reflexivity.
Qed.

(** *** QueueItem *)
Definition zero_QueueItem : QueueItem := mkQueueItem "" "" "" [] "" "" 0.
Definition set_qi_ID x a := mkQueueItem x (qi_Peer a) (qi_What a) (qi_Paths a) (qi_Added a) (qi_Reason a)
    (qi_Tries a).
Definition set_qi_Peer x a := mkQueueItem (qi_ID a) x (qi_What a) (qi_Paths a) (qi_Added a) (qi_Reason a)
    (qi_Tries a).
Definition set_qi_What x a := mkQueueItem (qi_ID a) (qi_Peer a) x (qi_Paths a) (qi_Added a) (qi_Reason a)
    (qi_Tries a).
Definition set_qi_Paths x a := mkQueueItem (qi_ID a) (qi_Peer a) (qi_What a) x (qi_Added a) (qi_Reason a)
    (qi_Tries a).
Definition set_qi_Added x a := mkQueueItem (qi_ID a) (qi_Peer a) (qi_What a) (qi_Paths a) x (qi_Reason a)
    (qi_Tries a).
Definition set_qi_Reason x a := mkQueueItem (qi_ID a) (qi_Peer a) (qi_What a) (qi_Paths a) (qi_Added a) x
    (qi_Tries a).
Definition set_qi_Tries x a := mkQueueItem (qi_ID a) (qi_Peer a) (qi_What a) (qi_Paths a) (qi_Added a)
    (qi_Reason a) x.
Definition QueueItem_members (a : QueueItem) : list (string * json) :=
  req_str "id" (qi_ID a) ++ req_str "peer" (qi_Peer a) ++ req_str "what" (qi_What a) ++
  opt_strs "paths" (qi_Paths a) ++ req_str "added" (qi_Added a) ++ req_str "reason" (qi_Reason a) ++
  req_int "tries" (qi_Tries a).
Definition QueueItem_fields : list (string * field QueueItem) :=
  [("id", str_field set_qi_ID); ("peer", str_field set_qi_Peer); ("what", str_field set_qi_What);
   ("paths", strs_field set_qi_Paths); ("added", str_field set_qi_Added);
   ("reason", str_field set_qi_Reason); ("tries", int_field set_qi_Tries)].
Definition valid_QueueItem (a : QueueItem) : QueueItem := mkQueueItem (to_valid (qi_ID a))
    (to_valid (qi_Peer a)) (to_valid (qi_What a)) (map to_valid (qi_Paths a)) (to_valid (qi_Added a))
    (to_valid (qi_Reason a)) (qi_Tries a).
Definition QueueItem_ok (a : QueueItem) : Prop := inInt64 (qi_Tries a).
Lemma QueueItem_wf a : wf_members (QueueItem_members a).
Proof. unfold QueueItem_members. repeat apply wf_app; auto with wire. Qed.
#[export] Hint Resolve QueueItem_wf : wire.
Ltac norm_QueueItem := norm_record ltac:(fun h => eval cbv beta iota delta [set_qi_ID set_qi_Peer
  set_qi_What set_qi_Paths set_qi_Added set_qi_Reason set_qi_Tries qi_ID qi_Peer qi_What qi_Paths qi_Added
  qi_Reason qi_Tries] in h).
Lemma QueueItem_roundtrip a : QueueItem_ok a →
  decode_members QueueItem_fields (map norm_member (QueueItem_members a)) zero_QueueItem = Some (valid_QueueItem a).
Proof.
  intros Hok. unfold QueueItem_ok in Hok. destruct a as [x0 x1 x2 x3 x4 x5 x6]. cbn in Hok. destruct_and? Hok.
  unfold QueueItem_members, zero_QueueItem. rewrite decode_members_nil, !map_app.
  cbn [qi_ID qi_Peer qi_What qi_Paths qi_Added qi_Reason qi_Tries].
  do 7 (ipc_step; norm_QueueItem).
  reflexivity.
Qed.

(** *** Event *)
Definition zero_Event : Event := mkEvent "" "" "" 0 0 0 0 "" None "".
Definition set_ev_Kind x a := mkEvent x (ev_Peer a) (ev_File a) (ev_Index a) (ev_Count a) (ev_BytesDone a)
    (ev_Total a) (ev_Err a) (ev_Pair a) (ev_Path a).
Definition set_ev_Peer x a := mkEvent (ev_Kind a) x (ev_File a) (ev_Index a) (ev_Count a) (ev_BytesDone a)
    (ev_Total a) (ev_Err a) (ev_Pair a) (ev_Path a).
Definition set_ev_File x a := mkEvent (ev_Kind a) (ev_Peer a) x (ev_Index a) (ev_Count a) (ev_BytesDone a)
    (ev_Total a) (ev_Err a) (ev_Pair a) (ev_Path a).
Definition set_ev_Index x a := mkEvent (ev_Kind a) (ev_Peer a) (ev_File a) x (ev_Count a) (ev_BytesDone a)
    (ev_Total a) (ev_Err a) (ev_Pair a) (ev_Path a).
Definition set_ev_Count x a := mkEvent (ev_Kind a) (ev_Peer a) (ev_File a) (ev_Index a) x (ev_BytesDone a)
    (ev_Total a) (ev_Err a) (ev_Pair a) (ev_Path a).
Definition set_ev_BytesDone x a := mkEvent (ev_Kind a) (ev_Peer a) (ev_File a) (ev_Index a) (ev_Count a) x
    (ev_Total a) (ev_Err a) (ev_Pair a) (ev_Path a).
Definition set_ev_Total x a := mkEvent (ev_Kind a) (ev_Peer a) (ev_File a) (ev_Index a) (ev_Count a)
    (ev_BytesDone a) x (ev_Err a) (ev_Pair a) (ev_Path a).
Definition set_ev_Err x a := mkEvent (ev_Kind a) (ev_Peer a) (ev_File a) (ev_Index a) (ev_Count a)
    (ev_BytesDone a) (ev_Total a) x (ev_Pair a) (ev_Path a).
Definition set_ev_Pair x a := mkEvent (ev_Kind a) (ev_Peer a) (ev_File a) (ev_Index a) (ev_Count a)
    (ev_BytesDone a) (ev_Total a) (ev_Err a) x (ev_Path a).
Definition set_ev_Path x a := mkEvent (ev_Kind a) (ev_Peer a) (ev_File a) (ev_Index a) (ev_Count a)
    (ev_BytesDone a) (ev_Total a) (ev_Err a) (ev_Pair a) x.
Definition Event_members (a : Event) : list (string * json) :=
  req_str "kind" (ev_Kind a) ++ req_str "peer" (ev_Peer a) ++ req_str "file" (ev_File a) ++
  req_int "index" (ev_Index a) ++ req_int "count" (ev_Count a) ++ req_int "bytes_done" (ev_BytesDone a) ++
  req_int "total" (ev_Total a) ++ opt_str "err" (ev_Err a) ++
  opt_ptr "pair" PairInfo_members (ev_Pair a) ++ opt_str "path" (ev_Path a).
Definition Event_fields : list (string * field Event) :=
  [("kind", str_field set_ev_Kind); ("peer", str_field set_ev_Peer); ("file", str_field set_ev_File);
   ("index", int_field set_ev_Index); ("count", int_field set_ev_Count);
   ("bytes_done", int_field set_ev_BytesDone); ("total", int_field set_ev_Total);
   ("err", str_field set_ev_Err); ("pair", ptr_field PairInfo_fields zero_PairInfo ev_Pair set_ev_Pair);
   ("path", str_field set_ev_Path)].
Definition valid_Event (a : Event) : Event := mkEvent (to_valid (ev_Kind a)) (to_valid (ev_Peer a))
    (to_valid (ev_File a)) (ev_Index a) (ev_Count a) (ev_BytesDone a) (ev_Total a) (to_valid (ev_Err a))
    (valid_PairInfo <$> ev_Pair a) (to_valid (ev_Path a)).
Definition Event_ok (a : Event) : Prop := inInt64 (ev_Index a) ∧ inInt64 (ev_Count a) ∧ inInt64 (ev_BytesDone a) ∧ inInt64 (ev_Total a).
Lemma Event_wf a : wf_members (Event_members a).
Proof. unfold Event_members. repeat apply wf_app; auto with wire. Qed.
#[export] Hint Resolve Event_wf : wire.
Ltac norm_Event := norm_record ltac:(fun h => eval cbv beta iota delta [set_ev_Kind set_ev_Peer set_ev_File
  set_ev_Index set_ev_Count set_ev_BytesDone set_ev_Total set_ev_Err set_ev_Pair set_ev_Path ev_Kind
  ev_Peer ev_File ev_Index ev_Count ev_BytesDone ev_Total ev_Err ev_Pair ev_Path] in h).
Lemma Event_roundtrip a : Event_ok a →
  decode_members Event_fields (map norm_member (Event_members a)) zero_Event = Some (valid_Event a).
Proof.
  intros Hok. unfold Event_ok in Hok. destruct a as [x0 x1 x2 x3 x4 x5 x6 x7 x8 x9]. cbn in Hok. destruct_and? Hok.
  unfold Event_members, zero_Event. rewrite decode_members_nil, !map_app.
  cbn [ev_Kind ev_Peer ev_File ev_Index ev_Count ev_BytesDone ev_Total ev_Err ev_Pair ev_Path].
  do 8 (ipc_step; norm_Event).
  rewrite <-?app_assoc. erewrite (seg_opt_ptr _ _ _ _ valid_PairInfo (λ _, True) (λ b _, PairInfo_roundtrip b)); [|find_segment|reflexivity|reflexivity|done]. norm_Event.
  ipc_step; norm_Event.
  reflexivity.
Qed.

(** *** Request *)
Definition zero_Request : Request := mkRequest "" "" "" "" [] "" "" "" false.
Definition set_rq_Cmd x a := mkRequest x (rq_Target a) (rq_PairURI a) (rq_Name a) (rq_Files a) (rq_Text a)
    (rq_MIME a) (rq_ID a) (rq_OK a).
Definition set_rq_Target x a := mkRequest (rq_Cmd a) x (rq_PairURI a) (rq_Name a) (rq_Files a) (rq_Text a)
    (rq_MIME a) (rq_ID a) (rq_OK a).
Definition set_rq_PairURI x a := mkRequest (rq_Cmd a) (rq_Target a) x (rq_Name a) (rq_Files a) (rq_Text a)
    (rq_MIME a) (rq_ID a) (rq_OK a).
Definition set_rq_Name x a := mkRequest (rq_Cmd a) (rq_Target a) (rq_PairURI a) x (rq_Files a) (rq_Text a)
    (rq_MIME a) (rq_ID a) (rq_OK a).
Definition set_rq_Files x a := mkRequest (rq_Cmd a) (rq_Target a) (rq_PairURI a) (rq_Name a) x (rq_Text a)
    (rq_MIME a) (rq_ID a) (rq_OK a).
Definition set_rq_Text x a := mkRequest (rq_Cmd a) (rq_Target a) (rq_PairURI a) (rq_Name a) (rq_Files a) x
    (rq_MIME a) (rq_ID a) (rq_OK a).
Definition set_rq_MIME x a := mkRequest (rq_Cmd a) (rq_Target a) (rq_PairURI a) (rq_Name a) (rq_Files a)
    (rq_Text a) x (rq_ID a) (rq_OK a).
Definition set_rq_ID x a := mkRequest (rq_Cmd a) (rq_Target a) (rq_PairURI a) (rq_Name a) (rq_Files a)
    (rq_Text a) (rq_MIME a) x (rq_OK a).
Definition set_rq_OK x a := mkRequest (rq_Cmd a) (rq_Target a) (rq_PairURI a) (rq_Name a) (rq_Files a)
    (rq_Text a) (rq_MIME a) (rq_ID a) x.
Definition Request_members (a : Request) : list (string * json) :=
  req_str "cmd" (rq_Cmd a) ++ opt_str "target" (rq_Target a) ++ opt_str "pair_uri" (rq_PairURI a) ++
  opt_str "name" (rq_Name a) ++ opt_strs "files" (rq_Files a) ++ opt_str "text" (rq_Text a) ++
  opt_str "mime" (rq_MIME a) ++ opt_str "id" (rq_ID a) ++ opt_bool "ok" (rq_OK a).
Definition Request_fields : list (string * field Request) :=
  [("cmd", str_field set_rq_Cmd); ("target", str_field set_rq_Target);
   ("pair_uri", str_field set_rq_PairURI); ("name", str_field set_rq_Name);
   ("files", strs_field set_rq_Files); ("text", str_field set_rq_Text); ("mime", str_field set_rq_MIME);
   ("id", str_field set_rq_ID); ("ok", bool_field set_rq_OK)].
Definition valid_Request (a : Request) : Request := mkRequest (to_valid (rq_Cmd a))
    (to_valid (rq_Target a)) (to_valid (rq_PairURI a)) (to_valid (rq_Name a)) (map to_valid (rq_Files a))
    (to_valid (rq_Text a)) (to_valid (rq_MIME a)) (to_valid (rq_ID a)) (rq_OK a).
Lemma Request_wf a : wf_members (Request_members a).
Proof. unfold Request_members. repeat apply wf_app; auto with wire. Qed.
#[export] Hint Resolve Request_wf : wire.
Ltac norm_Request := norm_record ltac:(fun h => eval cbv beta iota delta [set_rq_Cmd set_rq_Target
  set_rq_PairURI set_rq_Name set_rq_Files set_rq_Text set_rq_MIME set_rq_ID set_rq_OK rq_Cmd rq_Target
  rq_PairURI rq_Name rq_Files rq_Text rq_MIME rq_ID rq_OK] in h).
Lemma Request_roundtrip a : 
  decode_members Request_fields (map norm_member (Request_members a)) zero_Request = Some (valid_Request a).
Proof.
  destruct a as [x0 x1 x2 x3 x4 x5 x6 x7 x8].
  unfold Request_members, zero_Request. rewrite decode_members_nil, !map_app.
  cbn [rq_Cmd rq_Target rq_PairURI rq_Name rq_Files rq_Text rq_MIME rq_ID rq_OK].
  do 9 (ipc_step; norm_Request).
  reflexivity.
Qed.

(** *** Response *)
Definition set_rs_Line x a := mkResponse x (rs_QR a) (rs_Devices a) (rs_Status a) (rs_Event a) (rs_Pair a)
    (rs_Pending a) (rs_Queue a) (rs_Nearby a) (rs_Done a) (rs_Err a).
Definition set_rs_QR x a := mkResponse (rs_Line a) x (rs_Devices a) (rs_Status a) (rs_Event a) (rs_Pair a)
    (rs_Pending a) (rs_Queue a) (rs_Nearby a) (rs_Done a) (rs_Err a).
Definition set_rs_Devices x a := mkResponse (rs_Line a) (rs_QR a) x (rs_Status a) (rs_Event a) (rs_Pair a)
    (rs_Pending a) (rs_Queue a) (rs_Nearby a) (rs_Done a) (rs_Err a).
Definition set_rs_Status x a := mkResponse (rs_Line a) (rs_QR a) (rs_Devices a) x (rs_Event a) (rs_Pair a)
    (rs_Pending a) (rs_Queue a) (rs_Nearby a) (rs_Done a) (rs_Err a).
Definition set_rs_Event x a := mkResponse (rs_Line a) (rs_QR a) (rs_Devices a) (rs_Status a) x (rs_Pair a)
    (rs_Pending a) (rs_Queue a) (rs_Nearby a) (rs_Done a) (rs_Err a).
Definition set_rs_Pair x a := mkResponse (rs_Line a) (rs_QR a) (rs_Devices a) (rs_Status a) (rs_Event a) x
    (rs_Pending a) (rs_Queue a) (rs_Nearby a) (rs_Done a) (rs_Err a).
Definition set_rs_Pending x a := mkResponse (rs_Line a) (rs_QR a) (rs_Devices a) (rs_Status a) (rs_Event a)
    (rs_Pair a) x (rs_Queue a) (rs_Nearby a) (rs_Done a) (rs_Err a).
Definition set_rs_Queue x a := mkResponse (rs_Line a) (rs_QR a) (rs_Devices a) (rs_Status a) (rs_Event a)
    (rs_Pair a) (rs_Pending a) x (rs_Nearby a) (rs_Done a) (rs_Err a).
Definition set_rs_Nearby x a := mkResponse (rs_Line a) (rs_QR a) (rs_Devices a) (rs_Status a) (rs_Event a)
    (rs_Pair a) (rs_Pending a) (rs_Queue a) x (rs_Done a) (rs_Err a).
Definition set_rs_Done x a := mkResponse (rs_Line a) (rs_QR a) (rs_Devices a) (rs_Status a) (rs_Event a)
    (rs_Pair a) (rs_Pending a) (rs_Queue a) (rs_Nearby a) x (rs_Err a).
Definition set_rs_Err x a := mkResponse (rs_Line a) (rs_QR a) (rs_Devices a) (rs_Status a) (rs_Event a)
    (rs_Pair a) (rs_Pending a) (rs_Queue a) (rs_Nearby a) (rs_Done a) x.
Definition Response_members (a : Response) : list (string * json) :=
  opt_str "line" (rs_Line a) ++ opt_str "qr" (rs_QR a) ++
  opt_objs "devices" DeviceInfo_members (rs_Devices a) ++
  opt_ptr "status" StatusInfo_members (rs_Status a) ++ opt_ptr "event" Event_members (rs_Event a) ++
  opt_ptr "pair" PairInfo_members (rs_Pair a) ++ opt_objs "pending" PairInfo_members (rs_Pending a) ++
  opt_objs "queue" QueueItem_members (rs_Queue a) ++ opt_objs "nearby" NearbyInfo_members (rs_Nearby a) ++
  opt_bool "done" (rs_Done a) ++ opt_str "err" (rs_Err a).
Definition Response_fields : list (string * field Response) :=
  [("line", str_field set_rs_Line); ("qr", str_field set_rs_QR);
   ("devices", objs_field DeviceInfo_fields zero_DeviceInfo set_rs_Devices);
   ("status", ptr_field StatusInfo_fields zero_StatusInfo rs_Status set_rs_Status);
   ("event", ptr_field Event_fields zero_Event rs_Event set_rs_Event);
   ("pair", ptr_field PairInfo_fields zero_PairInfo rs_Pair set_rs_Pair);
   ("pending", objs_field PairInfo_fields zero_PairInfo set_rs_Pending);
   ("queue", objs_field QueueItem_fields zero_QueueItem set_rs_Queue);
   ("nearby", objs_field NearbyInfo_fields zero_NearbyInfo set_rs_Nearby);
   ("done", bool_field set_rs_Done); ("err", str_field set_rs_Err)].
Definition valid_Response (a : Response) : Response := mkResponse (to_valid (rs_Line a))
    (to_valid (rs_QR a)) (map valid_DeviceInfo (rs_Devices a)) (valid_StatusInfo <$> rs_Status a)
    (valid_Event <$> rs_Event a) (valid_PairInfo <$> rs_Pair a) (map valid_PairInfo (rs_Pending a))
    (map valid_QueueItem (rs_Queue a)) (map valid_NearbyInfo (rs_Nearby a)) (rs_Done a)
    (to_valid (rs_Err a)).
Definition Response_ok (a : Response) : Prop := (∀ b, rs_Status a = Some b → StatusInfo_ok b) ∧ (∀ b, rs_Event a = Some b → Event_ok b) ∧ Forall QueueItem_ok (rs_Queue a).
Lemma Response_wf a : wf_members (Response_members a).
Proof. unfold Response_members. repeat apply wf_app; auto with wire. Qed.
#[export] Hint Resolve Response_wf : wire.
Ltac norm_Response := norm_record ltac:(fun h => eval cbv beta iota delta [set_rs_Line set_rs_QR
  set_rs_Devices set_rs_Status set_rs_Event set_rs_Pair set_rs_Pending set_rs_Queue set_rs_Nearby
  set_rs_Done set_rs_Err rs_Line rs_QR rs_Devices rs_Status rs_Event rs_Pair rs_Pending rs_Queue rs_Nearby
  rs_Done rs_Err] in h).
Lemma Response_roundtrip a : Response_ok a →
  decode_members Response_fields (map norm_member (Response_members a)) zero_Response = Some (valid_Response a).
Proof.
  intros Hok. unfold Response_ok in Hok. destruct a as [x0 x1 x2 x3 x4 x5 x6 x7 x8 x9 x10]. cbn in Hok. destruct_and? Hok.
  unfold Response_members, zero_Response. rewrite decode_members_nil, !map_app.
  cbn [rs_Line rs_QR rs_Devices rs_Status rs_Event rs_Pair rs_Pending rs_Queue rs_Nearby rs_Done rs_Err].
  do 2 (ipc_step; norm_Response).
  rewrite <-?app_assoc. erewrite (seg_opt_objs _ _ _ _ valid_DeviceInfo (λ _, True) (λ b _, DeviceInfo_roundtrip b)); [|find_segment|reflexivity|by apply Forall_true]. norm_Response.
  rewrite <-?app_assoc. erewrite (seg_opt_ptr _ _ _ _ valid_StatusInfo StatusInfo_ok StatusInfo_roundtrip); [|find_segment|reflexivity|reflexivity|eauto]. norm_Response.
  rewrite <-?app_assoc. erewrite (seg_opt_ptr _ _ _ _ valid_Event Event_ok Event_roundtrip); [|find_segment|reflexivity|reflexivity|eauto]. norm_Response.
  rewrite <-?app_assoc. erewrite (seg_opt_ptr _ _ _ _ valid_PairInfo (λ _, True) (λ b _, PairInfo_roundtrip b)); [|find_segment|reflexivity|reflexivity|done]. norm_Response.
  rewrite <-?app_assoc. erewrite (seg_opt_objs _ _ _ _ valid_PairInfo (λ _, True) (λ b _, PairInfo_roundtrip b)); [|find_segment|reflexivity|by apply Forall_true]. norm_Response.
  rewrite <-?app_assoc. erewrite (seg_opt_objs _ _ _ _ valid_QueueItem QueueItem_ok QueueItem_roundtrip); [|find_segment|reflexivity|eassumption]. norm_Response.
  rewrite <-?app_assoc. erewrite (seg_opt_objs _ _ _ _ valid_NearbyInfo (λ _, True) (λ b _, NearbyInfo_roundtrip b)); [|find_segment|reflexivity|by apply Forall_true]. norm_Response.
  do 2 (ipc_step; norm_Response).
  reflexivity.
Qed.

(** ** The stream

    [json.Encoder] writes each value and a newline; [json.Decoder] reads one
    value after another. What ends the stream is EOF between values and an
    error of the decoder inside one. *)
Definition json_stream_error : error := Errorf "json: cannot decode".
Definition json_encode (members : list (string * json)) : bytes := print (JObj members) ++ [lf].
Definition json_decode {A} (fs : list (string * field A)) (zero : A) (raw : bytes) : option (A * bytes) :=
  '(v, rest) ← parse_val (S (length raw)) raw; a ← decode_object fs zero v; Some (a, rest).
Fixpoint decode_all {A} (fuel : nat) (fs : list (string * field A)) (zero : A) (raw : bytes) : list A * error :=
  match fuel with
  | O => ([], json_stream_error)
  | S fuel =>
      match skip_ws raw with
      | [] => ([], Go.EOF)
      | _ =>
          match json_decode fs zero raw with
          | None => ([], json_stream_error)
          | Some (a, rest) => let '(l, e) := decode_all fuel fs zero rest in (a :: l, e)
          end
      end
  end.
(** A value takes at least two bytes, so the input bounds the loop. *)
Definition decode_stream {A} (fs : list (string * field A)) (zero : A) (raw : bytes) : list A * error :=
  decode_all (S (length raw)) fs zero raw.

Section stream.
Context {A : Type} (fs : list (string * field A)) (zero : A) (members : A → list (string * json)).
Context (valid : A → A) (ok : A → Prop) (wf : ∀ a, wf_members (members a)).
Context (inner : ∀ a, ok a → decode_members fs (map norm_member (members a)) zero = Some (valid a)).

Lemma json_decode_encode a pre rest :
  forallb is_ws pre = true → ok a → json_decode fs zero (pre ++ json_encode (members a) ++ rest) = Some (valid a, lf :: rest).
Proof.
  intros Hw Ha. unfold json_decode, json_encode. rewrite parse_val_ws by done. rewrite <-app_assoc.
  assert (json_wf (JObj (members a))) as Hj by (constructor; apply wf).
  pose proof (print_parses (λ _, []) [] (λ _, eq_refl) eq_refl (JObj (members a)) Hj 0) as Hp. unfold print.
  rewrite Hp; [|rewrite !length_app; cbn; lia|reflexivity].
  cbn [mbind option_bind norm]. fold norm_member. cbn [decode_object]. by rewrite inner.
Qed.
Lemma json_encode_skip a rest : ∃ b l, skip_ws (json_encode (members a) ++ rest) = b :: l.
Proof. unfold json_encode, print. destruct (members a); eexists _, _; reflexivity. Qed.

Lemma decode_all_stream l pre fuel :
  forallb is_ws pre = true → Forall ok l → (length l < fuel)%nat →
  decode_all fuel fs zero (pre ++ concat (map (λ a, json_encode (members a)) l)) = (map valid l, Go.EOF).
Proof.
  intros Hw Hl. revert pre Hw fuel. induction Hl as [|a l Ha _ IH]; intros pre Hw fuel Hf; (destruct fuel; [cbn in Hf; lia|]).
  - cbn [map concat decode_all]. rewrite skip_ws_app by done. reflexivity.
  - cbn [map concat decode_all]. rewrite skip_ws_app by done.
    destruct (json_encode_skip a (concat (map (λ a, json_encode (members a)) l))) as (b' & l' & ->).
    rewrite json_decode_encode by done. change (lf :: ?r) with ([lf] ++ r).
    rewrite IH by (done || (cbn in Hf; lia)). reflexivity.
Qed.
Lemma decode_stream_encoded l :
  Forall ok l → decode_stream fs zero (concat (map (λ a, json_encode (members a)) l)) = (map valid l, Go.EOF).
Proof.
  intros Hl. unfold decode_stream. apply (decode_all_stream l []); [done|done|].
  clear Hl. induction l as [|a l IH]; [cbn; lia|]. cbn [map concat]. rewrite length_app. unfold json_encode at 1.
  rewrite length_app. cbn [length]. lia.
Qed.
End stream.

(** *** The messages of the control protocol *)
Definition encode_request (r : Request) : bytes := json_encode (Request_members r).
Definition encode_responses (l : list Response) : bytes := concat (map (λ r, json_encode (Response_members r)) l).
Definition decode_request (raw : bytes) : option Request := fst <$> json_decode Request_fields zero_Request raw.
Definition decode_responses (raw : bytes) : list Response * error := decode_stream Response_fields zero_Response raw.

(** C33: what one side of the control socket writes is what the other side
    reads: a request, and a stream of any responses whose numbers are Go
    integers, up to the replacement of bytes that are not UTF-8. *)
Theorem ipc_roundtrip req l :
  Forall Response_ok l →
  decode_request (encode_request req) = Some (valid_Request req) ∧
  decode_responses (encode_responses l) = (map valid_Response l, Go.EOF).
Proof.
  intros Hl. split.
  - unfold decode_request, encode_request.
    pose proof (json_decode_encode Request_fields zero_Request Request_members valid_Request (λ _, True) Request_wf
                  (λ a _, Request_roundtrip a) req [] [] eq_refl I) as H.
    rewrite app_nil_r in H. cbn [app] in H. by rewrite H.
  - exact (decode_stream_encoded Response_fields zero_Response Response_members valid_Response Response_ok
             Response_wf Response_roundtrip l Hl).
Qed.

Lemma ipc_roundtrip_witness :
  let r := mkResponse "queued" "" [] (Some (mkStatusInfo "pc" "ab" "10.0.0.1:1" 2 "" "" [])) None None [] [] [] true "" in
  decode_responses (encode_responses [r]) = ([r], Go.EOF).
Proof.
  cbv zeta. destruct (ipc_roundtrip zero_Request
    [mkResponse "queued" "" [] (Some (mkStatusInfo "pc" "ab" "10.0.0.1:1" 2 "" "" [])) None None [] [] [] true ""]) as [_ H].
  - constructor; [|constructor]. split; [|split].
    + intros b [= <-]. unfold StatusInfo_ok, inInt64. cbn. vm_compute. by split.
    + by intros b ?.
    + constructor.
  - rewrite H. by vm_compute.
Defined.
