(* ===== verification/Paths.v ===== *)
(** * Where received files go: internal/daemon/util.go and the path and slot
    functions of receive.go

    Names are reduced to a safe component or accepted as a portable relative
    path, a free destination is found next to the files already there, and a
    slot keeps two transfers out of each other's temporary file. *)

From S2P Require Import Prelude GoStrings GoPath Go GoFmt Fs Proto.
From Stdlib Require Import ZArith Lia String Ascii List Bool.
From stdpp Require Import base list strings gmap option numbers.

#[local] Open Scope string_scope.
#[local] Open Scope list_scope.
#[local] Open Scope Z_scope.

(** ** Names *)

Definition sanitizeName (name : string) : string :=
  let n := trim_left (path_base (path_clean ("/" +:+ name))) "/" in
  if (n =?s "") || (n =?s ".") || (n =?s "..") then "file" else n.

Definition comp_bad (part : string) : bool :=
  (part =?s "") || (part =?s ".") || (part =?s "..").

Definition validRelPath (p : string) : bool :=
  if (p =?s "") || contains_any p (String "092" (String ":" (String "000" ""))) then false
  else forallb (λ part, negb (comp_bad part)) (split_on "/" p).

(** ** A free destination *)

Definition exists_path (p : string) (s : fs) : bool :=
  match stat p s with (Ok _, _) => true | _ => false end.

Definition numbered (dir stem ext : string) (i : Z) : string :=
  path_join dir (stem +:+ " (" +:+ itoa i +:+ ")" +:+ ext).

(** The loop over [file (1).ext], [file (2).ext], ... *)
Fixpoint unique_from (fuel : nat) (free : string → bool) (dir stem ext : string) (i : Z)
  : option string :=
  match fuel with
  | O => None
  | S f =>
      let c := numbered dir stem ext i in
      if free c then Some c else unique_from f free dir stem ext (i + 1)
  end.

Definition free_for (s : fs) (taken : string → bool) (candidate : string) : bool :=
  if exists_path candidate s then false else negb (taken candidate).

Definition uniquePathExcept (fuel : nat) (s : fs) (dir name : string) (taken : string → bool)
  : option string :=
  let candidate := path_join dir name in
  if free_for s taken candidate then Some candidate
  else
    let ext := path_ext name in
    unique_from fuel (free_for s taken) dir (trim_suffix name ext) ext 1.

Definition uniquePath (fuel : nat) (s : fs) (dir name : string) : option string :=
  uniquePathExcept fuel s dir name (λ _, false).

(** ** Directories *)

(** [os.OpenRoot]: the directory must be there. *)
Definition open_root (dir : string) : M fs unit :=
  n <- stat dir ;;
  match n with NDir => ret () | _ => throw (Errno ENOTDIR) end.

Fixpoint create_parts (root current : string) (parts : list string) : M fs unit :=
  match parts with
  | [] => ret ()
  | part :: rest =>
      let current := path_join current part in
      let full := path_join root current in
      r <- try (mkdir full) ;;
      match r with
      | inr e => if is_errno EEXIST e then ret () else throw e
      | inl _ => ret ()
      end ;;;
      info <- stat full ;;
      match info with
      | NDir => create_parts root current rest
      | _ => throw (Errorf ("destination is not a directory: " +:+ current))
      end
  end.

Definition createDirectory (downloadDir rel : string) : M fs unit :=
  if negb (validRelPath rel) then throw (Errorf ("unsafe directory path " +:+ quote rel))
  else
    open_root downloadDir ;;;
    create_parts downloadDir "" (split_on "/" rel).

(** ** Slots *)

Definition partSuffix : string := ".adrop-part".

Record fileSlot := mkSlot { sl_dest : string; sl_tmp : string }.

(** The part of the daemon a reservation reads and writes. *)
Record slots_state := mkSlots { ss_fs : fs; ss_slots : gset string }.
Definition ss_on_fs {A} (m : M fs A) : M slots_state A :=
  zoom ss_fs (λ f s, mkSlots f (ss_slots s)) m.
Definition ss_claim (tmp : string) : M slots_state unit :=
  modify (λ s, mkSlots (ss_fs s) ({[tmp]} ∪ ss_slots s)).

(** The [release] closure of a slot. *)
Definition release_slot (slot : fileSlot) (claimed : gset string) : gset string :=
  claimed ∖ {[sl_tmp slot]}.

(** The loop of [uniquePathExcept] looks at no more names than there are
    files and claims. *)
Definition unique_fuel (s : slots_state) : nat :=
  S (size (fs_nodes (ss_fs s)) + size (ss_slots s)).

Definition reserveSlot (downloadDir : string) (meta : FileMeta) : M slots_state fileSlot :=
  name <- (if fm_RelPath meta =?s "" then ret (sanitizeName (fm_Name meta))
           else if validRelPath (fm_RelPath meta) then ret (fm_RelPath meta)
           else throw (Errorf ("unsafe rel_path " +:+ quote (fm_RelPath meta)))) ;;
  s <- get_state ;;
  match uniquePathExcept (unique_fuel s) (ss_fs s) downloadDir name
          (λ c, bool_decide ((c +:+ partSuffix) ∈ ss_slots s)) with
  | None => out_of_fuel
  | Some dest =>
      (if negb (fm_RelPath meta =?s "") && negb (path_dir name =?s ".")
       then ss_on_fs (createDirectory downloadDir (path_dir name)) else ret ()) ;;;
      let tmp := dest +:+ partSuffix in
      ss_claim tmp ;;;
      ret (mkSlot dest tmp)
  end.

Definition partMetaPath (tmp : string) : string := tmp +:+ ".meta".

Definition writePartMeta (tmp : string) (meta : FileMeta) : M fs unit :=
  ignore (write_file (partMetaPath tmp) (bs (to_lower (fm_SHA256 meta)))).

Definition removePart (tmp : string) : M fs unit :=
  ignore (remove_file tmp) ;;; ignore (remove_file (partMetaPath tmp)).

(** How many bytes of the slot's file can be resumed onto. *)
Definition partialBytes (slot : fileSlot) (meta : FileMeta) : M fs Z :=
  fi <- try (stat (sl_tmp slot)) ;;
  match fi with
  | inl (NFile b) =>
      let size := int64 (Z.of_nat (length b)) in
      if (size =? 0) || (fm_Size meta <=? size) then ret 0
      else
        recorded <- try (read_file (partMetaPath (sl_tmp slot))) ;;
        match recorded with
        | inl r =>
            if equal_fold (trim_space (str r)) (fm_SHA256 meta) then ret size
            else removePart (sl_tmp slot) ;;; ret 0
        | inr _ => removePart (sl_tmp slot) ;;; ret 0
        end
  | _ => ret 0
  end.

(** ** Names are plain components *)

Lemma clean_rooted_plain out l :
  Forall plain out → Forall (no_byte "/") l → Forall plain (clean_comps true out l).
Proof.
  intros Ho Hl. revert out Ho. induction Hl as [|c l Hc _ IH]; intros out Ho; simpl.
  { by apply Forall_rev. }
  destruct (String.eqb_spec c "") as [|H1]; [by apply IH|].
  destruct (String.eqb_spec c ".") as [|H2]; [by apply IH|]. cbn [orb].
  destruct (String.eqb_spec c "..") as [->|H3].
  - destruct out as [|t out]; [by apply IH|].
    apply Forall_cons_1 in Ho as [Ht Ho]. destruct (plain_test t Ht) as (_ & _ & ->). by apply IH.
  - apply IH. constructor; [|done]. done.
Qed.

Lemma trim_left_plain x : plain x → trim_left x "/" = x.
Proof.
  intros (Hne & _ & _ & Hb). destruct x as [|a x]; [done|]. unfold trim_left. simpl.
  unfold contains_byte. simpl. rewrite orb_false_r.
  destruct (Ascii.eqb_spec a "/") as [->|]; [|done].
  exfalso. apply Hb. cbn. by left.
Qed.

Lemma plain_file : plain "file".
Proof. split_and!; try done. by apply no_byte_test. Qed.

(** A name from the wire never leaves the directory it is joined to. *)
Lemma sanitizeName_plain name : plain (sanitizeName name).
Proof.
  unfold sanitizeName.
  assert (∃ cs, path_clean ("/" +:+ name) = abs_path cs ∧ Forall plain cs) as (cs & -> & Hcs).
  { unfold path_clean. replace ("/" +:+ name =?s "") with false by done.
    unfold is_rooted. rewrite has_prefix_app. eexists. split; [done|].
    apply clean_rooted_plain; [done|]. apply split_on_parts. }
  destruct (decide (cs = [])) as [->|Hne]; [apply plain_file|].
  destruct (exists_last Hne) as (ds & x & ->). apply Forall_app in Hcs as [Hd Hx%Forall_inv].
  rewrite path_base_abs, trim_left_plain by done.
  destruct (plain_test x Hx) as (-> & -> & ->). done.
Qed.

Lemma validRelPath_plain p : validRelPath p = true → Forall plain (split_on "/" p).
Proof.
  unfold validRelPath. case_match; [done|]. intros H'.
  rewrite forallb_forall in H'. pose proof (split_on_parts "/" p) as Hp.
  rewrite List.Forall_forall in Hp |- *. intros c Hc. specialize (Hp c Hc). specialize (H' c Hc). unfold comp_bad in H'.
  rewrite negb_true_iff, !orb_false_iff, !String.eqb_neq in H'. unfold plain. tauto.
Qed.

(** The components of the name a manifest entry is stored under. *)
Definition meta_comps (meta : FileMeta) : list string :=
  if fm_RelPath meta =?s "" then [sanitizeName (fm_Name meta)]
  else split_on "/" (fm_RelPath meta).

(** ** Numbered names *)

Lemma digit_no_slash a : is_digit a = true → a ≠ "/"%char.
Proof. by intros H ->. Qed.

Lemma itoa_no_slash i : no_byte "/" (itoa i).
Proof.
  unfold no_byte, itoa. rewrite bs_str. unfold itoa_bytes.
  assert (∀ n, "/"%char ∉ dec_bytes n) as Hd.
  { intros n Hin. assert (forallb is_digit (dec_bytes n) = true) as H by by apply dec_digits_digit.
    rewrite forallb_forall in H. apply list_elem_of_In, H in Hin. done. }
  destruct (i <? 0)%Z; [|done]. apply not_elem_of_cons. done.
Qed.

Lemma itoa_inj i j : 0 ≤ i → 0 ≤ j → itoa i = itoa j → i = j.
Proof.
  intros Hi Hj E%(f_equal bs). unfold itoa, itoa_bytes in E. rewrite !bs_str in E.
  rewrite !(proj2 (Z.ltb_ge _ _)) in E by done.
  apply parse_dec_bytes in Hi, Hj. rewrite E in Hi. congruence.
Qed.

Definition suffix_of (i : Z) (ext : string) : string := " (" +:+ itoa i +:+ ")" +:+ ext.

Lemma plain_numbered st ext i :
  no_byte "/" st → no_byte "/" ext → plain (st +:+ suffix_of i ext).
Proof.
  intros Hs He.
  assert (∀ x, (String.length x ≤ 2)%nat → st +:+ suffix_of i ext ≠ x) as Hlen.
  { intros x Hx E. apply (f_equal String.length) in E. unfold suffix_of in E.
    rewrite !length_strapp in E. simpl in E. lia. }
  split_and!; [by apply Hlen; simpl; lia..|].
  unfold suffix_of. rewrite !no_byte_app. split_and!; try done.
  - by apply no_byte_test.
  - apply itoa_no_slash.
  - by apply no_byte_test.
Qed.

Section destination.
Context (ds : list string) (Hne : ds ≠ []) (Hds : Forall plain ds).

(** The numbered candidates in component form. *)
Lemma numbered_comps name :
  Forall plain (split_on "/" name) →
  ∃ st, no_byte "/" st ∧ no_byte "/" (path_ext name) ∧
    List.last (split_on "/" name) "" = st +:+ path_ext name ∧ ∀ i,
    numbered (abs_path ds) (trim_suffix name (path_ext name)) (path_ext name) i =
    abs_path (ds ++ removelast (split_on "/" name) ++ [st +:+ suffix_of i (path_ext name)]).
Proof.
  intros Hp. destruct (stem_ext name) as (_ & st & Hl & Hs).
  pose proof (split_on_ne "/" name) as Hn. destruct (exists_last Hn) as (l & y & E).
  pose proof (split_on_parts "/" name) as Hb. rewrite E, last_last in *.
  rewrite removelast_last in *. apply Forall_app in Hb as [_ Hy%Forall_inv].
  rewrite Hl in Hy. apply no_byte_app in Hy as [H1 H2].
  apply Forall_app in Hp as [Hl' _].
  exists st. split_and!; try done. intros i. unfold numbered.
  pose proof (plain_numbered st (path_ext name) i H1 H2) as Hpl.
  fold (suffix_of i (path_ext name)). specialize (Hs (suffix_of i (path_ext name))).
  rewrite <-path_join_abs; [|done|by destruct l|done|apply Forall_app; auto].
  f_equal. rewrite <-(join_split "/" (_ +:+ suffix_of _ _)), Hs; [done|].
  unfold suffix_of. rewrite !no_byte_app.
  split_and!; try apply itoa_no_slash; try done; by apply no_byte_test.
Qed.

(** Every candidate is a path below the directory. *)
Definition below (rs : list string) (p : string) : Prop :=
  Forall plain rs ∧ rs ≠ [] ∧ p = abs_path (ds ++ rs).

Lemma candidate0_below name :
  Forall plain (split_on "/" name) →
  below (split_on "/" name) (path_join (abs_path ds) name).
Proof.
  intros Hp. split_and!; [done|apply split_on_ne|].
  rewrite <-(join_split "/" name) at 1. apply path_join_abs; try done. apply split_on_ne.
Qed.

Lemma numbered_below name i :
  Forall plain (split_on "/" name) →
  ∃ rs, below rs (numbered (abs_path ds) (trim_suffix name (path_ext name)) (path_ext name) i) ∧
    removelast rs = removelast (split_on "/" name).
Proof.
  intros Hp. destruct (numbered_comps name Hp) as (st & H1 & H2 & Hlast & Hnum).
  eexists. rewrite Hnum. split; [|apply removelast_last].
  split_and!; [|by destruct (removelast _)|done].
  apply Forall_app. split; [by apply Forall_removelast|]. auto using plain_numbered.
Qed.

Lemma unique_from_Some fuel free st ext i c :
  unique_from fuel free (abs_path ds) st ext i = Some c →
  free c = true ∧ ∃ k : Z, (i ≤ k)%Z ∧ c = numbered (abs_path ds) st ext k.
Proof.
  revert i. induction fuel as [|fuel IH]; intros i; [done|]. cbn [unique_from]. cbv zeta.
  destruct (free (numbered _ _ _ _)) eqn:E.
  - intros Hs. simplify_eq. split; [done|]. exists i. split; [lia|done].
  - intros Hs. apply IH in Hs as (? & k & ? & ?). split; [done|]. exists k. split; [lia|done].
Qed.

(** The loop fails only after [fuel] distinct names that are all taken. *)
Lemma unique_from_None fuel free st ext i :
  unique_from fuel free (abs_path ds) st ext i = None →
  ∀ k, (i ≤ k < i + Z.of_nat fuel)%Z → free (numbered (abs_path ds) st ext k) = false.
Proof.
  revert i. induction fuel as [|fuel IH]; intros i; [lia|]. cbn [unique_from].
  destruct (free (numbered _ _ _ _)) eqn:E; [done|]. intros Hn k Hk.
  destruct (decide (k = i)) as [->|]; [done|]. apply (IH (i + 1)%Z Hn). lia.
Qed.

Lemma unique_from_total fuel (free : string → bool) name (X : list string) :
  Forall plain (split_on "/" name) →
  (∀ rs c, below rs c → free c = false → c ∈ X) →
  (length X < fuel)%nat →
  is_Some (unique_from fuel free (abs_path ds)
             (trim_suffix name (path_ext name)) (path_ext name) 1).
Proof.
  intros Hp Hfree Hsz.
  destruct (unique_from _ _ _ _ _ _) eqn:E; [eauto|exfalso].
  pose proof (unique_from_None _ _ _ _ _ E) as Hall.
  destruct (numbered_comps name Hp) as (st & H1 & H2 & Hlast & Hnum).
  set (cand := λ n : nat, numbered (abs_path ds) (trim_suffix name (path_ext name))
    (path_ext name) (1 + Z.of_nat n)).
  assert (∀ m n, (m < fuel)%nat → (n < fuel)%nat → cand m = cand n → m = n) as Hinj.
  { intros m n Hm Hn Ec. unfold cand in Ec. rewrite !Hnum in Ec.
    apply Forall_removelast in Hp.
    apply abs_path_inj in Ec; [|repeat (apply Forall_app; split); auto using plain_numbered..].
    apply app_inv_head, app_inj_tail in Ec as [_ Ec].
    apply strapp_inj_l in Ec. unfold suffix_of in Ec.
    apply strapp_inj_l, strapp_inj_r, itoa_inj in Ec; lia. }
  assert (NoDup (map cand (seq 0 fuel))) as Hnd.
  { apply NoDup_fmap_2_strong; [|apply NoDup_seq].
    intros m n Hm Hn. apply elem_of_seq in Hm, Hn. apply Hinj; lia. }
  assert (length (map cand (seq 0 fuel)) ≤ length X)%nat as Hlen.
  { apply submseteq_length, NoDup_submseteq; [done|].
    intros c. rewrite list_elem_of_fmap. intros (n & -> & Hn%elem_of_seq).
    destruct (numbered_below name (1 + Z.of_nat n) Hp) as [rs Hb].
    eapply Hfree; [apply Hb|]. apply Hall. lia. }
  rewrite length_map, length_seq in Hlen. lia.
Qed.
End destination.

(** ** Directories *)

(** Only directories on the way to [parts] appear, nothing else changes. *)
Definition dirs_added (ds pre parts : list string) (s s' : fs) : Prop :=
  (∀ p n, fs_nodes s !! p = Some n → fs_nodes s' !! p = Some n) ∧
  (∀ p n, fs_nodes s' !! p = Some n →
    fs_nodes s !! p = Some n ∨
    (n = NDir ∧ ∃ k, (0 < k ≤ length parts)%nat ∧ p = abs_path (ds ++ pre ++ take k parts))).

Lemma dirs_added_refl ds pre parts s : dirs_added ds pre parts s s.
Proof. split; auto. Qed.

Lemma dirs_added_nodes ds pre parts s1 s2 s' :
  fs_nodes s1 = fs_nodes s2 → dirs_added ds pre parts s1 s' → dirs_added ds pre parts s2 s'.
Proof. unfold dirs_added. by intros ->. Qed.

Lemma mkdir_cases p s r s' :
  mkdir p s = (r, s') →
  (fs_nodes s' = fs_nodes s ∨ (fs_nodes s !! p = None ∧ fs_nodes s' = <[p := NDir]> (fs_nodes s))).
Proof.
  unfold mkdir. intros E. destruct (p =?s "/"); [left; by simplify_eq|].
  destruct (fs_nodes s !! p) eqn:Ep; [left; by simplify_eq|].
  destruct (is_dir s (path_dir p)); [|left; by simplify_eq].
  cbv [faulty bind next_fault throw modify fs_set] in E.
  destruct (fs_faults s) as [|[] l]; cbn in E; simplify_eq; cbn; auto.
Qed.

Lemma dirs_added_step ds pre part parts s s1 s' :
  (fs_nodes s1 = fs_nodes s ∨
   (fs_nodes s !! abs_path (ds ++ pre ++ [part]) = None ∧
    fs_nodes s1 = <[abs_path (ds ++ pre ++ [part]) := NDir]> (fs_nodes s))) →
  dirs_added ds (pre ++ [part]) parts s1 s' →
  dirs_added ds pre (part :: parts) s s'.
Proof.
  intros Hc [H1 H2]. split.
  - intros p n Hp. apply H1. destruct Hc as [->|[Hn ->]]; [done|].
    rewrite lookup_insert_ne; [done|]. intros <-. congruence.
  - intros p n Hp. destruct (H2 p n Hp) as [Hq|(-> & k & Hk & ->)].
    + destruct Hc as [E|[Hn E]]; rewrite E in Hq; [by left|].
      apply lookup_insert_Some in Hq as [[<- <-]|[_ Hq]]; [|by left].
      right. split; [done|]. exists 1%nat. simpl. split; [lia|done].
    + right. split; [done|]. exists (S k). simpl. rewrite <-app_assoc. split; [lia|done].
Qed.

Lemma stat_dir p s s' : stat p s = (Ok NDir, s') → s' = s ∧ is_dir s p = true.
Proof.
  unfold stat, is_dir. intros E. destruct (p =?s "/"); [by simplify_eq|].
  destruct (fs_nodes s !! p) as [[]|]; by simplify_eq.
Qed.

Lemma is_dir_added ds pre parts s s' p :
  dirs_added ds pre parts s s' → is_dir s p = true → is_dir s' p = true.
Proof.
  intros [H _]. unfold is_dir. destruct (p =?s "/"); [done|]. simpl.
  destruct (fs_nodes s !! p) as [n|] eqn:E; [|done]. by rewrite (H _ _ E).
Qed.

Lemma open_root_pure p s r s' : open_root p s = (r, s') → s' = s.
Proof.
  unfold open_root. intros E.
  apply bind_inv in E as [(n & s2 & E1 & E3)|(? & E1 & _)]; apply stat_pure in E1 as ->; [|done].
  destruct n; by injection E3 as <- <-.
Qed.

Section create.
Context (ds : list string) (Hne : ds ≠ []) (Hds : Forall plain ds).

Lemma create_parts_spec parts pre s r s' :
  Forall plain pre → Forall plain parts →
  create_parts (abs_path ds) (rel_path pre) parts s = (r, s') →
  dirs_added ds pre parts s s' ∧
  (r = Ok () → ∀ k, (0 < k ≤ length parts)%nat →
     is_dir s' (abs_path (ds ++ pre ++ take k parts)) = true).
Proof.
  intros Hpre Hparts. revert pre s r s' Hpre.
  induction Hparts as [|part parts Hpart Hparts IH]; intros pre s r s' Hpre E.
  { injection E as <- <-. split; [apply dirs_added_refl|]. intros _ k Hk. simpl in Hk. lia. }
  cbn [create_parts] in E. cbv zeta in E. rewrite path_join_rel in E by done.
  assert (Forall plain (pre ++ [part])) as Hpre' by (apply Forall_app; auto).
  rewrite path_join_abs in E by (done || by destruct pre).
  unfold bind at 1, try in E.
  destruct (mkdir (abs_path (ds ++ pre ++ [part])) s) as [rm s1] eqn:Em.
  apply mkdir_cases in Em.
  assert (dirs_added ds pre (part :: parts) s s1) as Hadd
    by (eapply dirs_added_step; [done|apply dirs_added_refl]).
  assert (∀ r s', bind (stat (abs_path (ds ++ pre ++ [part]))) (λ info, match info with
      | NDir => create_parts (abs_path ds) (rel_path (pre ++ [part])) parts
      | _ => throw (Errorf ("destination is not a directory: " +:+ rel_path (pre ++ [part])))
      end) s1 = (r, s') →
    dirs_added ds pre (part :: parts) s s' ∧
    (r = Ok () → ∀ k, (0 < k ≤ length (part :: parts))%nat →
       is_dir s' (abs_path (ds ++ pre ++ take k (part :: parts))) = true)) as Hrest.
  { clear E r s'. intros r s' E. apply bind_inv in E as [(n & s2 & E1 & E2)|(r0 & E1 & Hr & ->)].
    2:{ apply stat_pure in E1 as ->. split; [done|]. by destruct r0; naive_solver. }
    pose proof (stat_pure _ _ _ _ E1) as ->.
    destruct n; try by (injection E2 as <- <-).
    apply stat_dir in E1 as [_ Hd]. apply IH in E2 as [Ha Hk]; [|done].
    split; [by eapply dirs_added_step|]. intros -> [|[|k]] Hkl; simpl in *; [lia| |].
    - by eapply is_dir_added.
    - specialize (Hk eq_refl (S k) ltac:(lia)). by rewrite <-app_assoc in Hk. }
  destruct rm as [[]|e| | |]; try by (injection E as <- <-).
  - by apply Hrest.
  - destruct (is_errno EEXIST e); [by apply Hrest|by injection E as <- <-].
Qed.

(** [createDirectory] only adds directories below the root, keeps every node
    that was there, and when it succeeds every prefix is a directory. *)
Lemma createDirectory_spec rel s r s' :
  createDirectory (abs_path ds) rel s = (r, s') →
  dirs_added ds [] (split_on "/" rel) s s' ∧
  (r = Ok () → validRelPath rel = true ∧
     ∀ k, (0 < k ≤ length (split_on "/" rel))%nat →
     is_dir s' (abs_path (ds ++ take k (split_on "/" rel))) = true).
Proof.
  unfold createDirectory. destruct (validRelPath rel) eqn:Ev; simpl.
  2:{ intros [= <- <-]. split; [apply dirs_added_refl|done]. }
  intros E. apply bind_inv in E as [([] & s1 & E1 & E2)|(r0 & E1 & Hr & ->)].
  - apply open_root_pure in E1 as ->.
    apply (create_parts_spec _ []) in E2 as [? Hk]; [|done|by apply validRelPath_plain].
    split; [done|]. intros ->. split; [done|]. by apply Hk.
  - apply open_root_pure in E1 as ->.
    split; [apply dirs_added_refl|]. by destruct r0; naive_solver.
Qed.
End create.

(** A path that is no partial file and no sidecar by its name. *)
Definition shielded (p : string) : Prop :=
  has_suffix p partSuffix = false ∧ has_suffix p (partSuffix +:+ ".meta") = false.

Lemma shielded_sep c x y :
  no_byte c partSuffix → no_byte c ".meta" → shielded (x +:+ String c y) ↔ shielded y.
Proof.
  intros H1 H2. unfold shielded. rewrite !(has_suffix_sep c); [done| |done].
  by apply no_byte_app.
Qed.

Lemma shielded_last l x : shielded x → shielded (abs_path (l ++ [x])).
Proof.
  intros Hx.
  assert (∃ a, abs_path (l ++ [x]) = a +:+ String "/" x) as [a ->].
  { destruct (decide (l = [])) as [->|Hl]; [by exists ""|].
    exists (abs_path l). unfold abs_path. rewrite rel_path_app by done.
    by rewrite strapp_assoc. }
  apply shielded_sep; [by apply no_byte_test..|done].
Qed.

Lemma shielded_app_r st ext : shielded (st +:+ ext) → shielded ext.
Proof.
  intros [H1 H2]. split; apply not_true_iff_false; intros [z ->]%has_suffix_spec;
    rewrite <-strapp_assoc, has_suffix_app in *; done.
Qed.

Lemma shielded_numbered st ext i : shielded (st +:+ ext) → shielded (st +:+ suffix_of i ext).
Proof.
  intros H%shielded_app_r. unfold suffix_of.
  replace (st +:+ " (" +:+ itoa i +:+ ")" +:+ ext)
    with ((st +:+ " (" +:+ itoa i) +:+ String ")" ext).
  - apply shielded_sep; [by apply no_byte_test..|done].
  - by rewrite !strapp_assoc.
Qed.

(** ** Reserving a slot *)

Lemma free_for_true s taken c :
  free_for s taken c = true ↔ exists_path c s = false ∧ taken c = false.
Proof. unfold free_for. destruct (exists_path c s), (taken c); naive_solver. Qed.

Lemma exists_path_false p s : exists_path p s = false → fs_nodes s !! p = None.
Proof. unfold exists_path, stat. by repeat case_match; simplify_eq. Qed.

Lemma exists_path_dom p s : exists_path p s = true → p = "/" ∨ p ∈ dom (fs_nodes s).
Proof.
  unfold exists_path, stat. destruct (String.eqb_spec p "/") as [->|]; [auto|].
  intros H. right. apply elem_of_dom. by destruct (fs_nodes s !! p).
Qed.

Section reserve.
Context (ds : list string) (Hne : ds ≠ []) (Hds : Forall plain ds).

Lemma uniquePathExcept_Some fuel s name taken dest :
  Forall plain (split_on "/" name) →
  uniquePathExcept fuel s (abs_path ds) name taken = Some dest →
  fs_nodes s !! dest = None ∧ taken dest = false ∧
  (∃ rs, below ds rs dest ∧ removelast rs = removelast (split_on "/" name)) ∧
  (shielded (List.last (split_on "/" name) "") → shielded dest).
Proof.
  intros Hp. unfold uniquePathExcept. cbv zeta.
  destruct (free_for s taken (path_join (abs_path ds) name)) eqn:E.
  - intros Hs. simplify_eq. apply free_for_true in E as [E1 E2].
    split_and!; [by apply exists_path_false|done| |].
    + exists (split_on "/" name). split; [by apply candidate0_below|done].
    + destruct (candidate0_below ds Hne Hds name Hp) as (_ & Hn & ->).
      destruct (exists_last Hn) as (l & x & ->). rewrite last_last, app_assoc.
      apply shielded_last.
  - intros Hs. apply unique_from_Some in Hs as (Hf & k & _ & ->).
    apply free_for_true in Hf as [E1 E2].
    split_and!; [by apply exists_path_false|done|by apply numbered_below|].
    destruct (numbered_comps ds Hne Hds name Hp) as (st & H1 & H2 & Hlast & Hnum).
    rewrite Hlast, Hnum, app_assoc. intros Hsh. by apply shielded_last, shielded_numbered.
Qed.

Lemma below_not_root rs p : below ds rs p → p ≠ "/".
Proof.
  intros (Hrs & Hne' & ->) E. change "/" with (abs_path []) in E.
  apply abs_path_inj in E; [by destruct ds|by apply Forall_app|done].
Qed.

(** Names the loop would find taken: those on the disk and those claimed. *)
Definition taken_names (s : fs) (slots : gset string) : list string :=
  elements (dom (fs_nodes s)) ++ map (λ c, trim_suffix c partSuffix) (elements slots).

Lemma taken_names_length s slots :
  length (taken_names s slots) = (size (fs_nodes s) + size slots)%nat.
Proof.
  unfold taken_names. rewrite length_app, length_map. f_equal.
  rewrite <-size_dom. done.
Qed.

Lemma free_for_taken s (slots : gset string) c :
  c ≠ "/" → free_for s (λ c, bool_decide ((c +:+ partSuffix) ∈ slots)) c = false →
  c ∈ taken_names s slots.
Proof.
  intros Hc. unfold free_for, taken_names. rewrite elem_of_app.
  destruct (exists_path c s) eqn:E.
  - apply exists_path_dom in E as [->|E]; [done|]. left. by apply elem_of_elements.
  - rewrite negb_false_iff, bool_decide_eq_true. intros H. right.
    apply list_elem_of_fmap. exists (c +:+ partSuffix).
    rewrite trim_suffix_app. split; [done|]. by apply elem_of_elements.
Qed.

Lemma uniquePathExcept_total s (slots : gset string) name :
  Forall plain (split_on "/" name) →
  is_Some (uniquePathExcept (S (size (fs_nodes s) + size slots)) s (abs_path ds) name
             (λ c, bool_decide ((c +:+ partSuffix) ∈ slots))).
Proof.
  intros Hp. unfold uniquePathExcept. cbv zeta.
  destruct (free_for _ _ (path_join _ _)); [eauto|].
  apply (unique_from_total _ Hne Hds _ _ _ (taken_names s slots)); [done| |].
  - intros rs c Hb Hf. eapply free_for_taken; [by eapply below_not_root|done].
  - rewrite taken_names_length. lia.
Qed.

Lemma path_dir_plain cs x :
  Forall plain cs → plain x →
  path_dir (rel_path (cs ++ [x])) = (if decide (cs = []) then "." else rel_path cs).
Proof.
  intros Hc Hx. destruct (decide (cs = [])) as [->|]; [|by apply path_dir_rel].
  change (rel_path ([] ++ [x])) with x. unfold path_dir. destruct Hx as (_ & _ & _ & Hb).
  rewrite split_on_no_byte by done. cbn [removelast].
  replace (contains_byte x "/"%char) with false; [done|]. symmetry. unfold contains_byte.
  rewrite <-not_true_iff_false, existsb_exists. intros (a & Ha & <-%Ascii.eqb_eq).
  apply Hb, list_elem_of_In, Ha.
Qed.

Lemma rel_path_dot cs : Forall plain cs → rel_path cs ≠ ".".
Proof.
  intros H E. destruct cs as [|c cs]; [done|].
  apply (f_equal (split_on "/")) in E. rewrite split_rel in E by done.
  change (split_on "/" ".") with ["."] in E. simplify_eq.
  by apply Forall_inv in H as (_ & ? & _).
Qed.

(** What a granted reservation is: a free name below the download directory
    in the directory the entry asks for, whose temporary file no other slot
    holds, with only directories added to the disk. *)
Record reserved (meta : FileMeta) (s : slots_state) (slot : fileSlot) (s' : slots_state) : Prop := {
  rsv_below : ∃ rs, below ds rs (sl_dest slot) ∧ removelast rs = removelast (meta_comps meta);
  rsv_named : shielded (List.last (meta_comps meta) "") → shielded (sl_dest slot);
  rsv_tmp : sl_tmp slot = sl_dest slot +:+ partSuffix;
  rsv_free : fs_nodes (ss_fs s') !! sl_dest slot = None;
  rsv_new : sl_tmp slot ∉ ss_slots s;
  rsv_slots : ss_slots s' = {[sl_tmp slot]} ∪ ss_slots s;
  rsv_dirs : dirs_added ds [] (removelast (meta_comps meta)) (ss_fs s) (ss_fs s');
}.

Lemma dirs_added_not_dest parts rs dest s s' :
  below ds rs dest → removelast rs = parts → Forall plain parts →
  dirs_added ds [] parts s s' → fs_nodes s !! dest = None → fs_nodes s' !! dest = None.
Proof.
  intros (Hrs & Hne' & ->) Hrm Hparts [_ H] Hn.
  destruct (fs_nodes s' !! _) as [n|] eqn:E; [|done].
  apply H in E as [E|(_ & k & Hk & E)]; [congruence|].
  apply abs_path_inj in E; [|by apply Forall_app|].
  - apply app_inv_head in E. simpl in E. destruct (exists_last Hne') as (l & x & ->).
    rewrite removelast_last in Hrm. subst l. apply (f_equal length) in E.
    rewrite length_app, length_take in E. simpl in E. lia.
  - simpl. apply Forall_app. split; [done|]. by apply Forall_take.
Qed.

(** The name of an entry, and whether its parent has to be made. *)
Lemma meta_name meta :
  (fm_RelPath meta =?s "") = true ∨ validRelPath (fm_RelPath meta) = true →
  let name := if fm_RelPath meta =?s "" then sanitizeName (fm_Name meta) else fm_RelPath meta in
  split_on "/" name = meta_comps meta ∧ Forall plain (meta_comps meta).
Proof.
  intros Hv. cbv zeta. unfold meta_comps. pose proof (sanitizeName_plain (fm_Name meta)) as Hs.
  destruct (fm_RelPath meta =?s "") eqn:E.
  - split; [|by constructor]. apply split_on_no_byte. by destruct Hs as (_&_&_&?).
  - split; [done|]. apply validRelPath_plain. by destruct Hv.
Qed.

Lemma parent_dirs rel s r s' :
  validRelPath rel = true →
  (if negb (path_dir rel =?s ".") then createDirectory (abs_path ds) (path_dir rel) else ret ()) s
    = (r, s') →
  dirs_added ds [] (removelast (split_on "/" rel)) s s'.
Proof.
  intros Hv. pose proof (validRelPath_plain _ Hv) as Hp.
  destruct (exists_last (split_on_ne "/" rel)) as (cs & x & E). rewrite E in *.
  apply Forall_app in Hp as [Hcs Hx%Forall_inv]. rewrite removelast_last.
  assert (path_dir rel = if decide (cs = []) then "." else rel_path cs) as ->.
  { rewrite <-path_dir_plain with (x := x) by done. f_equal.
    rewrite <-(join_split "/" rel) at 1. by rewrite E. }
  destruct (decide (cs = [])) as [->|Hcn].
  - intros [= <- <-]. apply dirs_added_refl.
  - destruct (String.eqb_spec (rel_path cs) ".") as [Ed|_]; [by apply rel_path_dot in Ed|].
    cbn [negb]. intros Hc. apply createDirectory_spec in Hc as [Ha _]; try done.
    by rewrite split_rel in Ha.
Qed.

Lemma zoom_bind_fs {B} (m : M fs B) s r s' :
  ss_on_fs m s = (r, s') → m (ss_fs s) = (r, ss_fs s') ∧ ss_slots s' = ss_slots s.
Proof. unfold ss_on_fs, zoom. destruct (m (ss_fs s)). intros. by simplify_eq/=. Qed.

Lemma createDirectory_invalid rel s r s' :
  validRelPath rel = false → createDirectory (abs_path ds) rel s = (r, s') → s' = s.
Proof. unfold createDirectory. intros ->. by intros [= <- <-]. Qed.

(** The name, as the code computes it, or an error that changed nothing. *)
Definition reserve_name (meta : FileMeta) : M slots_state string :=
  if fm_RelPath meta =?s "" then ret (sanitizeName (fm_Name meta))
  else if validRelPath (fm_RelPath meta) then ret (fm_RelPath meta)
  else throw (Errorf ("unsafe rel_path " +:+ quote (fm_RelPath meta))).

Lemma reserve_name_inv meta s r s' :
  reserve_name meta s = (r, s') → s' = s ∧
  ∀ name, r = Ok name →
    name = (if fm_RelPath meta =?s "" then sanitizeName (fm_Name meta) else fm_RelPath meta) ∧
    ((fm_RelPath meta =?s "") = true ∨ validRelPath (fm_RelPath meta) = true).
Proof.
  unfold reserve_name. destruct (fm_RelPath meta =?s ""); [|destruct (validRelPath _)];
    intros E; injection E as <- <-; (split; [done|intros name Hn; simplify_eq; auto]).
Qed.

(** Making the parent of the destination. *)
Lemma reserve_dirs meta name s r s' :
  name = (if fm_RelPath meta =?s "" then sanitizeName (fm_Name meta) else fm_RelPath meta) →
  ((fm_RelPath meta =?s "") = true ∨ validRelPath (fm_RelPath meta) = true) →
  (if negb (fm_RelPath meta =?s "") && negb (path_dir name =?s ".")
   then ss_on_fs (createDirectory (abs_path ds) (path_dir name)) else ret ()) s = (r, s') →
  dirs_added ds [] (removelast (meta_comps meta)) (ss_fs s) (ss_fs s') ∧
  ss_slots s' = ss_slots s.
Proof.
  intros Hname Hv E.
  destruct (fm_RelPath meta =?s "") eqn:Er; cbn [negb andb] in E.
  - injection E as <- <-. split; [apply dirs_added_refl|done].
  - destruct Hv as [?|Hv]; [done|]. subst name. unfold meta_comps. rewrite Er.
    destruct (path_dir (fm_RelPath meta) =?s ".") eqn:Ed; cbn [negb] in E.
    + injection E as <- <-. split; [|done].
      eapply (parent_dirs _ _ (Ok ())); [done|]. by rewrite Ed.
    + apply zoom_bind_fs in E as [E ?]. split; [|done].
      eapply parent_dirs; [done|]. by rewrite Ed.
Qed.

Lemma reserveSlot_Ok meta s slot s' :
  reserveSlot (abs_path ds) meta s = (Ok slot, s') → reserved meta s slot s'.
Proof.
  unfold reserveSlot. fold (reserve_name meta). intros (name & s1 & E1 & E2)%bind_Ok_inv.
  apply reserve_name_inv in E1 as [-> Hn]. destruct (Hn name eq_refl) as [Hname Hv]. clear Hn.
  rewrite bind_Ok with (a := s) (s' := s) in E2 by done.
  pose proof (meta_name meta Hv) as [Hsp Hpl]. cbv zeta in Hsp. rewrite <-Hname in Hsp.
  destruct (uniquePathExcept _ _ _ _ _) as [dest|] eqn:Eu; [|done].
  apply uniquePathExcept_Some in Eu as (Hfree & Htaken & (rs & Hb & Hrm) & Hnm); [|by rewrite Hsp].
  rewrite Hsp in Hrm, Hnm. apply bind_Ok_inv in E2 as ([] & s2 & E2 & E3).
  injection E3 as <- <-. apply reserve_dirs in E2 as [Hd Hs]; [|done..].
  split; cbn [sl_dest sl_tmp ss_fs ss_slots]; eauto.
  - eapply dirs_added_not_dest; [done|done| |done|done]. by apply Forall_removelast.
  - by apply bool_decide_eq_false in Htaken.
  - by rewrite Hs.
Qed.

(** Whatever a reservation returns, only directories appeared, and one that
    failed claimed nothing. *)
Lemma reserveSlot_frame meta s r s' :
  reserveSlot (abs_path ds) meta s = (r, s') →
  (∃ parts, Forall plain parts ∧ dirs_added ds [] parts (ss_fs s) (ss_fs s')) ∧
  ((∀ slot, r ≠ Ok slot) → ss_slots s' = ss_slots s).
Proof.
  assert (∃ parts, Forall plain parts ∧ dirs_added ds [] parts (ss_fs s) (ss_fs s)) as H0.
  { exists []. split; [done|apply dirs_added_refl]. }
  unfold reserveSlot. fold (reserve_name meta).
  intros [(name & s1 & E1 & E2)|(r0 & E1 & _)]%bind_inv.
  2: by apply reserve_name_inv in E1 as [-> _].
  apply reserve_name_inv in E1 as [-> Hn]. destruct (Hn name eq_refl) as [Hname Hv]. clear Hn.
  rewrite bind_Ok with (a := s) (s' := s) in E2 by done.
  destruct (uniquePathExcept _ _ _ _ _) as [dest|]; [|by injection E2 as <- <-].
  apply bind_inv in E2 as [([] & s2 & E2 & E3)|(r0 & E2 & _)];
    apply reserve_dirs in E2 as [Hd Hs]; try done.
  - injection E3 as <- <-. split; [|by intros H; destruct (H _ eq_refl)].
    exists (removelast (meta_comps meta)). split; [|done].
    apply Forall_removelast. by apply meta_name.
  - split; [|done]. exists (removelast (meta_comps meta)). split; [|done].
    apply Forall_removelast. by apply meta_name.
Qed.

(** ** Every reservation comes back *)
Lemma create_parts_runs root current parts : runs any_fs (create_parts root current parts).
Proof.
  revert current. induction parts as [|p ps IH]; intros current; cbn [create_parts]; [auto with runs|].
  cbv zeta. apply runs_bind; [auto with runs|]. intros r. apply runs_bind.
  - destruct r; [|case_match]; auto with runs.
  - intros _. apply runs_bind; [auto with runs|]. intros []; auto with runs.
Qed.
Lemma createDirectory_runs dir rel : runs any_fs (createDirectory dir rel).
Proof.
  unfold createDirectory, open_root. case_match; [auto with runs|].
  apply runs_bind; [|intros _; apply create_parts_runs].
  apply runs_bind; [auto with runs|]. intros []; auto with runs.
Qed.

Lemma reserveSlot_runs meta : runs (λ _, True) (reserveSlot (abs_path ds) meta).
Proof.
  intros s _. split; [|done]. unfold reserveSlot. fold (reserve_name meta).
  unfold bind at 1. destruct (reserve_name meta s) as [r s1] eqn:E1.
  apply reserve_name_inv in E1 as E1'. destruct E1' as [-> Hn].
  destruct r as [name| | | |]; try done.
  2-4: unfold reserve_name in E1; repeat case_match; done.
  destruct (Hn name eq_refl) as [Hname Hv]. clear E1 Hn.
  rewrite bind_Ok with (a := s) (s' := s) by done.
  destruct (meta_name meta Hv) as [Hsp Hpl]. cbv zeta in Hsp. rewrite <-Hname in Hsp.
  destruct (uniquePathExcept_total (ss_fs s) (ss_slots s) name) as [dest Hd]; [by rewrite Hsp|].
  unfold unique_fuel. rewrite Hd.
  assert (runs (λ _ : slots_state, True)
    ((if negb (fm_RelPath meta =?s "") && negb (path_dir name =?s ".")
      then ss_on_fs (createDirectory (abs_path ds) (path_dir name)) else ret ()) ;;;
     ss_claim (dest +:+ partSuffix) ;;; ret (mkSlot dest (dest +:+ partSuffix)))) as Hr.
  { apply runs_bind; [|intros _; apply runs_bind; [by apply runs_modify|auto with runs]].
    destruct (_ && _); [|auto with runs]. unfold ss_on_fs.
    eapply runs_zoom; [apply createDirectory_runs|done|done]. }
  by destruct (Hr s I).
Qed.
End reserve.
