(* ===== verification/Receive.v ===== *)
(** * internal/daemon/receive.go: receiving a session

    The receiving side of a transfer, written as the handlers are: reads and
    writes of the connection, the file system with its schedule of faults, the
    claims of in-flight transfers, and what the daemon shows its user. *)

From S2P Require Import Prelude GoStrings GoPath Go GoFmt Sha256 Fs Proto Ipc Paths.
From Stdlib Require Import ZArith Lia String Ascii List Bool.
From stdpp Require Import base list strings gmap option numbers.

#[local] Open Scope string_scope.
#[local] Open Scope list_scope.
#[local] Open Scope Z_scope.

(** ** The state a session runs in *)

Record rworld := mkWorld {
  w_conn : conn;
  w_disk : slots_state;             (* the file system and [Daemon.slots] *)
  w_events : list Event;            (* broadcasts, newest last *)
  w_notes : list (string * string); (* notify.Send *)
  w_clips : list (bytes * string);  (* what clipboardSet stored *)
}.

Definition on_conn {A} (m : M conn A) : M rworld A :=
  zoom w_conn (λ c w, mkWorld c (w_disk w) (w_events w) (w_notes w) (w_clips w)) m.
Definition on_disk {A} (m : M slots_state A) : M rworld A :=
  zoom w_disk (λ d w, mkWorld (w_conn w) d (w_events w) (w_notes w) (w_clips w)) m.
Definition on_fs {A} (m : M fs A) : M rworld A := on_disk (ss_on_fs m).

Definition broadcast (e : Event) : M rworld unit :=
  modify (λ w, mkWorld (w_conn w) (w_disk w) (w_events w ++ [e]) (w_notes w) (w_clips w)).
Definition notify_Send (title body : string) : M rworld unit :=
  modify (λ w, mkWorld (w_conn w) (w_disk w) (w_events w) (w_notes w ++ [(title, body)]) (w_clips w)).
Definition store_clip (b : bytes) (mime : string) : M rworld unit :=
  modify (λ w, mkWorld (w_conn w) (w_disk w) (w_events w) (w_notes w) (w_clips w ++ [(b, mime)])).

(** [_ = proto.WriteControl(conn, h)] *)
Definition reply (h : Header) : M rworld unit := ignore (on_conn (WriteControl h)).
Definition ack (i : Z) (ok : bool) (err : string) : Header :=
  set_hdr_Error err (set_hdr_OK ok (set_hdr_FileIndex i (set_hdr_Type TypeAck zero_Header))).

(** ** One file *)

Definition close_file : M fs unit := faulty (ret ()).

(** [io.CopyN(io.MultiWriter(f, hasher), conn, n)]: what has arrived is
    written, then the copy ends, waits or fails. The pieces of 32 KiB the copy
    goes by are one write here; a fault can cut it anywhere. *)
Definition copy_n (tmp : string) (n : Z) : M rworld bytes :=
  input <- gets (c_in ∘ w_conn) ;;
  let k := if n <=? Z.of_nat (length input) then Z.to_nat n else length input in
  b <- on_conn (read_full k) ;;
  (if (k =? 0)%nat then ret () else on_fs (append_file tmp b)) ;;;
  if n <=? Z.of_nat (length input) then ret b
  else
    e <- gets (c_end ∘ w_conn) ;;
    match e with
    | Some e => throw e
    | None => λ w, (Block, w)
    end.

Definition discard (tmp : string) : M fs unit := ignore close_file ;;; removePart tmp.

(** The frames of one file's body: [got] bytes announced so far, [hashed] what
    the hasher has been fed. *)
Fixpoint file_body (fuel : nat) (meta : FileMeta) (slot : fileSlot) (got : Z) (hashed : bytes)
  : M rworld string :=
  let tmp := sl_tmp slot in
  match fuel with
  | O => out_of_fuel
  | S fuel =>
      r <- try (on_conn ReadHeader) ;;
      match r with
      | inr err => on_fs (ignore close_file) ;;; throw err
      | inl hdr =>
          if hdr_Type hdr =?s TypeChunk then
            if hdr_Length hdr <? 0 then
              on_fs (discard tmp) ;;;
              throw (Errorf ("negative chunk length " +:+ itoa (hdr_Length hdr)))
            else if fm_Size meta <? int64 (got + hdr_Length hdr) then
              on_fs (discard tmp) ;;; throw (Errorf "payload exceeds declared size")
            else
              c <- try (copy_n tmp (hdr_Length hdr)) ;;
              match c with
              | inr err => on_fs (ignore close_file) ;;; throw err
              | inl b =>
                  file_body fuel meta slot (int64 (got + hdr_Length hdr)) (hashed ++ b)
              end
          else if hdr_Type hdr =?s TypeProgress then file_body fuel meta slot got hashed
          else if hdr_Type hdr =?s TypeFileEnd then
            c <- try (on_fs close_file) ;;
            match c with
            | inr err => on_fs (removePart tmp) ;;; throw err
            | inl _ =>
                if negb (got =? fm_Size meta) then
                  on_fs (removePart tmp) ;;;
                  throw (Errorf ("size mismatch: got " +:+ itoa got +:+ " want " +:+
                                 itoa (fm_Size meta)))
                else if negb (equal_fold (hex_encode (sha256 hashed)) (fm_SHA256 meta)) then
                  on_fs (removePart tmp) ;;; throw (Errorf "sha256 mismatch")
                else
                  m <- try (on_fs (rename tmp (sl_dest slot))) ;;
                  match m with
                  | inr err => on_fs (removePart tmp) ;;; throw err
                  | inl _ =>
                      on_fs (ignore (remove_file (partMetaPath tmp))) ;;; ret (sl_dest slot)
                  end
            end
          else
            on_fs (discard tmp) ;;;
            throw (Errorf ("unexpected " +:+ hdr_Type hdr +:+ " during file body"))
      end
  end.

(** Frames are at least five bytes long, so the unread input bounds the loop. *)
Definition input_fuel : M rworld nat := gets (λ w, S (length (c_in (w_conn w)))).

Definition receiveOneFile (meta : FileMeta) (slot : fileSlot) (resumeOffset : Z)
  : M rworld string :=
  let tmp := sl_tmp slot in
  seeded <- (if 0 <? resumeOffset then
               existing <- try (on_fs (read_file tmp)) ;;
               on_fs (open_append tmp) ;;;
               ret (match existing with inl b => b | inr _ => [] end)
             else on_fs (open_trunc tmp) ;;; ret []) ;;
  on_fs (writePartMeta tmp meta) ;;;
  fuel <- input_fuel ;;
  file_body fuel meta slot (if 0 <? resumeOffset then resumeOffset else 0) seeded.

(** ** The session of files *)

(** The variables of receiveFilesWithProgress. *)
Record rsess := mkSess {
  rs_world : rworld;
  rs_slots : gmap Z fileSlot;
  rs_completed : gset Z;
  rs_saved : list string;
}.

Definition in_world {A} (m : M rworld A) : M rsess A :=
  zoom rs_world (λ w s, mkSess w (rs_slots s) (rs_completed s) (rs_saved s)) m.
Definition add_slot (i : Z) (slot : fileSlot) : M rsess unit :=
  modify (λ s, mkSess (rs_world s) (<[i := slot]> (rs_slots s)) (rs_completed s) (rs_saved s)).
Definition complete (i : Z) (path : string) : M rsess unit :=
  modify (λ s, mkSess (rs_world s) (rs_slots s) ({[i]} ∪ rs_completed s) (rs_saved s ++ [path])).

Definition recv_event (kind peer : string) (count : Z) : Event :=
  mkEvent kind peer "" 0 count 0 0 "" None "".

Definition baseNames (paths : list string) : list string := map path_base paths.

Section receive.
Context (downloadDir : string).
(** [Daemon.clipboardSet]: the desktop's clipboard tools. *)
Context (clipboard_set : bytes → string → option error).

Definition slotFor (i : Z) (meta : FileMeta) : M rsess fileSlot :=
  slots <- gets rs_slots ;;
  match slots !! i with
  | Some slot => ret slot
  | None =>
      slot <- in_world (on_disk (reserveSlot downloadDir meta)) ;;
      add_slot i slot ;;;
      ret slot
  end.

Definition emitErr {A} (peerName : string) (count : Z) (err : error) : M rsess A :=
  in_world (broadcast (mkEvent "recv-error" peerName "" 0 count 0 0 (error_text err) None "")) ;;;
  throw err.

(** [i >= 0 && i < len(manifest)], with the entry. *)
Definition entry (manifest : list FileMeta) (i : Z) : option FileMeta :=
  if i <? 0 then None else manifest !! Z.to_nat i.

Definition quoted_file (meta : FileMeta) (err : error) : error :=
  Wrapf ("file " +:+ quote (fm_Name meta)) err.

Definition bad_dir_entry (meta : FileMeta) (i : Z) (e : Header) : bool :=
  negb (hdr_Type e =?s TypeFileEnd) || negb (hdr_FileIndex e =? i) ||
  negb (hdr_Length e =? 0) || negb (fm_Size meta =? 0) || negb (fm_SHA256 meta =?s "").

Definition recv_directory (peerName : string) (count : Z) (i : Z) (meta : FileMeta)
  : M rsess unit :=
  r <- try (e <- in_world (on_conn ReadHeader) ;;
            (if bad_dir_entry meta i e then throw (Errorf "invalid directory entry") else ret ()) ;;;
            in_world (on_fs (createDirectory downloadDir (fm_RelPath meta)))) ;;
  match r with
  | inr err =>
      in_world (reply (ack i false (error_text err))) ;;;
      emitErr peerName count err
  | inl _ =>
      complete i (fm_RelPath meta) ;;;
      in_world (reply (ack i true ""))
  end.

Definition recv_file (peerName : string) (count : Z) (resume : bool) (i : Z) (meta : FileMeta)
  : M rsess unit :=
  r <- try (slot <- slotFor i meta ;;
            resumeOffset <- (if resume then in_world (on_fs (partialBytes slot meta))
                             else ret 0) ;;
            in_world (receiveOneFile meta slot resumeOffset)) ;;
  match r with
  | inr err =>
      in_world (reply (ack i false (error_text err))) ;;;
      emitErr peerName count (quoted_file meta err)
  | inl path =>
      complete i path ;;;
      in_world (reply (ack i true "") ;;;
                broadcast (mkEvent "recv-file-done" peerName (path_base path) i count
                             (fm_Size meta) (fm_Size meta) "" None path))
  end.

Definition recv_resume_query (manifest : list FileMeta) (resume : bool) (i : Z) : M rsess unit :=
  partBytes <-
    match entry manifest i with
    | Some meta =>
        if resume && negb (fm_IsDir meta) then
          slot <- try (slotFor i meta) ;;
          match slot with
          | inl slot => in_world (on_fs (partialBytes slot meta))
          | inr _ => ret 0
          end
        else ret 0
    | None => ret 0
    end ;;
  in_world (reply (set_hdr_BytesDone partBytes (set_hdr_FileIndex i
                     (set_hdr_Type TypeResumeOffer zero_Header)))).

(** The loop over frames. *)
Fixpoint recv_loop (fuel : nat) (peerName : string) (manifest : list FileMeta) (resume : bool)
  : M rsess unit :=
  let count := Z.of_nat (length manifest) in
  match fuel with
  | O => out_of_fuel
  | S fuel =>
      r <- try (in_world (on_conn ReadHeader)) ;;
      match r with
      | inr err => emitErr peerName count err
      | inl hdr =>
          let i := hdr_FileIndex hdr in
          if hdr_Type hdr =?s TypeSessionEnd then
            completed <- gets rs_completed ;;
            if bool_decide (size completed ≠ length manifest) then
              in_world (reply (ack 0 false "incomplete transfer")) ;;;
              emitErr peerName count (Errorf "incomplete transfer")
            else ret ()
          else if hdr_Type hdr =?s TypeProgress then
            in_world (broadcast (mkEvent "recv-progress" peerName
              (match entry manifest i with Some m => fm_Name m | None => "" end)
              i count (hdr_BytesDone hdr) (hdr_TotalBytes hdr) "" None "")) ;;;
            recv_loop fuel peerName manifest resume
          else if hdr_Type hdr =?s TypeResumeQuery then
            recv_resume_query manifest resume i ;;;
            recv_loop fuel peerName manifest resume
          else if negb (hdr_Type hdr =?s TypeFileHeader) then
            emitErr peerName count (Errorf ("expected file_header, got " +:+ hdr_Type hdr))
          else
            match entry manifest i with
            | None => emitErr peerName count (Errorf ("file index " +:+ itoa i +:+ " out of range"))
            | Some meta =>
                completed <- gets rs_completed ;;
                if bool_decide (i ∈ completed) then
                  emitErr peerName count (Errorf ("duplicate file index " +:+ itoa i))
                else
                  (if fm_IsDir meta then recv_directory peerName count i meta
                   else recv_file peerName count resume i meta) ;;;
                  recv_loop fuel peerName manifest resume
            end
      end
  end.

(** The deferred release of every slot. *)
Definition release_all (slots : gmap Z fileSlot) (d : slots_state) : slots_state :=
  mkSlots (ss_fs d) (map_fold (λ _ slot claimed, release_slot slot claimed) (ss_slots d) slots).

(** Run the body on fresh variables; whatever it returns, release. *)
Definition with_slots {A} (body : M rsess A) : M rworld A := λ w,
  let '(r, s) := body (mkSess w ∅ ∅ []) in
  let w := rs_world s in
  match r with
  | Ok _ | Err _ =>
      (r, mkWorld (w_conn w) (release_all (rs_slots s) (w_disk w)) (w_events w) (w_notes w)
            (w_clips w))
  | _ => (r, w)
  end.

Definition receiveFiles (peerName : string) (manifest : list FileMeta) (resume : bool)
  : M rworld unit :=
  if bool_decide (manifest = []) then throw (Errorf "empty file manifest")
  else
    broadcast (recv_event "recv-start" peerName (Z.of_nat (length manifest))) ;;;
    with_slots (
      fuel <- in_world input_fuel ;;
      recv_loop fuel peerName manifest resume ;;;
      in_world (reply (ack 0 true "")) ;;;
      saved <- gets rs_saved ;;
      in_world (
        notify_Send ("Received " +:+ itoa (Z.of_nat (length saved)) +:+ " file(s) from " +:+ peerName)
          (join_with ", " (baseNames saved)) ;;;
        broadcast (recv_event "recv-done" peerName (Z.of_nat (length saved))))).

(** ** The clipboard *)

Definition ellipsis : bytes := [Zbyte 226; Zbyte 128; Zbyte 166].
Definition preview_of (b : bytes) : string :=
  let preview := trim_space (str b) in
  if (60 <? String.length preview)%nat then str (take 60 (bs preview) ++ ellipsis) else preview.

Definition receiveClipboard (peerName : string) : M rworld unit :=
  hdr <- on_conn ReadHeader ;;
  if negb (hdr_Type hdr =?s TypeClipboardData) then
    throw (Errorf ("expected clipboard data, got " +:+ hdr_Type hdr))
  else if (hdr_Length hdr <? 0) || (MaxClipboardSize <? hdr_Length hdr) then
    let err := "clipboard payload of " +:+ itoa (hdr_Length hdr) +:+ " bytes (limit " +:+
               itoa MaxClipboardSize +:+ ")" in
    reply (ack 0 false err) ;;;
    throw (Errorf err)
  else
    r <- try (on_conn (read_full (Z.to_nat (hdr_Length hdr)))) ;;
    match r with
    | inr e => throw (Wrapf "read clipboard payload" e)
    | inl buf =>
        ignore (on_conn ReadHeader) ;;;
        match clipboard_set buf (hdr_MIME hdr) with
        | Some e =>
            reply (ack 0 false (error_text e)) ;;;
            throw (Wrapf "set clipboard" e)
        | None =>
            store_clip buf (hdr_MIME hdr) ;;;
            reply (ack 0 true "") ;;;
            notify_Send ("Clipboard from " +:+ peerName) (preview_of buf)
        end
    end.

Definition receiveSession (peerName : string) : M rworld unit :=
  r <- try (on_conn ReadHeader) ;;
  match r with
  | inr EOF => ret ()
  | inr err => throw err
  | inl start =>
      if negb (hdr_Type start =?s TypeSessionStart) then
        throw (Errorf ("expected session_start, got " +:+ hdr_Type start))
      else if hdr_Kind start =?s KindClipboard then receiveClipboard peerName
      else if hdr_Kind start =?s KindFiles then
        receiveFiles peerName (hdr_Files start) (hdr_Resume start)
      else throw (Errorf ("unknown session kind " +:+ quote (hdr_Kind start)))
  end.
End receive.

(** ** Frames *)

Definition wfs (w : rworld) : fs := ss_fs (w_disk w).

(** Only paths in [P] changed, and the claims are the same. *)
Definition wonly (P : string → Prop) (w w' : rworld) : Prop :=
  only P (wfs w) (wfs w') ∧ ss_slots (w_disk w') = ss_slots (w_disk w).

#[export] Instance wonly_preorder P : PreOrder (wonly P).
Proof.
  split; [by intros w|]. intros w1 w2 w3 [H1 S1] [H2 S2]. split; [by etransitivity|congruence].
Qed.

Lemma on_conn_keeps {A} P (m : M conn A) : keeps (wonly P) (on_conn m).
Proof. by intros w r w' (c & _ & ->)%zoom_inv. Qed.

Lemma on_fs_inv {A} (m : M fs A) w r w' :
  on_fs m w = (r, w') →
  m (wfs w) = (r, wfs w') ∧ ss_slots (w_disk w') = ss_slots (w_disk w) ∧ w_conn w' = w_conn w.
Proof.
  unfold on_fs, on_disk. intros (d & E & ->)%zoom_inv. unfold ss_on_fs in E.
  by apply zoom_inv in E as (f & E & ->).
Qed.

Lemma on_fs_keeps {A} P (m : M fs A) : touches P m → keeps (wonly P) (on_fs m).
Proof.
  intros Hm w r w' (E & Hs & _)%on_fs_inv. split; [|done]. by eapply Hm.
Qed.

Lemma broadcast_keeps P e : keeps (wonly P) (broadcast e).
Proof. by apply keeps_modify. Qed.
Lemma notify_keeps P a b : keeps (wonly P) (notify_Send a b).
Proof. by apply keeps_modify. Qed.
Lemma reply_keeps P h : keeps (wonly P) (reply h).
Proof. apply keeps_ignore, on_conn_keeps. Qed.
#[export] Hint Resolve on_conn_keeps on_fs_keeps broadcast_keeps notify_keeps reply_keeps
  wonly_preorder : keeps.

(** The two paths of a slot's partial file. *)
Definition part_paths (tmp : string) (p : string) : Prop := p = tmp ∨ p = partMetaPath tmp.

Lemma close_file_touches P : touches P close_file.
Proof. unfold close_file. auto with fs. Qed.
Lemma removePart_touches tmp : touches (part_paths tmp) (removePart tmp).
Proof.
  unfold removePart. apply touches_bind; [|intros _];
    apply touches_ignore, remove_file_touches; unfold part_paths; auto.
Qed.
Lemma writePartMeta_touches tmp meta : touches (part_paths tmp) (writePartMeta tmp meta).
Proof. apply touches_ignore, write_file_touches. unfold part_paths. auto. Qed.
Lemma discard_touches tmp : touches (part_paths tmp) (discard tmp).
Proof.
  unfold discard. apply touches_bind; [apply touches_ignore, close_file_touches|].
  intros _. apply removePart_touches.
Qed.
Lemma partialBytes_touches slot meta :
  touches (part_paths (sl_tmp slot)) (partialBytes slot meta).
Proof.
  unfold partialBytes. apply touches_bind; [auto with fs|]. intros [[]|]; auto with fs.
  cbv zeta. case_match; [auto with fs|]. apply touches_bind; [auto with fs|].
  intros []; [case_match; [auto with fs|]|];
    (apply touches_bind; [apply removePart_touches|auto with fs]).
Qed.
#[export] Hint Resolve close_file_touches removePart_touches writePartMeta_touches
  discard_touches partialBytes_touches : fs.

Lemma copy_n_keeps tmp n : keeps (wonly (part_paths tmp)) (copy_n tmp n).
Proof.
  unfold copy_n. apply keeps_bind; [apply _|auto with keeps|]. intros input. cbv zeta.
  apply keeps_bind; [apply _|auto with keeps|]. intros b.
  apply keeps_bind; [apply _| |].
  - case_match; [auto with keeps|]. apply on_fs_keeps, append_file_touches. by left.
  - intros _. case_match; [auto with keeps|]. apply keeps_bind; [apply _|auto with keeps|].
    intros []; [auto with keeps|]. by intros w r w' [= <- <-].
Qed.

(** ** One file *)

(** What the receiver checks before it puts a file in place. *)
Definition verified (meta : FileMeta) (b : bytes) : Prop :=
  int64 (Z.of_nat (length b)) = fm_Size meta ∧
  equal_fold (hex_encode (sha256 b)) (fm_SHA256 meta) = true.

(** The destination changes only when the file is complete and verified; in
    every other outcome nothing but the slot's partial file changed. *)
Definition one_file_post (meta : FileMeta) (slot : fileSlot) (w : rworld) (r : res string)
    (w' : rworld) : Prop :=
  match r with
  | Ok path =>
      path = sl_dest slot ∧
      wonly (λ p, part_paths (sl_tmp slot) p ∨ p = sl_dest slot) w w' ∧
      (∃ b, file_at (wfs w') (sl_dest slot) = Some b ∧ verified meta b) ∧
      (∀ n, fs_nodes (wfs w) !! sl_dest slot = Some n → ∃ b, n = NFile b)
  | _ => wonly (part_paths (sl_tmp slot)) w w'
  end.

Lemma wonly_weaken (P Q : string → Prop) w w' :
  (∀ p, P p → Q p) → wonly P w w' → wonly Q w w'.
Proof. intros H [H1 H2]. split; [|done]. by eapply only_weaken. Qed.

Section one_file.
Context (meta : FileMeta) (slot : fileSlot).
Context (Hdest : ¬ part_paths (sl_tmp slot) (sl_dest slot)).

Let P := part_paths (sl_tmp slot).

Lemma post_step w w1 r w' :
  wonly P w w1 → one_file_post meta slot w1 r w' → one_file_post meta slot w r w'.
Proof.
  intros H1. destruct r; simpl; try by etransitivity.
  intros (-> & H2 & Hb & Hn). split_and!; try done.
  - etransitivity; [|done]. eapply wonly_weaken; [|done]. auto.
  - intros n E. apply Hn. destruct H1 as [H1 _]. by rewrite H1.
Qed.

Lemma post_fail w r w' :
  (∀ a, r ≠ Ok a) → wonly P w w' → one_file_post meta slot w r w'.
Proof. intros Hr Hw. destruct r; try done. by destruct (Hr a). Qed.

Lemma cleanup_keeps {A} (m : M fs unit) e w (r : res A) w' :
  touches P m → (on_fs m ;;; throw e) w = (r, w') → wonly P w w'.
Proof.
  intros Hm. apply (keeps_bind _ (on_fs m) (λ _, throw e));
    [by apply on_fs_keeps|intros _; auto with keeps].
Qed.

(** A clean-up followed by an error. *)
Lemma post_cleanup (m : M fs unit) e w r w' :
  touches P m → (on_fs m ;;; throw e) w = (r, w') → one_file_post meta slot w r w'.
Proof.
  intros Hm E. apply post_fail; [by eapply bind_throw_not_Ok|].
  by eapply cleanup_keeps.
Qed.

Lemma copy_n_Ok n w b w' :
  0 ≤ n → copy_n (sl_tmp slot) n w = (Ok b, w') →
  Z.of_nat (length b) = n ∧
  ∀ old, file_at (wfs w) (sl_tmp slot) = Some old →
    file_at (wfs w') (sl_tmp slot) = Some (old ++ b).
Proof.
  intros Hn E. unfold copy_n in E. rewrite bind_Ok with (a := c_in (w_conn w)) (s' := w) in E by done.
  cbv zeta in E. apply bind_Ok_inv in E as (b' & w1 & E1 & E2).
  apply bind_Ok_inv in E2 as ([] & w2 & E2 & E3).
  destruct (Z.leb_spec n (Z.of_nat (length (c_in (w_conn w))))) as [Hle|].
  2:{ apply bind_Ok_inv in E3 as (e & w3 & _ & E3). destruct e; done. }
  injection E3 as <- <-. apply zoom_inv in E1 as (c & E1 & ->).
  apply read_full_ok in E1 as (Hlen & _). split; [lia|]. intros old Hold.
  destruct (Nat.eqb_spec (Z.to_nat n) 0) as [E0|].
  - injection E2 as <-. destruct b'; [|simpl in *; lia]. by rewrite app_nil_r.
  - apply on_fs_inv in E2 as (E2 & _). apply append_file_Ok in E2 as (old' & Ho & Hn').
    unfold wfs in *. cbn [w_disk] in Ho. rewrite Hold in Ho. by injection Ho as <-.
Qed.

(** The successful end of a file: renamed into place. *)
Lemma post_rename hashed w r w' :
  file_at (wfs w) (sl_tmp slot) = Some hashed → verified meta hashed →
  (m <- try (on_fs (rename (sl_tmp slot) (sl_dest slot))) ;;
   match m with
   | inr err => on_fs (removePart (sl_tmp slot)) ;;; throw err
   | inl _ => on_fs (ignore (remove_file (partMetaPath (sl_tmp slot)))) ;;; ret (sl_dest slot)
   end) w = (r, w') →
  one_file_post meta slot w r w'.
Proof.
  intros Hf Hv E. apply bind_inv in E as [([[]|e] & w1 & E1 & E2)|(r0 & E1 & Hr & ->)].
  - apply try_inv in E1 as ([] & E1 & ?); simplify_eq.
    apply on_fs_inv in E1 as (E1 & Hs1 & _).
    assert (touches P (ignore (remove_file (partMetaPath (sl_tmp slot))))) as Ht.
    { apply touches_ignore, remove_file_touches. by right. }
    pose proof (rename_touches (λ p, P p ∨ p = sl_dest slot) (sl_tmp slot) (sl_dest slot)
      ltac:(by left; left) ltac:(by right) _ _ _ E1) as Ho.
    pose proof E1 as E1'. apply rename_Ok in E1' as (b & Hb & Hd & _).
    2:{ intros Ed. apply Hdest. by left. }
    rewrite Hf in Hb. injection Hb as <-.
    apply bind_inv in E2 as [([] & w2 & E2 & E3)|(r0 & E2 & Hr & ->)].
    + injection E3 as <- <-. apply on_fs_inv in E2 as (E2 & Hs2 & _).
      pose proof (Ht _ _ _ E2) as Hk. split_and!; [done| | |].
      * split; [|congruence]. etransitivity; [done|]. eapply only_weaken; [|done]. auto.
      * exists hashed. split; [|done]. unfold file_at in *. by rewrite (Hk _ Hdest).
      * intros n En. apply bind_Ok_inv in E1 as (b & s1 & R1 & R2).
        apply read_file_Ok in R1 as [-> _]. apply bind_Ok_inv in R2 as ([] & s2 & R2 & _).
        unfold can_create in R2. rewrite En in R2. destruct n; naive_solver.
    + exfalso. apply on_fs_inv in E2 as (E2 & _).
      destruct (ignore_Ok any_fs (remove_file (partMetaPath (sl_tmp slot))) (wfs w1)
        (remove_file_runs _) I) as [s' E]. rewrite E in E2. by simplify_eq; eapply Hr.
  - apply try_inv in E1 as (r0 & E1 & Hr0). destruct r0; simplify_eq.
    apply post_fail; [by eapply bind_throw_not_Ok|].
    etransitivity; [|by eapply cleanup_keeps; [apply removePart_touches|]].
    apply on_fs_inv in E1 as (E1 & Hs & _). split; [|done].
    apply rename_failed in E1; [|done]. intros q _. by rewrite E1.
  - exfalso. apply try_inv in E1 as (r1 & E1 & Hr1). apply on_fs_inv in E1 as (E1 & _).
    destruct (rename_runs (sl_tmp slot) (sl_dest slot) (wfs w) I) as [Hf' _].
    rewrite E1 in Hf'. destruct r1; simplify_eq; by eapply Hr.
Qed.

Lemma file_same {w w'} p : w_disk w' = w_disk w → file_at (wfs w') p = file_at (wfs w) p.
Proof. unfold wfs. by intros ->. Qed.

Lemma on_conn_disk {A} (m : M conn A) w r w' : on_conn m w = (r, w') → w_disk w' = w_disk w.
Proof. by intros (c & _ & ->)%zoom_inv. Qed.

Lemma disk_wonly Q w w' : w_disk w' = w_disk w → wonly Q w w'.
Proof. intros E. unfold wonly, wfs. by rewrite E. Qed.

Lemma file_body_post fuel got hashed w r w' :
  file_at (wfs w) (sl_tmp slot) = Some hashed →
  got = int64 (Z.of_nat (length hashed)) →
  file_body fuel meta slot got hashed w = (r, w') →
  one_file_post meta slot w r w'.
Proof.
  revert got hashed w. induction fuel as [|fuel IH]; intros got hashed w Hf Hg E.
  { injection E as <- <-. done. }
  cbn [file_body] in E. cbv zeta in E.
  apply bind_inv in E as [(rh & w1 & E1 & E2)|(r0 & E1 & Hr & ->)].
  2:{ apply post_fail; [by destruct r0|].
      revert E1. apply keeps_try, on_conn_keeps. }
  apply try_inv in E1 as (r1 & E1 & Hr1). apply on_conn_disk in E1 as Hd. clear E1 r1 Hr1.
  assert (file_at (wfs w1) (sl_tmp slot) = Some hashed) as Hf1 by by rewrite (file_same _ Hd).
  eapply post_step; [by apply disk_wonly|]. destruct rh as [hdr|err].
  2:{ eapply post_cleanup; [|done]. apply touches_ignore, close_file_touches. }
  destruct (hdr_Type hdr =?s TypeChunk).
  { destruct (Z.ltb_spec (hdr_Length hdr) 0) as [|Hn].
    { eapply post_cleanup; [|done]. apply discard_touches. }
    destruct (fm_Size meta <? int64 (got + hdr_Length hdr)).
    { eapply post_cleanup; [|done]. apply discard_touches. }
    apply bind_inv in E2 as [([b|err] & w2 & E2 & E3)|(r0 & E2 & Hr & ->)].
    - apply try_inv in E2 as (r1 & E2 & Hr1). destruct r1; simplify_eq.
      eapply post_step; [by eapply copy_n_keeps|].
      apply copy_n_Ok in E2 as [Hlen Happ]; [|done]. eapply IH; [by apply Happ| |done].
      rewrite int64_add_l, length_app, Nat2Z.inj_add. by rewrite Hlen.
    - apply try_inv in E2 as (r1 & E2 & Hr1).
      eapply post_step; [by eapply copy_n_keeps|].
      eapply post_cleanup; [|done]. apply touches_ignore, close_file_touches.
    - apply post_fail; [by destruct r0|]. revert E2. apply keeps_try, copy_n_keeps. }
  destruct (hdr_Type hdr =?s TypeProgress); [by eapply IH|].
  destruct (hdr_Type hdr =?s TypeFileEnd).
  2:{ eapply post_cleanup; [|done]. apply discard_touches. }
  apply bind_inv in E2 as [(c & w2 & E2 & E3)|(r0 & E2 & Hr & ->)].
  2:{ apply post_fail; [by destruct r0|]. revert E2. apply keeps_try, on_fs_keeps, close_file_touches. }
  apply try_inv in E2 as (r1 & E2 & Hr1).
  assert (wonly P w1 w2 ∧ file_at (wfs w2) (sl_tmp slot) = Some hashed) as [Hw Hf2].
  { split; [by eapply on_fs_keeps; [apply close_file_touches|]|].
    apply on_fs_inv in E2 as (E2 & _). unfold file_at in *.
    by rewrite (close_file_touches (λ _, False) _ _ _ E2) by tauto. }
  eapply post_step; [done|]. destruct c as [u|err].
  2:{ eapply post_cleanup; [|done]. apply removePart_touches. }
  destruct (Z.eqb_spec got (fm_Size meta)) as [Hs|]; cbn [negb] in E3.
  2:{ eapply post_cleanup; [|done]. apply removePart_touches. }
  destruct (equal_fold _ _) eqn:Hh; cbn [negb] in E3.
  2:{ eapply post_cleanup; [|done]. apply removePart_touches. }
  eapply post_rename; [done| |done]. split; [congruence|done].
Qed.

(** The offset a resumed file starts from is the size of its partial. *)
Definition offset_ok (w : rworld) (off : Z) : Prop :=
  off ≤ 0 ∨ ∃ b, file_at (wfs w) (sl_tmp slot) = Some b ∧
                 off = int64 (Z.of_nat (length b)).

Lemma part_not_meta tmp : tmp ≠ partMetaPath tmp.
Proof.
  intros E%(f_equal String.length). unfold partMetaPath in E.
  rewrite length_strapp in E. simpl in E. lia.
Qed.

Lemma receiveOneFile_post off w r w' :
  offset_ok w off → receiveOneFile meta slot off w = (r, w') → one_file_post meta slot w r w'.
Proof.
  intros Hoff E. unfold receiveOneFile in E. cbv zeta in E.
  apply bind_inv in E as [(seeded & w1 & E1 & E2)|(r0 & E1 & Hr & ->)].
  2:{ apply post_fail; [by destruct r0|]. revert E1.
      destruct (0 <? off); repeat (apply keeps_bind; [apply _| |intros ?]);
        auto with keeps fs; apply on_fs_keeps, open_trunc_touches; by left. }
  assert (wonly P w w1 ∧ file_at (wfs w1) (sl_tmp slot) = Some seeded ∧
    (if 0 <? off then off else 0) = int64 (Z.of_nat (length seeded))) as (Hw & Hf & Hg).
  { destruct (Z.ltb_spec 0 off) as [Hp|Hp].
    - destruct Hoff as [?|(b & Hb & ->)]; [lia|].
      apply bind_Ok_inv in E1 as (ex & w2 & E1 & E3).
      apply bind_Ok_inv in E3 as ([] & w3 & E3 & E4). injection E4 as <- <-.
      apply try_inv in E1 as (r1 & E1 & Hr1). apply on_fs_inv in E1 as (E1 & Hs1 & _).
      assert (r1 = Ok b ∧ wfs w2 = wfs w) as [-> Hw2].
      { unfold read_file, file_at in *. repeat case_match; by simplify_eq. }
      simplify_eq. apply on_fs_inv in E3 as (E3 & Hs3 & _). rewrite Hw2 in E3.
      apply open_append_Ok in E3 as [E3 _]. split_and!.
      + split; [|congruence]. intros q _. by rewrite E3.
      + unfold file_at in *. by rewrite E3.
      + done.
    - apply bind_Ok_inv in E1 as ([] & w2 & E1 & E3). injection E3 as <- <-.
      split; [by eapply on_fs_keeps; [|done]; apply open_trunc_touches; left|].
      apply on_fs_inv in E1 as (E1%open_trunc_Ok & _). done. }
  eapply post_step; [done|]. clear E1 Hoff.
  apply bind_inv in E2 as [([] & w2 & E2 & E3)|(r0 & E2 & Hr & ->)].
  2:{ apply post_fail; [by destruct r0|]. revert E2. apply on_fs_keeps, writePartMeta_touches. }
  eapply post_step; [eapply on_fs_keeps; [apply writePartMeta_touches|done]|].
  unfold input_fuel in E3. rewrite bind_Ok with (a := S (length (c_in (w_conn w2)))) (s' := w2)
    in E3 by done.
  eapply file_body_post; [|done|done]. apply on_fs_inv in E2 as (E2 & _).
  assert (touches (λ q, q = partMetaPath (sl_tmp slot)) (writePartMeta (sl_tmp slot) meta)) as Ht
    by by apply touches_ignore, write_file_touches.
  unfold file_at in *. by rewrite (Ht _ _ _ E2) by apply part_not_meta.
Qed.
End one_file.

(** What [partialBytes] returns can be resumed from. *)
Lemma partialBytes_Ok slot meta s n s' :
  partialBytes slot meta s = (Ok n, s') →
  n ≤ 0 ∨ ∃ b, file_at s' (sl_tmp slot) = Some b ∧ n = int64 (Z.of_nat (length b)).
Proof.
  unfold partialBytes. intros (fi & s1 & E1 & E2)%bind_Ok_inv.
  apply try_inv in E1 as (r1 & E1 & Hr1). apply stat_pure in E1 as Es. subst s1.
  destruct fi as [[b| |]|]; try by (injection E2 as <- <-; left).
  cbv zeta in E2. destruct r1 as [nd| | | |]; simplify_eq.
  assert (file_at s (sl_tmp slot) = Some b) as Hb.
  { unfold stat, file_at in *. repeat case_match; by simplify_eq. }
  case_match; [by injection E2 as <- <-; left|].
  apply bind_Ok_inv in E2 as (rc & s2 & E2 & E3).
  apply try_inv in E2 as (r2 & E2 & _). apply read_file_pure in E2 as ->.
  destruct rc as [r|e].
  - destruct (equal_fold _ _).
    + injection E3 as <- <-. right. eauto.
    + apply bind_Ok_inv in E3 as (? & s3 & _ & E3). injection E3 as <- <-. by left.
  - apply bind_Ok_inv in E3 as (? & s3 & _ & E3). injection E3 as <- <-. by left.
Qed.

(** ** The disk during a session *)

Lemma part_not_shielded dest p : part_paths (dest +:+ partSuffix) p → ¬ shielded p.
Proof.
  intros [->| ->] [H1 H2].
  - by rewrite has_suffix_app in H1.
  - unfold partMetaPath in H2. by rewrite strapp_assoc, has_suffix_app in H2.
Qed.

Lemma dest_not_part dest : ¬ part_paths (dest +:+ partSuffix) dest.
Proof.
  intros [E|E]; apply (f_equal String.length) in E; unfold partMetaPath in E;
    rewrite ?length_strapp in E; simpl in E; lia.
Qed.

(** What a session may put at a path that was free: a directory, or a file
    checked against an entry of the manifest. *)
Definition delivered (manifest : list FileMeta) (n : node) : Prop :=
  n = NDir ∨ ∃ b meta, meta ∈ manifest ∧ n = NFile b ∧ verified meta b.

Section session.
Context (ds : list string) (Hne : ds ≠ []) (Hds : Forall plain ds).

(** Everything that was there stays; what is new is allowed by [ok] and lies
    below the download directory. *)
Definition grows (ok : node → Prop) (s s' : fs) : Prop :=
  ∀ p, shielded p →
    fs_nodes s' !! p = fs_nodes s !! p ∨
    (fs_nodes s !! p = None ∧ (∃ rs, below ds rs p) ∧ ∃ n, fs_nodes s' !! p = Some n ∧ ok n).

#[export] Instance grows_preorder ok : PreOrder (grows ok).
Proof.
  split; [by intros s p; left|]. intros s1 s2 s3 H1 H2 p Hp.
  destruct (H2 p Hp) as [->|(E2 & Hb & H)]; [by apply H1|].
  destruct (H1 p Hp) as [E1|(E1 & _ & n & E & _)]; [|congruence].
  right. rewrite <-E1. done.
Qed.

Lemma grows_weaken (ok ok' : node → Prop) s s' :
  (∀ n, ok n → ok' n) → grows ok s s' → grows ok' s s'.
Proof. intros H Hg p Hp. destruct (Hg p Hp) as [?|(?&?&n&?&?)]; [auto|]. right. eauto 10. Qed.

Lemma grows_nodes ok s s' : fs_nodes s' = fs_nodes s → grows ok s s'.
Proof. intros E p _. left. by rewrite E. Qed.

Lemma part_grows ok dest w w' :
  wonly (part_paths (dest +:+ partSuffix)) w w' → grows ok (wfs w) (wfs w').
Proof. intros [H _] p Hp. left. apply H. intros Hn. by eapply part_not_shielded. Qed.

Lemma dirs_added_grows parts s s' :
  Forall plain parts → dirs_added ds [] parts s s' → grows (λ n, n = NDir) s s'.
Proof.
  intros Hp [H1 H2] p _. destruct (fs_nodes s !! p) as [n|] eqn:E.
  { left. by apply H1. }
  destruct (fs_nodes s' !! p) as [n|] eqn:E'; [|auto]. right.
  apply H2 in E' as [?|(-> & k & Hk & ->)]; [congruence|]. split_and!; [done| |eauto].
  exists (take k parts). split_and!; [by apply Forall_take| |done].
  intros En%(f_equal length). rewrite length_take in En. simpl in En. lia.
Qed.

Lemma createDirectory_grows rel s r s' :
  createDirectory (abs_path ds) rel s = (r, s') → grows (λ n, n = NDir) s s'.
Proof.
  intros E. destruct (validRelPath rel) eqn:Ev.
  - apply createDirectory_spec in E as [Hd _]; try done.
    eapply dirs_added_grows; [|done]. by apply validRelPath_plain.
  - apply createDirectory_invalid in E as ->; [|done]. reflexivity.
Qed.

(** ** The invariant of the loop *)

(** A completed entry is on the disk. *)
Definition entry_done (s : rsess) (i : Z) (meta : FileMeta) : Prop :=
  if fm_IsDir meta then
    validRelPath (fm_RelPath meta) = true ∧
    let p := abs_path (ds ++ split_on "/" (fm_RelPath meta)) in
    shielded p → is_dir (wfs (rs_world s)) p = true
  else
    ∃ slot, rs_slots s !! i = Some slot ∧
      (shielded (sl_dest slot) →
       ∃ b, file_at (wfs (rs_world s)) (sl_dest slot) = Some b ∧ verified meta b).

Record sess_inv (manifest : list FileMeta) (w0 : rworld) (s : rsess) : Prop := {
  si_grows : grows (delivered manifest) (wfs w0) (wfs (rs_world s));
  si_slot : ∀ i slot, rs_slots s !! i = Some slot →
    sl_tmp slot = sl_dest slot +:+ partSuffix ∧ (∃ rs, below ds rs (sl_dest slot)) ∧
    (sl_tmp slot ∉ ss_slots (w_disk w0)) ∧
    ∃ meta, entry manifest i = Some meta ∧
      (shielded (List.last (meta_comps meta) "") → shielded (sl_dest slot));
  si_inj : ∀ i j si sj, rs_slots s !! i = Some si → rs_slots s !! j = Some sj →
    sl_tmp si = sl_tmp sj → i = j;
  si_claims : ∀ t, t ∈ ss_slots (w_disk (rs_world s)) ↔
    t ∈ ss_slots (w_disk w0) ∨ ∃ i slot, rs_slots s !! i = Some slot ∧ t = sl_tmp slot;
  si_free : ∀ i slot, rs_slots s !! i = Some slot → i ∉ rs_completed s →
    shielded (sl_dest slot) →
    fs_nodes (wfs (rs_world s)) !! sl_dest slot = None ∨
    fs_nodes (wfs (rs_world s)) !! sl_dest slot = Some NDir;
  si_done : ∀ i, i ∈ rs_completed s →
    ∃ meta, entry manifest i = Some meta ∧ entry_done s i meta;
}.

Lemma sess_inv_start manifest w : sess_inv manifest w (mkSess w ∅ ∅ []).
Proof.
  split; cbn.
  - reflexivity.
  - intros i slot. by rewrite lookup_empty.
  - intros i j si sj. by rewrite lookup_empty.
  - intros t. split; [auto|]. intros [?|(i & slot & Hs & _)]; [done|]. by rewrite lookup_empty in Hs.
  - intros i slot. by rewrite lookup_empty.
  - intros i Hi. set_solver.
Qed.

(** A step that adds nothing but directories and takes no claim. *)
Lemma sess_inv_quiet manifest w0 s s' :
  rs_slots s' = rs_slots s → rs_completed s' = rs_completed s →
  ss_slots (w_disk (rs_world s')) = ss_slots (w_disk (rs_world s)) →
  grows (λ n, n = NDir) (wfs (rs_world s)) (wfs (rs_world s')) →
  sess_inv manifest w0 s → sess_inv manifest w0 s'.
Proof.
  intros Hs Hc Hcl Hg [I1 I2 I3 I4 I5 I6].
  split; rewrite ?Hs, ?Hc, ?Hcl; try done.
  - etransitivity; [done|]. eapply grows_weaken; [|done]. intros n ->. by left.
  - intros i slot Hi Hn Hsh. destruct (Hg _ Hsh) as [->|(_ & _ & n & -> & ->)]; [by eapply I5|auto].
  - intros i Hi. destruct (I6 i Hi) as (meta & Hm & Hd). exists meta. split; [done|].
    unfold entry_done in *. rewrite Hs. destruct (fm_IsDir meta).
    + destruct Hd as [Hv Hd]. split; [done|]. cbv zeta in *. intros Hsh. specialize (Hd Hsh).
      unfold is_dir in *. destruct (Hg _ Hsh) as [->|(_ & _ & n & -> & ->)]; [done|].
      apply orb_true_r.
    + destruct Hd as (slot & Hsl & Hd). exists slot. split; [done|]. intros Hsh.
      destruct (Hd Hsh) as (b & Hb & Hv). exists b. split; [|done]. unfold file_at in *.
      destruct (Hg _ Hsh) as [->|(E & _)]; [done|]. by rewrite E in Hb.
Qed.

(** Steps of the world and of the session that the invariant does not
    notice. *)
Definition wquiet (w w' : rworld) : Prop :=
  ss_slots (w_disk w') = ss_slots (w_disk w) ∧ grows (λ n, n = NDir) (wfs w) (wfs w').
Definition squiet (s s' : rsess) : Prop :=
  rs_slots s' = rs_slots s ∧ rs_completed s' = rs_completed s ∧
  wquiet (rs_world s) (rs_world s').

#[export] Instance wquiet_preorder : PreOrder wquiet.
Proof.
  split; [by intros w|]. intros w1 w2 w3 [H1 G1] [H2 G2]. split; [congruence|by etransitivity].
Qed.
#[export] Instance squiet_preorder : PreOrder squiet.
Proof.
  split; [by intros w|]. intros w1 w2 w3 (A1 & B1 & H1) (A2 & B2 & H2).
  split_and!; [congruence..|by etransitivity].
Qed.

#[local] Hint Resolve wquiet_preorder squiet_preorder : keeps.

Lemma squiet_inv manifest w0 s s' :
  squiet s s' → sess_inv manifest w0 s → sess_inv manifest w0 s'.
Proof. intros (H1 & H2 & H3 & H4). by apply sess_inv_quiet. Qed.

Lemma wonly_quiet w w' : wonly (λ _, False) w w' → wquiet w w'.
Proof. intros [H1 H2]. split; [done|]. intros p _. left. apply H1. tauto. Qed.

Lemma in_world_quiet {A} (m : M rworld A) : keeps wquiet m → keeps squiet (in_world m).
Proof. intros H. eapply keeps_zoom; [done|]. by intros s t Hw. Qed.
Lemma wonly_keeps_quiet {A} (m : M rworld A) :
  keeps (wonly (λ _, False)) m → keeps wquiet m.
Proof. intros H w r w' E. apply wonly_quiet. by eapply H. Qed.
Lemma part_keeps_quiet {A} dest (m : M rworld A) :
  keeps (wonly (part_paths (dest +:+ partSuffix))) m → keeps wquiet m.
Proof.
  intros H w r w' E. apply H in E. split; [by destruct E|]. by eapply part_grows.
Qed.
Lemma createDirectory_quiet rel : keeps wquiet (on_fs (createDirectory (abs_path ds) rel)).
Proof.
  intros w r w' (E & Hs & _)%on_fs_inv. split; [done|]. by eapply createDirectory_grows.
Qed.
Lemma emitErr_quiet {A} peer count err : keeps squiet (emitErr (A:=A) peer count err).
Proof.
  unfold emitErr. apply keeps_bind; [apply _| |intros _; apply keeps_throw; apply _].
  apply in_world_quiet, wonly_keeps_quiet. auto with keeps.
Qed.
Lemma reply_quiet h : keeps squiet (in_world (reply h)).
Proof. apply in_world_quiet, wonly_keeps_quiet, reply_keeps. Qed.
Lemma read_quiet {A} (m : M conn A) : keeps squiet (in_world (on_conn m)).
Proof. apply in_world_quiet, wonly_keeps_quiet, on_conn_keeps. Qed.
Lemma broadcast_quiet e : keeps squiet (in_world (broadcast e)).
Proof. apply in_world_quiet, wonly_keeps_quiet, broadcast_keeps. Qed.

(** *** Taking a slot *)
Lemma slotFor_spec manifest w0 i meta s r s' :
  entry manifest i = Some meta →
  sess_inv manifest w0 s → slotFor (abs_path ds) i meta s = (r, s') →
  sess_inv manifest w0 s' ∧ rs_completed s' = rs_completed s ∧
  ∀ slot, r = Ok slot → rs_slots s' !! i = Some slot.
Proof.
  intros Hent I E. unfold slotFor in E. rewrite bind_Ok with (a := rs_slots s) (s' := s) in E by done.
  destruct (rs_slots s !! i) as [slot|] eqn:Ei.
  { injection E as <- <-. split_and!; [done..|]. intros slot' [= <-]. done. }
  apply bind_inv in E as [(slot & s1 & E1 & E2)|(r0 & E1 & Hr & ->)].
  - injection E2 as <- <-. apply zoom_inv in E1 as (w1 & E1 & ->).
    apply zoom_inv in E1 as (d1 & E1 & ->). pose proof E1 as Efr.
    apply reserveSlot_frame in Efr as [(parts & Hparts & Hadd) _]; [|done..].
    apply reserveSlot_Ok in E1 as []; [|done..].
    split_and!; [|done|]. 2:{ intros slot' [= <-]. cbn. by rewrite lookup_insert_eq. }
    pose proof (dirs_added_grows _ _ _ Hparts Hadd) as Hg.
    (* the claims after the reservation *)
    assert (∀ j sj, rs_slots s !! j = Some sj → sl_tmp sj ≠ sl_tmp slot) as Hfresh.
    { intros j sj Hj Et. apply rsv_new. apply (si_claims _ _ _ I). right. exists j, sj. by rewrite Et. }
    assert (sl_tmp slot ∉ ss_slots (w_disk w0)) as Hnew0.
    { intros Hin. apply rsv_new. apply (si_claims _ _ _ I). by left. }
    assert (sess_inv manifest w0 (mkSess (mkWorld (w_conn (rs_world s))
      (mkSlots (ss_fs d1) (ss_slots (w_disk (rs_world s)))) (w_events (rs_world s))
      (w_notes (rs_world s)) (w_clips (rs_world s))) (rs_slots s) (rs_completed s) (rs_saved s)))
      as [I1 I2 I3 I4 I5 I6] by by eapply sess_inv_quiet; [..|done].
    split; cbn in *.
    + done.
    + intros j sj [[<- <-]|[? Hj]]%lookup_insert_Some; [|by eapply I2].
      destruct rsv_below as (rs & Hb & _). split_and!; eauto.
    + intros j k sj sk [[<- <-]|[? Hj]]%lookup_insert_Some [[<- <-]|[? Hk]]%lookup_insert_Some Et;
        [done|by edestruct Hfresh|by edestruct Hfresh|by eapply I3].
    + intros t. rewrite rsv_slots, elem_of_union, elem_of_singleton, I4. split.
      * intros [->|[?|(j & sj & Hj & ->)]]; [|auto|].
        -- right. exists i, slot. by rewrite lookup_insert_eq.
        -- right. exists j, sj. rewrite lookup_insert_ne; [done|congruence].
      * intros [?|(j & sj & [[<- <-]|[? Hj]]%lookup_insert_Some & ->)]; [auto|auto|].
        right. right. eauto.
    + intros j sj [[<- <-]|[? Hj]]%lookup_insert_Some Hn Hsh; [left; done|by eapply I5].
    + intros j Hj. destruct (I6 j Hj) as (m & Hm & Hd). exists m. split; [done|].
      unfold entry_done in *. cbn in *. destruct (fm_IsDir m); [done|].
      destruct Hd as (sj & Hsj & Hd). exists sj. split; [|done].
      rewrite lookup_insert_ne; [done|congruence].
  - apply zoom_inv in E1 as (w1 & E1 & ->). apply zoom_inv in E1 as (d1 & E1 & ->).
    apply reserveSlot_frame in E1 as [(parts & Hparts & Hadd) Hcl]; [|done..].
    split_and!; [|done|by intros slot; destruct r0].
    apply (sess_inv_quiet _ _ s); try done; cbn; [by apply Hcl|].
    by eapply dirs_added_grows.
Qed.

Lemma partialBytes_quiet slot meta dest :
  sl_tmp slot = dest +:+ partSuffix → keeps squiet (in_world (on_fs (partialBytes slot meta))).
Proof.
  intros Ht. apply in_world_quiet, (part_keeps_quiet dest), on_fs_keeps. rewrite <-Ht.
  apply partialBytes_touches.
Qed.


(** *** The handlers of a frame keep the invariant *)
Section handlers.
Context (manifest : list FileMeta) (w0 : rworld).
Let Inv := sess_inv manifest w0.

Lemma quiet_triple {A} (m : M rsess A) : keeps squiet m → triple Inv m (λ _, Inv) Inv.
Proof. intros H. eapply triple_keeps; [done|]. intros s s' Hs Hq. by eapply squiet_inv. Qed.

Lemma slotFor_triple i meta (C : gset Z → Prop) :
  entry manifest i = Some meta →
  triple (λ s, Inv s ∧ C (rs_completed s)) (slotFor (abs_path ds) i meta)
    (λ slot s, Inv s ∧ C (rs_completed s) ∧ rs_slots s !! i = Some slot) Inv.
Proof.
  intros Hent s r s' [Hs HC] Eq. apply (slotFor_spec manifest w0) in Eq as (I & Ec & Hsl); [|done..].
  rewrite <-Ec in HC. destruct r; auto.
Qed.

Lemma slot_partial_triple i slot meta (C : gset Z → Prop) :
  triple (λ s, Inv s ∧ C (rs_completed s) ∧ rs_slots s !! i = Some slot)
    (in_world (on_fs (partialBytes slot meta)))
    (λ off s, (Inv s ∧ C (rs_completed s) ∧ rs_slots s !! i = Some slot) ∧
              offset_ok slot (rs_world s) off) Inv.
Proof.
  intros s r s' (I & HC & Hi) Eq. pose proof Eq as Eq'.
  destruct (si_slot _ _ _ I _ _ Hi) as (Ht & _).
  eapply partialBytes_quiet in Eq as Hq; [|done].
  pose proof (squiet_inv _ _ _ _ Hq I) as I'. destruct r; try done.
  destruct Hq as (Hsl & Hc & _). rewrite <-Hsl in Hi. rewrite <-Hc in HC. split; [done|].
  apply zoom_inv in Eq' as (w & E & ->). cbn. clear -E.
  apply on_fs_inv in E as (E & _). by apply partialBytes_Ok in E.
Qed.

Lemma resume_query_triple resume i :
  triple Inv (recv_resume_query (abs_path ds) manifest resume i) (λ _, Inv) Inv.
Proof.
  unfold recv_resume_query. eapply triple_bind; [|intros n; apply quiet_triple, reply_quiet].
  assert (triple Inv (ret 0) (λ _ : Z, Inv) Inv) as H0 by (apply quiet_triple; auto with keeps).
  destruct (entry manifest i) as [meta|] eqn:Hm; [|done]. case_match; [|done].
  eapply triple_bind.
  { apply (triple_try _ _ (λ slot s, Inv s ∧ True ∧ rs_slots s !! i = Some slot)).
    eapply triple_conseq; [by apply (slotFor_triple _ _ (λ _, True))|..]; cbn; naive_solver. }
  intros [slot|e]; [|done].
  eapply triple_conseq; [apply (slot_partial_triple i slot _ (λ _, True))|..]; cbn; tauto.
Qed.

Definition completed_with (i : Z) (s : rsess) : rsess :=
  mkSess (rs_world s) (rs_slots s) ({[i]} ∪ rs_completed s) (rs_saved s).

Lemma complete_triple i path :
  triple (λ s, Inv (completed_with i s)) (complete i path) (λ _, Inv) Inv.
Proof.
  intros s r s' Hs [= <- <-]. by apply (sess_inv_quiet _ _ (completed_with i s)).
Qed.

Lemma emitErr_triple {A} peer count err (Q : A → rsess → Prop) :
  triple Inv (emitErr peer count err) Q Inv.
Proof.
  unfold emitErr. apply triple_bind_throw, quiet_triple, broadcast_quiet.
Qed.

(** A directory entry. *)
Lemma directory_completed i meta s s' u :
  Inv s → entry manifest i = Some meta → fm_IsDir meta = true →
  in_world (on_fs (createDirectory (abs_path ds) (fm_RelPath meta))) s = (Ok u, s') →
  Inv (completed_with i s').
Proof.
  intros I Hm Hdir E.
  pose proof (in_world_quiet _ (createDirectory_quiet _) _ _ _ E) as Hq.
  apply (squiet_inv _ _ _ _ Hq) in I as [I1 I2 I3 I4 I5 I6].
  split; try done; cbn.
  - intros j slot Hj Hn. apply (I5 j slot Hj). set_solver.
  - intros j [->%elem_of_singleton|Hj]%elem_of_union; [|by apply I6].
    exists meta. split; [done|]. unfold entry_done. rewrite Hdir.
    apply zoom_inv in E as (w & E & ->). apply on_fs_inv in E as (E & _).
    destruct u. apply createDirectory_spec in E as [_ Hk]; [|done..].
    destruct (Hk eq_refl) as [Hv Hd]. split; [done|]. cbn. intros _.
    specialize (Hd (length (split_on "/" (fm_RelPath meta)))). rewrite firstn_all in Hd.
    apply Hd. split; [|done]. pose proof (split_on_ne "/" (fm_RelPath meta)).
    destruct (split_on "/" (fm_RelPath meta)); [done|simpl; lia].
Qed.

Lemma recv_directory_triple peer count i meta :
  entry manifest i = Some meta → fm_IsDir meta = true →
  triple Inv (recv_directory (abs_path ds) peer count i meta) (λ _, Inv) Inv.
Proof.
  intros Hm Hdir. unfold recv_directory. eapply triple_bind.
  - apply (triple_try _ _ (λ _ s, Inv (completed_with i s))).
    eapply triple_bind; [apply quiet_triple, read_quiet|]. intros e.
    eapply triple_bind; [apply quiet_triple; case_match; auto with keeps|]. intros ?.
    intros s r s' I E. destruct r as [u| | | |]; [by eapply directory_completed|..];
      by eapply squiet_inv; [eapply in_world_quiet; [apply createDirectory_quiet|done]|].
  - intros [u|err].
    + eapply triple_bind; [apply complete_triple|]. intros ?. apply quiet_triple, reply_quiet.
    + eapply triple_bind; [apply quiet_triple, reply_quiet|]. intros ?. apply emitErr_triple.
Qed.

(** A file that went into place at its slot's destination. *)
Lemma file_completed i slot meta s w' path :
  Inv s → i ∉ rs_completed s → rs_slots s !! i = Some slot →
  entry manifest i = Some meta → fm_IsDir meta = false →
  one_file_post meta slot (rs_world s) (Ok path) w' →
  Inv (completed_with i (mkSess w' (rs_slots s) (rs_completed s) (rs_saved s))).
Proof.
  intros [I1 I2 I3 I4 I5 I6] Hn Hi Hm Hdir (_ & [Hw Hcl] & (b & Hb & Hv) & Hold).
  destruct (I2 i slot Hi) as (Ht & Hbelow & _).
  assert (∀ p, shielded p → p ≠ sl_dest slot →
    fs_nodes (wfs w') !! p = fs_nodes (wfs (rs_world s)) !! p) as Hsame.
  { intros p Hp Hpd. apply Hw. intros [H|]; [|done]. rewrite Ht in H. by eapply part_not_shielded. }
  assert (shielded (sl_dest slot) → fs_nodes (wfs (rs_world s)) !! sl_dest slot = None) as Hfree.
  { intros Hsh. destruct (I5 i slot Hi Hn Hsh) as [?|E]; [done|].
    by destruct (Hold _ E). }
  assert (meta ∈ manifest) as Hin.
  { unfold entry in Hm. case_match; [done|]. by eapply list_elem_of_lookup_2. }
  split; cbn; rewrite ?Hcl; try done.
  - etransitivity; [done|]. intros p Hp. destruct (decide (p = sl_dest slot)) as [->|Hpd].
    + right. split_and!; [by apply Hfree|done|]. unfold file_at in Hb.
      destruct (fs_nodes (wfs w') !! _) as [[b'| |]|]; simplify_eq.
      eexists. split; [done|]. right. eauto.
    + left. by apply Hsame.
  - intros j sj Hj Hnj Hsh. rewrite Hsame; [apply (I5 j sj); set_solver|done|].
    intros Ed. assert (j ≠ i) as Hji by set_solver. apply Hji, (I3 j i sj slot Hj Hi).
    destruct (I2 j sj Hj) as (-> & _). by rewrite Ht, Ed.
  - intros j [->%elem_of_singleton|Hj]%elem_of_union.
    + exists meta. split; [done|]. unfold entry_done. rewrite Hdir. cbn. eauto.
    + destruct (I6 j Hj) as (m & Hmj & Hd). exists m. split; [done|].
      unfold entry_done in *. cbn. destruct (fm_IsDir m).
      * destruct Hd as [Hvr Hd]. split; [done|]. cbv zeta in *. intros Hsh.
        specialize (Hd Hsh). unfold is_dir in *. rewrite Hsame; [done|done|].
        intros Ep. rewrite Ep in *. rewrite Hfree in Hd by done.
        destruct Hbelow as (rs & Hrs). apply (below_not_root ds Hne Hds rs), String.eqb_neq in Hrs.
        by rewrite Hrs in Hd.
      * destruct Hd as (sj & Hsj & Hd). exists sj. split; [done|]. intros Hsh.
        destruct (Hd Hsh) as (bj & Hbj & Hvj). exists bj. split; [|done].
        unfold file_at in *. rewrite Hsame; [done|done|]. intros Ed.
        rewrite Ed, Hfree in Hbj by congruence. done.
Qed.

Lemma recv_file_triple peer count resume i meta :
  entry manifest i = Some meta → fm_IsDir meta = false →
  triple (λ s, Inv s ∧ i ∉ rs_completed s)
    (recv_file (abs_path ds) peer count resume i meta) (λ _, Inv) Inv.
Proof.
  intros Hm Hdir. unfold recv_file. eapply triple_bind.
  - apply (triple_try _ _ (λ _ s, Inv (completed_with i s))).
    eapply triple_bind; [by apply (slotFor_triple _ _ (λ C, i ∉ C))|]. intros slot.
    eapply (triple_bind _ _ _ (λ off s, (Inv s ∧ (i ∉ rs_completed s) ∧
      rs_slots s !! i = Some slot) ∧ offset_ok slot (rs_world s) off)).
    { destruct resume; [apply (slot_partial_triple i slot _ (λ C, i ∉ C))|].
      intros s r s' H [= <- <-]. split; [done|]. by left. }
    intros off s r s' ((I & Hn & Hi) & Hoff) E. apply zoom_inv in E as (w & E & ->).
    destruct (si_slot _ _ _ I _ _ Hi) as (Ht & _).
    apply receiveOneFile_post in E; [| |done].
    2:{ rewrite Ht. apply dest_not_part. }
    destruct r as [path| | | |]; [by eapply file_completed|..].
    all: unfold one_file_post in E; rewrite Ht in E; apply (sess_inv_quiet _ _ s); try done;
      [by destruct E|by eapply part_grows].
  - intros [path|err].
    + eapply triple_bind; [apply complete_triple|]. intros ?. apply quiet_triple, in_world_quiet.
      apply wonly_keeps_quiet, keeps_bind; auto with keeps.
    + eapply triple_bind; [apply quiet_triple, reply_quiet|]. intros ?. apply emitErr_triple.
Qed.

Lemma recv_loop_triple fuel peer resume :
  triple Inv (recv_loop (abs_path ds) fuel peer manifest resume)
    (λ _ s, Inv s ∧ size (rs_completed s) = length manifest) Inv.
Proof.
  induction fuel as [|fuel IH]; [by intros s r s' I [= <- <-]|].
  cbn [recv_loop]. cbv zeta. eapply triple_bind.
  { apply (triple_try _ _ (λ _, Inv)), quiet_triple, read_quiet. }
  intros [hdr|err]; [|apply emitErr_triple].
  destruct (hdr_Type hdr =?s TypeSessionEnd).
  { eapply triple_bind; [apply (triple_gets Inv)|]. intros completed.
    case_bool_decide as Hsz.
    - eapply triple_pre; [|intros s [_ H]; exact H].
      eapply triple_bind; [apply quiet_triple, reply_quiet|]. intros ?. apply emitErr_triple.
    - intros s r s' [-> I] [= <- <-]. split; [done|]. lia. }
  destruct (hdr_Type hdr =?s TypeProgress).
  { eapply triple_bind; [apply quiet_triple, broadcast_quiet|]. intros ?. apply IH. }
  destruct (hdr_Type hdr =?s TypeResumeQuery).
  { eapply triple_bind; [apply resume_query_triple|]. intros ?. apply IH. }
  destruct (hdr_Type hdr =?s TypeFileHeader); cbn [negb]; [|apply emitErr_triple].
  destruct (entry manifest _) as [meta|] eqn:Hm; [|apply emitErr_triple].
  eapply triple_bind; [apply (triple_gets Inv)|]. intros completed.
  case_bool_decide as Hc.
  { eapply triple_pre; [apply emitErr_triple|intros s [_ H]; exact H]. }
  eapply triple_bind; [|intros ?; apply IH].
  destruct (fm_IsDir meta) eqn:Hdir.
  - eapply triple_pre; [by apply recv_directory_triple|intros s [_ H]; exact H].
  - eapply triple_pre; [by apply recv_file_triple|].
    by intros s [-> H].
Qed.
End handlers.

(** ** The session as a whole *)

Lemma release_all_spec (slots : gmap Z fileSlot) d t :
  t ∈ ss_slots (release_all slots d) ↔
  t ∈ ss_slots d ∧ ∀ i slot, slots !! i = Some slot → t ≠ sl_tmp slot.
Proof.
  unfold release_all. cbn.
  apply (map_fold_weak_ind (λ c m, t ∈ c ↔ t ∈ ss_slots d ∧
    ∀ i slot, m !! i = Some slot → t ≠ sl_tmp slot)).
  - split; [|by intros [? _]]. intros ?. split; [done|]. intros i slot. by rewrite lookup_empty.
  - intros i slot m c Hi IH. unfold release_slot. rewrite elem_of_difference, IH, elem_of_singleton.
    split.
    + intros [[? Hm] Hne']. split; [done|]. intros j sj [[<- <-]|[? Hj]]%lookup_insert_Some; eauto.
    + intros [? Hm]. split_and!; [done| |].
      * intros j sj Hj. apply (Hm j sj). rewrite lookup_insert_ne; [done|congruence].
      * apply (Hm i slot). by rewrite lookup_insert_eq.
Qed.

Lemma with_slots_inv {A} (body : M rsess A) manifest w (Q : A → rsess → Prop) r w' :
  triple (sess_inv manifest w) body Q (sess_inv manifest w) →
  (∀ a s, Q a s → sess_inv manifest w s) →
  with_slots body w = (r, w') →
  grows (delivered manifest) (wfs w) (wfs w') ∧
  (finished r = true → ss_slots (w_disk w') = ss_slots (w_disk w)) ∧
  (∀ a, r = Ok a → ∃ s, Q a s ∧ wfs (rs_world s) = wfs w').
Proof.
  intros Ht HQ E. unfold with_slots in E.
  destruct (body _) as [r0 s] eqn:Eb.
  pose proof (Ht _ _ _ (sess_inv_start manifest w) Eb) as Hpost.
  assert (sess_inv manifest w s) as I by (destruct r0; eauto).
  assert (ss_slots (release_all (rs_slots s) (w_disk (rs_world s))) = ss_slots (w_disk w)) as Hrel.
  { apply set_eq. intros t. rewrite release_all_spec, (si_claims _ _ _ I). split.
    - intros [[?|(i & slot & Hi & ->)] Hn]; [done|]. by destruct (Hn i slot Hi).
    - intros Hin. split; [by left|]. intros i slot Hi ->.
      by destruct (si_slot _ _ _ I i slot Hi) as (_ & _ & Hnin & _). }
  pose proof (si_grows _ _ _ I) as Hg.
  destruct r0; simplify_eq; split_and!; try done. intros a0 [= <-]. eauto.
Qed.

(** An entry of the manifest is on the disk: the directory it names, or a
    verified file in the directory it asks for. *)
Definition on_disk_entry (s : fs) (meta : FileMeta) : Prop :=
  if fm_IsDir meta then
    let p := abs_path (ds ++ split_on "/" (fm_RelPath meta)) in
    validRelPath (fm_RelPath meta) = true ∧ (shielded p → is_dir s p = true)
  else
    shielded (List.last (meta_comps meta) "") →
    ∃ rs b, below ds rs (abs_path (ds ++ rs)) ∧
      file_at s (abs_path (ds ++ rs)) = Some b ∧ verified meta b.

Lemma entry_range manifest i meta :
  entry manifest i = Some meta → 0 ≤ i < Z.of_nat (length manifest).
Proof.
  unfold entry. destruct (Z.ltb_spec i 0); [done|]. intros E%lookup_lt_Some. lia.
Qed.

(** As many completed indices as entries: every entry is completed. *)
Lemma all_completed manifest w0 s :
  sess_inv manifest w0 s → size (rs_completed s) = length manifest →
  ∀ i, 0 ≤ i < Z.of_nat (length manifest) → i ∈ rs_completed s.
Proof.
  intros I Hsz i Hi.
  assert (rs_completed s ⊆ list_to_set (seqZ 0 (Z.of_nat (length manifest)))) as Hsub.
  { intros j Hj. destruct (si_done _ _ _ I j Hj) as (m & Hm%entry_range & _).
    apply elem_of_list_to_set, elem_of_seqZ. lia. }
  assert (rs_completed s = list_to_set (seqZ 0 (Z.of_nat (length manifest)))) as ->.
  { apply set_subseteq_size_eq; [done|]. rewrite size_list_to_set by apply NoDup_seqZ.
    rewrite length_seqZ. lia. }
  apply elem_of_list_to_set, elem_of_seqZ. lia.
Qed.

Lemma completed_on_disk manifest w0 s :
  sess_inv manifest w0 s → size (rs_completed s) = length manifest →
  ∀ meta, meta ∈ manifest → on_disk_entry (wfs (rs_world s)) meta.
Proof.
  intros I Hsz meta [n Hn]%list_elem_of_lookup_1.
  assert (entry manifest (Z.of_nat n) = Some meta) as Hent.
  { unfold entry. rewrite (proj2 (Z.ltb_ge _ _)) by apply Nat2Z.is_nonneg. by rewrite Nat2Z.id. }
  pose proof (entry_range _ _ _ Hent) as Hrg. pose proof (all_completed _ _ _ I Hsz _ Hrg) as Hc.
  destruct (si_done _ _ _ I _ Hc) as (m & Hm & Hd).
  assert (m = meta) as -> by congruence. unfold entry_done, on_disk_entry in *.
  destruct (fm_IsDir meta); [done|]. destruct Hd as (slot & Hs & Hd). intros Hsh.
  destruct (si_slot _ _ _ I _ _ Hs) as (_ & (rs & Hb) & _ & m & Hm' & Hsh').
  assert (m = meta) as -> by congruence. destruct (Hd (Hsh' Hsh)) as (b & Hf & Hv).
  pose proof Hb as (_ & _ & Ed). rewrite Ed in *. eauto.
Qed.
End session.

(** ** Every session comes back

    On a connection that ends, each handler returns a value or an error: a
    frame takes at least five bytes of input, so the loops' fuel (one more
    than the unread bytes) is never used up. *)

(** The stream ends, with at most [n] bytes still unread. *)
Definition ends_in (n : nat) (c : conn) : Prop :=
  c_end c ≠ None ∧ (length (c_in c) ≤ n)%nat.
Definition w_ends (n : nat) (w : rworld) : Prop := ends_in n (w_conn w).
Definition s_ends (n : nat) (s : rsess) : Prop := w_ends n (rs_world s).

Lemma read_full_runs n k : runs (ends_in n) (read_full k).
Proof.
  intros c [He Hl]. unfold read_full, ends_in.
  destruct (decide _); cbn; [rewrite length_drop; split_and!; [done..|lia]|].
  destruct (c_end c) as [[]|] eqn:E; try done; cbn; rewrite E; split_and!; try done; lia.
Qed.
Lemma ReadHeader_runs n : runs (ends_in n) ReadHeader.
Proof.
  unfold ReadHeader. apply runs_bind; [apply read_full_runs|]. intros lb. cbv zeta.
  case_match; [auto with runs|]. apply runs_bind; [apply read_full_runs|].
  intros raw. case_match; auto with runs.
Qed.
Lemma conn_write_runs n b : runs (ends_in n) (conn_write b).
Proof. intros c H. unfold conn_write. by repeat case_match. Qed.
Lemma WriteControl_runs n h : runs (ends_in n) (WriteControl h).
Proof.
  unfold WriteControl, WriteMessage. repeat (cbv zeta; case_match); auto with runs;
    repeat (apply runs_bind; [apply conn_write_runs|intros ?]); auto with runs;
    repeat case_match; auto using conn_write_runs with runs.
Qed.

Lemma on_conn_runs {A} n (m : M conn A) : runs (ends_in n) m → runs (w_ends n) (on_conn m).
Proof. intros H. by eapply runs_zoom. Qed.
Lemma on_disk_runs {A} n (m : M slots_state A) :
  runs (λ _, True) m → runs (w_ends n) (on_disk m).
Proof. intros H. by eapply runs_zoom. Qed.
Lemma on_fs_runs {A} n (m : M fs A) : runs any_fs m → runs (w_ends n) (on_fs m).
Proof. intros H. apply on_disk_runs. by eapply runs_zoom. Qed.
Lemma in_world_runs {A} n (m : M rworld A) : runs (w_ends n) m → runs (s_ends n) (in_world m).
Proof. intros H. by eapply runs_zoom. Qed.
Lemma broadcast_runs n e : runs (w_ends n) (broadcast e).
Proof. by apply runs_modify. Qed.
Lemma notify_runs n a b : runs (w_ends n) (notify_Send a b).
Proof. by apply runs_modify. Qed.
Lemma reply_runs n h : runs (w_ends n) (reply h).
Proof. apply runs_ignore, on_conn_runs, WriteControl_runs. Qed.
#[export] Hint Resolve ReadHeader_runs read_full_runs on_conn_runs on_fs_runs in_world_runs
  broadcast_runs notify_runs reply_runs : runs.

Lemma close_file_runs : runs any_fs close_file.
Proof. unfold close_file. auto with runs. Qed.
Lemma removePart_runs tmp : runs any_fs (removePart tmp).
Proof. unfold removePart. auto with runs. Qed.
#[export] Hint Resolve close_file_runs removePart_runs : runs.
Lemma discard_runs tmp : runs any_fs (discard tmp).
Proof. unfold discard. auto with runs. Qed.
Lemma writePartMeta_runs tmp meta : runs any_fs (writePartMeta tmp meta).
Proof. unfold writePartMeta. auto with runs. Qed.
Lemma partialBytes_runs slot meta : runs any_fs (partialBytes slot meta).
Proof.
  unfold partialBytes. apply runs_bind; [auto with runs|]. intros [[]|]; auto with runs.
  cbv zeta. case_match; [auto with runs|]. apply runs_bind; [auto with runs|].
  intros []; [case_match|]; auto with runs.
Qed.
#[export] Hint Resolve discard_runs writePartMeta_runs partialBytes_runs createDirectory_runs : runs.

Lemma copy_n_runs n tmp k : runs (w_ends n) (copy_n tmp k).
Proof.
  intros w Hw. unfold copy_n. rewrite bind_Ok with (a := c_in (w_conn w)) (s' := w) by done.
  cbv zeta. generalize (c_in (w_conn w)) as input. intros input. revert w Hw.
  change (runs (w_ends n) (b <- on_conn (read_full (if Z.leb k (Z.of_nat (length input))
    then Z.to_nat k else length input)) ;;
    (if ((if Z.leb k (Z.of_nat (length input)) then Z.to_nat k else length input) =? 0)%nat
     then ret () else on_fs (append_file tmp b)) ;;;
    (if Z.leb k (Z.of_nat (length input)) then ret b
     else e <- gets (c_end ∘ w_conn) ;;
          match e with Some e => throw e | None => λ w, (Block, w) end))).
  apply runs_bind; [auto with runs|]. intros b. apply runs_bind.
  { case_match; auto with runs. }
  intros _. destruct (Z.leb k _); [auto with runs|].
  intros w Hw. rewrite bind_Ok with (a := c_end (w_conn w)) (s' := w) by done.
  pose proof Hw as [He _]. by destruct (c_end (w_conn w)).
Qed.
#[export] Hint Resolve copy_n_runs : runs.

(** Reading a header returns, and a header shortens the input. *)
Lemma read_header_step n w :
  w_ends n w → ∃ r w1, try (on_conn ReadHeader) w = (Ok r, w1) ∧ w_ends n w1 ∧
    ∀ h, r = inl h → ∃ k, n = S k ∧ w_ends k w1.
Proof.
  intros Hw. pose proof (runs_try _ _ (on_conn_runs n _ (ReadHeader_runs n)) w Hw) as [Hf He].
  destruct (try (on_conn ReadHeader) w) as [r w1] eqn:E. apply try_inv in E as (r0 & E & Hr).
  destruct r as [r| | | |]; try done. all: try by destruct r0.
  exists r, w1. split_and!; [done|done|]. intros h ->. destruct r0; simplify_eq.
  apply zoom_inv in E as (c & E & ->). apply ReadHeader_Ok in E as (Hlen & _ & Hend & _).
  destruct Hw as [H1 H2]. destruct n as [|k]; [lia|]. exists k. split; [done|].
  split; cbn; [by rewrite Hend|lia].
Qed.

Lemma runs_weaken {A S} (P P' : S → Prop) (m : M S A) s :
  runs P' m → P' s → (∀ s, P' s → P s) → finished (m s).1 = true ∧ P (m s).2.
Proof. intros Hm Hs H. destruct (Hm s Hs). auto. Qed.

Lemma w_ends_S k w : w_ends k w → w_ends (S k) w.
Proof. intros [H1 H2]. split; [done|]. lia. Qed.

Lemma file_body_runs fuel n meta slot got hashed :
  (n < fuel)%nat → runs (w_ends n) (file_body fuel meta slot got hashed).
Proof.
  revert n got hashed. induction fuel as [|fuel IH]; intros n got hashed Hn; [lia|].
  intros w Hw. cbn [file_body]. cbv zeta.
  destruct (read_header_step n w Hw) as (r & w1 & E & Hw1 & Hk).
  rewrite (bind_Ok _ _ _ _ _ E). clear E. destruct r as [hdr|err].
  2:{ eapply runs_weaken; [|done|done]. auto with runs. }
  destruct (Hk hdr eq_refl) as (k & -> & Hw2).
  eapply runs_weaken; [|exact Hw2|apply w_ends_S]. clear Hw Hw1 Hk.
  assert (k < fuel)%nat as Hlt by lia.
  destruct (hdr_Type hdr =?s TypeChunk).
  { case_match; [auto with runs|]. case_match; [auto with runs|].
    apply runs_bind; [auto with runs|]. intros []; auto with runs. }
  destruct (hdr_Type hdr =?s TypeProgress); [auto|].
  destruct (hdr_Type hdr =?s TypeFileEnd); [|auto with runs].
  apply runs_bind; [auto with runs|]. intros []; [|auto with runs].
  case_match; [auto with runs|]. case_match; [auto with runs|].
  apply runs_bind; [auto with runs|]. intros []; auto with runs.
Qed.

Lemma receiveOneFile_runs n meta slot off : runs (w_ends n) (receiveOneFile meta slot off).
Proof.
  unfold receiveOneFile. cbv zeta. apply runs_bind.
  { case_match; repeat (apply runs_bind; [auto with runs|intros ?]); auto with runs. }
  intros seeded. apply runs_bind; [auto with runs|]. intros _ w Hw.
  unfold input_fuel. rewrite bind_Ok with (a := S (length (c_in (w_conn w)))) (s' := w) by done.
  eapply (runs_weaken _ (w_ends (length (c_in (w_conn w))))).
  - apply file_body_runs. lia.
  - split; [apply Hw|done].
  - intros w' [H1 H2]. split; [done|]. destruct Hw. lia.
Qed.
#[export] Hint Resolve receiveOneFile_runs : runs.

Section session_runs.
Context (ds : list string) (Hne : ds ≠ []) (Hds : Forall plain ds).
Context (clipboard_set : bytes → string → option error).

Lemma slotFor_runs n i meta : runs (s_ends n) (slotFor (abs_path ds) i meta).
Proof.
  unfold slotFor. apply runs_bind; [auto with runs|]. intros slots.
  case_match; [auto with runs|]. apply runs_bind.
  - apply in_world_runs, on_disk_runs. by apply reserveSlot_runs.
  - intros slot. apply runs_bind; [by apply runs_modify|auto with runs].
Qed.
Lemma emitErr_runs {A} n peer count err : runs (s_ends n) (emitErr (A:=A) peer count err).
Proof. unfold emitErr. auto with runs. Qed.
Lemma complete_runs n i path : runs (s_ends n) (complete i path).
Proof. by apply runs_modify. Qed.
#[local] Hint Resolve slotFor_runs emitErr_runs complete_runs : runs.

Lemma recv_directory_runs n peer count i meta :
  runs (s_ends n) (recv_directory (abs_path ds) peer count i meta).
Proof.
  unfold recv_directory. apply runs_bind.
  - apply runs_try, runs_bind; [auto with runs|]. intros e. apply runs_bind; [|auto with runs].
    case_match; auto with runs.
  - intros []; auto with runs.
Qed.
Lemma recv_file_runs n peer count resume i meta :
  runs (s_ends n) (recv_file (abs_path ds) peer count resume i meta).
Proof.
  unfold recv_file. apply runs_bind.
  - apply runs_try, runs_bind; [auto with runs|]. intros slot.
    apply runs_bind; [case_match; auto with runs|auto with runs].
  - intros []; auto with runs.
Qed.
Lemma recv_resume_query_runs n manifest resume i :
  runs (s_ends n) (recv_resume_query (abs_path ds) manifest resume i).
Proof.
  unfold recv_resume_query. apply runs_bind; [|auto with runs].
  case_match; [|auto with runs]. case_match; [|auto with runs].
  apply runs_bind; [auto with runs|]. intros []; auto with runs.
Qed.
#[local] Hint Resolve recv_directory_runs recv_file_runs recv_resume_query_runs : runs.

Lemma recv_loop_runs fuel n peer manifest resume :
  (n < fuel)%nat → runs (s_ends n) (recv_loop (abs_path ds) fuel peer manifest resume).
Proof.
  revert n. induction fuel as [|fuel IH]; intros n Hn s Hs; [lia|].
  cbn [recv_loop]. cbv zeta.
  destruct (read_header_step n (rs_world s) Hs) as (r & w1 & E & Hw1 & Hk).
  assert (try (in_world (on_conn ReadHeader)) s =
    (Ok r, mkSess w1 (rs_slots s) (rs_completed s) (rs_saved s))) as E'.
  { apply try_inv in E as (r0 & E & Hr). unfold try, in_world, zoom. rewrite E.
    by destruct r0; simplify_eq. }
  rewrite (bind_Ok _ _ _ _ _ E'). clear E E'. destruct r as [hdr|err].
  2:{ apply (runs_weaken _ (s_ends n)); [|exact Hw1|done]. auto with runs. }
  destruct (Hk hdr eq_refl) as (k & -> & Hw2).
  eapply (runs_weaken _ (s_ends k)); [|exact Hw2|intros s'; apply w_ends_S].
  assert (k < fuel)%nat as Hlt by lia. specialize (IH k Hlt).
  repeat case_match; try (apply runs_bind; [auto with runs|]; intros ?); auto with runs;
    repeat case_match; auto with runs.
Qed.

Lemma with_slots_runs {A} n (body : M rsess A) :
  runs (s_ends n) body → runs (w_ends n) (with_slots body).
Proof.
  intros Hb w Hw. unfold with_slots. destruct (Hb (mkSess w ∅ ∅ []) Hw) as [H1 H2].
  by destruct (body _) as [[] s].
Qed.

Lemma receiveFiles_runs n peer manifest resume :
  runs (w_ends n) (receiveFiles (abs_path ds) peer manifest resume).
Proof.
  unfold receiveFiles. case_match; [auto with runs|].
  apply runs_bind; [auto with runs|]. intros _. apply with_slots_runs. intros s Hs.
  unfold input_fuel. rewrite bind_Ok with (a := S (length (c_in (w_conn (rs_world s))))) (s' := s).
  2: by destruct s.
  eapply (runs_weaken _ (s_ends (length (c_in (w_conn (rs_world s)))))).
  - apply runs_bind; [apply recv_loop_runs; lia|]. intros _.
    apply runs_bind; [auto with runs|]. intros _. apply runs_bind; auto with runs.
  - split; [apply Hs|done].
  - intros s' [H1 H2]. split; [done|]. destruct Hs. lia.
Qed.

Lemma receiveClipboard_runs n peer : runs (w_ends n) (receiveClipboard clipboard_set peer).
Proof.
  unfold receiveClipboard. apply runs_bind; [auto with runs|]. intros hdr.
  case_match; [auto with runs|]. case_match; [auto with runs|].
  apply runs_bind; [auto with runs|]. intros [buf|]; [|auto with runs].
  apply runs_bind; [auto with runs|]. intros _. case_match; [auto with runs|].
  apply runs_bind; [by apply runs_modify|auto with runs].
Qed.

Lemma receiveSession_runs n peer :
  runs (w_ends n) (receiveSession (abs_path ds) clipboard_set peer).
Proof.
  unfold receiveSession. apply runs_bind; [auto with runs|].
  intros [start|[]]; auto with runs.
  repeat case_match; auto using receiveFiles_runs, receiveClipboard_runs with runs.
Qed.

(** ** What a session does to the disk *)
Lemma receiveFiles_spec peer manifest resume w r w' :
  receiveFiles (abs_path ds) peer manifest resume w = (r, w') →
  grows ds (delivered manifest) (wfs w) (wfs w') ∧
  (finished r = true → ss_slots (w_disk w') = ss_slots (w_disk w)) ∧
  (r = Ok () → ∀ meta, meta ∈ manifest → on_disk_entry ds (wfs w') meta).
Proof.
  intros E. unfold receiveFiles in E. case_match.
  { injection E as <- <-. split_and!; [reflexivity|done..]. }
  apply bind_inv in E as [([] & w1 & E1 & E2)|(r0 & E1 & Hr & ->)].
  2:{ injection E1 as <- <-. by destruct (Hr ()). }
  pose proof (broadcast_keeps (λ _, False) _ _ _ _ E1) as [Hw Hc].
  assert (fs_nodes (wfs w1) = fs_nodes (wfs w)) as Hn by (apply map_eq; intros q; apply Hw; tauto).
  injection E1 as Ew1.
  eapply (with_slots_inv ds Hne _ manifest w1 (λ _ s, sess_inv ds manifest w1 s ∧
    size (rs_completed s) = length manifest)) in E2 as (Hg & Hs & Hok).
  - split_and!.
    + etransitivity; [|exact Hg]. by apply grows_nodes.
    + intros Hf. by rewrite Hs.
    + intros -> meta Hm. destruct (Hok () eq_refl) as (s & [I Hsz] & <-).
      by eapply completed_on_disk.
  - eapply triple_bind.
    { apply (quiet_triple ds manifest w1). apply in_world_quiet, wonly_keeps_quiet.
      unfold input_fuel. auto with keeps. }
    intros fuel. eapply triple_bind; [by apply recv_loop_triple|]. intros ?.
    assert (∀ m : M rsess (), keeps (squiet ds) m →
      triple (λ s, sess_inv ds manifest w1 s ∧ size (rs_completed s) = length manifest) m
        (λ _ s, sess_inv ds manifest w1 s ∧ size (rs_completed s) = length manifest)
        (sess_inv ds manifest w1)) as Hq.
    { intros m Hm s r' s' [I Hsz] E%Hm. pose proof (squiet_inv _ _ _ _ _ E I) as I'.
      destruct E as (_ & Ec & _). rewrite <-Ec in Hsz. by destruct r'. }
    apply Hq. apply keeps_bind; [apply _|apply reply_quiet|]. intros _.
    apply keeps_bind; [apply _|apply keeps_gets, _|]. intros saved.
    apply in_world_quiet, wonly_keeps_quiet, keeps_bind; auto with keeps.
  - by intros [] s [? _].
Qed.
End session_runs.

(** ** Properties *)

(** A session of one two-byte file, for the witnesses. *)
Definition demo_hash : string := hex_encode (sha256 (bs "hi")).
Definition demo_meta : FileMeta := mkFileMeta false "a.txt" 2 demo_hash "".
Definition demo_input : bytes :=
  frame (set_hdr_Type TypeFileHeader zero_Header) ++
  frame (set_hdr_Length 2 (set_hdr_Type TypeChunk zero_Header)) ++ bs "hi" ++
  frame (set_hdr_Type TypeFileEnd zero_Header) ++
  frame (set_hdr_Type TypeSessionEnd zero_Header).
Definition demo_disk : fs := mkFs {["/d" := NDir; "/d/a.txt" := NFile (bs "old")]} [].
Definition demo_world (input : bytes) : rworld :=
  mkWorld (conn_closed input) (mkSlots demo_disk ∅) [] [] [].
Definition demo_run : res () * rworld :=
  receiveFiles "/d" "bob" [demo_meta] false (demo_world demo_input).

Example demo_run_ok :
  demo_run.1 = Ok () ∧ file_at (wfs demo_run.2) "/d/a (1).txt" = Some (bs "hi") ∧
  file_at (wfs demo_run.2) "/d/a.txt" = Some (bs "old").
Proof. by vm_compute. Qed.

(** A file that happens to have the name of a partial file is taken for one:
    it is gone once the file it seems to belong to was received. *)
Example part_name_taken :
  let before := mkFs {["/d" := NDir; "/d/a.txt.adrop-part" := NFile (bs "kept")]} [] in
  let run := receiveFiles "/d" "bob" [demo_meta] false (mkWorld (conn_closed demo_input) (mkSlots before ∅) [] [] []) in
  run.1 = Ok () ∧ file_at (wfs run.2) "/d/a.txt" = Some (bs "hi") ∧
  file_at (wfs run.2) "/d/a.txt.adrop-part" = None.
Proof. vm_compute. auto. Qed.

Lemma demo_ds : ["d"] ≠ [] ∧ Forall plain ["d"].
Proof. split; [done|]. repeat constructor; try done. by apply no_byte_test. Qed.

(** C1: whatever a paired peer sends, however the connection ends and whatever
    I/O errors occur, a session of files changes nothing that was on the disk
    (partial files aside), and everything it leaves is below the download
    directory and is a directory or a file whose size and SHA-256 are those
    of an entry of the manifest. *)
Theorem receiveFiles_safe ds peer manifest resume w r w' :
  ds ≠ [] → Forall plain ds →
  receiveFiles (abs_path ds) peer manifest resume w = (r, w') →
  grows ds (delivered manifest) (wfs w) (wfs w').
Proof. intros Hne Hds E. by apply receiveFiles_spec in E as (? & _ & _). Qed.

Lemma receiveFiles_safe_witness :
  grows ["d"] (delivered [demo_meta]) (wfs (demo_world demo_input)) (wfs demo_run.2).
Proof.
  destruct demo_ds as [H1 H2].
  apply (receiveFiles_safe ["d"] "bob" [demo_meta] false (demo_world demo_input) demo_run.1
    demo_run.2 H1 H2). apply surjective_pairing.
Defined.



(** C6: a session leaves no claim behind: when it returns, with success or with
    an error, the daemon's set of in-flight destinations is what it was. *)
Theorem receiveFiles_releases ds peer manifest resume w r w' :
  ds ≠ [] → Forall plain ds →
  receiveFiles (abs_path ds) peer manifest resume w = (r, w') → finished r = true →
  ss_slots (w_disk w') = ss_slots (w_disk w).
Proof. intros Hne Hds E. apply receiveFiles_spec in E as (_ & H & _); auto. Qed.

Lemma receiveFiles_releases_witness : ss_slots (w_disk demo_run.2) = ∅.
Proof.
  destruct demo_ds as [H1 H2].
  apply (receiveFiles_releases ["d"] "bob" [demo_meta] false (demo_world demo_input) demo_run.1
    demo_run.2 H1 H2); [apply surjective_pairing|by vm_compute].
Defined.

(** C7: every session on a connection that ends comes back with success or an
    error, whatever bytes the peer sent: it never waits forever, never panics,
    and its loops terminate. *)
Theorem receiveSession_returns ds clipboard_set peer w :
  ds ≠ [] → Forall plain ds → c_end (w_conn w) ≠ None →
  finished (receiveSession (abs_path ds) clipboard_set peer w).1 = true.
Proof.
  intros Hne Hds He. apply (receiveSession_runs ds Hne Hds clipboard_set (length (c_in (w_conn w)))).
  split; [done|lia].
Qed.

Lemma receiveSession_returns_witness :
  finished (receiveSession "/d" (λ _ _, None) "bob" (demo_world demo_input)).1 = true.
Proof.
  destruct demo_ds as [H1 H2]. by apply (receiveSession_returns ["d"] _ "bob" _ H1 H2).
Defined.

(** Receiving one file is all or nothing. If it succeeds, the destination
    holds content of the announced size and hash and was free or a plain file;
    in every other case only the slot's partial file and its sidecar changed,
    so that the destination is untouched. *)
Theorem receiveOneFile_atomic meta slot off w r w' :
  ¬ part_paths (sl_tmp slot) (sl_dest slot) → offset_ok slot w off →
  receiveOneFile meta slot off w = (r, w') → one_file_post meta slot w r w'.
Proof. intros H1 H2 E. by eapply receiveOneFile_post. Qed.

Definition demo_slot : fileSlot := mkSlot "/d/b" "/d/b.adrop-part".
Definition demo_file_input : bytes :=
  frame (set_hdr_Length 2 (set_hdr_Type TypeChunk zero_Header)) ++ bs "hi" ++
  frame (set_hdr_Type TypeFileEnd zero_Header).
Definition demo_file_run : res string * rworld :=
  receiveOneFile demo_meta demo_slot 0 (demo_world demo_file_input).

Lemma receiveOneFile_atomic_witness :
  one_file_post demo_meta demo_slot (demo_world demo_file_input) (Ok "/d/b") demo_file_run.2.
Proof.
  apply (receiveOneFile_atomic _ _ 0).
  - apply (dest_not_part "/d/b").
  - by left.
  - assert (demo_file_run.1 = Ok "/d/b") as E by by vm_compute.
    change (demo_file_run = (Ok "/d/b", demo_file_run.2)).
    by rewrite (surjective_pairing demo_file_run), E at 1.
Defined.

(** ** The size guard and the width of int64

    [got+hdr.Length > meta.Size] is meant to stop a chunk that runs past the
    declared size before any of it is written. The sum wraps: after one byte, a
    chunk announced as 2^63-1 bytes long passes, and what the peer then sends
    is appended to the partial file without a limit until it stops. *)
Definition demo_flood : bytes :=
  frame (set_hdr_Length 1 (set_hdr_Type TypeChunk zero_Header)) ++ bs "h" ++
  frame (set_hdr_Length maxInt64 (set_hdr_Type TypeChunk zero_Header)) ++ bs "far more than two bytes".
Example size_guard_wraps :
  let run := receiveOneFile demo_meta demo_slot 0 (demo_world demo_flood) in
  fm_Size demo_meta = 2 ∧ (finished run.1 = true ∧ run.1 ≠ Ok "/d/b") ∧
  file_at (wfs run.2) "/d/b.adrop-part" = Some (bs "hfar more than two bytes").
Proof. vm_compute. by split_and!. Qed.
