(* ===== verification/Config.v ===== *)
(** * internal/config: identity and trusted devices

    The store in memory, its file devices.json (written beside and renamed
    over), and every operation on it. The file system's faults decide which
    saves fail. *)

From S2P Require Import Prelude GoStrings GoPath Go Sha256 Json JsonRec GoTime Base64 Fs.
From Stdlib Require Import ZArith Lia String Ascii List Bool.
From stdpp Require Import base list strings gmap option numbers.

#[local] Open Scope string_scope.
#[local] Open Scope list_scope.
#[local] Open Scope Z_scope.

(** ** State *)

Record Store := mkStore {
  s_dir : string;
  s_certDER : bytes;
  s_devices : list Device;
  s_lastPeer : string;
}.

(** What the operations read and write: the store, the disk, the clock. *)
Record cstate := mkCstate {
  cs_store : Store;
  cs_fs : fs;
  cs_now : Z;
}.

Definition on_store_fs {A} (m : M fs A) : M cstate A :=
  zoom cs_fs (λ f s, mkCstate (cs_store s) f (cs_now s)) m.
Definition store : M cstate Store := gets cs_store.
Definition set_store (st : Store) : M cstate unit :=
  modify (λ s, mkCstate st (cs_fs s) (cs_now s)).
Definition with_devices (l : list Device) (st : Store) : Store :=
  mkStore (s_dir st) (s_certDER st) l (s_lastPeer st).
Definition with_lastPeer (fp : string) (st : Store) : Store :=
  mkStore (s_dir st) (s_certDER st) (s_devices st) fp.

(** *** Field updates of a device *)
Definition set_dev_Name (x : string) (d : Device) : Device :=
  mkDevice x (dev_Fingerprint d) (dev_Addr d) (dev_PairedAt d) (dev_FcmToken d) (dev_RNS d).
Definition set_dev_Fingerprint (x : string) (d : Device) : Device :=
  mkDevice (dev_Name d) x (dev_Addr d) (dev_PairedAt d) (dev_FcmToken d) (dev_RNS d).
Definition set_dev_Addr (x : string) (d : Device) : Device :=
  mkDevice (dev_Name d) (dev_Fingerprint d) x (dev_PairedAt d) (dev_FcmToken d) (dev_RNS d).
Definition set_dev_PairedAt (x : Z) (d : Device) : Device :=
  mkDevice (dev_Name d) (dev_Fingerprint d) (dev_Addr d) x (dev_FcmToken d) (dev_RNS d).
Definition set_dev_FcmToken (x : string) (d : Device) : Device :=
  mkDevice (dev_Name d) (dev_Fingerprint d) (dev_Addr d) (dev_PairedAt d) x (dev_RNS d).
Definition set_dev_RNS (x : string) (d : Device) : Device :=
  mkDevice (dev_Name d) (dev_Fingerprint d) (dev_Addr d) (dev_PairedAt d) (dev_FcmToken d) x.

(** ** devices.json *)

(** The on-disk envelope. *)
Record devicesFile := mkDevicesFile { df_Devices : list Device; df_LastPeer : string }.

Definition req_time (k : string) (z : Z) : list (string * json) :=
  [(k, JStr (str (format_rfc3339 z)))].

Definition Device_json (d : Device) : json :=
  JObj (
    req_str "name" (dev_Name d) ++
    req_str "fingerprint" (dev_Fingerprint d) ++
    req_str "addr" (dev_Addr d) ++
    req_time "paired_at" (dev_PairedAt d) ++
    opt_str "fcm_token" (dev_FcmToken d) ++
    opt_str "rns" (dev_RNS d)).

Definition devicesFile_json (f : devicesFile) : json :=
  JObj ([("devices", JArr (map Device_json (df_Devices f)))] ++
        opt_str "last_peer" (df_LastPeer f)).

Definition time_field {A} (set : Z → A → A) : field A := λ v a,
  match v with
  | JNull => Some a
  | JStr s => match parse_rfc3339 (bs s) with Some z => Some (set z a) | None => None end
  | _ => None
  end.

Definition Device_fields : list (string * field Device) :=
  [("name", str_field set_dev_Name);
   ("fingerprint", str_field set_dev_Fingerprint);
   ("addr", str_field set_dev_Addr);
   ("paired_at", time_field set_dev_PairedAt);
   ("fcm_token", str_field set_dev_FcmToken);
   ("rns", str_field set_dev_RNS)].
Definition Device_of_json (v : json) : option Device := decode_object Device_fields zeroDevice v.

Definition devices_of_json (v : json) : option (list Device) :=
  match v with
  | JNull => Some []
  | JArr l => mapM Device_of_json l
  | _ => None
  end.

Definition devicesFile_fields : list (string * field devicesFile) :=
  [("devices", λ v f, match devices_of_json v with
                      | Some l => Some (mkDevicesFile l (df_LastPeer f))
                      | None => None
                      end);
   ("last_peer", str_field (λ s f, mkDevicesFile (df_Devices f) s))].
Definition devicesFile_of_json (v : json) : option devicesFile :=
  decode_object devicesFile_fields (mkDevicesFile [] "") v.

(** ** Paths *)
Definition Path (st : Store) (name : string) : string := path_join (s_dir st) name.
Definition keyPath (st : Store) : string := path_join (s_dir st) "identity.key".
Definition certPath (st : Store) : string := path_join (s_dir st) "identity.crt".
Definition devicesPath (st : Store) : string := path_join (s_dir st) "devices.json".

(** [Dir]: the environment decides. [home] and [config] are what
    os.UserHomeDir and os.UserConfigDir return. *)
Definition Dir (getenv : string → string) (windows : bool) (home : string) (config : option string)
  : string :=
  if negb (getenv "ADROP_CONFIG_DIR" =?s "") then getenv "ADROP_CONFIG_DIR"
  else
    match (if windows then config else None) with
    | Some d => path_join d "adrop"
    | None =>
        if negb (getenv "XDG_CONFIG_HOME" =?s "") then path_join (getenv "XDG_CONFIG_HOME") "adrop"
        else path_join (path_join home ".config") "adrop"
    end.

(** ** Loading and saving *)

Definition first_byte (data : bytes) : option ascii :=
  match skip_ws data with a :: _ => Some a | [] => None end.

Definition json_error : error := Errorf "json: cannot unmarshal".

Definition loadDevices : M cstate unit :=
  st <- store ;;
  r <- try (on_store_fs (read_file (devicesPath st))) ;;
  match r with
  | inr e => if is_errno ENOENT e then set_store (with_devices [] st) else throw e
  | inl data =>
      if bool_decide (first_byte data = Some "["%char) then
        match (v ← parse data; devices_of_json v) with
        | Some l => set_store (with_devices l st)
        | None => throw json_error
        end
      else
        match (v ← parse data; devicesFile_of_json v) with
        | None => throw json_error
        | Some f =>
            let st := with_devices (df_Devices f) st in
            set_store (if existsb (λ d, dev_Fingerprint d =?s df_LastPeer f) (df_Devices f)
                       then with_lastPeer (df_LastPeer f) st else st)
        end
  end.

Definition marshal_devices (st : Store) : bytes :=
  print_indent (devicesFile_json (mkDevicesFile (s_devices st) (s_lastPeer st))).

Definition saveDevicesLocked : M cstate unit :=
  st <- store ;;
  if negb (forallb (λ d, year_ok (dev_PairedAt d)) (s_devices st)) then
    throw (Errorf "json: error calling MarshalJSON for type time.Time")
  else
    let tmp := devicesPath st +:+ ".tmp" in
    on_store_fs (write_file tmp (marshal_devices st)) ;;;
    on_store_fs (rename tmp (devicesPath st)).

(** ** Operations *)

Definition hasPrefix (s p : string) : bool := (8 <=? String.length p)%nat && has_prefix s p.
Definition matches (nameOrFp : string) (d : Device) : bool :=
  (dev_Name d =?s nameOrFp) || hasPrefix (dev_Fingerprint d) nameOrFp.

(** Replace the first device with fingerprint [fp]. *)
Fixpoint update_first (fp : string) (f : Device → Device) (l : list Device) : list Device :=
  match l with
  | [] => []
  | d :: l' => if dev_Fingerprint d =?s fp then f d :: l' else d :: update_first fp f l'
  end.
Definition find_fp (fp : string) (l : list Device) : option Device :=
  find (λ d, dev_Fingerprint d =?s fp) l.

Definition Devices : M cstate (list Device) := st <- store ;; ret (s_devices st).

Definition AddDevice (d : Device) : M cstate unit :=
  now <- gets cs_now ;;
  let d := if dev_PairedAt d =? zeroTime then set_dev_PairedAt now d else d in
  st <- store ;;
  match find_fp (dev_Fingerprint d) (s_devices st) with
  | Some _ => set_store (with_devices (update_first (dev_Fingerprint d) (λ _, d) (s_devices st)) st)
  | None => set_store (with_devices (s_devices st ++ [d]) st)
  end ;;;
  saveDevicesLocked.

Definition UpdateAddr (fingerprint addr : string) : M cstate bool :=
  st <- store ;;
  match find_fp fingerprint (s_devices st) with
  | None => ret false
  | Some d =>
      if dev_Addr d =?s addr then ret false
      else
        set_store (with_devices (update_first fingerprint (set_dev_Addr addr) (s_devices st)) st) ;;;
        ignore saveDevicesLocked ;;;
        ret true
  end.

(** The shape UpdateFcmToken and UpdateRNS share. *)
Definition update_field (get : Device → string) (set : string → Device → Device)
    (fingerprint value : string) : M cstate unit :=
  if value =?s "" then ret ()
  else
    st <- store ;;
    match find_fp fingerprint (s_devices st) with
    | None => ret ()
    | Some d =>
        if get d =?s value then ret ()
        else
          set_store (with_devices (update_first fingerprint (set value) (s_devices st)) st) ;;;
          ignore saveDevicesLocked
    end.
Definition UpdateFcmToken (fingerprint token : string) : M cstate unit :=
  update_field dev_FcmToken set_dev_FcmToken fingerprint token.
Definition UpdateRNS (fingerprint rns : string) : M cstate unit :=
  update_field dev_RNS set_dev_RNS fingerprint rns.

(** The count of removed devices and the error of the save. *)
Definition RemoveDevice (nameOrFp : string) : M cstate (Z * option error) :=
  st <- store ;;
  let removed := List.filter (matches nameOrFp) (s_devices st) in
  let kept := List.filter (λ d, negb (matches nameOrFp d)) (s_devices st) in
  let last := if existsb (λ d, dev_Fingerprint d =?s s_lastPeer st) removed
              then "" else s_lastPeer st in
  let n := Z.of_nat (length removed) in
  if 0 <? n then
    set_store (with_devices kept (with_lastPeer last st)) ;;;
    r <- try saveDevicesLocked ;;
    match r with
    | inr e => ret (n, Some e)
    | inl _ => ret (n, None)
    end
  else ret (0, None).

Fixpoint find_index (f : Device → bool) (l : list Device) : option nat :=
  match l with
  | [] => None
  | d :: l' => if f d then Some O else S <$> find_index f l'
  end.

Definition rename_at (i : nat) (name : string) (l : list Device) : list Device :=
  alter (set_dev_Name name) i l.

Definition RenameDevice (nameOrFp newName : string) : M cstate unit :=
  let newName := trim_space newName in
  if newName =?s "" then throw (Errorf "new name is empty")
  else
    st <- store ;;
    match find_index (matches nameOrFp) (s_devices st) with
    | None => throw (Errorf ("no device matched " +:+ nameOrFp))
    | Some idx =>
        if existsb (λ p : nat * Device, negb (p.1 =? idx)%nat && (dev_Name p.2 =?s newName))
             (imap (λ i d, (i, d)) (s_devices st))
        then throw (Errorf ("another device is already named " +:+ newName))
        else
          match s_devices st !! idx with
          | None => panic
          | Some d =>
              let old := dev_Name d in
              if old =?s newName then ret ()
              else
                set_store (with_devices (rename_at idx newName (s_devices st)) st) ;;;
                r <- try saveDevicesLocked ;;
                match r with
                | inl _ => ret ()
                | inr e =>
                    st <- store ;;
                    set_store (with_devices (rename_at idx old (s_devices st)) st) ;;;
                    throw e
                end
          end
    end.

(** The pinned set: the last device of a fingerprint names it. *)
Definition TrustedFingerprints (st : Store) : gmap string string :=
  fold_left (λ m d, <[dev_Fingerprint d := dev_Name d]> m) (s_devices st) ∅.

Definition IsTrusted (st : Store) (fingerprint : string) : option string :=
  dev_Name <$> find_fp fingerprint (s_devices st).

Definition Lookup (st : Store) (nameOrFp : string) : option Device :=
  find (matches nameOrFp) (s_devices st).

Definition LastPeer (st : Store) : string := s_lastPeer st.

Definition SetLastPeer (fingerprint : string) : M cstate unit :=
  st <- store ;;
  if s_lastPeer st =?s fingerprint then ret ()
  else
    set_store (with_lastPeer fingerprint st) ;;;
    ignore saveDevicesLocked.

(** ** Identity *)

Definition Fingerprint (der : bytes) : string := hex_encode (sha256 der).
Definition store_Fingerprint (st : Store) : string := Fingerprint (s_certDER st).
Definition CertPEM (st : Store) : bytes := pem_encode cert_type (s_certDER st).

Fixpoint cert_from_pem (fuel : nat) (b : bytes) : bytes + error :=
  match fuel with
  | O => inr (Errorf "no CERTIFICATE block in PEM")
  | S f =>
      match pem_decode b with
      | None => inr (Errorf "no CERTIFICATE block in PEM")
      | Some (typ, der, rest) => if typ =?s cert_type then inl der else cert_from_pem f rest
      end
  end.
Definition CertDERFromPEM (b : bytes) : bytes + error := cert_from_pem (S (length b)) b.

Section identity.
(** crypto/tls and crypto/x509: the leaf of a key pair, or the parse error;
    and a fresh key and self-signed certificate. *)
Context (X509KeyPair : bytes → bytes → bytes + error).
Context (fresh : bytes * bytes).

Definition createIdentity : M cstate unit :=
  st <- store ;;
  let '(der, keyDER) := fresh in
  let crtPEM := pem_encode cert_type der in
  let keyPEM := pem_encode "PRIVATE KEY" keyDER in
  on_store_fs (write_file (certPath st) crtPEM) ;;;
  on_store_fs (write_file (keyPath st) keyPEM) ;;;
  of_res (X509KeyPair crtPEM keyPEM) ;;;
  set_store (mkStore (s_dir st) der (s_devices st) (s_lastPeer st)).

Definition loadOrCreateIdentity : M cstate unit :=
  st <- store ;;
  key <- try (on_store_fs (read_file (keyPath st))) ;;
  crt <- try (on_store_fs (read_file (certPath st))) ;;
  match key, crt with
  | inl keyPEM, inl crtPEM =>
      match X509KeyPair crtPEM keyPEM with
      | inl der => set_store (mkStore (s_dir st) der (s_devices st) (s_lastPeer st))
      | inr e => throw (Wrapf "parse identity" e)
      end
  | inr e, _ => if is_errno ENOENT e then createIdentity else throw e
  | inl _, inr _ => createIdentity
  end.

(** [os.MkdirAll] of a clean absolute path. *)
Fixpoint mkdir_all (current : string) (parts : list string) : M fs unit :=
  match parts with
  | [] => ret ()
  | p :: rest =>
      let current := path_join current p in
      r <- try (stat current) ;;
      match r with
      | inl NDir => ret ()
      | inl _ => throw (Errno ENOTDIR)
      | inr _ => mkdir current
      end ;;;
      mkdir_all current rest
  end.

Definition Open (dir : string) : M cstate unit :=
  r <- try (on_store_fs (mkdir_all "/" (List.filter (λ p, negb (p =?s "")) (split_on "/" dir)))) ;;
  match r with
  | inr e => throw (Wrapf "create config dir" e)
  | inl _ =>
      set_store (mkStore dir [] [] "") ;;;
      loadOrCreateIdentity ;;;
      loadDevices
  end.
End identity.

(** ** Saving: all or nothing *)

Lemma on_store_fs_inv {A} (m : M fs A) s r s' :
  on_store_fs m s = (r, s') →
  m (cs_fs s) = (r, cs_fs s') ∧ cs_store s' = cs_store s ∧ cs_now s' = cs_now s.
Proof. by intros (f & E & ->)%zoom_inv. Qed.

Lemma tmp_not_devices st : devicesPath st +:+ ".tmp" ≠ devicesPath st.
Proof. intros E%(f_equal String.length). rewrite length_strapp in E. simpl in E. lia. Qed.

(** What a save does, whatever fails: the store stays, and devices.json holds
    its old content or all of the new one. *)
Lemma saveDevicesLocked_spec s r s' :
  saveDevicesLocked s = (r, s') →
  cs_store s' = cs_store s ∧ cs_now s' = cs_now s ∧
  let p := devicesPath (cs_store s) in
  (r = Ok () → file_at (cs_fs s') p = Some (marshal_devices (cs_store s))) ∧
  (file_at (cs_fs s') p = file_at (cs_fs s) p ∨
   file_at (cs_fs s') p = Some (marshal_devices (cs_store s))).
Proof.
  unfold saveDevicesLocked. rewrite bind_Ok with (a := cs_store s) (s' := s) by done.
  cbv zeta. pose proof (tmp_not_devices (cs_store s)) as Hne.
  set (p := devicesPath (cs_store s)) in *. set (tmp := p +:+ ".tmp") in *.
  case_match; [intros [= <- <-]; split_and!; auto; done|].
  intros [([] & s1 & E1 & E2)|(r0 & E1 & Hr & ->)]%bind_inv.
  - apply on_store_fs_inv in E1 as (E1 & Hs1 & Hn1). apply on_store_fs_inv in E2 as (E2 & Hs2 & Hn2).
    rewrite Hs2, Hn2, Hs1, Hn1. split_and!; [done..| |].
    + intros ->. apply rename_Ok in E2 as (b & Hb & Hd & _); [|done].
      apply write_file_Ok in E1. congruence.
    + pose proof (write_file_touches (λ q, q = tmp) tmp _ eq_refl _ _ _ E1) as Hw.
      assert (file_at (cs_fs s1) p = file_at (cs_fs s) p) as Hp.
      { unfold file_at. by rewrite Hw. }
      destruct r as [[]| | | |];
        try (apply rename_failed in E2; [|done]; left; rewrite <-Hp; unfold file_at; by rewrite E2).
      right. apply rename_Ok in E2 as (b & Hb & Hd & _); [|done].
      apply write_file_Ok in E1. congruence.
  - apply on_store_fs_inv in E1 as (E1 & Hs1 & Hn1). rewrite Hs1, Hn1.
    pose proof (write_file_touches (λ q, q = tmp) tmp _ eq_refl _ _ _ E1) as Hw.
    split_and!; [done..|by destruct r0|]. left. unfold file_at. by rewrite Hw.
Qed.

(** ** The round trip through devices.json *)

Definition valid_Device (d : Device) : Device :=
  mkDevice (to_valid (dev_Name d)) (to_valid (dev_Fingerprint d)) (to_valid (dev_Addr d))
    (dev_PairedAt d) (to_valid (dev_FcmToken d)) (to_valid (dev_RNS d)).

Lemma wf_req_time k z : wf_members (req_time k z).
Proof. repeat constructor. Qed.
#[export] Hint Resolve wf_req_time : wire.

Lemma Device_json_wf d : json_wf (Device_json d).
Proof. unfold Device_json. constructor. wire_wf. Qed.

Lemma devicesFile_json_wf f : json_wf (devicesFile_json f).
Proof.
  unfold devicesFile_json. constructor. apply wf_app; [|apply wf_opt_str].
  constructor; [|constructor]. cbn. constructor. apply json_wf_map, Device_json_wf.
Qed.

(** The text of a time is ASCII, so it survives the encoding. *)
Lemma digit_low a : is_digit a = true → byteZ a < 128.
Proof. unfold is_digit. lia. Qed.
Lemma digits_low l : forallb is_digit l = true → Forall (λ a, byteZ a < 128) l.
Proof.
  intros H. rewrite forallb_forall in H. rewrite List.Forall_forall. intros a Ha. by apply digit_low, H.
Qed.

Lemma rfc3339_ascii z : to_valid_bytes (format_rfc3339 z) = format_rfc3339 z.
Proof.
  apply runes_ascii. unfold format_rfc3339. cbv zeta.
  destruct (civil_of_days _) as [[y m] d].
  assert (∀ c, byteZ c < 128 → Forall (λ a, byteZ a < 128) [c]) as Hc by (intros; by constructor).
  assert (∀ w n, Forall (λ a, byteZ a < 128) (digits_w w n)) as Hd
    by (intros; apply digits_low, digits_w_digit).
  assert (Forall (λ a, byteZ a < 128) (fraction (z mod nsec))) as Hf.
  { unfold fraction. pose proof (drop_zeros_digit _ (digits_w_digit 9 (z mod nsec))) as H.
    destruct (drop_zeros _); constructor; [done|by apply digits_low]. }
  repeat first [apply Forall_app; split; [by auto|] | apply Forall_cons_2; [done|]]. by constructor.
Qed.

Section time_segment.
Context {A : Type} (fs : list (string * field A)).
Lemma seg_req_time k z upd ms a :
  find_field fs (to_valid k) = Some (time_field upd) → year_ok z = true →
  decode_members fs (map norm_member (req_time k z) ++ ms) a = decode_members fs ms (upd z a).
Proof.
  intros H Hz. apply (decode_members_cons _ _ _ _ _ _ _ H). unfold time_field. cbn [norm].
  unfold to_valid. by rewrite !bs_str, rfc3339_ascii, rfc3339_roundtrip.
Qed.
End time_segment.

Ltac norm_device :=
  lazymatch goal with
  | |- decode_members _ _ ?h = _ =>
      let h' := eval cbv beta iota delta [
        set_dev_Name set_dev_Fingerprint set_dev_Addr set_dev_PairedAt set_dev_FcmToken
        set_dev_RNS dev_Name dev_Fingerprint dev_Addr dev_PairedAt dev_FcmToken dev_RNS] in h in
      change h with h'
  end.

Lemma Device_roundtrip d :
  year_ok (dev_PairedAt d) = true → Device_of_json (norm (Device_json d)) = Some (valid_Device d).
Proof.
  intros Hz. destruct d as [n f a p t r]. cbn in Hz.
  unfold Device_json, Device_of_json, decode_object. cbn [norm]. fold norm_member.
  rewrite decode_members_nil, !map_app. unfold zeroDevice.
  cbn [dev_Name dev_Fingerprint dev_Addr dev_PairedAt dev_FcmToken dev_RNS].
  do 3 (decode_step; norm_device).
  rewrite <-?app_assoc. erewrite seg_req_time; [|find_segment|done]. norm_device.
  do 2 (decode_step; norm_device). reflexivity.
Qed.

Lemma devices_roundtrip l :
  Forall (λ d, year_ok (dev_PairedAt d) = true) l →
  mapM Device_of_json (map norm (map Device_json l)) = Some (map valid_Device l).
Proof.
  induction 1 as [|d l Hd _ IH]; [done|]. cbn [map mapM]. rewrite Device_roundtrip by done.
  simpl. by rewrite IH.
Qed.

Lemma devicesFile_roundtrip f :
  Forall (λ d, year_ok (dev_PairedAt d) = true) (df_Devices f) →
  devicesFile_of_json (norm (devicesFile_json f)) =
  Some (mkDevicesFile (map valid_Device (df_Devices f)) (to_valid (df_LastPeer f))).
Proof.
  intros Hl. destruct f as [l p]. cbn in Hl.
  unfold devicesFile_json, devicesFile_of_json, decode_object. cbn [norm]. fold norm_member.
  rewrite decode_members_nil, map_app. cbn [df_Devices df_LastPeer].
  rewrite <-app_assoc. cbn [map app norm norm_member].
  erewrite decode_members_cons; [|find_segment|].
  2:{ unfold devices_of_json. rewrite devices_roundtrip by done. reflexivity. }
  unfold opt_str. destruct (String.eqb_spec p "") as [->|Hne]; [reflexivity|].
  cbn [map app norm norm_member].
  erewrite decode_members_cons; [|find_segment|reflexivity]. reflexivity.
Qed.

Lemma print_indent_first l : first_byte (print_indent (JObj l)) = Some "{"%char.
Proof. unfold print_indent. by destruct l. Qed.

Lemma loadDevices_saved st fs now :
  forallb (λ d, year_ok (dev_PairedAt d)) (s_devices st) = true →
  file_at fs (devicesPath st) = Some (marshal_devices st) →
  ∃ st',
    loadDevices (mkCstate (mkStore (s_dir st) (s_certDER st) [] "") fs now) = (Ok (), mkCstate st' fs now) ∧
    s_devices st' = map valid_Device (s_devices st) ∧
    s_lastPeer st' =
      (if existsb (λ d, dev_Fingerprint d =?s to_valid (s_lastPeer st)) (map valid_Device (s_devices st))
       then to_valid (s_lastPeer st) else "") ∧
    s_dir st' = s_dir st ∧ s_certDER st' = s_certDER st.
Proof.
  intros Hy Hf. unfold loadDevices.
  set (s0 := mkCstate (mkStore (s_dir st) (s_certDER st) [] "") fs now).
  rewrite bind_Ok with (a := cs_store s0) (s' := s0) by done.
  change (devicesPath (cs_store s0)) with (devicesPath st).
  assert (try (on_store_fs (read_file (devicesPath st))) s0 =
    (Ok (inl (marshal_devices st)), s0)) as Er.
  { unfold try, on_store_fs, zoom, read_file. cbn. unfold file_at in Hf.
    destruct (fs_nodes fs !! _) as [[]|]; by simplify_eq. }
  rewrite (bind_Ok _ _ _ _ _ Er). clear Er. unfold marshal_devices.
  assert (∀ f, first_byte (print_indent (devicesFile_json f)) = Some "{"%char) as ->
    by (intros f; apply print_indent_first).
  rewrite bool_decide_eq_false_2 by done.
  rewrite parse_print_indent by apply devicesFile_json_wf. cbn [mbind option_bind].
  rewrite devicesFile_roundtrip.
  2:{ cbn. rewrite List.Forall_forall. by rewrite forallb_forall in Hy. }
  cbn [df_Devices df_LastPeer]. eexists. split; [reflexivity|].
  case_match; done.
Qed.

(** ** The operations as one step function *)

Inductive store_op :=
  | OpAdd (d : Device)
  | OpUpdateAddr (fp addr : string)
  | OpUpdateFcmToken (fp token : string)
  | OpUpdateRNS (fp rns : string)
  | OpRemove (nameOrFp : string)
  | OpRename (nameOrFp newName : string)
  | OpSetLastPeer (fp : string).

Definition run_op (op : store_op) : M cstate unit :=
  match op with
  | OpAdd d => AddDevice d
  | OpUpdateAddr fp a => UpdateAddr fp a ;;; ret ()
  | OpUpdateFcmToken fp t => UpdateFcmToken fp t
  | OpUpdateRNS fp r => UpdateRNS fp r
  | OpRemove t =>
      r <- RemoveDevice t ;;
      match r.2 with Some e => throw e | None => ret () end
  | OpRename t n => RenameDevice t n
  | OpSetLastPeer fp => SetLastPeer fp
  end.

(** One entry per fingerprint. *)
Definition fps (st : Store) : list string := map dev_Fingerprint (s_devices st).
Definition wf_store (st : Store) : Prop := NoDup (fps st).

Lemma update_first_fps fp f l :
  (∀ d, dev_Fingerprint d = fp → dev_Fingerprint (f d) = fp) →
  map dev_Fingerprint (update_first fp f l) = map dev_Fingerprint l.
Proof.
  intros Hf. induction l as [|d l IH]; [done|]. cbn [update_first map].
  destruct (String.eqb_spec (dev_Fingerprint d) fp) as [E|_]; cbn [map]; [|by rewrite IH].
  by rewrite Hf, E.
Qed.

Lemma find_fp_None fp l : find_fp fp l = None ↔ fp ∉ map dev_Fingerprint l.
Proof.
  unfold find_fp. induction l as [|d l IH]; cbn [find map]; [set_solver|].
  rewrite not_elem_of_cons. destruct (String.eqb_spec (dev_Fingerprint d) fp); [naive_solver|].
  rewrite IH. naive_solver.
Qed.
Lemma find_fp_Some fp l d : find_fp fp l = Some d → dev_Fingerprint d = fp.
Proof. intros [_ H%String.eqb_eq]%find_some. done. Qed.
Lemma find_fp_is_Some fp l : is_Some (find_fp fp l) ↔ fp ∈ map dev_Fingerprint l.
Proof.
  rewrite <-not_eq_None_Some, find_fp_None. split; [|tauto]. apply dec_stable.
Qed.

Lemma rename_at_fps i n l : map dev_Fingerprint (rename_at i n l) = map dev_Fingerprint l.
Proof.
  unfold rename_at. revert i. induction l as [|d l IH]; intros [|i]; try done. cbn. by f_equal.
Qed.
Lemma filter_fps_NoDup f l :
  NoDup (map dev_Fingerprint l) → NoDup (map dev_Fingerprint (List.filter f l)).
Proof.
  induction l as [|d l IH]; [done|]. cbn [map List.filter]. rewrite list.NoDup_cons. intros [Hd Hl].
  destruct (f d); [|by apply IH]. cbn [map]. apply list.NoDup_cons. split; [|by apply IH].
  intros Hin. apply Hd. clear -Hin. induction l as [|e l IH]; [done|]. cbn [List.filter map] in *.
  destruct (f e); cbn [map] in *; set_solver.
Qed.


(** *** The store each operation is meant to produce *)
Definition rename_store (nameOrFp newName : string) (st : Store) : Store :=
  let newName := trim_space newName in
  if newName =?s "" then st
  else
    match find_index (matches nameOrFp) (s_devices st) with
    | None => st
    | Some idx =>
        if existsb (λ p : nat * Device, negb (p.1 =? idx)%nat && (dev_Name p.2 =?s newName))
             (imap (λ i d, (i, d)) (s_devices st))
        then st else with_devices (rename_at idx newName (s_devices st)) st
    end.

Definition remove_store (nameOrFp : string) (st : Store) : Store :=
  let removed := List.filter (matches nameOrFp) (s_devices st) in
  with_devices (List.filter (λ d, negb (matches nameOrFp d)) (s_devices st))
    (with_lastPeer (if existsb (λ d, dev_Fingerprint d =?s s_lastPeer st) removed
                    then "" else s_lastPeer st) st).

Definition add_store (now : Z) (d : Device) (st : Store) : Store :=
  let d := if dev_PairedAt d =? zeroTime then set_dev_PairedAt now d else d in
  match find_fp (dev_Fingerprint d) (s_devices st) with
  | Some _ => with_devices (update_first (dev_Fingerprint d) (λ _, d) (s_devices st)) st
  | None => with_devices (s_devices st ++ [d]) st
  end.

Definition apply_op (now : Z) (op : store_op) (st : Store) : Store :=
  match op with
  | OpAdd d => add_store now d st
  | OpUpdateAddr fp a => with_devices (update_first fp (set_dev_Addr a) (s_devices st)) st
  | OpUpdateFcmToken fp t =>
      if t =?s "" then st else with_devices (update_first fp (set_dev_FcmToken t) (s_devices st)) st
  | OpUpdateRNS fp x =>
      if x =?s "" then st else with_devices (update_first fp (set_dev_RNS x) (s_devices st)) st
  | OpRemove t => remove_store t st
  | OpRename t n => rename_store t n st
  | OpSetLastPeer fp => with_lastPeer fp st
  end.

(** The store and the disk after an operation that ends with a save. *)
Definition saved (s s' : cstate) : Prop :=
  file_at (cs_fs s') (devicesPath (cs_store s')) = Some (marshal_devices (cs_store s')).

Lemma with_devices_same st : with_devices (s_devices st) st = st.
Proof. by destruct st. Qed.

Lemma update_first_same fp f l d :
  find_fp fp l = Some d → f d = d → update_first fp f l = l.
Proof.
  induction l as [|e l IH]; [done|]. cbn [find_fp find update_first].
  destruct (dev_Fingerprint e =?s fp); [by intros [= ->] ->|]. intros H1 H2. f_equal. by apply IH.
Qed.
Lemma update_first_none fp f l : find_fp fp l = None → update_first fp f l = l.
Proof.
  induction l as [|e l IH]; [done|]. cbn [find_fp find update_first].
  destruct (dev_Fingerprint e =?s fp); [done|]. intros H. f_equal. by apply IH.
Qed.
Lemma list_alter_id_local {A} (f : A → A) (i : nat) (l : list A) d : l !! i = Some d → f d = d → alter f i l = l.
Proof.
  revert i. induction l as [|e l IH]; intros [|i]; cbn; try done.
  - by intros [= ->] ->.
  - intros Hi Hd. f_equal. by apply IH.
Qed.
Lemma set_dev_Addr_same d : set_dev_Addr (dev_Addr d) d = d.
Proof. by destruct d. Qed.
Lemma set_dev_FcmToken_same d : set_dev_FcmToken (dev_FcmToken d) d = d.
Proof. by destruct d. Qed.
Lemma set_dev_RNS_same d : set_dev_RNS (dev_RNS d) d = d.
Proof. by destruct d. Qed.
Lemma with_lastPeer_same st : with_lastPeer (s_lastPeer st) st = st.
Proof. by destruct st. Qed.

Lemma rename_at_undo i d new l :
  l !! i = Some d → rename_at i (dev_Name d) (rename_at i new l) = l.
Proof.
  unfold rename_at. revert i. induction l as [|e l IH]; intros [|i]; cbn; try done.
  - intros [= ->]. by destruct d.
  - intros Hi. f_equal. by apply IH.
Qed.

(** What an operation does to the store: on success exactly the intended
    change; otherwise that change or none, and none for a failed rename. *)
Lemma save_step st0 s r s' :
  cs_store s = st0 → saveDevicesLocked s = (r, s') →
  cs_store s' = st0 ∧ cs_now s' = cs_now s ∧ (r = Ok () → saved s s').
Proof.
  intros <- (H1 & H2 & H3 & _)%saveDevicesLocked_spec. split_and!; [done..|].
  intros Hr. unfold saved. rewrite H1. by apply H3.
Qed.

Lemma set_store_step st s r s' :
  set_store st s = (r, s') → r = Ok () ∧ s' = mkCstate st (cs_fs s) (cs_now s).
Proof. by intros [= <- <-]. Qed.

Lemma set_then_save st s (m : M cstate ()) r s' :
  (set_store st ;;; m) s = (r, s') → m (mkCstate st (cs_fs s) (cs_now s)) = (r, s').
Proof. done. Qed.

Lemma AddDevice_store d s r s' :
  AddDevice d s = (r, s') → cs_store s' = add_store (cs_now s) d (cs_store s).
Proof.
  unfold AddDevice. rewrite bind_Ok with (a := cs_now s) (s' := s) by done. cbv zeta.
  rewrite bind_Ok with (a := cs_store s) (s' := s) by done. unfold add_store. cbv zeta.
  destruct (find_fp _ _); intros E; apply set_then_save in E; by eapply save_step in E as [-> _].
Qed.

Lemma AddDevice_saved d s s' : AddDevice d s = (Ok (), s') → saved s s' ∧ cs_now s' = cs_now s.
Proof.
  unfold AddDevice. rewrite bind_Ok with (a := cs_now s) (s' := s) by done. cbv zeta.
  rewrite bind_Ok with (a := cs_store s) (s' := s) by done.
  destruct (find_fp _ _); intros E; apply set_then_save in E;
    eapply save_step in E as (H1 & H2 & H3); try done; cbn in H2; (split; [by apply H3|done]).
Qed.

(** Adding a device makes it, and only it, trusted. *)
Lemma add_store_trust now d st fp :
  IsTrusted (add_store now d st) fp =
  (if dev_Fingerprint d =?s fp then Some (dev_Name d) else IsTrusted st fp).
Proof.
  unfold add_store. set (d' := if _ =? _ then _ else _).
  assert (dev_Fingerprint d' = dev_Fingerprint d ∧ dev_Name d' = dev_Name d) as [Hf Hn].
  { subst d'. by case_match. }
  clearbody d'. rewrite <-Hf, <-Hn. clear Hf Hn d. unfold IsTrusted.
  induction (s_devices st) as [|e l IH].
  - cbn. by destruct (dev_Fingerprint d' =?s fp).
  - unfold find_fp in *. cbn [find] in *.
    destruct (String.eqb_spec (dev_Fingerprint e) (dev_Fingerprint d')) as [Hed|Hed].
    + cbn [with_devices s_devices update_first]. rewrite (proj2 (String.eqb_eq _ _) Hed). cbn [find].
      rewrite Hed. by destruct (dev_Fingerprint d' =?s fp).
    + destruct (find _ l) eqn:Ef; cbn [with_devices s_devices update_first app find] in *;
        rewrite ?(proj2 (String.eqb_neq _ _) Hed); cbn [find];
        (destruct (String.eqb_spec (dev_Fingerprint e) fp) as [<-|]; [|exact IH]);
        by rewrite (proj2 (String.eqb_neq _ _) (not_eq_sym Hed)).
Qed.

Lemma ignore_save_store s r s' :
  ignore saveDevicesLocked s = (r, s') → cs_store s' = cs_store s.
Proof. intros (r0 & E)%ignore_inv. by eapply save_step in E as [-> _]. Qed.

Lemma update_field_store get set fp v s r s' :
  (∀ d, set (get d) d = d) →
  update_field get set fp v s = (r, s') →
  cs_store s' = (if v =?s "" then cs_store s
                 else with_devices (update_first fp (set v) (s_devices (cs_store s))) (cs_store s)).
Proof.
  intros Hset. unfold update_field. destruct (v =?s ""); [by intros [= <- <-]|].
  rewrite bind_Ok with (a := cs_store s) (s' := s) by done.
  destruct (find_fp fp _) as [d|] eqn:Ef.
  - destruct (String.eqb_spec (get d) v) as [<-|].
    + intros [= <- <-]. rewrite (update_first_same _ _ _ d) by auto. by rewrite with_devices_same.
    + intros E. apply set_then_save in E. by apply ignore_save_store in E as ->.
  - intros [= <- <-]. rewrite update_first_none by done. by rewrite with_devices_same.
Qed.

Lemma UpdateAddr_store fp a s r s' :
  UpdateAddr fp a s = (r, s') →
  cs_store s' = with_devices (update_first fp (set_dev_Addr a) (s_devices (cs_store s))) (cs_store s).
Proof.
  unfold UpdateAddr. rewrite bind_Ok with (a := cs_store s) (s' := s) by done.
  destruct (find_fp fp _) as [d|] eqn:Ef.
  - destruct (String.eqb_spec (dev_Addr d) a) as [<-|].
    + intros [= <- <-]. rewrite (update_first_same _ _ _ d) by auto using set_dev_Addr_same.
      by rewrite with_devices_same.
    + intros E. rewrite bind_Ok with (a := ()) (s' := mkCstate (with_devices
        (update_first fp (set_dev_Addr a) (s_devices (cs_store s))) (cs_store s)) (cs_fs s) (cs_now s))
        in E by done.
      apply bind_inv in E as [([] & s1 & E1 & E2)|(r0 & E1 & _)];
        apply ignore_save_store in E1; [injection E2 as <- <-|]; by rewrite E1.
  - intros [= <- <-]. rewrite update_first_none by done. by rewrite with_devices_same.
Qed.

Lemma filter_none {A} (f : A → bool) l :
  length (List.filter f l) = 0%nat → List.filter (λ x, negb (f x)) l = l.
Proof.
  induction l as [|x l IH]; [done|]. cbn. destruct (f x); cbn; [done|]. intros H. f_equal. by apply IH.
Qed.

Lemma RemoveDevice_store t s r s' :
  RemoveDevice t s = (r, s') → cs_store s' = remove_store t (cs_store s).
Proof.
  unfold RemoveDevice. rewrite bind_Ok with (a := cs_store s) (s' := s) by done. cbv zeta.
  unfold remove_store.
  destruct (Z.ltb_spec 0 (Z.of_nat (length (List.filter (matches t) (s_devices (cs_store s)))))) as [Hn|Hn].
  - rewrite bind_Ok with (a := ()) (s' := mkCstate (remove_store t (cs_store s)) (cs_fs s) (cs_now s))
      by done.
    intros [(x & s1 & E1 & E2)|(r0 & E1 & _)]%bind_inv; apply try_inv in E1 as (r1 & E1 & _);
      apply (save_step _ _ _ _ eq_refl) in E1 as [E1 _].
    + destruct x; injection E2 as <- <-; by rewrite E1.
    + by rewrite E1.
  - intros [= <- <-].
    assert (length (List.filter (matches t) (s_devices (cs_store s))) = 0%nat) as H0 by lia.
    rewrite filter_none by done. destruct (List.filter _ _); [|done].
    cbn. destruct (cs_store s); done.
Qed.

Lemma RenameDevice_store t n s r s' :
  RenameDevice t n s = (r, s') →
  (r = Ok () → cs_store s' = rename_store t n (cs_store s)) ∧
  (∀ e, r = Err e → cs_store s' = cs_store s).
Proof.
  unfold RenameDevice, rename_store. cbv zeta. destruct (trim_space n =?s ""); [by intros [= <- <-]|].
  rewrite bind_Ok with (a := cs_store s) (s' := s) by done.
  destruct (find_index _ _) as [idx|]; [|by intros [= <- <-]].
  destruct (existsb _ _); [by intros [= <- <-]|].
  destruct (s_devices (cs_store s) !! idx) as [d|] eqn:Ed; [|by intros [= <- <-]].
  destruct (String.eqb_spec (dev_Name d) (trim_space n)) as [En|_].
  { intros [= <- <-]. split; [|done]. intros _. unfold rename_at.
    rewrite list_alter_id_local with (d := d); [by rewrite with_devices_same|done|].
    rewrite <-En. by destruct d. }
  rewrite bind_Ok with (a := ()) (s' := mkCstate (with_devices
    (rename_at idx (trim_space n) (s_devices (cs_store s))) (cs_store s)) (cs_fs s) (cs_now s)) by done.
  intros [(x & s1 & E1 & E2)|(r0 & E1 & Hr & ->)]%bind_inv.
  - apply try_inv in E1 as (r1 & E1 & _).
    apply (save_step _ _ _ _ eq_refl) in E1 as [E1 _]. destruct x.
    + injection E2 as <- <-. done.
    + rewrite bind_Ok with (a := cs_store s1) (s' := s1) in E2 by done. rewrite E1 in E2.
      injection E2 as <- <-. split; [done|]. intros _ _. cbn.
      rewrite rename_at_undo by done. by destruct (cs_store s).
  - apply try_inv in E1 as (r1 & _ & Hr1). by destruct r1, r0; simplify_eq.
Qed.

(** Every operation comes back. *)
Definition any_cstate (s : cstate) : Prop := True.
Lemma on_store_fs_runs {A} (m : M fs A) : runs any_fs m → runs any_cstate (on_store_fs m).
Proof. intros H. by eapply runs_zoom. Qed.
Lemma set_store_runs st : runs any_cstate (set_store st).
Proof. by apply runs_modify. Qed.
Lemma store_runs : runs any_cstate store.
Proof. by intros s _. Qed.
#[export] Hint Resolve on_store_fs_runs set_store_runs store_runs : runs.
Lemma saveDevicesLocked_runs : runs any_cstate saveDevicesLocked.
Proof.
  unfold saveDevicesLocked. apply runs_bind; [auto with runs|]. intros st. cbv zeta.
  case_match; auto with runs.
Qed.
#[export] Hint Resolve saveDevicesLocked_runs : runs.

Lemma find_index_lookup f l i : find_index f l = Some i → ∃ d, l !! i = Some d ∧ f d = true.
Proof.
  revert i. induction l as [|d l IH]; intros i; [done|]. cbn [find_index].
  destruct (f d) eqn:E; [intros [= <-]; eauto|]. destruct (find_index f l) as [j|]; [|done].
  intros [= <-]. by apply IH.
Qed.

Lemma AddDevice_runs dev : runs any_cstate (AddDevice dev).
Proof.
  unfold AddDevice. apply runs_bind; [auto with runs|]. intros now. cbv zeta.
  apply runs_bind; [auto with runs|]. intros st. apply runs_bind; [case_match|]; auto with runs.
Qed.
Lemma UpdateAddr_runs fp addr : runs any_cstate (UpdateAddr fp addr).
Proof.
  unfold UpdateAddr. apply runs_bind; [auto with runs|].
  intros st. case_match; [|auto with runs]. case_match; auto with runs.
Qed.
Lemma update_field_runs get set fp x : runs any_cstate (update_field get set fp x).
Proof.
  unfold update_field. case_match; [auto with runs|].
  apply runs_bind; [auto with runs|]. intros st. case_match; [|auto with runs]. case_match; auto with runs.
Qed.
Lemma SetLastPeer_runs fp : runs any_cstate (SetLastPeer fp).
Proof. unfold SetLastPeer. apply runs_bind; [auto with runs|]. intros st. case_match; auto with runs. Qed.
#[export] Hint Resolve AddDevice_runs UpdateAddr_runs update_field_runs SetLastPeer_runs : runs.

Lemma run_op_runs op : runs any_cstate (run_op op).
Proof.
  destruct op; cbn [run_op].
  - apply AddDevice_runs.
  - apply runs_bind; [auto with runs|auto with runs].
  - apply update_field_runs.
  - apply update_field_runs.
  - unfold RemoveDevice. apply runs_bind; [|intros x; case_match; auto with runs].
    apply runs_bind; [auto with runs|]. intros st. cbv zeta. case_match; [|auto with runs].
    apply runs_bind; [auto with runs|]. intros _. apply runs_bind; [auto with runs|].
    intros []; auto with runs.
  - unfold RenameDevice. cbv zeta. case_match; [auto with runs|].
    apply runs_bind; [auto with runs|]. intros st.
    destruct (find_index _ _) as [idx|] eqn:Ei; [|auto with runs].
    apply find_index_lookup in Ei as (d & -> & _). case_match; [auto with runs|].
    case_match; [auto with runs|]. apply runs_bind; [auto with runs|]. intros _.
    apply runs_bind; [auto with runs|]. intros []; auto with runs.
  - apply SetLastPeer_runs.
Qed.

Lemma run_op_store op s r s' :
  run_op op s = (r, s') →
  (r = Ok () → cs_store s' = apply_op (cs_now s) op (cs_store s)) ∧
  (cs_store s' = apply_op (cs_now s) op (cs_store s) ∨ cs_store s' = cs_store s).
Proof.
  intros E. pose proof (run_op_runs op s I) as [Hf _]. rewrite E in Hf. cbn in Hf.
  assert (∀ st, cs_store s' = st → (r = Ok () → cs_store s' = st) ∧ (cs_store s' = st ∨ cs_store s' = cs_store s))
    as Hone by auto.
  destruct op; cbn [run_op apply_op] in *.
  - apply Hone. by eapply AddDevice_store.
  - apply Hone. apply bind_inv in E as [(b & s1 & E1 & E2)|(r0 & E1 & _)];
      apply UpdateAddr_store in E1; [injection E2 as <- <-|]; done.
  - apply update_field_store in E; [|apply set_dev_FcmToken_same]. rewrite E. by destruct (token =?s ""); auto.
  - apply update_field_store in E; [|apply set_dev_RNS_same]. rewrite E. by destruct (rns =?s ""); auto.
  - apply Hone. apply bind_inv in E as [(b & s1 & E1 & E2)|(r0 & E1 & _)];
      apply RemoveDevice_store in E1; [|done]. by destruct (b.2); injection E2 as <- <-.
  - apply RenameDevice_store in E as [H1 H2]. split; [done|].
    destruct r as [[]|e| | |]; try done; [left; auto|right; eauto].
  - apply Hone. unfold SetLastPeer in E. rewrite bind_Ok with (a := cs_store s) (s' := s) in E by done.
    destruct (String.eqb_spec (s_lastPeer (cs_store s)) fp) as [<-|].
    + injection E as <- <-. by rewrite with_lastPeer_same.
    + apply set_then_save in E. by apply ignore_save_store in E as ->.
Qed.

(** *** The invariant, on the intended stores *)
Lemma rename_store_fps t n st : fps (rename_store t n st) = fps st.
Proof.
  unfold rename_store, fps. cbv zeta. repeat case_match; try done. cbn. apply rename_at_fps.
Qed.
Lemma add_store_fps now d st :
  fps (add_store now d st) =
  (if bool_decide (dev_Fingerprint d ∈ fps st) then fps st else fps st ++ [dev_Fingerprint d]).
Proof.
  unfold add_store, fps. cbv zeta.
  assert (dev_Fingerprint (if dev_PairedAt d =? zeroTime then set_dev_PairedAt now d else d) =
    dev_Fingerprint d) as -> by by case_match.
  destruct (find_fp _ _) as [e|] eqn:E.
  - rewrite bool_decide_eq_true_2 by (apply find_fp_is_Some; eauto). cbn.
    apply update_first_fps. by case_match.
  - rewrite bool_decide_eq_false_2 by by apply find_fp_None. cbn. rewrite map_app. cbn.
    by case_match.
Qed.

Lemma apply_op_wf now op st : wf_store st → wf_store (apply_op now op st).
Proof.
  unfold wf_store. intros H. destruct op; cbn [apply_op]; try done.
  - rewrite add_store_fps. case_bool_decide as Hd; [done|].
    apply list.NoDup_app. split_and!; [done| |apply NoDup_singleton].
    intros x Hx ->%list_elem_of_singleton. done.
  - unfold fps. cbn. by rewrite update_first_fps.
  - case_match; [done|]. unfold fps. cbn. by rewrite update_first_fps.
  - case_match; [done|]. unfold fps. cbn. by rewrite update_first_fps.
  - unfold fps. cbn. by apply filter_fps_NoDup.
  - by rewrite rename_store_fps.
Qed.

Lemma IsTrusted_fps st fp : is_Some (IsTrusted st fp) ↔ fp ∈ fps st.
Proof. unfold IsTrusted. by rewrite fmap_is_Some, find_fp_is_Some. Qed.

(** A fingerprint is of a removed device or of a kept one, not both. *)
Lemma remove_store_fps t st fp :
  wf_store st →
  fp ∈ fps (remove_store t st) ↔ ∃ d, d ∈ s_devices st ∧ dev_Fingerprint d = fp ∧ matches t d = false.
Proof.
  intros _. unfold fps, remove_store. cbn. rewrite list_elem_of_fmap.
  setoid_rewrite list_elem_of_In. setoid_rewrite filter_In. setoid_rewrite negb_true_iff. naive_solver.
Qed.

(** ** Properties *)

Definition demo_dev : Device :=
  mkDevice "pixel" "00112233445566778899aabbccddeeff" "10.0.0.2:53127" (1700000000 * 10 ^ 9 + 5) "tok" "".
Definition demo_dev2 : Device :=
  mkDevice "laptop" "ffeeddccbbaa99887766554433221100" "10.0.0.3:53127" zeroTime "" "".
Definition demo_store : Store := mkStore "/c" (bs "der") [demo_dev; demo_dev2] (dev_Fingerprint demo_dev).
Definition demo_cstate (faults : list fault) : cstate :=
  mkCstate demo_store (mkFs {["/c" := NDir]} faults) (1700000001 * 10 ^ 9).

(** C9: saving the device list is atomic. Whatever write or rename fails, and
    however short a write stops, devices.json holds afterwards either its old
    content or the whole new one; the store in memory is not changed by it. *)
Theorem save_atomic s r s' :
  saveDevicesLocked s = (r, s') →
  let p := devicesPath (cs_store s) in
  cs_store s' = cs_store s ∧
  (file_at (cs_fs s') p = file_at (cs_fs s) p ∨
   file_at (cs_fs s') p = Some (marshal_devices (cs_store s))) ∧
  (r = Ok () → file_at (cs_fs s') p = Some (marshal_devices (cs_store s))).
Proof. intros E. apply saveDevicesLocked_spec in E as (H1 & _ & H2 & H3). done. Qed.

Lemma save_atomic_witness :
  let s' := (saveDevicesLocked (demo_cstate [Short 7])).2 in
  file_at (cs_fs s') "/c/devices.json" = None ∨
  file_at (cs_fs s') "/c/devices.json" = Some (marshal_devices demo_store).
Proof.
  cbv zeta.
  destruct (save_atomic (demo_cstate [Short 7]) (saveDevicesLocked (demo_cstate [Short 7])).1
    (saveDevicesLocked (demo_cstate [Short 7])).2 (surjective_pairing _)) as (_ & H & _).
  exact H.
Defined.

(** C10: what a successful save wrote is what the next start reads: the same
    devices, in the same order, with their times to the nanosecond, and the
    last peer if it is still paired (every string made valid UTF-8, as JSON
    does). *)
Theorem save_load_roundtrip s s' :
  saveDevicesLocked s = (Ok (), s') →
  forallb (λ d, year_ok (dev_PairedAt d)) (s_devices (cs_store s)) = true →
  let st := cs_store s in
  ∃ st',
    loadDevices (mkCstate (mkStore (s_dir st) (s_certDER st) [] "") (cs_fs s') (cs_now s')) =
      (Ok (), mkCstate st' (cs_fs s') (cs_now s')) ∧
    s_devices st' = map valid_Device (s_devices st) ∧
    (s_lastPeer st' = to_valid (s_lastPeer st) ∨
     s_lastPeer st' = "" ∧ ∀ d, d ∈ s_devices st → to_valid (dev_Fingerprint d) ≠ to_valid (s_lastPeer st)).
Proof.
  intros E Hy. apply saveDevicesLocked_spec in E as (_ & _ & Hf & _). cbv zeta.
  destruct (loadDevices_saved (cs_store s) (cs_fs s') (cs_now s') Hy (Hf eq_refl))
    as (st' & H1 & H2 & H3 & _). exists st'. split_and!; [done..|].
  destruct (existsb _ _) eqn:Ee; [by left|]. right. split; [done|].
  intros d Hd Heq. apply not_true_iff_false in Ee. apply Ee, existsb_exists.
  exists (valid_Device d). split; [|by apply String.eqb_eq].
  apply list_elem_of_In, list_elem_of_fmap. eauto.
Qed.

Lemma save_load_roundtrip_witness :
  let s' := (saveDevicesLocked (demo_cstate [])).2 in
  ∃ st',
    loadDevices (mkCstate (mkStore "/c" (bs "der") [] "") (cs_fs s') (cs_now s')) =
      (Ok (), mkCstate st' (cs_fs s') (cs_now s')) ∧
    s_devices st' = map valid_Device [demo_dev; demo_dev2] ∧
    (s_lastPeer st' = to_valid (dev_Fingerprint demo_dev) ∨ s_lastPeer st' = "" ∧
     ∀ d, d ∈ [demo_dev; demo_dev2] → to_valid (dev_Fingerprint d) ≠ to_valid (dev_Fingerprint demo_dev)).
Proof.
  apply (save_load_roundtrip (demo_cstate [])); [|by vm_compute].
  assert ((saveDevicesLocked (demo_cstate [])).1 = Ok ()) as E by by vm_compute.
  by rewrite (surjective_pairing (saveDevicesLocked _)), E at 1.
Defined.

(** C11: no operation, whatever fails, ever leaves two entries for one
    fingerprint. *)
Theorem store_fingerprints_unique ops s :
  wf_store (cs_store s) →
  wf_store (cs_store (fold_left (λ s op, (run_op op s).2) ops s)).
Proof.
  revert s. induction ops as [|op ops IH]; intros s Hs; [done|]. cbn [fold_left]. apply IH.
  destruct (run_op op s) as [r s'] eqn:E. cbn [snd]. apply run_op_store in E as [_ [->| ->]]; [|done].
  by apply apply_op_wf.
Qed.

Lemma store_fingerprints_unique_witness :
  wf_store (cs_store (fold_left (λ s op, (run_op op s).2)
    [OpAdd demo_dev; OpRename "pixel" "phone"; OpRemove "laptop"] (demo_cstate [FailWith EIO]))).
Proof.
  apply (store_fingerprints_unique [OpAdd demo_dev; OpRename "pixel" "phone"; OpRemove "laptop"]).
  by apply (bool_decide_eq_true_1 (NoDup (fps demo_store))).
Defined.

(** C12: only pairing and revoking change whom the daemon trusts. Every other
    operation leaves the set of trusted fingerprints as it is; pairing adds
    exactly the new one, and revoking removes exactly the devices whose name
    or fingerprint prefix matched, even when the file could not be written. *)
Theorem trust_changes op s r s' fp :
  wf_store (cs_store s) → run_op op s = (r, s') →
  match op with
  | OpAdd d =>
      is_Some (IsTrusted (cs_store s') fp) ↔
      is_Some (IsTrusted (cs_store s) fp) ∨ fp = dev_Fingerprint d
  | OpRemove t =>
      is_Some (IsTrusted (cs_store s') fp) ↔
      ∃ d, d ∈ s_devices (cs_store s) ∧ dev_Fingerprint d = fp ∧ matches t d = false
  | _ => is_Some (IsTrusted (cs_store s') fp) ↔ is_Some (IsTrusted (cs_store s) fp)
  end.
Proof.
  intros Hwf E. destruct op; cbn [run_op] in E; rewrite ?IsTrusted_fps.
  - apply AddDevice_store in E as ->. rewrite add_store_fps.
    case_bool_decide; [naive_solver|]. by rewrite elem_of_app, list_elem_of_singleton.
  - change (run_op (OpUpdateAddr fp0 addr) s = (r, s')) in E.
    apply run_op_store in E as [_ [->| ->]]; [|done]. cbn. unfold fps. cbn. by rewrite update_first_fps.
  - change (run_op (OpUpdateFcmToken fp0 token) s = (r, s')) in E.
    apply run_op_store in E as [_ [->| ->]]; [|done]. cbn. case_match; [done|].
    unfold fps. cbn. by rewrite update_first_fps.
  - change (run_op (OpUpdateRNS fp0 rns) s = (r, s')) in E.
    apply run_op_store in E as [_ [->| ->]]; [|done]. cbn. case_match; [done|].
    unfold fps. cbn. by rewrite update_first_fps.
  - apply bind_inv in E as [(b & s1 & E1 & E2)|(r0 & E1 & _)]; apply RemoveDevice_store in E1.
    + assert (cs_store s' = cs_store s1) as -> by (by destruct (b.2); injection E2 as <- <-).
      rewrite E1. by apply remove_store_fps.
    + rewrite E1. by apply remove_store_fps.
  - change (run_op (OpRename nameOrFp newName) s = (r, s')) in E.
    apply run_op_store in E as [_ [->| ->]]; [|done]. cbn. by rewrite rename_store_fps.
  - change (run_op (OpSetLastPeer fp0) s = (r, s')) in E.
    by apply run_op_store in E as [_ [->| ->]].
Qed.

Lemma trust_changes_witness :
  is_Some (IsTrusted (cs_store (run_op (OpRemove "pixel") (demo_cstate [FailWith EIO])).2)
             (dev_Fingerprint demo_dev)) ↔
  ∃ d, d ∈ s_devices demo_store ∧ dev_Fingerprint d = dev_Fingerprint demo_dev ∧ matches "pixel" d = false.
Proof.
  apply (trust_changes (OpRemove "pixel") (demo_cstate [FailWith EIO])
    (run_op (OpRemove "pixel") (demo_cstate [FailWith EIO])).1 _ (dev_Fingerprint demo_dev)).
  - by apply (bool_decide_eq_true_1 (NoDup (fps demo_store))).
  - apply surjective_pairing.
Defined.

(** A rename is all or nothing. When it reports an error, memory is as
    before (so it agrees with the disk); when it succeeds, the device has the
    trimmed name and no other device has it, provided names were distinct
    from it. *)
Theorem rename_all_or_nothing t n s r s' :
  RenameDevice t n s = (r, s') →
  match r with
  | Ok _ =>
      ∃ i d, find_index (matches t) (s_devices (cs_store s)) = Some i ∧
        s_devices (cs_store s) !! i = Some d ∧
        s_devices (cs_store s') !! i = Some (set_dev_Name (trim_space n) d) ∧
        ∀ j e, j ≠ i → s_devices (cs_store s') !! j = Some e →
               s_devices (cs_store s) !! j = Some e ∧ dev_Name e ≠ trim_space n
  | _ => cs_store s' = cs_store s
  end.
Proof.
  intros E. pose proof E as E0. apply RenameDevice_store in E as [Hok Herr].
  pose proof (run_op_runs (OpRename t n) s I) as [Hf _]. cbn [run_op] in Hf. rewrite E0 in Hf.
  destruct r as [[]|e| | |]; try done; [|by eapply Herr].
  rewrite (Hok eq_refl). unfold rename_store, RenameDevice in *. cbv zeta in *.
  destruct (trim_space n =?s ""); [done|]. rewrite bind_Ok with (a := cs_store s) (s' := s) in E0 by done.
  destruct (find_index _ _) as [i|] eqn:Ei; [|done].
  destruct (find_index_lookup _ _ _ Ei) as (d & Hd & _). exists i, d.
  destruct (existsb _ _) eqn:Ex; [done|]. split_and!; [done..| |].
  - cbn. unfold rename_at. by rewrite list_lookup_alter_eq, Hd.
  - intros j e Hj. cbn. unfold rename_at. rewrite list_lookup_alter_ne by done.
    intros He. split; [done|]. intros Hn. apply not_true_iff_false in Ex. apply Ex, existsb_exists.
    exists (j, e). split.
    + apply list_elem_of_In, elem_of_lookup_imap. eauto.
    + cbn. apply andb_true_iff. split; [by apply negb_true_iff, Nat.eqb_neq|by apply String.eqb_eq].
Qed.

Lemma rename_all_or_nothing_witness :
  cs_store (RenameDevice "pixel" "phone" (demo_cstate [FailWith EIO])).2 = demo_store.
Proof.
  assert ((RenameDevice "pixel" "phone" (demo_cstate [FailWith EIO])).1 = Err (Errno EIO)) as E
    by by vm_compute.
  pose proof (rename_all_or_nothing "pixel" "phone" (demo_cstate [FailWith EIO]) (Err (Errno EIO))
    (RenameDevice "pixel" "phone" (demo_cstate [FailWith EIO])).2) as H.
  apply H. by rewrite <-E, <-surjective_pairing.
Defined.

(** A rename may not take a name that another device has, but a pairing may:
    the new device has the name of the first and is never found by it. *)
Example names_collide :
  let s := AddDevice (mkDevice "pixel" "0f" "10.0.0.9:53127" 1 "" "") (demo_cstate []) in
  s.1 = Ok () ∧ Lookup (cs_store s.2) "pixel" = Some demo_dev ∧
  IsTrusted (cs_store s.2) "0f" = Some "pixel" ∧
  (RenameDevice "laptop" "pixel" (demo_cstate [])).1 = Err (Errorf "another device is already named pixel").
Proof. vm_compute. auto. Qed.
