(* ===== verification/Pairing.v ===== *)
(** * internal/pairing: the pairing code and the QR payload

    The six digits both screens show, and the URI of a QR code: compact
    binary (versions 2 and 3) written by [Encode], read back together with
    the legacy JSON form by [Decode]. *)

From S2P Require Import Prelude GoStrings Go GoFmt Sha256 Json JsonRec Base64 Config.
From Stdlib Require Import ZArith Lia String Ascii List Bool.
From stdpp Require Import base list strings gmap option numbers.

#[local] Open Scope string_scope.
#[local] Open Scope list_scope.
#[local] Open Scope Z_scope.

(** ** The code *)

Definition Code (fpA fpB : string) : string :=
  let '(fpA, fpB) := if str_lt fpB fpA then (fpB, fpA) else (fpA, fpB) in
  let nul := String "000" "" in
  let sum := sha256 (bs ("adrop-pair-code" +:+ nul +:+ fpA +:+ nul +:+ fpB)) in
  pad6 (be_word (take 4 sum) mod 1000000).

(** ** The payload *)

Definition URIScheme : string := "adrop://pair?d=".
Definition compactPayloadVersion : Z := 2.
Definition compactRNSVersion : Z := 3.
Definition rnsKeyLen : nat := 64.

Record Payload := mkPayload {
  p_Version : Z;
  p_Name : string;
  p_Fingerprint : string;
  p_CertPEM : string;
  p_Addr : string;
  p_RNS : string;
}.
Definition zero_Payload : Payload := mkPayload 0 "" "" "" "" "".

Definition byte_of (n : nat) : ascii := Zbyte (Z.of_nat n).

Definition Encode (p : Payload) : string + error :=
  let version := if p_Version p =? 0 then compactPayloadVersion else p_Version p in
  match (if p_RNS p =?s "" then inl ([], version)
         else match hex_decode (p_RNS p) with
              | Some k => if (length k =? rnsKeyLen)%nat then inl (k, compactRNSVersion)
                          else inr (Errorf "pairing: rns key must be 64 bytes of hex")
              | None => inr (Errorf "pairing: rns key must be 64 bytes of hex")
              end) with
  | inr e => inr e
  | inl (rnsKey, version) =>
      if negb (version =? compactPayloadVersion) && negb (version =? compactRNSVersion) then
        inr (Errorf ("pairing: unsupported encode version " +:+ itoa version))
      else
        match CertDERFromPEM (bs (p_CertPEM p)) with
        | inr e => inr (Wrapf "pairing: bad cert" e)
        | inl der =>
            match hex_decode (p_Fingerprint p) with
            | None => inr (Errorf "pairing: fingerprint must be 32 bytes of lowercase hex")
            | Some fp =>
                let name := bs (p_Name p) in
                let addr := bs (p_Addr p) in
                if negb (length fp =? 32)%nat then
                  inr (Errorf "pairing: fingerprint must be 32 bytes of lowercase hex")
                else if (length name =? 0)%nat || (255 <? length name)%nat then
                  inr (Errorf "pairing: name length must be 1..255 bytes")
                else if (length addr =? 0)%nat || (255 <? length addr)%nat then
                  inr (Errorf "pairing: addr length must be 1..255 bytes")
                else if (65535 <? Z.of_nat (length der)) then inr (Errorf "pairing: cert too large")
                else
                  inl (URIScheme +:+ RawURL_encode
                    (Zbyte version :: byte_of (length name) :: name ++
                     byte_of (length addr) :: addr ++ fp ++
                     be_bytes 2 (Z.of_nat (length der)) ++ der ++ rnsKey))
            end
        end
  end.

Definition short (s : string) : string :=
  if (String.length s <=? 16)%nat then s else str (take 16 (bs s)).

(** The [readString] closure: a length byte, that many bytes, the rest. *)
Definition readString (label : string) (raw : bytes) : (string * bytes) + error :=
  match raw with
  | [] => inr (Errorf ("pairing: compact payload missing " +:+ label +:+ " length"))
  | a :: raw =>
      let n := Z.to_nat (byteZ a) in
      if (n =? 0)%nat || (length raw <? n)%nat then
        inr (Errorf ("pairing: compact payload bad " +:+ label))
      else inl (str (take n raw), drop n raw)
  end.

Definition mismatch (got claimed : string) : error :=
  Errorf ("pairing: fingerprint mismatch (cert=" +:+ short got +:+ " claimed=" +:+ short claimed +:+ ")").

Definition decodeCompact (raw : bytes) : Payload + error :=
  match raw with
  | [] => inr (Errorf "pairing: unsupported compact payload version")
  | v :: _ =>
      let version := byteZ v in
      if negb (version =? compactPayloadVersion) && negb (version =? compactRNSVersion) then
        inr (Errorf "pairing: unsupported compact payload version")
      else if (version =? compactRNSVersion) && (length raw <? 1 + rnsKeyLen)%nat then
        inr (Errorf "pairing: compact payload missing rns key")
      else
        let n := if version =? compactRNSVersion then (length raw - rnsKeyLen)%nat else length raw in
        let rnsKey := drop n raw in
        match readString "name" (drop 1 (take n raw)) with
        | inr e => inr e
        | inl (name, raw) =>
            match readString "addr" raw with
            | inr e => inr e
            | inl (addr, raw) =>
                if (length raw <? 32)%nat then inr (Errorf "pairing: compact payload missing fingerprint")
                else
                  let fp := hex_encode (take 32 raw) in
                  let raw := drop 32 raw in
                  if (length raw <? 2)%nat then inr (Errorf "pairing: compact payload missing cert length")
                  else
                    let certLen := be_word (take 2 raw) in
                    let der := drop 2 raw in
                    if (certLen =? 0) || negb (certLen =? Z.of_nat (length der)) then
                      inr (Errorf "pairing: compact payload bad cert length")
                    else
                      let got := Fingerprint der in
                      if negb (got =?s fp) then inr (mismatch got fp)
                      else inl (mkPayload version name fp (str (pem_encode cert_type der)) addr
                                  (hex_encode rnsKey))
            end
        end
  end.

(** The legacy JSON payload. *)
Definition Payload_fields : list (string * field Payload) :=
  [("v", int_field (λ x p, mkPayload x (p_Name p) (p_Fingerprint p) (p_CertPEM p) (p_Addr p) (p_RNS p)));
   ("n", str_field (λ x p, mkPayload (p_Version p) x (p_Fingerprint p) (p_CertPEM p) (p_Addr p) (p_RNS p)));
   ("fp", str_field (λ x p, mkPayload (p_Version p) (p_Name p) x (p_CertPEM p) (p_Addr p) (p_RNS p)));
   ("cert", str_field (λ x p, mkPayload (p_Version p) (p_Name p) (p_Fingerprint p) x (p_Addr p) (p_RNS p)));
   ("addr", str_field (λ x p, mkPayload (p_Version p) (p_Name p) (p_Fingerprint p) (p_CertPEM p) x (p_RNS p)));
   ("rns", str_field (λ x p, mkPayload (p_Version p) (p_Name p) (p_Fingerprint p) (p_CertPEM p) (p_Addr p) x))].
Definition Payload_of_json (v : json) : option Payload := decode_object Payload_fields zero_Payload v.

Definition Decode (uri : string) : Payload + error :=
  match cut_prefix uri URIScheme with
  | None => inr (Errorf "pairing: not an adrop pairing URI")
  | Some s =>
      match RawURL_decode s with
      | None => inr (Wrapf "pairing: decode payload" (Errorf "illegal base64 data"))
      | Some raw =>
          if match raw with a :: _ => negb (Ascii.eqb a "{") | [] => false end then decodeCompact raw
          else
            match (v ← parse raw; Payload_of_json v) with
            | None => inr (Wrapf "pairing: parse payload" (Errorf "json"))
            | Some p =>
                match CertDERFromPEM (bs (p_CertPEM p)) with
                | inr e => inr (Wrapf "pairing: bad cert" e)
                | inl der =>
                    let got := Fingerprint der in
                    if negb (got =?s p_Fingerprint p) then inr (mismatch got (p_Fingerprint p))
                    else inl p
                end
            end
      end
  end.

(** ** The code is symmetric and six digits long *)

Lemma str_lt_antisym a b : str_lt a b = true → str_lt b a = false.
Proof. unfold str_lt, String.ltb. rewrite String.compare_antisym. by destruct (String.compare b a). Qed.

Lemma str_lt_total a b : str_lt a b = false → str_lt b a = false → a = b.
Proof.
  unfold str_lt, String.ltb. rewrite (String.compare_antisym b a).
  destruct (String.compare a b) eqn:E; intros H1 H2; cbn in *; try done.
  by apply String.compare_eq_iff.
Qed.

Lemma dec_digits_length fuel n acc :
  0 ≤ n < 10 ^ 6 → (length (dec_digits fuel n acc) ≤ 6 + length acc)%nat.
Proof.
  assert (∀ k fuel n acc, 0 ≤ n < 10 ^ Z.of_nat k → (0 < k)%nat →
    (length (dec_digits fuel n acc) ≤ k + length acc)%nat) as H.
  { clear. induction k as [|k IH]; intros fuel n acc Hn Hk; [lia|].
    destruct fuel as [|fuel]; [cbn; lia|]. cbn [dec_digits].
    cbv zeta. destruct (Z.ltb_spec n 10) as [|Hne]; [cbn; lia|].
    destruct k as [|k]; [exfalso; change (10 ^ Z.of_nat 1) with 10 in Hn; Z.to_euclidean_division_equations; lia|].
    rewrite Nat2Z.inj_succ, Z.pow_succ_r in Hn by lia.
    etransitivity; [apply IH; [Z.to_euclidean_division_equations; lia|lia]|]. cbn. lia. }
  intros Hn. apply (H 6%nat); [exact Hn|lia].
Qed.

Lemma pad6_length n : 0 ≤ n < 10 ^ 6 → String.length (pad6 n) = 6%nat.
Proof.
  intros Hn. unfold pad6. rewrite <-length_bs, bs_str, length_app, repeat_length.
  pose proof (dec_digits_length (S (Z.to_nat (Z.log2 n))) n [] Hn) as H.
  fold (dec_bytes n) in H. cbn [length] in H. lia.
Qed.

(** ** The round trip of the compact payload *)

Lemma readString_app label s rest :
  (1 ≤ length s ≤ 255)%nat → readString label (byte_of (length s) :: s ++ rest) = inl (str s, rest).
Proof.
  intros Hl. unfold readString, byte_of. rewrite byteZ_Zbyte, Z.mod_small by lia.
  rewrite Nat2Z.id, length_app. rewrite (proj2 (Nat.eqb_neq _ _)) by lia.
  rewrite (proj2 (Nat.ltb_ge _ _)) by lia. cbn [orb].
  by rewrite take_app_exact, drop_app_exact.
Qed.

Lemma CertDERFromPEM_encode der : CertDERFromPEM (pem_encode cert_type der) = inl der.
Proof.
  unfold CertDERFromPEM. cbn [cert_from_pem]. rewrite pem_roundtrip. by rewrite String.eqb_refl.
Qed.

Lemma be_word_two n : 0 ≤ n < 65536 → be_word (be_bytes 2 n) = n.
Proof. intros. apply be_word_bytes. cbn. lia. Qed.

(** The part of the compact payload after the version byte. *)
Lemma decodeCompact_ok version name addr der rnsKey :
  (version = 2 ∧ rnsKey = [] ∨ version = 3 ∧ length rnsKey = rnsKeyLen) →
  (1 ≤ length name ≤ 255)%nat → (1 ≤ length addr ≤ 255)%nat → (1 ≤ length der)%nat →
  Z.of_nat (length der) ≤ 65535 →
  decodeCompact (Zbyte version :: byte_of (length name) :: name ++
    byte_of (length addr) :: addr ++ sha256 der ++ be_bytes 2 (Z.of_nat (length der)) ++ der ++ rnsKey) =
  inl (mkPayload version (str name) (Fingerprint der) (str (pem_encode cert_type der)) (str addr)
        (hex_encode rnsKey)).
Proof.
  intros Hv Hn Ha Hd Hd'.
  set (core := byte_of (length name) :: name ++ byte_of (length addr) :: addr ++ sha256 der ++
    be_bytes 2 (Z.of_nat (length der)) ++ der).
  replace (Zbyte version :: byte_of (length name) :: name ++ _)
    with ((Zbyte version :: core) ++ rnsKey) by (subst core; by simplify_list_eq).
  cbn [decodeCompact app]. rewrite byteZ_Zbyte.
  replace (version mod 256) with version by (symmetry; apply Z.mod_small; destruct Hv as [[-> _]|[-> _]]; lia).
  assert ((if version =? compactRNSVersion
    then (length ((Zbyte version :: core) ++ rnsKey) - rnsKeyLen)%nat
    else length ((Zbyte version :: core) ++ rnsKey)) = length (Zbyte version :: core)) as Hlen.
  { rewrite length_app. destruct Hv as [[-> ->]|[-> ->]]; cbn [Z.eqb compactRNSVersion Pos.eqb length]; lia. }
  assert (negb (version =? compactPayloadVersion) && negb (version =? compactRNSVersion) = false) as ->
    by (by destruct Hv as [[-> _]|[-> _]]).
  assert ((version =? compactRNSVersion) && (length ((Zbyte version :: core) ++ rnsKey) <? 1 + rnsKeyLen)%nat
    = false) as Hguard.
  { destruct Hv as [[-> ->]|[-> Hk]]; [done|]. cbn [Z.eqb compactRNSVersion Pos.eqb andb].
    apply Nat.ltb_ge. rewrite length_app. cbn [length]. lia. }
  cbn [app] in Hguard, Hlen. rewrite Hguard, Hlen. cbv zeta.
  change (Zbyte version :: core ++ rnsKey) with ((Zbyte version :: core) ++ rnsKey).
  rewrite take_app_exact, drop_app_exact by done. cbn [drop].
  subst core. rewrite drop_0, readString_app by done. rewrite readString_app by done.
  rewrite !length_app, sha256_length. rewrite (proj2 (Nat.ltb_ge _ _)) by lia.
  rewrite take_app_exact, drop_app_exact by (by rewrite sha256_length).
  rewrite length_app, be_bytes_length. rewrite (proj2 (Nat.ltb_ge _ _)) by lia.
  rewrite take_app_exact, drop_app_exact by (by rewrite be_bytes_length).
  rewrite be_word_two by lia.
  rewrite (proj2 (Z.eqb_neq _ _)) by lia. rewrite Z.eqb_refl. cbn [orb negb].
  by rewrite String.eqb_refl.
Qed.

Lemma hex_decode_fp der : hex_decode (Fingerprint der) = Some (sha256 der).
Proof. apply hex_decode_encode. Qed.

(** The payload with the version a compact encoding gives it. *)
Definition with_version (v : Z) (p : Payload) : Payload :=
  mkPayload v (p_Name p) (p_Fingerprint p) (p_CertPEM p) (p_Addr p) (p_RNS p).

Definition payload_of (v : Z) (name addr : string) (der : bytes) (rns : string) : Payload :=
  mkPayload v name (Fingerprint der) (str (pem_encode cert_type der)) addr rns.

Lemma Decode_raw v raw :
  v = 2 ∨ v = 3 → Decode (URIScheme +:+ RawURL_encode (Zbyte v :: raw)) = decodeCompact (Zbyte v :: raw).
Proof.
  intros Hv. unfold Decode. rewrite cut_prefix_app, RawURL_roundtrip. by destruct Hv as [-> | ->].
Qed.

(** The code that [Encode] makes of a device's own certificate decodes. *)
Lemma Encode_decodes p der uri :
  p_Version p = 2 → p_CertPEM p = str (pem_encode cert_type der) → p_Fingerprint p = Fingerprint der → der ≠ [] →
  Encode p = inl uri → ∃ v rns, Decode uri = inl (payload_of v (p_Name p) (p_Addr p) der rns).
Proof.
  intros H2 Hc Hfp Hd E. unfold Encode in E. rewrite H2, Hc, Hfp, bs_str, CertDERFromPEM_encode, hex_decode_fp in E. change (2 =? 0) with false in E. cbv zeta beta iota in E.
  destruct (if p_RNS p =?s "" then _ else _) as [[k v]|] eqn:Ek; [|done].
  assert (v = 2 ∧ k = [] ∨ v = 3 ∧ length k = rnsKeyLen) as Hv.
  { destruct (p_RNS p =?s ""); [apply (inj inl) in Ek as [= <- <-]; by left|].
    destruct (hex_decode (p_RNS p)) as [k'|]; [|done]. destruct (Nat.eqb_spec (length k') rnsKeyLen); [|done].
    apply (inj inl) in Ek as [= <- <-]. auto. }
  destruct (negb (v =? compactPayloadVersion) && negb (v =? compactRNSVersion)) eqn:Ev; [done|].
  unfold compactPayloadVersion, compactRNSVersion in Ev. rewrite sha256_length in E. cbn [Nat.eqb negb] in E.
  destruct (_ || _) eqn:En in E; [done|]. destruct (_ || _) eqn:Ea in E; [done|].
  destruct (Z.ltb_spec 65535 (Z.of_nat (length der))); [done|]. apply (inj inl) in E as <-.
  apply orb_false_iff in En as [En1%Nat.eqb_neq En2%Nat.ltb_ge]. apply orb_false_iff in Ea as [Ea1%Nat.eqb_neq Ea2%Nat.ltb_ge].
  assert (length der ≠ 0)%nat by (by intros ?%nil_length_inv).
  exists v, (hex_encode k). rewrite Decode_raw, decodeCompact_ok by (done || lia || naive_solver). unfold payload_of. by rewrite !str_bs.
Qed.

(** ** Properties *)

Definition small (s : string) : Prop := (1 ≤ String.length s ≤ 255)%nat.

(** C13: a scanned pairing code gives back what was encoded. For a device with a
    certificate of at most 65535 bytes and a name and an address of 1 to 255
    bytes, with or without a 64-byte Reticulum key, [Encode] succeeds and
    [Decode] of its URI is the payload with version 2, or 3 with a key. *)
Theorem Encode_Decode name addr der key :
  small name → small addr → (1 ≤ length der)%nat → Z.of_nat (length der) ≤ 65535 →
  (key = [] ∨ length key = rnsKeyLen) →
  ∃ uri, Encode (payload_of 0 name addr der (hex_encode key)) = inl uri ∧
    Decode uri = inl (payload_of (if bool_decide (key = []) then 2 else 3) name addr der (hex_encode key)).
Proof.
  unfold small. rewrite <-!length_bs. intros Hn Ha Hd Hd' Hk.
  unfold Encode, payload_of. cbn [p_Version p_Name p_Fingerprint p_CertPEM p_Addr p_RNS].
  set (v := if bool_decide (key = []) then 2 else 3).
  assert ((if hex_encode key =?s "" then inl ([], if 0 =? 0 then compactPayloadVersion else 0)
    else match hex_decode (hex_encode key) with
         | Some k => if (length k =? rnsKeyLen)%nat then inl (k, compactRNSVersion)
                     else inr (Errorf "pairing: rns key must be 64 bytes of hex")
         | None => inr (Errorf "pairing: rns key must be 64 bytes of hex")
         end) = inl (A := bytes * Z) (key, v)) as ->.
  { subst v. destruct Hk as [->|Hk]; [done|].
    rewrite bool_decide_eq_false_2 by (intros ->; done).
    destruct (String.eqb_spec (hex_encode key) "") as [E|_].
    { apply (f_equal String.length) in E. rewrite hex_encode_length, Hk in E. done. }
    by rewrite hex_decode_encode, Hk. }
  assert (v = 2 ∨ v = 3) as Hv by (subst v; case_bool_decide; auto).
  assert (negb (v =? compactPayloadVersion) && negb (v =? compactRNSVersion) = false) as ->
    by (by destruct Hv as [-> | ->]).
  rewrite bs_str, CertDERFromPEM_encode, hex_decode_fp, sha256_length. cbn [Nat.eqb negb].
  repeat (rewrite (proj2 (Nat.eqb_neq _ _)), (proj2 (Nat.ltb_ge _ _)) by lia; cbn [orb]).
  rewrite (proj2 (Z.ltb_ge _ _)) by lia. eexists. split; [reflexivity|].
  rewrite Decode_raw by done. rewrite decodeCompact_ok; try done; [by rewrite !str_bs|].
  subst v. destruct Hk as [->|Hk]; [by left|]. right. rewrite bool_decide_eq_false_2; [done|].
  by intros ->.
Qed.

Lemma Encode_Decode_witness :
  ∃ uri, Encode (payload_of 0 "pc" "192.168.1.5:53127" (bs "cert") (hex_encode (repeat "k"%char 64))) =
      inl uri ∧
    Decode uri = inl (payload_of 3 "pc" "192.168.1.5:53127" (bs "cert") (hex_encode (repeat "k"%char 64))).
Proof.
  apply (Encode_Decode "pc" "192.168.1.5:53127" (bs "cert") (repeat "k"%char 64));
    [split; apply leb_complete; reflexivity..|apply leb_complete; reflexivity|by vm_compute|by right].
Defined.

(** C14: a pairing code cannot pin a fingerprint that is not its certificate's:
    whatever URI decodes, in the compact or the legacy form, its certificate
    parses and hashes to the fingerprint it claims. *)
Theorem Decode_pins_certificate uri p :
  Decode uri = inl p →
  ∃ der, CertDERFromPEM (bs (p_CertPEM p)) = inl der ∧ p_Fingerprint p = hex_encode (sha256 der).
Proof.
  unfold Decode. destruct (cut_prefix uri URIScheme) as [s|]; [|done].
  destruct (RawURL_decode s) as [raw|]; [|done]. case_match.
  - unfold decodeCompact. destruct raw as [|v raw']; [done|]. intros E.
    cbv zeta in E. destruct (_ && _) in E; [discriminate E|].
    destruct (_ && _) in E; [discriminate E|].
    destruct (readString "name" _) as [[name r1]|]; [|discriminate E].
    destruct (readString "addr" _) as [[addr r2]|]; [|discriminate E].
    destruct (_ <? 32)%nat in E; [discriminate E|]. destruct (_ <? 2)%nat in E; [discriminate E|].
    destruct (_ || _) in E; [discriminate E|].
    destruct (String.eqb_spec (Fingerprint (drop 2 (drop 32 r2))) (hex_encode (take 32 r2)))
      as [Ef|]; cbn [negb] in E; [|discriminate E].
    apply (inj inl) in E as <-. cbn [p_CertPEM p_Fingerprint]. exists (drop 2 (drop 32 r2)).
    split; [by rewrite bs_str, CertDERFromPEM_encode|by rewrite <-Ef].
  - destruct (_ ≫= _) as [q|]; [|done]. destruct (CertDERFromPEM _) as [der|] eqn:Ec; [|done].
    destruct (String.eqb_spec (Fingerprint der) (p_Fingerprint q)) as [Ef|]; [|done].
    intros [= <-]. eauto.
Qed.

Lemma Decode_pins_certificate_witness :
  let p := payload_of 2 "pc" "192.168.1.5:53127" (bs "cert") "" in
  ∃ der, CertDERFromPEM (bs (p_CertPEM p)) = inl der ∧ p_Fingerprint p = hex_encode (sha256 der).
Proof.
  apply (Decode_pins_certificate
    (match Encode (payload_of 0 "pc" "192.168.1.5:53127" (bs "cert") "") with inl u => u | inr _ => "" end)).
  by vm_compute.
Defined.

(** The code on the two screens of a tap pairing is the same, whichever
    side computes it, and always has six digits. *)
Theorem Code_symmetric fpA fpB :
  Code fpA fpB = Code fpB fpA ∧ String.length (Code fpA fpB) = 6%nat.
Proof.
  split.
  - unfold Code. destruct (str_lt fpB fpA) eqn:E1.
    + by rewrite (str_lt_antisym _ _ E1).
    + destruct (str_lt fpA fpB) eqn:E2; [done|]. by rewrite (str_lt_total _ _ E1 E2).
  - unfold Code. destruct (if str_lt fpB fpA then _ else _) as [a b]. cbv zeta.
    apply pad6_length. apply Z.mod_pos_bound. lia.
Qed.
