(* ===== verification/Send.v ===== *)
(** * internal/daemon/send.go: building a manifest and sending a session

    The sender's half of a transfer on an open connection. The files are read
    from a disk that does not change while they are sent; [ctx] says how many
    more times [ctx.Err()] is nil. *)

From S2P Require Import Prelude GoStrings GoPath Go GoFmt Sha256 Fs Proto Paths.
From Stdlib Require Import ZArith Lia String Ascii List Bool.
From stdpp Require Import base list strings gmap option numbers sorting.

#[local] Open Scope string_scope.
#[local] Open Scope list_scope.
#[local] Open Scope Z_scope.

(** ** The manifest *)

(** [filepath.Abs], for the working directory [cwd]. *)
Definition path_abs (cwd p : string) : string :=
  if is_rooted p then path_clean p else path_join cwd p.

(** [filepath.Rel] of two clean absolute paths. *)
Definition comps_of (p : string) : list string :=
  List.filter (λ c, negb (c =?s "")) (split_on "/" p).
Fixpoint rel_comps (base targ : list string) : list string :=
  match base, targ with
  | b :: base', t :: targ' =>
      if b =?s t then rel_comps base' targ' else map (λ _, "..") base ++ targ
  | _, _ => map (λ _, "..") base ++ targ
  end.
Definition path_rel (base targ : string) : string :=
  match rel_comps (comps_of base) (comps_of targ) with
  | [] => "."
  | l => join_with "/" l
  end.

(** [os.Lstat]: nothing in the model is followed. *)
Definition lstat (p : string) : M fs node := stat p.

Definition hashFile (path : string) : M fs string :=
  b <- read_file path ;; ret (hex_encode (sha256 b)).

(** The entries of a directory, sorted by name, as WalkDir visits them. *)
#[export] Instance str_le_dec : ∀ a b, Decision (negb (str_lt b a) = true).
Proof. intros a b. apply _. Defined.
Definition read_dir (s : fs) (p : string) : list string :=
  merge_sort (λ a b, negb (str_lt b a) = true)
    (List.filter (λ q, (path_dir q =?s p) && negb (q =?s p)) (elements (dom (fs_nodes s)))).

(** The walk function of buildManifest for one entry. *)
Definition visit (parentDir entry : string) : M fs (FileMeta * string) :=
  let rel := path_rel parentDir entry in
  if negb (validRelPath rel) then throw (Errorf ("unsafe relative path " +:+ quote rel))
  else
    n <- lstat entry ;;
    match n with
    | NDir => ret (mkFileMeta true (path_base entry) 0 "" rel, entry)
    | NOther => throw (Errorf ("not a regular file: " +:+ entry))
    | NFile b =>
        sum <- hashFile entry ;;
        ret (mkFileMeta false (path_base entry) (int64 (Z.of_nat (length b))) sum rel, entry)
    end.

(** Run [f] on each element, in order. *)
Fixpoint each {A B} (f : A → M fs (list B)) (l : list A) : M fs (list B) :=
  match l with
  | [] => ret []
  | x :: l' => a <- f x ;; b <- each f l' ;; ret (a ++ b)
  end.

(** [filepath.WalkDir]: an entry before its children. Children have longer
    paths, so the longest path bounds the depth. *)
Fixpoint walk (fuel : nat) (parentDir entry : string) : M fs (list (FileMeta * string)) :=
  match fuel with
  | O => out_of_fuel
  | S fuel =>
      m <- visit parentDir entry ;;
      if fm_IsDir m.1 then
        s <- get_state ;;
        ms <- each (walk fuel parentDir) (read_dir s entry) ;;
        ret (m :: ms)
      else ret [m]
  end.
Definition walk_fuel (s : fs) : nat :=
  S (max_list (map String.length (elements (dom (fs_nodes s))))).

Definition manifest_entry (cwd p : string) : M fs (list (FileMeta * string)) :=
  let p := path_abs cwd p in
  n <- lstat p ;;
  match n with
  | NDir => s <- get_state ;; walk (walk_fuel s) (path_dir p) p
  | NOther => throw (Errorf ("not a regular file: " +:+ p))
  | NFile b =>
      sum <- hashFile p ;;
      ret [(mkFileMeta false (path_base p) (int64 (Z.of_nat (length b))) sum "", p)]
  end.

Definition buildManifest (cwd : string) (paths : list string) : M fs (list FileMeta * list string) :=
  if bool_decide (paths = []) then throw (Errorf "no files to send")
  else
    l <- each (manifest_entry cwd) paths ;;
    if bool_decide (l = []) then throw (Errorf "no files to send")
    else ret (map fst l, map snd l).

(** ** The session *)

Record sworld := mkSworld {
  sw_conn : conn;
  sw_fs : fs;
  sw_progress : list string;   (* lines given to the progress callback *)
  sw_ctx : option nat;         (* checks of ctx.Err() still nil; None: all *)
}.

Definition s_conn {A} (m : M conn A) : M sworld A :=
  zoom sw_conn (λ c w, mkSworld c (sw_fs w) (sw_progress w) (sw_ctx w)) m.
Definition s_fs {A} (m : M fs A) : M sworld A :=
  zoom sw_fs (λ f w, mkSworld (sw_conn w) f (sw_progress w) (sw_ctx w)) m.
Definition report (line : string) : M sworld unit :=
  modify (λ w, mkSworld (sw_conn w) (sw_fs w) (sw_progress w ++ [line]) (sw_ctx w)).

(** [if err := ctx.Err(); err != nil { return err }] *)
Definition ctx_check : M sworld unit := λ w,
  match sw_ctx w with
  | None => (Ok (), w)
  | Some O => (Err Canceled, w)
  | Some (S n) => (Ok (), mkSworld (sw_conn w) (sw_fs w) (sw_progress w) (Some n))
  end.

Definition chunk_header (index n : Z) : Header :=
  set_hdr_Length n (set_hdr_FileIndex index (set_hdr_Type TypeChunk zero_Header)).
Definition index_header (typ : string) (index : Z) : Header :=
  set_hdr_FileIndex index (set_hdr_Type typ zero_Header).
Definition progress_header (index bytesDone totalBytes : Z) : Header :=
  set_hdr_TotalBytes totalBytes (set_hdr_BytesDone bytesDone (index_header TypeProgress index)).
Definition query_header (index : Z) (sha : string) : Header :=
  set_hdr_SHA256 sha (index_header TypeResumeQuery index).
Definition start_header (manifest : list FileMeta) : Header :=
  set_hdr_Resume true (set_hdr_Files manifest (set_hdr_Kind KindFiles
    (set_hdr_Type TypeSessionStart zero_Header))).
Definition end_header : Header := set_hdr_Type TypeSessionEnd zero_Header.

Section session.
(** Whether the caller passed a progress callback. *)
Context (progress : bool).

Definition say (line : string) : M sworld unit := if progress then report line else ret ().

(** The fileProgress closure: a percentage for the user, a frame for the peer. *)
Definition fileProgress (name : string) (index bytesDone totalBytes : Z) : M sworld unit :=
  (let pct := if 0 <? totalBytes then Z.quot (int64 (bytesDone * 100)) totalBytes else 0 in
   say (name +:+ ": " +:+ itoa pct +:+ "%")) ;;;
  ignore (s_conn (WriteControl (progress_header index bytesDone totalBytes))).

(** The read loop of sendOneFile on the bytes left in the file. *)
Fixpoint send_chunks (fuel : nat) (name : string) (index bytesSent size : Z) (rest : bytes)
  : M sworld unit :=
  match fuel with
  | O => out_of_fuel
  | S fuel =>
      ctx_check ;;;
      match rest with
      | [] => ret ()
      | _ =>
          let buf := take (Z.to_nat ChunkSize) rest in
          let n := Z.of_nat (length buf) in
          s_conn (WriteMessage (chunk_header index n) (Some buf)) ;;;
          fileProgress name index (int64 (bytesSent + n)) size ;;;
          send_chunks fuel name index (int64 (bytesSent + n)) size (drop (Z.to_nat ChunkSize) rest)
      end
  end.

Definition sendOneFile (index : Z) (path : string) (m : FileMeta) (resumeOffset : Z) : M sworld unit :=
  if fm_IsDir m then
    s_conn (WriteControl (index_header TypeFileHeader index)) ;;;
    s_conn (WriteControl (index_header TypeFileEnd index))
  else
    content <- s_fs (read_file path) ;;
    let resumeOffset := if (0 <? resumeOffset) && (resumeOffset <? fm_Size m) then resumeOffset else 0 in
    s_conn (WriteControl (index_header TypeFileHeader index)) ;;;
    let rest := drop (Z.to_nat resumeOffset) content in
    send_chunks (S (length rest)) (fm_Name m) index resumeOffset (fm_Size m) rest ;;;
    s_conn (WriteControl (index_header TypeFileEnd index)).

(** Wrap the error of a call: [fmt.Errorf(what+" "+name+": %w", err)]. *)
Definition wrapping {A} (pre : string) (m : M sworld A) : M sworld A :=
  r <- try m ;;
  match r with inl a => ret a | inr e => throw (Wrapf pre e) end.

(** One entry: resume query and offer, the body, the acknowledgement. *)
Definition send_entry (count : Z) (i : Z) (m : FileMeta) (path : string) : M sworld unit :=
  ctx_check ;;;
  say ("sending " +:+ fm_Name m +:+ " (" +:+ itoa (i + 1) +:+ "/" +:+ itoa count +:+ ")…") ;;;
  wrapping ("send resume query for " +:+ fm_Name m)
    (s_conn (WriteControl (query_header i (fm_SHA256 m)))) ;;;
  offer <- wrapping ("read resume offer for " +:+ fm_Name m) (s_conn ReadHeader) ;;
  if negb (hdr_Type offer =?s TypeResumeOffer) then
    throw (Errorf ("expected resume_offer for " +:+ fm_Name m +:+ ", got " +:+ hdr_Type offer))
  else
    wrapping ("send " +:+ fm_Name m) (sendOneFile i path m (hdr_BytesDone offer)) ;;;
    ack <- wrapping ("read ack for " +:+ fm_Name m) (s_conn ReadHeader) ;;
    if negb (hdr_OK ack) then
      throw (Errorf ("peer rejected " +:+ fm_Name m +:+ ": " +:+ hdr_Error ack))
    else ret ().

Fixpoint send_entries (count i : Z) (l : list (FileMeta * string)) : M sworld unit :=
  match l with
  | [] => ret ()
  | (m, path) :: l' => send_entry count i m path ;;; send_entries count (i + 1) l'
  end.

(** SendFiles from session_start to the final acknowledgement. *)
Definition send_session (devName : string) (manifest : list FileMeta) (fsPaths : list string)
  : M sworld unit :=
  let count := Z.of_nat (length manifest) in
  s_conn (WriteControl (start_header manifest)) ;;;
  send_entries count 0 (combine manifest fsPaths) ;;;
  s_conn (WriteControl end_header) ;;;
  ack <- s_conn ReadHeader ;;
  if negb (hdr_Type ack =?s TypeAck) || negb (hdr_OK ack) then
    throw (Errorf ("peer rejected session: " +:+ hdr_Error ack))
  else say ("sent " +:+ itoa count +:+ " file(s) to " +:+ devName).

(** SendClipboard after the dial. *)
Definition clip_session (data : bytes) (mime : string) : M sworld unit :=
  s_conn (WriteControl (set_hdr_Kind KindClipboard (set_hdr_Type TypeSessionStart zero_Header))) ;;;
  s_conn (WriteMessage (set_hdr_Length (Z.of_nat (length data)) (set_hdr_MIME mime
            (set_hdr_Type TypeClipboardData zero_Header))) (Some data)) ;;;
  s_conn (WriteControl end_header) ;;;
  ack <- s_conn ReadHeader ;;
  if negb (hdr_OK ack) then throw (Errorf ("peer rejected clipboard: " +:+ hdr_Error ack))
  else ret ().
End session.

(** The argument of a folder transfer: does any entry need the capability? *)
Definition needsFolders (manifest : list FileMeta) : bool :=
  existsb (λ m, negb (fm_RelPath m =?s "") || fm_IsDir m) manifest.

Definition default_mime (mime : string) : string := if mime =?s "" then "text/plain" else mime.
Definition clip_too_big (data : bytes) : option error :=
  if MaxClipboardSize <? Z.of_nat (length data) then
    Some (Errorf ("clipboard is " +:+ itoa (Z.of_nat (length data)) +:+ " bytes, over the " +:+
                  itoa MaxClipboardSize +:+ "-byte limit"))
  else None.

(** ** The reader over a slice *)

Record sliceReader := mkSliceReader { sr_b : bytes; sr_i : nat }.
Definition bytesReader (b : bytes) : sliceReader := mkSliceReader b 0.
(** Read into a buffer of [n] bytes. *)
Definition sliceReader_Read (n : nat) (r : sliceReader) : (bytes + error) * sliceReader :=
  if (length (sr_b r) <=? sr_i r)%nat then (inr EOF, r)
  else
    let p := take n (drop (sr_i r) (sr_b r)) in
    (inl p, mkSliceReader (sr_b r) (sr_i r + length p)).
(** Reading with a buffer of [n] bytes up to the end of the file. *)
Fixpoint read_to_end (fuel n : nat) (r : sliceReader) : option bytes :=
  match fuel with
  | O => None
  | S fuel =>
      match sliceReader_Read n r with
      | (inl p, r) => rest ← read_to_end fuel n r; Some (p ++ rest)
      | (inr _, _) => Some []
      end
  end.

(** Whatever the size of the buffer, the reader gives the slice. *)
Lemma bytesReader_gives b n : (0 < n)%nat → read_to_end (S (length b)) n (bytesReader b) = Some b.
Proof.
  intros Hn. unfold bytesReader. pose proof (drop_0 b) as Hd. rewrite <-Hd at 3.
  assert (length b - 0 < S (length b))%nat as Hf by lia. clear Hd. revert Hf. generalize (S (length b)), O as i.
  intros fuel. induction fuel as [|fuel IH]; intros i Hf; [lia|]. cbn [read_to_end]. unfold sliceReader_Read. cbn [sr_b sr_i].
  destruct (Nat.leb_spec (length b) i) as [Hi|Hi]; [by rewrite drop_ge|].
  cbv zeta. set (p := take n (drop i b)). assert (0 < length p)%nat as Hp by (unfold p; rewrite length_take, length_drop; lia).
  rewrite IH by lia. cbn. f_equal. rewrite <-drop_drop.
  replace (length p) with (n `min` length (drop i b))%nat by (unfold p; by rewrite length_take).
  destruct (Nat.le_ge_cases n (length (drop i b))).
  - rewrite Nat.min_l by done. unfold p. apply take_drop.
  - rewrite Nat.min_r by done. unfold p. by rewrite take_ge, drop_all, app_nil_r by done.
Qed.
