(* ===== verification/Transfer.v ===== *)
(** * A whole transfer: send.go against receive.go

    The sender of Send and the receiver of Receive over one connection. Each
    is a function of the bytes it reads, so a run of both is a pair of byte
    streams: what the sender wrote is what the receiver has to read, and what
    the sender read is a beginning of what the receiver wrote. *)

From S2P Require Import Prelude GoStrings GoPath Go GoFmt Sha256 Json JsonRec JsonSize Fs Proto Ipc Paths Receive Send.
From Stdlib Require Import ZArith Lia String Ascii List Bool.
From stdpp Require Import base list strings gmap option numbers.

#[local] Open Scope string_scope.
#[local] Open Scope list_scope.
#[local] Open Scope Z_scope.

(** ** Frames on a connection whose writes succeed *)

Lemma WriteControl_live h r c c' :
  hdr_Length h = 0 → c_writes c = None → WriteControl h c = (r, c') →
  (r = Ok () ∧ fits h ∧ c' = out_of (frame h) c) ∨ (r = Err ErrTooLarge ∧ c' = c).
Proof.
  intros Hl Hw E. destruct (Z.ltb_spec MaxHeaderSize (Z.of_nat (length (marshal_Header h)))) as [Hm|Hm].
  - right. unfold WriteControl, WriteMessage in E. cbv zeta in E.
    replace (set_hdr_Length 0 h) with h in E by (destruct h; cbn in *; by subst).
    rewrite (proj2 (Z.ltb_lt _ _) Hm) in E. by injection E as <- <-.
  - left. rewrite WriteControl_ok in E by done. by injection E as <- <-.
Qed.

Lemma WriteMessage_live h p u c c' :
  0 < hdr_Length h ≤ Z.of_nat (length p) → c_writes c = None →
  WriteMessage h (Some p) c = (Ok u, c') →
  fits h ∧ c' = out_of (frame h ++ take (Z.to_nat (hdr_Length h)) p) c.
Proof.
  intros Hl Hw E. destruct (Z.ltb_spec MaxHeaderSize (Z.of_nat (length (marshal_Header h)))) as [Hm|Hm].
  - unfold WriteMessage in E. cbv zeta in E. by rewrite (proj2 (Z.ltb_lt _ _) Hm) in E.
  - rewrite WriteMessage_ok in E by done. by injection E as <-.
Qed.

Lemma out_of_out b c : c_out (out_of b c) = c_out c ++ b.
Proof. done. Qed.
Lemma out_of_nil c : out_of [] c = c.
Proof. destruct c. unfold out_of. cbn. by rewrite app_nil_r. Qed.

(** Nobody reads a header out of nothing. *)
Lemma read_starved c h c' : c_in c `prefix_of` [] → ReadHeader c = (Ok h, c') → False.
Proof.
  intros Hp%prefix_nil_inv (Hl & _)%ReadHeader_Ok. rewrite Hp in Hl. cbn in Hl. lia.
Qed.

(** ** The receiver's replies are small *)

Definition offer_header (i n : Z) : Header :=
  set_hdr_BytesDone n (set_hdr_FileIndex i (set_hdr_Type TypeResumeOffer zero_Header)).

Lemma header_int_fits (h : Header) (l1 l2 l3 : list (string * json)) k1 k2 z1 z2 :
  Header_json h = JObj (l1 ++ opt_int k1 z1 ++ l2 ++ opt_int k2 z2 ++ l3) →
  inInt64 z1 → inInt64 z2 →
  (members_size l1 + members_size l2 + members_size l3 + length (json_quote k1) +
   length (json_quote k2) ≤ 1000)%nat → fits h.
Proof.
  intros E H1 H2 Hs. unfold fits, marshal_Header. rewrite E.
  match goal with |- context [JObj ?l] => pose proof (print_obj_size l) as Hp end.
  rewrite !members_size_app in Hp.
  pose proof (members_opt_int k1 z1). pose proof (members_opt_int k2 z2).
  pose proof (itoa_length z1 H1). pose proof (itoa_length z2 H2).
  change MaxHeaderSize with 1048576. lia.
Qed.

Lemma offer_fits i n : inInt64 i → inInt64 n → fits (offer_header i n).
Proof.
  intros Hi Hn.
  apply (header_int_fits _ [("type", JStr TypeResumeOffer)] [] [] "file_index" "bytes_done" i n);
    [|done|done|by vm_compute; lia].
  unfold Header_json, offer_header. cbn. by rewrite app_nil_r.
Qed.

Lemma ack_fits i : inInt64 i → fits (ack i true "").
Proof.
  intros Hi.
  apply (header_int_fits _ [("type", JStr TypeAck)] [("ok", JBool true)] [] "file_index" "x" i 0);
    [|done|done|by vm_compute; lia].
  unfold Header_json, ack. cbn. done.
Qed.

Lemma query_ok i sha : inInt64 i → Header_ok (query_header i sha).
Proof. intros. unfold Header_ok. cbn. by split_and!. Qed.
Lemma index_ok t i : inInt64 i → Header_ok (index_header t i).
Proof. intros. unfold Header_ok. cbn. by split_and!. Qed.
Lemma end_ok : Header_ok end_header.
Proof. unfold Header_ok. cbn. by split_and!. Qed.
Lemma offer_ok i n : inInt64 i → inInt64 n → Header_ok (offer_header i n).
Proof. intros. unfold Header_ok. cbn. by split_and!. Qed.
Lemma ack_ok i b t : inInt64 i → Header_ok (ack i b t).
Proof. intros. unfold Header_ok. cbn. by split_and!. Qed.

(** ** The sender *)

Section sender.
Context (progress : bool).

(** [w'] has written [b] since [w], and read nothing. *)
Definition emits (b : bytes) (w w' : sworld) : Prop := sw_conn w' = out_of b (sw_conn w).

Lemma emits_trans a b w1 w2 w3 : emits a w1 w2 → emits b w2 w3 → emits (a ++ b) w1 w3.
Proof. unfold emits. intros -> ->. apply out_of_app. Qed.

Lemma emits_nil w w' : sw_conn w' = sw_conn w → emits [] w w'.
Proof. unfold emits. by rewrite out_of_nil. Qed.

Definition writable (w : sworld) : Prop := c_writes (sw_conn w) = None.
Lemma emits_writable b w w' : emits b w w' → writable w → writable w'.
Proof. by unfold emits, writable; intros ->. Qed.

Lemma ctx_check_Ok w u w' : ctx_check w = (Ok u, w') → emits [] w w'.
Proof. intros E. apply emits_nil. unfold ctx_check in E. by repeat case_match; simplify_eq. Qed.
Lemma say_Ok line w u w' : say progress line w = (Ok u, w') → emits [] w w'.
Proof. intros E. apply emits_nil. unfold say in E. destruct progress; by injection E as _ <-. Qed.
Lemma say_runs line w : ∃ w', say progress line w = (Ok (), w') ∧ sw_conn w' = sw_conn w.
Proof. unfold say. destruct progress; by eexists. Qed.
Lemma wrapping_Ok {A} pre (m : M sworld A) w a w' :
  wrapping pre m w = (Ok a, w') → m w = (Ok a, w').
Proof.
  unfold wrapping. intros (r & w1 & E1 & E2)%bind_Ok_inv.
  destruct r as [x|e]; [|done]. injection E2 as -> <-.
  apply try_inv in E1 as (r0 & E1 & Hr). by destruct r0; simplify_eq.
Qed.

Lemma send_control_Ok h w u w' :
  hdr_Length h = 0 → writable w → s_conn (WriteControl h) w = (Ok u, w') →
  fits h ∧ emits (frame h) w w'.
Proof.
  intros Hl Hw (c & E & ->)%zoom_inv. unfold emits, writable in *. cbn.
  apply WriteControl_live in E as [(_ & ? & ->)|(? & _)]; done.
Qed.

(** What a file's body looks like on the wire. *)
Inductive Body : bytes → Prop :=
  | Body_nil : Body []
  | Body_chunk h buf b :
      hdr_Type h = TypeChunk → Header_ok h → fits h →
      hdr_Length h = Z.of_nat (length buf) → Body b → Body (frame h ++ buf ++ b)
  | Body_progress h b :
      hdr_Type h = TypeProgress → Header_ok h → fits h → Body b → Body (frame h ++ b).

Lemma fileProgress_Ok name i done total w u w' b :
  inInt64 i → inInt64 done → inInt64 total → writable w →
  fileProgress progress name i done total w = (Ok u, w') → Body b →
  ∃ p, emits p w w' ∧ Body (p ++ b).
Proof.
  intros Hi Hd Ht Hw (? & w1 & E1 & E2)%bind_Ok_inv Hb. cbv zeta in E1.
  apply say_Ok in E1. pose proof (emits_writable _ _ _ E1 Hw) as Hw1.
  apply ignore_inv in E2 as (r0 & E2). apply zoom_inv in E2 as (c & E2 & ->).
  destruct (WriteControl_live (progress_header i done total) _ _ _ eq_refl Hw1 E2) as [(_ & Hf & ->)|(_ & ->)].
  - exists (frame (progress_header i done total)). split; [by apply (emits_trans [] _ w w1)|].
    by apply Body_progress.
  - exists []. split; [|done]. unfold emits in *. cbn. by rewrite E1, out_of_nil.
Qed.

Lemma send_chunks_Ok fuel name i sent size rest w u w' :
  inInt64 i → inInt64 size → writable w →
  send_chunks progress fuel name i sent size rest w = (Ok u, w') →
  ∃ b, emits b w w' ∧ Body b.
Proof.
  intros Hi Hs. revert sent rest w. induction fuel as [|fuel IH]; intros sent rest w Hw E; [done|].
  cbn [send_chunks] in E. apply bind_Ok_inv in E as (? & w1 & E1%ctx_check_Ok & E2).
  pose proof (emits_writable _ _ _ E1 Hw) as Hw1.
  destruct rest as [|a rest].
  { injection E2 as _ <-. exists []. split; [done|constructor]. }
  cbv zeta in E2. set (buf := take (Z.to_nat ChunkSize) (a :: rest)) in *.
  assert (0 < length buf ≤ Z.to_nat ChunkSize)%nat as Hlen.
  { unfold buf. rewrite length_take. assert (0 < ChunkSize) as Hc by done.
    cbn [length]. revert Hc. generalize ChunkSize. intros cs Hc. lia. }
  apply bind_Ok_inv in E2 as (? & w2 & E2 & E3). apply zoom_inv in E2 as (c & E2 & ->).
  apply WriteMessage_live in E2 as [Hf ->]; [|cbn; lia|done].
  cbn [hdr_Length chunk_header set_hdr_Length] in Hf. rewrite take_ge in E3 by (cbn; lia).
  set (w2 := mkSworld _ _ _ _) in E3.
  assert (emits (frame (chunk_header i (Z.of_nat (length buf))) ++ buf) w1 w2) as E2 by done.
  pose proof (emits_writable _ _ _ E2 Hw1) as Hw2. clearbody w2.
  apply bind_Ok_inv in E3 as (v & w3 & E3 & E4).
  assert (∀ b, Body b → ∃ p, emits p w2 w3 ∧ Body (p ++ b)) as Hp.
  { intros b. apply (fileProgress_Ok name i (int64 (sent + Z.of_nat (length buf))) size w2 v w3);
      [done|apply int64_range|done..]. }
  destruct (Hp [] Body_nil) as (p0 & E5 & _).
  destruct (IH _ _ _ (emits_writable _ _ _ E5 Hw2) E4) as (b & E7 & Hb).
  destruct (Hp b Hb) as (p & E6 & Hpb).
  eexists. split; [exact (emits_trans _ _ _ _ _ E1 (emits_trans _ _ _ _ _ E2 (emits_trans _ _ _ _ _ E6 E7)))|].
  cbn [app]. rewrite <-app_assoc. apply Body_chunk; try done.
  unfold Header_ok. cbn. split_and!; try done.
  assert (Z.of_nat (length buf) ≤ ChunkSize) by lia. unfold inInt64, minInt64, maxInt64.
  change ChunkSize with 262144 in *. lia.
Qed.

(** The frames of one entry after the offer. *)
Lemma sendOneFile_Ok i path m off w u w' :
  inInt64 i → inInt64 (fm_Size m) → writable w →
  sendOneFile progress i path m off w = (Ok u, w') →
  fits (index_header TypeFileHeader i) ∧ fits (index_header TypeFileEnd i) ∧
  ∃ b, Body b ∧ (fm_IsDir m = true → b = []) ∧
    emits (frame (index_header TypeFileHeader i) ++ b ++ frame (index_header TypeFileEnd i)) w w'.
Proof.
  intros Hi Hs Hw E. unfold sendOneFile in E. destruct (fm_IsDir m).
  - apply bind_Ok_inv in E as (? & w1 & [F1 E1]%send_control_Ok & E2); [|done..].
    apply send_control_Ok in E2 as [F2 E2]; [|done|by eapply emits_writable].
    split_and!; [done..|]. exists []. split_and!; [constructor|done|by eapply emits_trans].
  - apply bind_Ok_inv in E as (content & w1 & (f & E1 & ->)%zoom_inv & E2). cbv zeta in E2.
    apply bind_Ok_inv in E2 as (? & w2 & [F2 E2]%send_control_Ok & E3); [|done..].
    pose proof (emits_writable _ _ _ E2 Hw) as Hw2.
    apply bind_Ok_inv in E3 as (? & w3 & (b & E3 & Hb)%send_chunks_Ok & E4); [|done..].
    apply send_control_Ok in E4 as [F4 E4]; [|done|by eapply emits_writable].
    split_and!; [done..|]. exists b. split_and!; [done..|].
    exact (emits_trans _ _ w _ _ E2 (emits_trans _ _ _ _ _ E3 E4)).
Qed.
End sender.

(** ** The receiver's connection

    [same_conn]: a step that does not use the connection; [mute]: one that
    writes nothing to it. *)
Definition same_conn (w w' : rworld) : Prop := w_conn w' = w_conn w.
Definition mute (w w' : rworld) : Prop :=
  c_out (w_conn w') = c_out (w_conn w) ∧ c_writes (w_conn w') = c_writes (w_conn w).
(** On the variables of a session; the completed entries are the same. *)
Definition smute (s s' : rsess) : Prop :=
  mute (rs_world s) (rs_world s') ∧ rs_completed s' = rs_completed s.
Definition ssame (s s' : rsess) : Prop :=
  same_conn (rs_world s) (rs_world s') ∧ rs_completed s' = rs_completed s.

#[export] Instance same_conn_preorder : PreOrder same_conn.
Proof. unfold same_conn. split; [by intros w|]. intros w1 w2 w3 H1 H2. congruence. Qed.
#[export] Instance mute_preorder : PreOrder mute.
Proof. unfold mute. split; [by intros w|]. intros w1 w2 w3 [] []. split; congruence. Qed.
#[export] Instance smute_preorder : PreOrder smute.
Proof.
  split; [by intros s|]. intros s1 s2 s3 [] []. split; [by etransitivity|congruence].
Qed.
#[export] Instance ssame_preorder : PreOrder ssame.
Proof.
  split; [by intros s|]. intros s1 s2 s3 [] []. split; [by etransitivity|congruence].
Qed.
#[local] Hint Resolve same_conn_preorder mute_preorder smute_preorder ssame_preorder : keeps.

Lemma same_mute w w' : same_conn w w' → mute w w'.
Proof. unfold same_conn, mute. by intros ->. Qed.

Lemma on_disk_same {A} (m : M slots_state A) : keeps same_conn (on_disk m).
Proof. by intros w r w' (d & _ & ->)%zoom_inv. Qed.
Lemma on_fs_same {A} (m : M fs A) : keeps same_conn (on_fs m).
Proof. apply on_disk_same. Qed.
Lemma broadcast_same e : keeps same_conn (broadcast e).
Proof. by apply keeps_modify. Qed.
Lemma keeps_same_mute {A} (m : M rworld A) : keeps same_conn m → keeps mute m.
Proof. intros H w r w' E. by eapply same_mute, H. Qed.
Lemma on_disk_mute {A} (m : M slots_state A) : keeps mute (on_disk m).
Proof. apply keeps_same_mute, on_disk_same. Qed.
Lemma on_fs_mute {A} (m : M fs A) : keeps mute (on_fs m).
Proof. apply on_disk_mute. Qed.
Lemma broadcast_mute e : keeps mute (broadcast e).
Proof. apply keeps_same_mute, broadcast_same. Qed.
Lemma read_header_mute : keeps mute (on_conn ReadHeader).
Proof. intros w r w' (c & E & ->)%zoom_inv. apply ReadHeader_frame_rule in E as (?&?&?&_). done. Qed.
Lemma read_full_mute n : keeps mute (on_conn (read_full n)).
Proof.
  intros w r w' (c & E & ->)%zoom_inv. unfold read_full in E.
  by repeat case_match; simplify_eq/=.
Qed.
#[local] Hint Resolve on_disk_same on_fs_same broadcast_same on_disk_mute on_fs_mute broadcast_mute
  read_header_mute read_full_mute : keeps.

Lemma in_world_smute {A} (m : M rworld A) : keeps mute m → keeps smute (in_world m).
Proof. intros H. eapply keeps_zoom; [done|]. by intros s t Hw. Qed.
Lemma in_world_ssame {A} (m : M rworld A) : keeps same_conn m → keeps ssame (in_world m).
Proof. intros H. eapply keeps_zoom; [done|]. by intros s t Hw. Qed.
#[local] Hint Resolve in_world_smute in_world_ssame : keeps.

Lemma copy_n_mute tmp n : keeps mute (copy_n tmp n).
Proof.
  unfold copy_n. apply keeps_bind; [apply _|auto with keeps|]. intros input. cbv zeta.
  apply keeps_bind; [apply _|auto with keeps|]. intros b. apply keeps_bind; [apply _| |].
  - case_match; auto with keeps.
  - intros _. case_match; [auto with keeps|]. apply keeps_bind; [apply _|auto with keeps|].
    intros []; [auto with keeps|]. by intros w r w' [= <- <-].
Qed.
#[local] Hint Resolve copy_n_mute : keeps.

Lemma file_body_mute fuel meta slot got hashed : keeps mute (file_body fuel meta slot got hashed).
Proof.
  revert got hashed. induction fuel as [|fuel IH]; intros got hashed; cbn [file_body]; [auto with keeps|].
  cbv zeta. apply keeps_bind; [apply _|auto with keeps|]. intros [hdr|err]; [|auto with keeps].
  destruct (hdr_Type hdr =?s TypeChunk).
  { case_match; [auto with keeps|]. case_match; [auto with keeps|].
    apply keeps_bind; [apply _|auto with keeps|]. intros []; auto with keeps. }
  destruct (hdr_Type hdr =?s TypeProgress); [auto|].
  destruct (hdr_Type hdr =?s TypeFileEnd); [|auto with keeps].
  apply keeps_bind; [apply _|auto with keeps|]. intros []; [|auto with keeps].
  case_match; [auto with keeps|]. case_match; [auto with keeps|].
  apply keeps_bind; [apply _|auto with keeps|]. intros []; auto with keeps.
Qed.
#[local] Hint Resolve file_body_mute : keeps.

Lemma receiveOneFile_mute meta slot off : keeps mute (receiveOneFile meta slot off).
Proof.
  unfold receiveOneFile, input_fuel. cbv zeta. apply keeps_bind; [apply _| |].
  - case_match; auto 10 with keeps.
  - intros seeded. auto 10 with keeps.
Qed.

Lemma slotFor_same dir i meta : keeps ssame (slotFor dir i meta).
Proof.
  unfold slotFor. apply keeps_bind; [apply _|auto with keeps|]. intros slots.
  case_match; [auto with keeps|]. apply keeps_bind; [apply _|auto with keeps|].
  intros slot. apply keeps_bind; [apply _|by apply keeps_modify|auto with keeps].
Qed.
#[local] Hint Resolve receiveOneFile_mute slotFor_same : keeps.

(** *** What a reply writes *)
Lemma reply_live h w :
  hdr_Length h = 0 → c_writes (w_conn w) = None →
  ∃ b w', reply h w = (Ok (), w') ∧ w_conn w' = out_of b (w_conn w) ∧ w_disk w' = w_disk w ∧
    (b = [] ∨ b = frame h ∧ fits h) ∧ (fits h → b = frame h).
Proof.
  intros Hl Hw. unfold reply, ignore, bind, try.
  destruct (on_conn (WriteControl h) w) as [r w'] eqn:E. apply zoom_inv in E as (c & E & ->).
  destruct (WriteControl_live h _ _ _ Hl Hw E) as [(-> & Hf & ->)|(-> & ->)].
  - exists (frame h). eexists. split_and!; eauto.
  - exists []. eexists. split_and!; [done| | |by left|]; cbn; [by rewrite out_of_nil|done|].
    intros Hf. rewrite WriteControl_ok in E by done. done.
Qed.

(** *** What is left unread *)
Definition set_w_in (rest : bytes) (w : rworld) : rworld :=
  mkWorld (set_c_in rest (w_conn w)) (w_disk w) (w_events w) (w_notes w) (w_clips w).

Lemma read_header_on h rest w :
  Header_ok h → fits h → c_in (w_conn w) = frame h ++ rest →
  on_conn ReadHeader w = (Ok (valid_Header h), set_w_in rest w).
Proof. intros Ho Hf Hin. unfold on_conn, zoom. by rewrite (ReadHeader_frame h rest). Qed.

Lemma read_header_inv h rest w hdr w1 :
  on_conn ReadHeader w = (Ok hdr, w1) → Header_ok h → fits h → c_in (w_conn w) = frame h ++ rest →
  hdr = valid_Header h ∧ w1 = set_w_in rest w.
Proof. intros E Ho Hf Hin. rewrite (read_header_on h rest) in E by done. split; congruence. Qed.

Lemma valid_type h t : hdr_Type h = t → to_valid t = t → hdr_Type (valid_Header h) = t.
Proof. cbn. by intros -> ->. Qed.

Lemma try_bind_Ok_inv {S A B} (m : M S A) (f : A → M S B) (g : error → M S B) s b s' :
  (∀ e s r s', g e s = (r, s') → ∀ b, r ≠ Ok b) →
  (r <- try m ;; match r with inl a => f a | inr e => g e end) s = (Ok b, s') →
  ∃ a s1, m s = (Ok a, s1) ∧ f a s1 = (Ok b, s').
Proof.
  intros Hg (r & s1 & E1 & E2)%bind_Ok_inv. apply try_inv in E1 as (r0 & E1 & Hr).
  destruct r as [a|e]; [|by destruct (Hg _ _ _ _ E2 b)].
  destruct r0; simplify_eq. eauto.
Qed.

Lemma copy_n_in tmp buf rest w b w' :
  c_in (w_conn w) = buf ++ rest → copy_n tmp (Z.of_nat (length buf)) w = (Ok b, w') →
  c_in (w_conn w') = rest.
Proof.
  intros Hin E. unfold copy_n in E. rewrite bind_Ok with (a := c_in (w_conn w)) (s' := w) in E by done.
  cbv zeta in E. rewrite Hin, length_app in E.
  rewrite (proj2 (Z.leb_le (Z.of_nat (length buf)) (Z.of_nat (length buf + length rest)))), Nat2Z.id in E by lia.
  erewrite bind_Ok in E.
  2: { unfold on_conn, zoom. by rewrite (read_full_app _ buf rest). }
  apply bind_Ok_inv in E as ([] & w2 & E1 & E2). injection E2 as _ <-.
  destruct (length buf =? 0)%nat; [by injection E1 as <-|].
  apply on_fs_same in E1. by rewrite E1.
Qed.

Lemma cleanup_fails {A B} (m : M rworld A) e w (r : res B) w' :
  (m ;;; throw e) w = (r, w') → ∀ b, r ≠ Ok b.
Proof. apply bind_throw_not_Ok. Qed.

Lemma file_end_same meta slot got hashed : keeps same_conn (
  c <- try (on_fs close_file) ;;
  match c with
  | inr err => on_fs (removePart (sl_tmp slot)) ;;; throw err
  | inl _ =>
      if negb (got =? fm_Size meta) then
        on_fs (removePart (sl_tmp slot)) ;;;
        throw (Errorf ("size mismatch: got " +:+ itoa got +:+ " want " +:+ itoa (fm_Size meta)))
      else if negb (equal_fold (hex_encode (sha256 hashed)) (fm_SHA256 meta)) then
        on_fs (removePart (sl_tmp slot)) ;;; throw (Errorf "sha256 mismatch")
      else
        m <- try (on_fs (rename (sl_tmp slot) (sl_dest slot))) ;;
        match m with
        | inr err => on_fs (removePart (sl_tmp slot)) ;;; throw err
        | inl _ => on_fs (ignore (remove_file (partMetaPath (sl_tmp slot)))) ;;; ret (sl_dest slot)
        end
  end).
Proof.
  apply keeps_bind; [apply _|auto with keeps|]. intros []; [|auto with keeps].
  case_match; [auto with keeps|]. case_match; [auto with keeps|].
  apply keeps_bind; [apply _|auto with keeps|]. intros []; auto with keeps.
Qed.

Lemma file_body_in fuel meta slot got hashed w b h rest p w' :
  Body b → hdr_Type h = TypeFileEnd → Header_ok h → fits h →
  c_in (w_conn w) = b ++ frame h ++ rest →
  file_body fuel meta slot got hashed w = (Ok p, w') → c_in (w_conn w') = rest.
Proof.
  intros Hb Ht Hok Hfit. revert b Hb got hashed w.
  induction fuel as [|fuel IH]; intros b Hb got hashed w Hin E; [done|].
  cbn [file_body] in E. cbv zeta in E.
  apply try_bind_Ok_inv in E as (hdr & w1 & E1 & E2); [|intros e ? ? ?; apply cleanup_fails].
  destruct Hb as [|c buf b Hc Hco Hcf Hcl Hb|c b Hc Hco Hcf Hb].
  - apply (read_header_inv h rest) in E1 as [-> ->]; [|done..].
    rewrite (valid_type h TypeFileEnd) in E2 by done. cbn in E2.
    apply file_end_same in E2. by rewrite E2.
  - apply (read_header_inv c (buf ++ b ++ frame h ++ rest)) in E1 as [-> ->];
      [|done|done|by rewrite Hin, <-!app_assoc].
    rewrite (valid_type c TypeChunk) in E2 by done.
    change (TypeChunk =?s TypeChunk) with true in E2. cbv beta iota in E2.
    cbn [hdr_Length valid_Header] in E2. rewrite Hcl in E2.
    destruct (_ <? 0); [by destruct (cleanup_fails _ _ _ _ _ E2 p)|].
    destruct (_ <? _); [by destruct (cleanup_fails _ _ _ _ _ E2 p)|].
    apply try_bind_Ok_inv in E2 as (x & w2 & E2 & E3); [|intros e ? ? ?; apply cleanup_fails].
    apply (copy_n_in _ _ (b ++ frame h ++ rest)) in E2; [|done]. by eapply IH.
  - apply (read_header_inv c (b ++ frame h ++ rest)) in E1 as [-> ->];
      [|done|done|by rewrite Hin, <-!app_assoc].
    rewrite (valid_type c TypeProgress) in E2 by done.
    change (TypeProgress =?s TypeChunk) with false in E2.
    change (TypeProgress =?s TypeProgress) with true in E2. cbv beta iota in E2. by eapply (IH b Hb); [|exact E2].
Qed.

Lemma receiveOneFile_in meta slot off w b h rest p w' :
  Body b → hdr_Type h = TypeFileEnd → Header_ok h → fits h →
  c_in (w_conn w) = b ++ frame h ++ rest →
  receiveOneFile meta slot off w = (Ok p, w') → c_in (w_conn w') = rest.
Proof.
  intros Hb Ht Ho Hf Hin E. unfold receiveOneFile, input_fuel in E. cbv zeta in E.
  apply bind_Ok_inv in E as (seeded & w1 & E1 & E2).
  apply bind_Ok_inv in E2 as (? & w2 & E2%on_fs_same & E3).
  apply bind_Ok_inv in E3 as (fuel & w3 & [= <- <-] & E4).
  assert (same_conn w w1) as Hs.
  { revert E1. case_match; intros E1.
    - apply bind_Ok_inv in E1 as (ex & w4 & E0 & E1). apply bind_Ok_inv in E1 as (? & w5 & E3%on_fs_same & E5).
      injection E5 as _ <-. apply try_inv in E0 as (r0 & E0%on_fs_same & _). by etransitivity.
    - apply bind_Ok_inv in E1 as (? & w5 & E3%on_fs_same & E5). by injection E5 as _ <-. }
  eapply file_body_in; [exact Hb|exact Ht|exact Ho|exact Hf| |exact E4]. by rewrite E2, Hs.
Qed.

(** *** Replies to an entry *)
Definition sconn (s : rsess) : conn := w_conn (rs_world s).

(** The end of an entry as the sender sees it: accepted, with everything up to
    [rest] consumed, or given up with at most a refusal on the wire. *)
Definition accepted (i : Z) (rest : bytes) (s s' : rsess) : Prop :=
  c_in (sconn s') = rest ∧ c_out (sconn s') = c_out (sconn s) ++ frame (ack i true "") ∧
  c_writes (sconn s') = None ∧ rs_completed s' = {[i]} ∪ rs_completed s.
Definition refused (i : Z) (s s' : rsess) : Prop :=
  ∃ b, c_out (sconn s') = c_out (sconn s) ++ b ∧
    (b = [] ∨ ∃ txt, b = frame (ack i false txt) ∧ fits (ack i false txt)).
Definition answered {A} (i : Z) (rest : bytes) (s : rsess) (r : res A) (s' : rsess) : Prop :=
  ((∃ a, r = Ok a) ∧ accepted i rest s s') ∨ ((∀ a, r ≠ Ok a) ∧ refused i s s').

Lemma smute_refused i s s' : smute s s' → refused i s s'.
Proof. intros [[E _] _]. exists []. rewrite app_nil_r. split; [done|by left]. Qed.

Lemma emitErr_ends {A} peer count err s (r : res A) s' :
  emitErr peer count err s = (r, s') → (∀ a, r ≠ Ok a) ∧ ssame s s'.
Proof.
  intros E. split; [by eapply bind_throw_not_Ok|].
  assert (keeps ssame (emitErr (A:=A) peer count err)) as H by (unfold emitErr; auto with keeps).
  by eapply H.
Qed.

(** A refusal: the negative ack, if it fits, and an error. *)
Lemma refuse i txt peer count err s0 s (r : res unit) s' :
  smute s0 s → c_writes (sconn s) = None →
  (in_world (reply (ack i false txt)) ;;; emitErr peer count err) s = (r, s') →
  (∀ a, r ≠ Ok a) ∧ refused i s0 s'.
Proof.
  intros [[Ho _] _] Hw E. destruct (reply_live (ack i false txt) (rs_world s)) as
    (b & w1 & E1 & Hc & _ & Hb & _); [done|done|].
  unfold in_world in E. unfold zoom, bind at 1 in E. rewrite E1 in E.
  apply emitErr_ends in E as [Hr [Hs _]]. split; [done|]. exists b. unfold sconn in *.
  rewrite Hs. cbn. rewrite Hc. cbn. rewrite Ho. split; [done|].
  destruct Hb as [->|[-> ?]]; eauto.
Qed.

(** An acceptance: [says] is the reply with what the handler does after it. *)
Definition says (i : Z) (m : M rworld unit) : Prop :=
  ∀ w, c_writes (w_conn w) = None →
    ∃ w', m w = (Ok (), w') ∧ w_conn w' = out_of (frame (ack i true "")) (w_conn w).

Lemma says_reply i : inInt64 i → says i (reply (ack i true "")).
Proof.
  intros Hi w Hw. destruct (reply_live (ack i true "") w) as (b & w' & E & Hc & _ & _ & Hb); [done..|].
  exists w'. split; [done|]. by rewrite Hc, Hb by by apply ack_fits.
Qed.
Lemma says_reply_broadcast i e : inInt64 i → says i (reply (ack i true "") ;;; broadcast e).
Proof.
  intros Hi w Hw. destruct (says_reply i Hi w Hw) as (w' & E & Hc).
  rewrite (bind_Ok _ _ _ _ _ E). by eexists.
Qed.

Lemma accept i path rest m s0 s r s' :
  says i m → smute s0 s → c_writes (sconn s) = None → c_in (sconn s) = rest →
  (complete i path ;;; in_world m) s = (r, s') → answered i rest s0 r s'.
Proof.
  intros Hm [[Ho _] Hc] Hw Hin E. destruct (Hm (rs_world s) Hw) as (w1 & E1 & Hc1).
  apply bind_inv in E as [([] & s1 & [= <-] & E)|(r0 & [= <- <-] & Hr & _)]; [|by destruct (Hr ())].
  apply zoom_inv in E as (w2 & E & ->). cbn [rs_world] in E. rewrite E1 in E. injection E as <- <-.
  left. split; [eauto|]. unfold accepted, sconn in *. cbn. rewrite Hc1. cbn. by rewrite Ho, Hc.
Qed.

Section entries.
Context (dir peer : string) (count : Z).

Lemma recv_file_answers resume i meta s r s' b h rest :
  inInt64 i → Body b → hdr_Type h = TypeFileEnd → Header_ok h → fits h →
  c_in (sconn s) = b ++ frame h ++ rest → c_writes (sconn s) = None →
  recv_file dir peer count resume i meta s = (r, s') → answered i rest s r s'.
Proof.
  intros Hi Hb Ht Ho Hf Hin Hw E. unfold recv_file in E.
  set (body := slot <- slotFor dir i meta ;; _) in E.
  assert (keeps smute body) as Hk.
  { unfold body. apply keeps_bind; [apply _|intros ? ? ? H%slotFor_same; destruct H; split; [by apply same_mute|done]|].
    intros slot. apply keeps_bind; [apply _|case_match; auto with keeps|auto with keeps]. }
  apply bind_inv in E as [(x & s1 & E1 & E2)|(r0 & E1 & Hr & ->)].
  2:{ right. apply try_inv in E1 as (r1 & E1%Hk & _). split; [by destruct r0|by apply smute_refused]. }
  apply try_inv in E1 as (r1 & E1 & Hr1). pose proof (Hk _ _ _ E1) as Hm.
  assert (c_writes (sconn s1) = None) as Hw1 by (destruct Hm as [[_ Hm] _]; unfold sconn in *; congruence).
  destruct x as [path|err]; [|right; by eapply refuse].
  destruct r1; simplify_eq. eapply accept; [by apply says_reply_broadcast|exact Hm|done| |exact E2].
  unfold body in E1. apply bind_Ok_inv in E1 as (slot & s2 & [E1 _]%slotFor_same & E3).
  apply bind_Ok_inv in E3 as (off & s3 & E3 & E4). apply zoom_inv in E4 as (w4 & E4 & ->).
  eapply receiveOneFile_in; [exact Hb|exact Ht|exact Ho|exact Hf| |exact E4].
  assert (same_conn (rs_world s2) (rs_world s3)) as Hs.
  { destruct resume; [|by injection E3 as _ <-].
    by apply (in_world_ssame _ (on_fs_same _)) in E3 as [? _]. }
  unfold sconn in Hin. by rewrite Hs, E1.
Qed.
Lemma recv_directory_answers i meta s r s' h rest :
  inInt64 i → Header_ok h → fits h → c_in (sconn s) = frame h ++ rest → c_writes (sconn s) = None →
  recv_directory dir peer count i meta s = (r, s') → answered i rest s r s'.
Proof.
  intros Hi Ho Hf Hin Hw E. unfold recv_directory in E.
  set (body := e <- in_world (on_conn ReadHeader) ;; _) in E.
  assert (keeps smute body) as Hk.
  { unfold body. apply keeps_bind; [apply _|auto with keeps|]. intros e.
    apply keeps_bind; [apply _|case_match; auto with keeps|auto with keeps]. }
  apply bind_inv in E as [(x & s1 & E1 & E2)|(r0 & E1 & Hr & ->)].
  2:{ right. apply try_inv in E1 as (r1 & E1%Hk & _). split; [by destruct r0|by apply smute_refused]. }
  apply try_inv in E1 as (r1 & E1 & Hr1). pose proof (Hk _ _ _ E1) as Hm.
  assert (c_writes (sconn s1) = None) as Hw1 by (destruct Hm as [[_ Hm] _]; unfold sconn in *; congruence).
  destruct x as [u|err]; [|right; by eapply refuse].
  destruct r1; simplify_eq. eapply accept; [by apply says_reply|exact Hm|done| |exact E2].
  unfold body in E1. apply bind_Ok_inv in E1 as (e & s2 & (w & E1 & ->)%zoom_inv & E3).
  apply (read_header_inv h rest) in E1 as [-> ->]; [|done..].
  apply bind_Ok_inv in E3 as (v & s3 & E3 & E4).
  apply (in_world_ssame _ (on_fs_same _)) in E4 as [E4 _]. unfold sconn. rewrite E4.
  destruct (bad_dir_entry _ _ _); [done|]. by injection E3 as _ <-.
Qed.

(** A resume query is answered by an offer. *)
Lemma partialBytes_int64 slot meta : ensures (partialBytes slot meta) inInt64.
Proof.
  assert (inInt64 0) as H0 by done.
  unfold partialBytes. apply ensures_bind_any. intros [[b| |]|]; try by apply ensures_ret.
  cbv zeta. case_match; [by apply ensures_ret|]. apply ensures_bind_any. intros [x|].
  - case_match; [apply ensures_ret, int64_range|]. apply ensures_bind_any. intros _. by apply ensures_ret.
  - apply ensures_bind_any. intros _. by apply ensures_ret.
Qed.

Lemma recv_resume_query_answers manifest resume i s r s' :
  inInt64 i → c_writes (sconn s) = None →
  recv_resume_query dir manifest resume i s = (r, s') →
  ((∃ u, r = Ok u) ∧ rs_completed s' = rs_completed s ∧
     ∃ n, inInt64 n ∧ sconn s' = out_of (frame (offer_header i n)) (sconn s)) ∨
  ((∀ u, r ≠ Ok u) ∧ sconn s' = sconn s).
Proof.
  intros Hi Hw E. unfold recv_resume_query in E. fold (offer_header i) in E.
  set (ask := match entry manifest i with Some _ => _ | None => _ end) in E.
  assert (keeps ssame ask ∧ ensures ask inInt64) as [Hk Hn].
  { assert (inInt64 0) as H0 by done. unfold ask.
    destruct (entry manifest i) as [meta|]; [|split; [auto with keeps|by apply ensures_ret]].
    case_match; [|split; [auto with keeps|by apply ensures_ret]]. split.
    - apply keeps_bind; [apply _|auto with keeps|]. intros []; auto with keeps.
    - apply ensures_bind_any. intros []; [|by apply ensures_ret].
      unfold in_world, on_fs, on_disk, ss_on_fs. do 3 apply ensures_zoom. apply partialBytes_int64. }
  apply bind_inv in E as [(n & s1 & E1 & E2)|(r0 & E1 & Hr & ->)].
  2:{ right. apply Hk in E1 as [E1 _]. split; [by destruct r0|done]. }
  left. pose proof (Hn _ _ _ E1) as Hi64. apply Hk in E1 as [E1 Hc].
  destruct (reply_live (offer_header i n) (rs_world s1)) as (b & w1 & E & Hcn & _ & _ & Hb);
    [done|by rewrite E1|].
  apply zoom_inv in E2 as (w2 & E2 & ->). change (set_hdr_BytesDone _ _) with (offer_header i n) in E2.
  rewrite E in E2. injection E2 as <- <-. split_and!; [eauto|done|]. exists n. split; [done|].
  rewrite <-Hb by by apply offer_fits. unfold sconn, same_conn in *. rewrite <-E1. exact Hcn.
Qed.
End entries.

(** ** The receiver's loop on the frames the sender writes *)
Definition set_s_in (rest : bytes) (s : rsess) : rsess :=
  mkSess (set_w_in rest (rs_world s)) (rs_slots s) (rs_completed s) (rs_saved s).

Lemma loop_reads h rest s :
  Header_ok h → fits h → c_in (sconn s) = frame h ++ rest →
  try (in_world (on_conn ReadHeader)) s = (Ok (inl (valid_Header h)), set_s_in rest s).
Proof.
  intros Ho Hf Hin. unfold try, in_world, zoom. by rewrite (read_header_on h rest).
Qed.

Section loop.
Context (dir peer : string) (manifest : list FileMeta) (resume : bool).
Let loop fuel := recv_loop dir fuel peer manifest resume.

Lemma loop_query fuel i sha rest s :
  inInt64 i → fits (query_header i sha) → c_in (sconn s) = frame (query_header i sha) ++ rest →
  loop (S fuel) s = (recv_resume_query dir manifest resume i ;;; loop fuel) (set_s_in rest s).
Proof.
  intros Hi Hf Hin. unfold loop. cbn [recv_loop]. cbv zeta.
  rewrite (bind_Ok _ _ _ _ _ (loop_reads _ rest s (query_ok i sha Hi) Hf Hin)).
  rewrite (valid_type (query_header i sha) TypeResumeQuery) by done. done.
Qed.

Lemma loop_file fuel i meta rest s :
  inInt64 i → fits (index_header TypeFileHeader i) →
  c_in (sconn s) = frame (index_header TypeFileHeader i) ++ rest →
  entry manifest i = Some meta → i ∉ rs_completed s →
  loop (S fuel) s =
    ((if fm_IsDir meta then recv_directory dir peer (Z.of_nat (length manifest)) i meta
      else recv_file dir peer (Z.of_nat (length manifest)) resume i meta) ;;; loop fuel)
    (set_s_in rest s).
Proof.
  intros Hi Hf Hin He Hc. unfold loop. cbn [recv_loop]. cbv zeta.
  rewrite (bind_Ok _ _ _ _ _ (loop_reads _ rest s (index_ok _ i Hi) Hf Hin)).
  rewrite (valid_type (index_header TypeFileHeader i) TypeFileHeader) by done.
  change (hdr_FileIndex (valid_Header (index_header TypeFileHeader i))) with i. rewrite He.
  change (TypeFileHeader =?s TypeSessionEnd) with false.
  change (TypeFileHeader =?s TypeProgress) with false.
  change (TypeFileHeader =?s TypeResumeQuery) with false.
  change (TypeFileHeader =?s TypeFileHeader) with true. cbv beta iota. cbn [negb].
  rewrite bind_Ok with (a := rs_completed s) (s' := set_s_in rest s) by done.
  by rewrite bool_decide_false.
Qed.

Lemma loop_end fuel rest s :
  fits end_header → c_in (sconn s) = frame end_header ++ rest →
  size (rs_completed s) = length manifest →
  loop (S fuel) s = (Ok (), set_s_in rest s).
Proof.
  intros Hf Hin Hc. unfold loop. cbn [recv_loop]. cbv zeta.
  rewrite (bind_Ok _ _ _ _ _ (loop_reads _ rest s end_ok Hf Hin)).
  rewrite (valid_type end_header TypeSessionEnd) by done.
  change (TypeSessionEnd =?s TypeSessionEnd) with true. cbv beta iota.
  rewrite bind_Ok with (a := rs_completed s) (s' := set_s_in rest s) by done.
  rewrite bool_decide_false; [done|]. intros H. by apply H.
Qed.

(** Output only grows. *)
Definition heard (s s' : rsess) : Prop := c_out (sconn s) `prefix_of` c_out (sconn s').
#[export] Instance heard_preorder : PreOrder heard.
Proof. split; [intros s; red; reflexivity|]. intros s1 s2 s3 H1 H2. unfold heard in *. by etransitivity. Qed.
#[local] Hint Resolve heard_preorder : keeps.

Lemma smute_heard {A} (m : M rsess A) : keeps smute m → keeps heard m.
Proof. intros H s r s' E. apply H in E as [[E _] _]. unfold heard, sconn. rewrite E. reflexivity. Qed.
Lemma ssame_heard {A} (m : M rsess A) : keeps ssame m → keeps heard m.
Proof. intros H s r s' E. apply H in E as [E _]. unfold heard, sconn. rewrite E. reflexivity. Qed.
Lemma conn_write_out b c r c' : conn_write b c = (r, c') → c_out c `prefix_of` c_out c'.
Proof. unfold conn_write. intros. repeat case_match; simplify_eq/=; [reflexivity|by apply prefix_app_r..]. Qed.
Definition outs (c c' : conn) : Prop := c_out c `prefix_of` c_out c'.
#[export] Instance outs_preorder : PreOrder outs.
Proof. split; [intros c; red; reflexivity|]. intros c1 c2 c3 H1 H2. unfold outs in *. by etransitivity. Qed.
#[local] Hint Resolve outs_preorder : keeps.
Lemma WriteMessage_outs h p : keeps outs (WriteMessage h p).
Proof.
  unfold WriteMessage. cbv zeta. case_match; [auto with keeps|].
  repeat (apply keeps_bind; [apply _|by intros c r c' E; eapply conn_write_out|intros _]).
  case_match; [|auto with keeps]. destruct p as [p|]; [|auto with keeps].
  apply keeps_bind; [apply _|by intros c r c' E; eapply conn_write_out|intros _].
  case_match; auto with keeps.
Qed.
Lemma ReadHeader_outs : keeps outs ReadHeader.
Proof. intros c r c' E. apply ReadHeader_frame_rule in E as (E & _). unfold outs. rewrite E. reflexivity. Qed.
Definition wouts (w w' : rworld) : Prop := outs (w_conn w) (w_conn w').
#[export] Instance wouts_preorder : PreOrder wouts.
Proof. split; [intros w; red; reflexivity|]. intros w1 w2 w3 H1 H2. unfold wouts in *. by etransitivity. Qed.
#[local] Hint Resolve wouts_preorder : keeps.
Lemma reply_wouts h : keeps wouts (reply h).
Proof.
  intros w r w' (r0 & E)%ignore_inv. apply zoom_inv in E as (c & E & ->). by apply WriteMessage_outs in E.
Qed.
Lemma broadcast_wouts e : keeps wouts (broadcast e).
Proof. apply keeps_modify. intros w. red. reflexivity. Qed.
Lemma in_world_heard {A} (m : M rworld A) : keeps wouts m → keeps heard (in_world m).
Proof. intros H. eapply keeps_zoom; [done|]. by intros s t Hw. Qed.
#[local] Hint Resolve reply_wouts broadcast_wouts in_world_heard : keeps.
Lemma complete_heard i path : keeps heard (complete i path).
Proof. apply keeps_modify. intros s. red. reflexivity. Qed.
Lemma emitErr_heard {A} count err : keeps heard (emitErr (A:=A) peer count err).
Proof. intros s r s' [_ E]%emitErr_ends. destruct E as [E _]. unfold heard, sconn. rewrite E. reflexivity. Qed.
#[local] Hint Resolve complete_heard emitErr_heard : keeps.

Lemma recv_loop_heard fuel : keeps heard (loop fuel).
Proof.
  unfold loop. induction fuel as [|fuel IH]; cbn [recv_loop]; [auto with keeps|]. cbv zeta.
  apply keeps_bind; [apply _|apply smute_heard; auto with keeps|]. intros [hdr|err]; [|auto with keeps].
  destruct (hdr_Type hdr =?s TypeSessionEnd).
  { apply keeps_bind; [apply _|auto with keeps|]. intros c. case_match; auto with keeps. }
  destruct (hdr_Type hdr =?s TypeProgress).
  { apply keeps_bind; [apply _|apply smute_heard; auto with keeps|auto]. }
  destruct (hdr_Type hdr =?s TypeResumeQuery).
  { apply keeps_bind; [apply _| |auto]. unfold recv_resume_query.
    apply keeps_bind; [apply _|apply ssame_heard|auto with keeps].
    case_match; [|auto with keeps]. case_match; [|auto with keeps].
    apply keeps_bind; [apply _|auto with keeps|]. intros []; auto with keeps. }
  destruct (hdr_Type hdr =?s TypeFileHeader); cbn [negb]; [|auto with keeps].
  case_match; [|auto with keeps]. apply keeps_bind; [apply _|auto with keeps|]. intros c.
  case_match; [auto with keeps|]. apply keeps_bind; [apply _| |auto].
  case_match; [unfold recv_directory|unfold recv_file].
  - apply keeps_bind; [apply _|apply smute_heard|intros []; auto with keeps].
    apply keeps_try, keeps_bind; [apply _|auto with keeps|]. intros e.
    apply keeps_bind; [apply _|case_match; auto with keeps|auto with keeps].
  - apply keeps_bind; [apply _|apply smute_heard|].
    + apply keeps_try, keeps_bind; [apply _| |].
      { intros ? ? ? Hs%slotFor_same. destruct Hs. split; [by apply same_mute|done]. }
      intros slot. apply keeps_bind; [apply _|case_match; auto with keeps|auto with keeps].
    + intros []; [|auto with keeps]. apply keeps_bind; [apply _|auto with keeps|]. intros _.
      auto with keeps.
Qed.
End loop.
#[local] Hint Resolve heard_preorder wouts_preorder outs_preorder WriteMessage_outs ReadHeader_outs : keeps.

(** ** The sender's run, entry by entry *)
Definition souts (w w' : sworld) : Prop := outs (sw_conn w) (sw_conn w').
#[export] Instance souts_preorder : PreOrder souts.
Proof. split; [intros w; red; reflexivity|]. intros w1 w2 w3 H1 H2. unfold souts in *. by etransitivity. Qed.
#[local] Hint Resolve souts_preorder : keeps.

Section sending.
Context (progress : bool).

Lemma s_conn_souts {A} (m : M conn A) : keeps outs m → keeps souts (s_conn m).
Proof. intros H. eapply keeps_zoom; [done|]. by intros s t Hw. Qed.
Lemma s_fs_souts {A} (m : M fs A) : keeps souts (s_fs m).
Proof. intros w r w' (f & _ & ->)%zoom_inv. red. reflexivity. Qed.
Lemma ctx_check_souts : keeps souts ctx_check.
Proof. intros w r w' E. unfold ctx_check in E. repeat case_match; simplify_eq; red; reflexivity. Qed.
Lemma say_souts line : keeps souts (say progress line).
Proof.
  unfold say. case_match; [|auto with keeps]. apply keeps_modify. intros w. red. reflexivity.
Qed.
#[local] Hint Resolve s_conn_souts s_fs_souts ctx_check_souts say_souts : keeps.
Lemma wrapping_souts {A} pre (m : M sworld A) : keeps souts m → keeps souts (wrapping pre m).
Proof. intros H. unfold wrapping. apply keeps_bind; [apply _|auto with keeps|]. intros []; auto with keeps. Qed.
Lemma send_chunks_souts fuel name i sent size rest :
  keeps souts (send_chunks progress fuel name i sent size rest).
Proof.
  revert sent rest. induction fuel as [|fuel IH]; intros sent rest; cbn [send_chunks]; [auto with keeps|].
  apply keeps_bind; [apply _|auto with keeps|]. intros _. case_match; [auto with keeps|]. cbv zeta.
  apply keeps_bind; [apply _|auto with keeps|]. intros _. apply keeps_bind; [apply _| |auto].
  unfold fileProgress, WriteControl. cbv zeta. auto 10 with keeps.
Qed.
#[local] Hint Resolve wrapping_souts send_chunks_souts : keeps.
Lemma send_entry_souts count i m path : keeps souts (send_entry progress count i m path).
Proof.
  unfold send_entry, sendOneFile, WriteControl.
  apply keeps_bind; [apply _|auto with keeps|]. intros _. apply keeps_bind; [apply _|auto with keeps|].
  intros _. apply keeps_bind; [apply _|auto with keeps|]. intros _.
  apply keeps_bind; [apply _|auto with keeps|]. intros offer. case_match; [auto with keeps|].
  apply keeps_bind; [apply _| |].
  - apply wrapping_souts. case_match; [auto with keeps|]. apply keeps_bind; [apply _|auto with keeps|].
    intros content. cbv zeta. auto 10 with keeps.
  - intros _. apply keeps_bind; [apply _|auto with keeps|]. intros a. case_match; auto with keeps.
Qed.
#[local] Hint Resolve send_entry_souts : keeps.

(** What is left of a session from entry [i] on. *)
Definition send_rest (count i : Z) (l : list (FileMeta * string)) (devName : string) : M sworld unit :=
  send_entries progress count i l ;;;
  s_conn (WriteControl end_header) ;;;
  ack <- s_conn ReadHeader ;;
  if negb (hdr_Type ack =?s TypeAck) || negb (hdr_OK ack) then
    throw (Errorf ("peer rejected session: " +:+ hdr_Error ack))
  else say progress ("sent " +:+ itoa count +:+ " file(s) to " +:+ devName).

Lemma send_rest_souts count i l devName : keeps souts (send_rest count i l devName).
Proof.
  unfold send_rest, WriteControl. apply keeps_bind; [apply _| |].
  - revert i. induction l as [|[m path] l IH]; intros i; cbn [send_entries]; auto with keeps.
  - intros _. apply keeps_bind; [apply _|auto with keeps|]. intros _.
    apply keeps_bind; [apply _|auto with keeps|]. intros a. case_match; auto with keeps.
Qed.

Lemma send_rest_cons count i m path l devName w :
  send_rest count i ((m, path) :: l) devName w =
  (send_entry progress count i m path ;;; send_rest count (i + 1) l devName) w.
Proof. unfold send_rest. cbn [send_entries]. by rewrite bind_assoc. Qed.

(** An entry that was sent: its query, the offer that was read, its frames and
    the ack that was read. *)
Record entry_sent (i : Z) (m : FileMeta) (w w' : sworld) : Prop := {
  es_query : fits (query_header i (fm_SHA256 m));
  es_header : fits (index_header TypeFileHeader i);
  es_end : fits (index_header TypeFileEnd i);
  es_run : ∃ w1 w2 w3 offer a b,
    emits (frame (query_header i (fm_SHA256 m))) w w1 ∧
    ReadHeader (sw_conn w1) = (Ok offer, sw_conn w2) ∧
    Body b ∧ (fm_IsDir m = true → b = []) ∧
    emits (frame (index_header TypeFileHeader i) ++ b ++ frame (index_header TypeFileEnd i)) w2 w3 ∧
    ReadHeader (sw_conn w3) = (Ok a, sw_conn w') ∧ hdr_OK a = true;
}.

Lemma read_header_writable w r w' : s_conn ReadHeader w = (r, w') → writable w → writable w'.
Proof.
  unfold writable. intros (c & E & ->)%zoom_inv. apply ReadHeader_frame_rule in E as (_ & _ & E & _).
  cbn. by rewrite E.
Qed.

Lemma send_entry_Ok count i m path w u w' :
  inInt64 i → inInt64 (fm_Size m) → writable w →
  send_entry progress count i m path w = (Ok u, w') → entry_sent i m w w' ∧ writable w'.
Proof.
  intros Hi Hs Hw E. unfold send_entry in E.
  apply bind_Ok_inv in E as (? & w1 & E1%ctx_check_Ok & E).
  apply bind_Ok_inv in E as (? & w2 & E2%say_Ok & E).
  pose proof (emits_trans _ _ _ _ _ E1 E2) as E12. pose proof (emits_writable _ _ _ E12 Hw) as Hw2.
  apply bind_Ok_inv in E as (? & w3 & E3%wrapping_Ok & E).
  apply send_control_Ok in E3 as [F3 E3]; [|done..]. pose proof (emits_writable _ _ _ E3 Hw2) as Hw3.
  apply bind_Ok_inv in E as (offer & w4 & E4%wrapping_Ok & E).
  pose proof (read_header_writable _ _ _ E4 Hw3) as Hw4. apply zoom_inv in E4 as (c4 & E4 & Hc4).
  destruct (negb _); [done|].
  apply bind_Ok_inv in E as (? & w5 & E5%wrapping_Ok & E).
  apply sendOneFile_Ok in E5 as (F5 & F5' & b & Hb & Hd & E5); [|done..].
  pose proof (emits_writable _ _ _ E5 Hw4) as Hw5.
  apply bind_Ok_inv in E as (a & w6 & E6%wrapping_Ok & E).
  pose proof (read_header_writable _ _ _ E6 Hw5) as Hw6. apply zoom_inv in E6 as (c6 & E6 & Hc6).
  destruct (hdr_OK a) eqn:Ha; [|done]. injection E as _ <-. split; [|done].
  split; [done..|]. exists w3, w4, w5, offer, a, b. split_and!; try done.
  - exact (emits_trans _ _ _ _ _ E12 E3).
  - by rewrite Hc4.
  - by rewrite Hc6.
Qed.
End sending.

(** ** Both sides *)
Section agreement.
Context (progress : bool) (devName : string).
Context (dir peer : string) (manifest : list FileMeta) (resume : bool).
Context (Hcount : Z.of_nat (length manifest) ≤ maxInt64).

(** The receiver from the middle of the loop on. *)
Definition recv_rest (fuel : nat) (tail : M rsess unit) : M rsess unit :=
  recv_loop dir fuel peer manifest resume ;;; tail.

(** The first [i] entries, and only they, are completed. *)
Definition done_to (i : Z) (s : rsess) : Prop := ∀ j, j ∈ rs_completed s ↔ 0 ≤ j < i.

Lemma done_to_size i s : 0 ≤ i → done_to i s → Z.of_nat (size (rs_completed s)) = i.
Proof.
  intros Hi Hd. assert (rs_completed s = list_to_set (seqZ 0 i)) as ->.
  { apply set_eq. intros j. unfold done_to in Hd. rewrite (Hd j), elem_of_list_to_set, elem_of_seqZ. lia. }
  rewrite size_list_to_set by apply NoDup_seqZ. rewrite length_seqZ. lia.
Qed.

(** A sender that still reads a header is not linked to a receiver that says
    no more. *)
Lemma silent_starves c h c' o out :
  out ++ o = out → c_in c `prefix_of` o → ReadHeader c = (Ok h, c') → False.
Proof.
  intros Ho Hp E. rewrite <-(app_nil_r out) in Ho at 2. apply app_inv_head in Ho as ->.
  by eapply read_starved.
Qed.

(** Nor to one whose next words are a refusal. *)
Lemma refused_starves i c a c' o s s' :
  inInt64 i → refused i s s' → c_out (sconn s') = c_out (sconn s) ++ o → c_in c `prefix_of` o →
  ReadHeader c = (Ok a, c') → hdr_OK a = true → False.
Proof.
  intros Hi (b & Hb & Hc) Ho Hp E Ha. rewrite Hb in Ho. apply app_inv_head in Ho as ->.
  destruct Hc as [->|(txt & -> & Hf)]; [by eapply read_starved|].
  rewrite <-(app_nil_r (frame _)) in Hp.
  eapply ReadHeader_prefix in E as [Ea _]; [|by apply ack_ok|exact Hf|exact Hp]. by rewrite Ea in Ha.
Qed.

Lemma entry_int64 i meta : entry manifest i = Some meta → inInt64 i.
Proof. intros H%entry_range. unfold inInt64, minInt64, maxInt64 in *. lia. Qed.

Lemma bind_eq {S A B} (m m' : M S A) (k : A → M S B) s s2 :
  m s = m' s2 → bind m k s = bind m' k s2.
Proof. unfold bind. by intros ->. Qed.

Context (tail : M rsess unit) (Htail : keeps heard tail).

Lemma recv_rest_heard fuel : keeps heard (recv_rest fuel tail).
Proof. apply keeps_bind; [apply _|apply recv_loop_heard|done]. Qed.

(** The bytes of one entry, as the sender wrote them. *)
Lemma entry_bytes i m sw sw1 sw' s :
  entry_sent i m sw sw1 → souts sw1 sw' →
  c_out (sw_conn sw') = c_out (sw_conn sw) ++ c_in (sconn s) →
  ∃ w1 w2 w3 offer a b x,
    c_in (sconn s) = frame (query_header i (fm_SHA256 m)) ++
      frame (index_header TypeFileHeader i) ++ b ++ frame (index_header TypeFileEnd i) ++ x ∧
    c_out (sw_conn sw') = c_out (sw_conn sw1) ++ x ∧
    Body b ∧ (fm_IsDir m = true → b = []) ∧
    c_in (sw_conn w1) = c_in (sw_conn sw) ∧ ReadHeader (sw_conn w1) = (Ok offer, sw_conn w2) ∧
    c_in (sw_conn w3) = c_in (sw_conn w2) ∧ ReadHeader (sw_conn w3) = (Ok a, sw_conn sw1) ∧
    hdr_OK a = true.
Proof.
  intros [_ _ _ (w1 & w2 & w3 & offer & a & b & E1 & E2 & Hb & Hd & E3 & E4 & Ha)] [x Hx] Hu.
  exists w1, w2, w3, offer, a, b, x. unfold emits in *.
  split_and!; try done; [|by rewrite E1|by rewrite E3].
  destruct (ReadHeader_Ok _ _ _ E2) as (_ & O2 & _). destruct (ReadHeader_Ok _ _ _ E4) as (_ & O4 & _).
  rewrite Hx, O4, E3 in Hu. cbn [out_of c_out] in Hu.
  rewrite O2, E1 in Hu. cbn [out_of c_out] in Hu. rewrite <-!app_assoc in Hu.
  apply app_inv_head in Hu. by rewrite Hu.
Qed.

(** The offer: both sides are past it. *)
Lemma query_agrees fuel i sha rest c h c' s r s' o :
  inInt64 i → fits (query_header i sha) → c_in (sconn s) = frame (query_header i sha) ++ rest →
  c_writes (sconn s) = None → recv_rest fuel tail s = (r, s') →
  c_out (sconn s') = c_out (sconn s) ++ o → c_in c `prefix_of` o → ReadHeader c = (Ok h, c') →
  ∃ f s1 o1, recv_rest f tail s1 = (r, s') ∧ c_in (sconn s1) = rest ∧ c_writes (sconn s1) = None ∧
    rs_completed s1 = rs_completed s ∧ c_out (sconn s') = c_out (sconn s1) ++ o1 ∧
    c_in c' `prefix_of` o1.
Proof.
  intros Hi Hf Hin Hw E Ho Hp Hc. destruct fuel as [|f].
  { injection E as _ <-. by destruct (silent_starves c h c' o (c_out (sconn s))). }
  unfold recv_rest in E. rewrite (bind_eq _ _ _ _ _ (loop_query _ _ _ _ f i sha rest s Hi Hf Hin)) in E.
  rewrite bind_assoc in E. apply bind_inv in E as [(u & s1 & E1 & E2)|(r0 & E1 & Hr & ->)];
    apply recv_resume_query_answers in E1 as [([v Hv] & Hcm & n & Hn & Hs1)|[Hr' Hs1]]; try done.
  - exists f, s1. assert (heard s1 s') as [o1 Ho1] by by eapply recv_rest_heard.
    assert (o = frame (offer_header i n) ++ o1) as ->.
    { rewrite Ho1, Hs1, out_of_out, <-app_assoc in Ho. by apply app_inv_head in Ho. }
    destruct (ReadHeader_prefix (offer_header i n) o1 c h c' (offer_ok i n Hi Hn) (offer_fits i n Hi Hn) Hp Hc) as [_ Hc'].
    exists o1. split_and!; try done; by rewrite Hs1.
  - by destruct (Hr' u).
  - subst r0. by destruct (Hr v).
  - exfalso. rewrite Hs1 in Ho. by eapply (silent_starves c h c' o (c_out (sconn s))).
Qed.

(** The body and its ack. *)
Lemma body_agrees fuel i meta b rest c a c' s r s' o :
  entry manifest i = Some meta → i ∉ rs_completed s →
  fits (index_header TypeFileHeader i) → fits (index_header TypeFileEnd i) →
  Body b → (fm_IsDir meta = true → b = []) →
  c_in (sconn s) = frame (index_header TypeFileHeader i) ++ b ++
    frame (index_header TypeFileEnd i) ++ rest →
  c_writes (sconn s) = None → recv_rest fuel tail s = (r, s') →
  c_out (sconn s') = c_out (sconn s) ++ o → c_in c `prefix_of` o →
  ReadHeader c = (Ok a, c') → hdr_OK a = true →
  ∃ f s1 o1, recv_rest f tail s1 = (r, s') ∧ c_in (sconn s1) = rest ∧ c_writes (sconn s1) = None ∧
    rs_completed s1 = {[i]} ∪ rs_completed s ∧ c_out (sconn s') = c_out (sconn s1) ++ o1 ∧
    c_in c' `prefix_of` o1.
Proof.
  intros He Hn Hfh Hfe Hb Hd Hin Hw E Ho Hp Hc Ha. pose proof (entry_int64 _ _ He) as Hi.
  destruct fuel as [|f].
  { injection E as _ <-. by destruct (silent_starves c a c' o (c_out (sconn s))). }
  unfold recv_rest in E. rewrite (bind_eq _ _ _ _ _ (loop_file _ _ _ _ f i meta _ s Hi Hfh Hin He Hn)) in E.
  set (s0 := set_s_in _ s) in E.
  assert (∀ r0 s1, (if fm_IsDir meta
    then recv_directory dir peer (Z.of_nat (length manifest)) i meta
    else recv_file dir peer (Z.of_nat (length manifest)) resume i meta) s0 = (r0, s1) →
    answered i rest s0 r0 s1) as Hans.
  { intros r0 s1 E1. destruct (fm_IsDir meta).
    - eapply (recv_directory_answers _ _ _ _ _ _ _ _ (index_header TypeFileEnd i));
        [exact Hi|by apply index_ok|exact Hfe| |exact Hw|exact E1].
      unfold s0. by rewrite (Hd eq_refl).
    - eapply (recv_file_answers _ _ _ _ _ _ _ _ _ b (index_header TypeFileEnd i));
        [exact Hi|exact Hb|reflexivity|by apply index_ok|exact Hfe|reflexivity|exact Hw|exact E1]. }
  rewrite bind_assoc in E. apply bind_inv in E as [(u & s1 & E1 & E2)|(r0 & E1 & Hr & ->)];
    apply Hans in E1 as [([v Hv] & A1 & A2 & A3 & A4)|[Hr' Href]]; try done.
  - exists f, s1. assert (heard s1 s') as [o1 Ho1] by by eapply recv_rest_heard.
    assert (o = frame (ack i true "") ++ o1) as ->.
    { rewrite Ho1, A2 in Ho. rewrite <-app_assoc in Ho. by apply app_inv_head in Ho. }
    destruct (ReadHeader_prefix (ack i true "") o1 c a c' (ack_ok i true _ Hi) (ack_fits i Hi) Hp Hc) as [_ Hc'].
    exists o1. by split_and!.
  - by destruct (Hr' u).
  - subst r0. by destruct (Hr v).
  - exfalso. by eapply (refused_starves i c a c' o s0).
Qed.

Context (Hdone : ∀ s, c_writes (sconn s) = None → ∃ s', tail s = (Ok (), s')).

(** The end of the session. *)
Lemma end_agrees fuel count sw u sw' s r s' o :
  send_rest progress count (Z.of_nat (length manifest)) [] devName sw = (Ok u, sw') → writable sw →
  done_to (Z.of_nat (length manifest)) s → c_writes (sconn s) = None →
  c_out (sw_conn sw') = c_out (sw_conn sw) ++ c_in (sconn s) → recv_rest fuel tail s = (r, s') →
  c_out (sconn s') = c_out (sconn s) ++ o → c_in (sw_conn sw) `prefix_of` o → r = Ok ().
Proof.
  intros Es Hw Hd Hl Hu E Ho Hp. unfold send_rest in Es. cbn [send_entries] in Es.
  rewrite bind_ret_l in Es. apply bind_Ok_inv in Es as (? & w1 & [Hf E1]%send_control_Ok & Es); [|done..].
  apply bind_Ok_inv in Es as (a & w2 & E2 & E3).
  assert (souts w1 sw') as [z Hx].
  { transitivity w2; [by eapply s_conn_souts; [apply ReadHeader_outs|]|].
    destruct (_ || _); [done|]. by eapply say_souts. }
  assert (c_in (sconn s) = frame end_header ++ z) as Hin.
  { unfold emits in E1. rewrite Hx, E1, out_of_out, <-app_assoc in Hu. by apply app_inv_head in Hu. }
  assert (c_in (sw_conn w1) = c_in (sw_conn sw)) as Hi1 by (unfold emits in E1; by rewrite E1).
  apply zoom_inv in E2 as (c & E2 & _).
  destruct fuel as [|f].
  { injection E as _ <-. rewrite <-Hi1 in Hp. by destruct (silent_starves _ a c o (c_out (sconn s)) (eq_sym Ho) Hp E2). }
  pose proof (done_to_size _ _ (Nat2Z.is_nonneg _) Hd) as Hsz.
  unfold recv_rest in E.
  rewrite (bind_Ok _ _ _ _ _ (loop_end _ _ _ _ f z s Hf Hin (Nat2Z.inj _ _ Hsz))) in E.
  destruct (Hdone (set_s_in z s) Hl) as (s2 & E4). rewrite E4 in E. by injection E as <- _.
Qed.

Lemma rest_agrees l i fuel count sw u sw' s r s' o :
  send_rest progress count i l devName sw = (Ok u, sw') → writable sw →
  (∀ k m p, l !! k = Some (m, p) →
     entry manifest (i + Z.of_nat k) = Some (valid_FileMeta m) ∧ inInt64 (fm_Size m)) →
  i + Z.of_nat (length l) = Z.of_nat (length manifest) →
  done_to i s → c_writes (sconn s) = None →
  c_out (sw_conn sw') = c_out (sw_conn sw) ++ c_in (sconn s) → recv_rest fuel tail s = (r, s') →
  c_out (sconn s') = c_out (sconn s) ++ o → c_in (sw_conn sw) `prefix_of` o → r = Ok ().
Proof.
  revert i fuel sw s o. induction l as [|[m path] l IH]; intros i fuel sw s o Es Hw Hl Hn Hd Hlive Hu E Ho Hp.
  { cbn in Hn. rewrite Z.add_0_r in Hn. subst i. by eapply end_agrees. }
  rewrite send_rest_cons in Es. destruct (Hl 0%nat m path eq_refl) as [He Hs].
  rewrite Z.add_0_r in He. pose proof (entry_int64 _ _ He) as Hi.
  apply bind_Ok_inv in Es as (v & sw1 & E1 & Es).
  apply send_entry_Ok in E1 as [Hes Hw1]; [|done..].
  pose proof Es as Hgrow. apply send_rest_souts in Hgrow.
  destruct (entry_bytes i m sw sw1 sw' s Hes Hgrow Hu) as
    (w1 & w2 & w3 & offer & a & b & x & Hin & Hx & Hb & Hdir & I1 & R1 & I3 & R3 & Ha).
  destruct Hes as [Fq Fh Fe _]. rewrite <-I1 in Hp.
  destruct (query_agrees fuel i _ _ _ offer (sw_conn w2) s r s' o Hi Fq Hin Hlive E Ho Hp R1) as
    (f & s1 & o1 & E2 & Hin1 & Hl1 & Hc1 & Ho1 & Hp1).
  rewrite <-I3 in Hp1.
  destruct (body_agrees f i (valid_FileMeta m) b x (sw_conn w3) a (sw_conn sw1) s1 r s' o1) as
    (f2 & s2 & o2 & E3 & Hin2 & Hl2 & Hc2 & Ho2 & Hp2); try done.
  { rewrite Hc1. intros Hin'%Hd. lia. }
  apply (IH (i + 1) f2 sw1 s2 o2); try done.
  - intros k m' p' Hk. replace (i + 1 + Z.of_nat k) with (i + Z.of_nat (S k)) by lia. by eapply Hl.
  - cbn [length] in Hn. lia.
  - intros j. rewrite Hc2, Hc1, elem_of_union, elem_of_singleton. unfold done_to in Hd.
    rewrite (Hd j). apply entry_range in He. lia.
  - by rewrite Hin2.
Qed.
End agreement.

(** What the receiver does after the last frame. *)
Definition finish (peer : string) : M rsess unit :=
  in_world (reply (ack 0 true "")) ;;;
  saved <- gets rs_saved ;;
  in_world (
    notify_Send ("Received " +:+ itoa (Z.of_nat (length saved)) +:+ " file(s) from " +:+ peer)
      (join_with ", " (baseNames saved)) ;;;
    broadcast (recv_event "recv-done" peer (Z.of_nat (length saved)))).

Lemma finish_heard peer : keeps heard (finish peer).
Proof.
  unfold finish. apply keeps_bind; [apply _|apply in_world_heard, reply_wouts|]. intros _.
  apply keeps_bind; [apply _|auto with keeps|]. intros saved.
  apply in_world_heard. apply keeps_bind; [apply _|apply keeps_modify; intros w; red; reflexivity|].
  intros _. apply broadcast_wouts.
Qed.

Lemma finish_Ok peer s : c_writes (sconn s) = None → ∃ s', finish peer s = (Ok (), s').
Proof.
  intros Hw. destruct (says_reply 0 ltac:(done) (rs_world s) Hw) as (w & E & _).
  unfold finish, in_world at 1. unfold zoom, bind at 1. rewrite E. by eexists.
Qed.

Lemma with_slots_run {A} (body : M rsess A) w r w' :
  with_slots body w = (r, w') →
  ∃ s, body (mkSess w ∅ ∅ []) = (r, s) ∧ w_conn w' = sconn s.
Proof.
  unfold with_slots. destruct (body _) as [r0 s]. intros E. exists s.
  by destruct r0; simplify_eq.
Qed.

Lemma receiveFiles_agrees dir peer manifest resume progress devName count l u sw sw' w r w' o :
  Z.of_nat (length manifest) ≤ maxInt64 → manifest ≠ [] →
  manifest = map valid_FileMeta (map fst l) → Forall (λ x, inInt64 (fm_Size x.1)) l →
  send_rest progress count 0 l devName sw = (Ok u, sw') → writable sw →
  c_writes (w_conn w) = None →
  c_out (sw_conn sw') = c_out (sw_conn sw) ++ c_in (w_conn w) →
  receiveFiles dir peer manifest resume w = (r, w') →
  c_out (w_conn w') = c_out (w_conn w) ++ o → c_in (sw_conn sw) `prefix_of` o → r = Ok ().
Proof.
  intros Hc Hne Hl Hsz Es Hw Hlive Hu E Ho Hp. unfold receiveFiles in E. rewrite bool_decide_false in E by done.
  apply bind_inv in E as [(v & w1 & [= _ <-] & E)|(r0 & [= <- <-] & Hr & _)]; [|by destruct (Hr ())].
  apply with_slots_run in E as (s & E & Hs). fold (finish peer) in E.
  apply bind_inv in E as [(fuel & s1 & [= <- <-] & E)|(r0 & [= <- <-] & Hr & _)]; [|by destruct (Hr _ eq_refl)].
  eapply (rest_agrees progress devName dir peer manifest resume Hc (finish peer) (finish_heard peer)
    (finish_Ok peer) l 0); [exact Es|exact Hw| | | | | |exact E| |exact Hp].
  - intros k m p Hk. rewrite Z.add_0_l. split.
    + unfold entry. rewrite (proj2 (Z.ltb_ge _ _)), Nat2Z.id by lia. rewrite Hl.
      rewrite !list_lookup_fmap, Hk. done.
    + apply (Forall_lookup_1 _ _ _ _ Hsz Hk).
  - rewrite Hl, !length_map. done.
  - intros j. cbn. split; [set_solver|lia].
  - exact Hlive.
  - exact Hu.
  - rewrite <-Hs. exact Ho.
Qed.

(** ** Properties *)

Section outcome.
Context (ds : list string) (Hne : ds ≠ []) (Hds : Forall plain ds).
Context (clipboard_set : bytes → string → option error) (peer : string).
Context (progress : bool) (devName : string).

Lemma start_ok manifest : Forall FileMeta_ok manifest → Header_ok (start_header manifest).
Proof. intros H. unfold Header_ok. cbn. by split_and!. Qed.

Lemma transfer_outcome manifest fsPaths heard e disk log ctx sw' w r w' later :
  manifest ≠ [] → length manifest = length fsPaths → Z.of_nat (length manifest) ≤ maxInt64 →
  Forall FileMeta_ok manifest →
  send_session progress devName manifest fsPaths (mkSworld (mkConn heard e [] None) disk log ctx)
    = (Ok (), sw') →
  c_in (w_conn w) = c_out (sw_conn sw') → c_writes (w_conn w) = None →
  receiveSession (abs_path ds) clipboard_set peer w = (r, w') →
  c_out (w_conn w') = c_out (w_conn w) ++ heard ++ later →
  r = Ok () ∧ ∀ meta, meta ∈ manifest → on_disk_entry ds (wfs w') (valid_FileMeta meta).
Proof.
  intros Hm Hlen Hc Hok Es Hin Hw E Ho. unfold send_session in Es.
  apply bind_Ok_inv in Es as (v & sw1 & [Hf E1]%send_control_Ok & Es); [|done..].
  fold (send_rest progress (Z.of_nat (length manifest)) 0 (combine manifest fsPaths) devName) in Es.
  pose proof (send_rest_souts _ _ _ _ _ _ _ _ Es) as [x Hx].
  assert (c_in (w_conn w) = frame (start_header manifest) ++ x) as Hin'.
  { unfold emits in E1. by rewrite Hin, Hx, E1. }
  unfold receiveSession in E.
  rewrite (bind_Ok _ _ w (inl (valid_Header (start_header manifest))) (set_w_in x w)) in E.
  2:{ apply try_Ok, read_header_on; [by apply start_ok|done|done]. }
  rewrite (valid_type (start_header manifest) TypeSessionStart) in E by done.
  change (TypeSessionStart =?s TypeSessionStart) with true in E. cbn [negb] in E.
  change (hdr_Kind (valid_Header (start_header manifest))) with (to_valid KindFiles) in E.
  change (to_valid KindFiles) with KindFiles in E.
  change (KindFiles =?s KindClipboard) with false in E.
  change (KindFiles =?s KindFiles) with true in E. cbv beta iota in E.
  change (hdr_Files (valid_Header (start_header manifest))) with (map valid_FileMeta manifest) in E.
  change (hdr_Resume (valid_Header (start_header manifest))) with true in E.
  assert (map fst (combine manifest fsPaths) = manifest) as Hfst.
  { clear -Hlen. revert fsPaths Hlen. induction manifest as [|m l IH]; intros [|p ps] H; try done.
    cbn in *. f_equal. apply IH. lia. }
  assert (r = Ok ()) as ->.
  { eapply (receiveFiles_agrees _ _ _ _ _ _ _ (combine manifest fsPaths));
      [by rewrite length_map| | | |exact Es|by eapply emits_writable| | |exact E| |].
    - by destruct manifest.
    - by rewrite Hfst.
    - apply Forall_forall. intros [m p] Hmp. apply in_combine_l in Hmp.
      rewrite Forall_forall in Hok. by apply Hok.
    - exact Hw.
    - cbn. rewrite Hx. done.
    - exact Ho.
    - unfold emits in E1. rewrite E1. cbn. by apply prefix_app_r. }
  split; [done|]. intros meta Hmeta. apply receiveFiles_spec in E as (_ & _ & H); [|done..].
  apply H; [done|]. by apply list_elem_of_fmap_2.
Qed.
End outcome.


Definition demo_heard : bytes :=
  frame (offer_header 0 0) ++ frame (ack 0 true "") ++ frame (ack 0 true "").
Definition demo_source : fs := mkFs {["/s" := NDir; "/s/a.txt" := NFile (bs "hi")]} [].
Definition demo_sent : res () * sworld :=
  send_session true "phone" [demo_meta] ["/s/a.txt"]
    (mkSworld (mkConn demo_heard None [] None) demo_source [] None).
Definition demo_received : res () * rworld :=
  receiveSession (abs_path ["d"]) (λ _ _, None) "bob" (demo_world (c_out (sw_conn demo_sent.2))).

#[local] Strategy expand [demo_sent demo_received].

Lemma demo_sent_Ok :
  send_session true "phone" [demo_meta] ["/s/a.txt"]
    (mkSworld (mkConn demo_heard None [] None) demo_source [] None) = (Ok (), demo_sent.2).
Proof.
  fold demo_sent. assert (demo_sent.1 = Ok ()) as E by by vm_compute.
  rewrite <-E. apply surjective_pairing.
Qed.
Lemma demo_received_run :
  receiveSession (abs_path ["d"]) (λ _ _, None) "bob" (demo_world (c_out (sw_conn demo_sent.2)))
    = (demo_received.1, demo_received.2).
Proof. fold demo_received. apply surjective_pairing. Qed.

