(* ===== verification/Exchange.v ===== *)
(** * Two programs over one connection

    Both sides of a connection run at once; each reads what the other has
    written so far and waits for more. A side is a deterministic function of
    its input, so what the pair writes does not depend on how their steps
    interleave: [exchange] computes it round by round. [script] says that a
    computation reads and writes as a list of events prescribes and waits at
    every read that is not there yet; two sides with dual scripts run to their
    ends ([exchange_completes]): no deadlock. *)

From S2P Require Import Prelude GoStrings Go.
From Stdlib Require Import ZArith Lia String Ascii List Bool.
From stdpp Require Import base list strings gmap option numbers.

#[local] Open Scope list_scope.
#[local] Open Scope nat_scope.

(** ** Events *)
Inductive event := Snd (b : bytes) | Rcv (b : bytes).

Definition flip (e : event) : event := match e with Snd b => Rcv b | Rcv b => Snd b end.
Definition dual (t : list event) : list event := map flip t.
Definition written (e : event) : bytes := match e with Snd b => b | Rcv _ => [] end.
Definition read (e : event) : bytes := match e with Snd _ => [] | Rcv b => b end.
Definition writes (t : list event) : bytes := concat (map written t).
Definition reads (t : list event) : bytes := concat (map read t).

Lemma writes_app t u : writes (t ++ u) = writes t ++ writes u.
Proof. unfold writes. by rewrite map_app, concat_app. Qed.
Lemma reads_app t u : reads (t ++ u) = reads t ++ reads u.
Proof. unfold reads. by rewrite map_app, concat_app. Qed.
Lemma dual_app t u : dual (t ++ u) = dual t ++ dual u.
Proof. apply map_app. Qed.
Lemma reads_dual t : reads (dual t) = writes t.
Proof.
  induction t as [|e t IH]; [done|]. change (read (flip e) ++ reads (dual t) = written e ++ writes t).
  rewrite IH. by destruct e.
Qed.
Lemma writes_dual t : writes (dual t) = reads t.
Proof.
  induction t as [|e t IH]; [done|]. change (written (flip e) ++ writes (dual t) = read e ++ reads t).
  rewrite IH. by destruct e.
Qed.

(** ** Running both sides *)

(** A side: from what has arrived, its outcome and what it has written. *)
Definition party (A : Type) : Type := bytes → res A * bytes.

(** Each round both sides go as far as what the other wrote before lets
    them: what the first wrote, and what the second wrote. *)
Fixpoint exchange {A B} (n : nat) (p : party A) (q : party B) : bytes * bytes :=
  match n with
  | O => ([], [])
  | S n => let '(x, y) := exchange n p q in ((p y).2, (q x).2)
  end.

(** [p] follows [t]: with everything [t] reads it returns [a]; with a part it
    waits at the first read that is not there, having written what comes
    before. *)
Definition plays {A} (p : party A) (t : list event) (a : A) : Prop :=
  p (reads t) = (Ok a, writes t) ∧
  ∀ t1 b t2, t = t1 ++ Rcv b :: t2 → p (reads t1) = (Block, writes t1).

Section completion.
Context {A B : Type} (p : party A) (q : party B) (t : list event) (a : A) (b : B).

(** Where a side that follows [t] stops when the first [k] events are there. *)
Definition stop (s : list event) (k k' : nat) : Prop :=
  k ≤ k' ≤ length s ∧ (k' = length s ∨ ∃ x, s !! k' = Some (Rcv x)) ∧
  (∀ x, s !! k = Some (Snd x) → k < k').

Lemma plays_stop {C} (r : party C) s c k :
  plays r s c → k ≤ length s → ∃ k', stop s k k' ∧ (r (reads (take k s))).2 = writes (take k' s).
Proof.
  intros [H1 H2]. remember (length s - k) as n eqn:Hn. revert k Hn.
  induction n as [|n IH]; intros k Hn Hk.
  - exists k. assert (k = length s) as -> by lia. split.
    + split; [lia|]. split; [by left|]. intros x Hx%lookup_lt_Some. lia.
    + rewrite take_ge by lia. by rewrite H1.
  - destruct (lookup_lt_is_Some_2 s k) as [[x|x] Hx]; [lia|..].
    + destruct (IH (S k)) as (k' & [H3 [H4 H5]] & H6); [lia..|].
      exists k'. split; [split; [lia|]; split; [done|intros; lia]|].
      rewrite <-H6. f_equal. rewrite (take_S_r _ _ _ Hx), reads_app. cbn. by rewrite !app_nil_r.
    + exists k. split; [split; [lia|]; split; [right; eauto|congruence]|].
      by rewrite (H2 _ x (drop (S k) s)) by (by rewrite take_drop_middle).
Qed.

(** The round: the sides' positions in the script. *)
Definition positions (xy : bytes * bytes) (i j : nat) : Prop :=
  i ≤ length t ∧ j ≤ length t ∧ xy.1 = writes (take i t) ∧ xy.2 = reads (take j t).

Lemma round xy i j :
  plays p t a → plays q (dual t) b → positions xy i j →
  ∃ i' j', positions ((p xy.2).2, (q xy.1).2) i' j' ∧ stop t j i' ∧ stop (dual t) i j'.
Proof.
  intros Hp Hq (Hi & Hj & Ex & Ey). assert (length (dual t) = length t) as Hl by apply length_map.
  destruct (plays_stop p t a j Hp Hj) as (i' & Hs & Hx).
  destruct (plays_stop q (dual t) b i Hq ltac:(lia)) as (j' & Hs' & Hy).
  exists i', j'. split; [|done]. split_and!; [apply Hs|rewrite <-Hl; apply Hs'| |]; cbn.
  - by rewrite Ey.
  - rewrite Ex. unfold dual in Hy. rewrite !firstn_map in Hy. fold (dual (take i t)) in Hy.
    fold (dual (take j' t)) in Hy. by rewrite reads_dual, writes_dual in Hy.
Qed.

Lemma dual_lookup k e : dual t !! k = Some e → t !! k = Some (flip e).
Proof. unfold dual. rewrite list_lookup_fmap. destruct (t !! k) as [[]|]; naive_solver. Qed.

(** After [n] rounds both are past [n - 1] events. *)
Lemma exchange_progress n :
  plays p t a → plays q (dual t) b →
  ∃ i j, positions (exchange n p q) i j ∧ (n ≤ S i ∨ i = length t) ∧ (n ≤ S j ∨ j = length t) ∧
    (0 < n → (i = length t ∨ ∃ x, t !! i = Some (Rcv x)) ∧ (j = length t ∨ ∃ x, t !! j = Some (Snd x))).
Proof.
  intros Hp Hq. induction n as [|n (i & j & H & Hi & Hj & Hw)].
  - exists 0, 0. split_and!; [split_and!; [lia|lia|done|done]|lia|lia|lia].
  - destruct (round _ i j Hp Hq H) as (i' & j' & H' & (H1 & H2 & H3) & (H4 & H5 & H6)).
    rewrite (length_map flip t : length (dual t) = length t) in H4, H5. exists i', j'. cbn [exchange]. destruct (exchange n p q) as [x y].
    destruct H as (Hil & Hjl & _). split_and!; [done| | |].
    + destruct Hj as [Hj| ->]; [|lia]. destruct n as [|n]; [lia|].
      destruct (Hw ltac:(lia)) as [_ [-> |[z Hz]]]; [lia|]. specialize (H3 _ Hz). lia.
    + destruct Hi as [Hi| ->]; [|lia]. destruct n as [|n]; [lia|].
      destruct (Hw ltac:(lia)) as [[-> |[z Hz]] _]; [lia|].
      assert (dual t !! i = Some (Snd z)) as Hz' by (unfold dual; by rewrite list_lookup_fmap, Hz).
      specialize (H6 _ Hz'). lia.
    + intros _. split; [done|]. destruct H5 as [->|[z Hz%dual_lookup]]; [by left|right; eauto].
Qed.

(** Both sides reach their ends, whatever the number of rounds beyond. *)
Theorem exchange_completes n :
  plays p t a → plays q (dual t) b → length t < n →
  exchange n p q = (writes t, reads t) ∧ p (reads t) = (Ok a, writes t) ∧ q (writes t) = (Ok b, reads t).
Proof.
  intros Hp Hq Hn. destruct (exchange_progress n Hp Hq) as (i & j & (Hi & Hj & Ex & Ey) & H1 & H2 & _).
  rewrite take_ge in Ex, Ey by lia. split_and!.
  - destruct (exchange n p q). cbn in *. by subst.
  - apply Hp.
  - destruct Hq as [Hq _]. by rewrite reads_dual, writes_dual in Hq.
Qed.
End completion.

(** ** Computations that follow a script *)
Section script.
Context {S : Type} (cn : S → conn).

(** The connection is open in both directions. *)
Definition live (s : S) : Prop := c_end (cn s) = None ∧ c_writes (cn s) = None.

(** From a live state with [P], [m] does what [t] says: if all that [t] reads
    is there it returns, leaving the rest unread, in a live state with [Q]; if
    the input ends at a read of [t], it waits there. *)
Definition script {A} (P : S → Prop) (m : M S A) (t : list event) (Q : A → S → Prop) : Prop :=
  ∀ s, P s → live s →
    (∀ rest, c_in (cn s) = reads t ++ rest →
       ∃ a s', m s = (Ok a, s') ∧ Q a s' ∧ live s' ∧ c_in (cn s') = rest ∧
         c_out (cn s') = c_out (cn s) ++ writes t) ∧
    (∀ t1 b t2, t = t1 ++ Rcv b :: t2 → c_in (cn s) = reads t1 →
       ∃ s', m s = (Block, s') ∧ c_out (cn s') = c_out (cn s) ++ writes t1).

Lemma script_conseq {A} (P P' : S → Prop) (m : M S A) t (Q Q' : A → S → Prop) :
  script P m t Q → (∀ s, P' s → P s) → (∀ a s, Q a s → Q' a s) → script P' m t Q'.
Proof.
  intros H HP HQ s Hs Hl. destruct (H s (HP s Hs) Hl) as [H1 H2]. split; [|done].
  intros rest Hr. destruct (H1 rest Hr) as (a & s' & ? & ? & ?). eauto 10.
Qed.

Lemma script_bind {A B} (P : S → Prop) (m : M S A) t (Q : A → S → Prop) (k : A → M S B) u R :
  script P m t Q → (∀ a, script (Q a) (k a) u R) → script P (bind m k) (t ++ u) R.
Proof.
  intros Hm Hk s Hs Hl. destruct (Hm s Hs Hl) as [H1 H2]. split.
  - intros rest Hr. rewrite reads_app, <-app_assoc in Hr.
    destruct (H1 _ Hr) as (a & s1 & E1 & HQ & Hl1 & Hi1 & Ho1).
    destruct (Hk a s1 HQ Hl1) as [H3 _]. destruct (H3 rest Hi1) as (b & s2 & E2 & HR & Hl2 & Hi2 & Ho2).
    exists b, s2. rewrite (bind_Ok _ _ _ _ _ E1). split_and!; try done.
    by rewrite Ho2, Ho1, writes_app, app_assoc.
  - intros t1 b t2 Ht Hi.
    apply app_eq_app in Ht as (l & [[-> Hu]|[-> Hu]]).
    + destruct l as [|e l].
      * cbn in Hu. destruct (H1 []) as (a & s1 & E1 & HQ & Hl1 & Hi1 & Ho1); [by rewrite !app_nil_r|].
        destruct (Hk a s1 HQ Hl1) as [_ H3]. destruct (H3 [] b t2) as (s2 & E2 & Ho2); [done|done|].
        exists s2. rewrite (bind_Ok _ _ _ _ _ E1). split; [done|]. by rewrite Ho2, Ho1, !app_nil_r.
      * injection Hu as <- ->. destruct (H2 t1 b l) as (s1 & E1 & Ho1); [done|done|].
        exists s1. split; [|done]. unfold bind. by rewrite E1.
    + rewrite reads_app in Hi. destruct (H1 _ Hi) as (a & s1 & E1 & HQ & Hl1 & Hi1 & Ho1).
      destruct (Hk a s1 HQ Hl1) as [_ H3]. destruct (H3 l b t2) as (s2 & E2 & Ho2); [done|done|].
      exists s2. rewrite (bind_Ok _ _ _ _ _ E1). split; [done|].
      by rewrite Ho2, Ho1, writes_app, app_assoc.
Qed.

Lemma script_bind' {A B} (P : S → Prop) (m : M S A) t (Q : A → S → Prop) (k : A → M S B) u v R :
  script P m t Q → (∀ a, script (Q a) (k a) u R) → v = t ++ u → script P (bind m k) v R.
Proof. intros ?? ->. by eapply script_bind. Qed.

(** The first step returns a known value. *)
Lemma script_bind_eq {A B} (P : S → Prop) (m : M S A) t v (F : S → Prop) (k : A → M S B) u w R :
  script P m t (λ a s, a = v ∧ F s) → script F (k v) u R → w = t ++ u →
  script P (bind m k) w R.
Proof.
  intros Hm Hk. apply script_bind' with (Q := λ a s, a = v ∧ F s); [done|].
  intros a s [-> Hs]. by apply Hk.
Qed.
Lemma script_seq {B} (P F : S → Prop) (m : M S unit) t (k : M S B) u w R :
  script P m t (λ _, F) → script F k u R → w = t ++ u → script P (bind m (λ _, k)) w R.
Proof. intros Hm Hk. by apply script_bind' with (Q := λ _, F). Qed.
Lemma script_try_eq {A} (P : S → Prop) (m : M S A) t v (F : S → Prop) :
  script P m t (λ a s, a = v ∧ F s) → script P (try m) t (λ r s, r = inl v ∧ F s).
Proof.
  intros Hm s Hs Hl. destruct (Hm s Hs Hl) as [H1 H2]. split.
  - intros rest Hr. destruct (H1 rest Hr) as (a & s1 & E1 & [-> HF] & H). exists (inl v), s1.
    by rewrite (try_Ok _ _ _ _ E1).
  - intros t1 b t2 Ht Hi. destruct (H2 t1 b t2 Ht Hi) as (s1 & E1 & Ho). exists s1.
    unfold try. by rewrite E1.
Qed.

(** A step that leaves the connection alone and returns. *)
Lemma script_quiet {A} (P : S → Prop) (m : M S A) (Q : A → S → Prop) :
  (∀ s, P s → ∃ a s', m s = (Ok a, s') ∧ Q a s' ∧ cn s' = cn s) → script P m [] Q.
Proof.
  intros H s Hs Hl. destruct (H s Hs) as (a & s' & E & HQ & Hc). split.
  - intros rest Hr. exists a, s'. split_and!; try done; unfold live; rewrite Hc; try done.
    by rewrite app_nil_r.
  - intros t1 b t2 Ht. by destruct t1.
Qed.

Lemma script_ret {A} (P : S → Prop) (a : A) : script P (ret a) [] (λ x s, x = a ∧ P s).
Proof. apply script_quiet. intros s Hs. by exists a, s. Qed.

Lemma script_gets {A} (P : S → Prop) (f : S → A) : script P (gets f) [] (λ x s, x = f s ∧ P s).
Proof. apply script_quiet. intros s Hs. by exists (f s), s. Qed.

Lemma script_try {A} (P : S → Prop) (m : M S A) t Q :
  script P m t Q → script P (try m) t (λ r s, match r with inl a => Q a s | inr _ => False end).
Proof.
  intros Hm s Hs Hl. destruct (Hm s Hs Hl) as [H1 H2]. split.
  - intros rest Hr. destruct (H1 rest Hr) as (a & s1 & E1 & H). exists (inl a), s1.
    by rewrite (try_Ok _ _ _ _ E1).
  - intros t1 b t2 Ht Hi. destruct (H2 t1 b t2 Ht Hi) as (s1 & E1 & Ho). exists s1.
    unfold try. by rewrite E1.
Qed.

Lemma script_ignore {A} (P : S → Prop) (m : M S A) t Q :
  script P m t Q → script P (ignore m) t (λ _ s, ∃ a, Q a s).
Proof.
  intros Hm. eapply script_bind'; [by apply script_try| |by rewrite app_nil_r].
  intros [a|e]; [|by intros s []].
  eapply script_conseq; [apply (script_ret (λ s, Q a s) ())|done|]. intros u s [_ ?]. eauto.
Qed.

Lemma script_false {A} (P : S → Prop) (m : M S A) t Q : (∀ s, P s → False) → script P m t Q.
Proof. intros H s Hs. by destruct (H s Hs). Qed.

(** *** Fuel that the unread input bounds *)
Definition under (n : nat) (s : S) : Prop := length (c_in (cn s)) < n.

Lemma script_under {A} n (P : S → Prop) (m : M S A) t Q :
  reads t ≠ [] → script P m t Q →
  script (λ s, P s ∧ under (Datatypes.S n) s) m t (λ a s, Q a s ∧ under n s).
Proof.
  intros Ht Hm s [Hs Hu] Hl. destruct (Hm s Hs Hl) as [H1 H2]. split; [|done].
  intros rest Hr. destruct (H1 rest Hr) as (a & s' & E & HQ & Hl' & Hi & Ho).
  exists a, s'. split_and!; try done. unfold under in *. rewrite Hr, length_app in Hu. rewrite Hi.
  destruct (reads t); [done|cbn in Hu; lia].
Qed.
Lemma script_keep_under {A} n (P : S → Prop) (m : M S A) t Q :
  script P m t Q → script (λ s, P s ∧ under n s) m t (λ a s, Q a s ∧ under n s).
Proof.
  intros Hm s [Hs Hu] Hl. destruct (Hm s Hs Hl) as [H1 H2]. split; [|done].
  intros rest Hr. destruct (H1 rest Hr) as (a & s' & E & HQ & Hl' & Hi & Ho).
  exists a, s'. split_and!; try done. unfold under in *. rewrite Hr, length_app in Hu. rewrite Hi. lia.
Qed.
End script.

Lemma script_zoom {S T A} (cnS : S → conn) (cnT : T → conn) proj upd (P : T → Prop) (F : S → Prop)
    (m : M T A) t (Q : A → T → Prop) (R : A → S → Prop) :
  (∀ s, cnS s = cnT (proj s)) → (∀ s x, cnS (upd x s) = cnT x) →
  script cnT P m t Q → (∀ s, F s → P (proj s)) → (∀ s a x, F s → Q a x → R a (upd x s)) →
  script cnS F (zoom proj upd m) t R.
Proof.
  intros Hp Hu Hm HP HR s Hs Hl.
  assert (live cnT (proj s)) as Hl' by (unfold live in *; by rewrite <-Hp).
  destruct (Hm (proj s) (HP s Hs) Hl') as [H1 H2]. rewrite Hp. split.
  - intros rest Hr. destruct (H1 rest Hr) as (a & x & E & HQ & Hlx & Hi & Ho).
    exists a, (upd x s). unfold zoom, live. rewrite E, Hu. split_and!; try done; [by apply HR|apply Hlx..].
  - intros t1 b t2 Ht Hi. destruct (H2 t1 b t2 Ht Hi) as (x & E & Ho).
    exists (upd x s). unfold zoom. by rewrite E, Hu.
Qed.

(** A side of an exchange from a computation and its start. *)
Definition party_of {S A} (cn : S → conn) (m : M S A) (start : bytes → S) : party A := λ input,
  let '(r, s) := m (start input) in (r, c_out (cn s)).

Lemma script_plays {S A} (cn : S → conn) (P : S → Prop) (m : M S A) t (Q : A → S → Prop) start a :
  script cn P m t Q → (∀ i, P (start i)) → (∀ i, cn (start i) = conn_of i) →
  (∀ x s, Q x s → x = a) →
  plays (party_of cn m start) t a ∧ ∃ s, m (start (reads t)) = (Ok a, s) ∧ Q a s.
Proof.
  intros Hm HP Hc Ha. assert (∀ i, live cn (start i)) as Hl by (intros i; unfold live; by rewrite Hc).
  destruct (Hm (start (reads t)) (HP _) (Hl _)) as [H1 _].
  destruct (H1 []) as (x & s & E & HQ & _ & _ & Ho); [by rewrite Hc, app_nil_r|].
  pose proof (Ha _ _ HQ) as ->. rewrite Hc in Ho. split; [split|eauto].
  - unfold party_of. by rewrite E, Ho.
  - intros t1 b t2 Ht. destruct (Hm (start (reads t1)) (HP _) (Hl _)) as [_ H2].
    destruct (H2 t1 b t2 Ht) as (s1 & E1 & Ho1); [by rewrite Hc|]. unfold party_of.
    rewrite E1, Ho1. by rewrite Hc.
Qed.
