(* ===== verification/Completion.v ===== *)
(** * A transfer that meets no failure completes

    The scripts of both sessions of send.go and their duals for receive.go:
    run against each other they neither deadlock nor fail, and what was sent
    is stored. *)

From S2P Require Import Prelude GoStrings GoPath Go GoFmt Sha256 Json JsonRec JsonSize Fs Proto Ipc Paths Receive Send Transfer Exchange.
From Stdlib Require Import ZArith Lia String Ascii List Bool.
From stdpp Require Import base list strings gmap option numbers.

#[local] Open Scope string_scope.
#[local] Open Scope list_scope.
#[local] Open Scope Z_scope.

(** ** Frames *)
Definition on_wire (c : conn) : conn := c.
Definition any_conn (c : conn) : Prop := True.

Lemma one_read (b b' : bytes) t1 t2 : [Rcv b] = t1 ++ Rcv b' :: t2 → t1 = [] ∧ b' = b.
Proof. destruct t1 as [|? [|]]; naive_solver. Qed.

Lemma read_full_script b :
  b ≠ [] → script on_wire any_conn (read_full (length b)) [Rcv b] (λ x _, x = b).
Proof.
  intros Hb c _ [He Hw]. unfold on_wire in *. split.
  - intros rest Hin. cbn in Hin. rewrite app_nil_r in Hin.
    exists b, (set_c_in rest c). rewrite (read_full_app _ b rest) by done. cbn. by rewrite app_nil_r.
  - intros t1 b' t2 [-> ->]%one_read Hin. cbn in Hin. exists (set_c_in [] c).
    unfold read_full. rewrite Hin, decide_False by (destruct b; [done|cbn; lia]).
    rewrite He. cbn. by rewrite app_nil_r.
Qed.

Lemma ReadHeader_script h :
  Header_ok h → fits h →
  script on_wire any_conn ReadHeader [Rcv (frame h)] (λ x _, x = valid_Header h).
Proof.
  intros Ho Hf c _ [He Hw]. unfold on_wire in *. split.
  - intros rest Hin. cbn [reads read map concat] in Hin. rewrite app_nil_r in Hin.
    exists (valid_Header h), (set_c_in rest c). rewrite (ReadHeader_frame h rest) by done.
    split_and!; try done. cbn [c_out set_c_in]. by rewrite app_nil_r.
  - intros t1 b' t2 [-> ->]%one_read Hin. cbn in Hin. exists (set_c_in [] c).
    unfold ReadHeader, bind, read_full. rewrite Hin, decide_False by (cbn; lia).
    rewrite He. cbn. by rewrite app_nil_r.
Qed.

Lemma quiet_writes {A} (P : conn → Prop) (m : M conn A) b (Q : A → conn → Prop) :
  (∀ c, P c → c_writes c = None → ∃ a, m c = (Ok a, out_of b c) ∧ Q a (out_of b c)) →
  script on_wire P m [Snd b] Q.
Proof.
  intros H c Hc [He Hw]. unfold on_wire in *. split.
  - intros rest Hin. destruct (H c Hc Hw) as (a & E & HQ). exists a, (out_of b c).
    split_and!; try done. cbn [c_out out_of writes written map concat]. by rewrite app_nil_r.
  - intros [|? [|]] b' t2 Ht; naive_solver.
Qed.

Lemma WriteControl_script h :
  hdr_Length h = 0 → fits h → script on_wire any_conn (WriteControl h) [Snd (frame h)] (λ _ _, True).
Proof. intros Hl Hf. apply quiet_writes. intros c _ Hw. exists (). by rewrite WriteControl_ok. Qed.

(** A payload that is there is read as its own event. *)
Definition payload (b : bytes) : list event := if decide (b = []) then [] else [Snd b].
Lemma writes_payload b : writes (payload b) = b.
Proof. unfold payload. destruct (decide _) as [->|]; [done|]. cbn. by rewrite app_nil_r. Qed.

Lemma WriteMessage_script h p :
  fits h → hdr_Length h = Z.of_nat (length p) →
  script on_wire any_conn (WriteMessage h (Some p)) (Snd (frame h) :: payload p) (λ _ _, True).
Proof.
  intros Hf Hl.
  assert (script on_wire any_conn (WriteMessage h (Some p)) [Snd (frame h ++ p)] (λ _ _, True)) as H.
  { apply quiet_writes. intros c _ Hw. exists (). split; [|done]. destruct (decide (p = [])) as [->|Hp].
    - rewrite app_nil_r. unfold WriteMessage, frame. cbv zeta. unfold fits in Hf.
      rewrite (proj2 (Z.ltb_ge _ _)) by done.
      rewrite (bind_Ok _ _ _ _ _ (conn_write_ok _ _ Hw)).
      rewrite (bind_Ok _ _ _ _ _ (conn_write_ok _ _ (Hw : c_writes (out_of _ c) = None))).
      rewrite Hl, out_of_app. done.
    - rewrite WriteMessage_ok by (first [done|destruct p; cbn in *; [done|lia]]).
      rewrite Hl, Nat2Z.id, firstn_all. done. }
  intros c Hc Hlv. destruct (H c Hc Hlv) as [H1 _].
  assert (writes (Snd (frame h) :: payload p) = frame h ++ p) as Hwr.
  { change (frame h ++ writes (payload p) = frame h ++ p). by rewrite writes_payload. }
  assert (∀ t1 b t2, Snd (frame h) :: payload p ≠ t1 ++ Rcv b :: t2) as Hn.
  { unfold payload. intros [|? [|? [|]]] b t2; destruct (decide _); naive_solver. }
  split.
  - intros rest Hin. rewrite Hwr.
    assert (reads (Snd (frame h) :: payload p) = []) as Hr by (unfold payload; by destruct (decide _)).
    rewrite Hr in Hin. destruct (H1 rest Hin) as (a & s' & ? & ? & ? & ? & Ho). exists a, s'.
    split_and!; try done. rewrite Ho. cbn [writes written map concat]. by rewrite app_nil_r.
  - intros t1 b t2 Ht. by destruct (Hn t1 b t2).
Qed.

Lemma s_conn_script {A} (m : M conn A) t (Q : A → conn → Prop) (F : sworld → Prop) R :
  script on_wire any_conn m t Q →
  (∀ w a c, F w → Q a c → R a (mkSworld c (sw_fs w) (sw_progress w) (sw_ctx w))) →
  script sw_conn F (s_conn m) t R.
Proof. intros Hm HR. by eapply (script_zoom sw_conn on_wire). Qed.

Lemma on_conn_script {A} (m : M conn A) t (Q : A → conn → Prop) (F : rworld → Prop) R :
  script on_wire any_conn m t Q →
  (∀ w a c, F w → Q a c → R a (mkWorld c (w_disk w) (w_events w) (w_notes w) (w_clips w))) →
  script w_conn F (on_conn m) t R.
Proof. intros Hm HR. by eapply (script_zoom w_conn on_wire). Qed.

(** Facts about the sender's world that its writes do not touch. *)
Definition off_wire (F : sworld → Prop) : Prop :=
  ∀ w c, F w → F (mkSworld c (sw_fs w) (sw_progress w) (sw_ctx w)).
Definition woff_wire (F : rworld → Prop) : Prop :=
  ∀ w c, F w → F (mkWorld c (w_disk w) (w_events w) (w_notes w) (w_clips w)).

Lemma send_control_script F h :
  off_wire F → hdr_Length h = 0 → fits h →
  script sw_conn F (s_conn (WriteControl h)) [Snd (frame h)] (λ _, F).
Proof. intros HF Hl Hf. eapply s_conn_script; [by apply WriteControl_script|]. intros. by apply HF. Qed.
Lemma send_read_script F h :
  off_wire F → Header_ok h → fits h →
  script sw_conn F (s_conn ReadHeader) [Rcv (frame h)] (λ x w, x = valid_Header h ∧ F w).
Proof. intros HF Ho Hf. eapply s_conn_script; [by apply ReadHeader_script|]. intros. split; [done|by apply HF]. Qed.
Lemma recv_read_script F h :
  woff_wire F → Header_ok h → fits h →
  script w_conn F (on_conn ReadHeader) [Rcv (frame h)] (λ x w, x = valid_Header h ∧ F w).
Proof. intros HF Ho Hf. eapply on_conn_script; [by apply ReadHeader_script|]. intros. split; [done|by apply HF]. Qed.
Lemma reply_script F h :
  woff_wire F → hdr_Length h = 0 → fits h →
  script w_conn F (reply h) [Snd (frame h)] (λ _, F).
Proof.
  intros HF Hl Hf. unfold reply. eapply script_conseq; [|done|].
  - apply (script_ignore _ _ _ _ (λ (_ : unit) w, F w)).
    eapply on_conn_script; [by apply WriteControl_script|]. intros w a c Hw _. exact (HF w c Hw).
  - by intros a w [_ H].
Qed.

(** ** The clipboard *)
Definition clip_start : Header := set_hdr_Kind KindClipboard (set_hdr_Type TypeSessionStart zero_Header).
Definition clip_header (data : bytes) (mime : string) : Header :=
  set_hdr_Length (Z.of_nat (length data)) (set_hdr_MIME mime (set_hdr_Type TypeClipboardData zero_Header)).

(** What SendClipboard writes and reads. *)
Definition clip_script (data : bytes) (mime : string) : list event :=
  [Snd (frame clip_start)] ++ (Snd (frame (clip_header data mime)) :: payload data) ++
  [Snd (frame end_header)] ++ [Rcv (frame (ack 0 true ""))].

Lemma end_fits : fits end_header.
Proof. by vm_compute. Qed.
Lemma clip_start_fits : fits clip_start.
Proof. by vm_compute. Qed.
Lemma start_header_ok : Header_ok clip_start.
Proof. unfold Header_ok. cbn. by split_and!. Qed.
Lemma clip_header_fits data mime :
  Z.of_nat (String.length mime) ≤ 65536 → Z.of_nat (length data) ≤ MaxClipboardSize →
  fits (clip_header data mime).
Proof.
  intros Hm Hd. unfold fits, marshal_Header.
  replace (Header_json (clip_header data mime)) with
    (JObj ([("type", JStr TypeClipboardData)] ++ opt_str "mime" mime ++
           opt_int "length" (Z.of_nat (length data)))).
  2: { unfold Header_json. cbn. by rewrite app_nil_r. }
  match goal with |- context [JObj ?l] => pose proof (print_obj_size l) as Hp end.
  rewrite !members_size_app in Hp.
  pose proof (members_opt_str "mime" mime) as H1. pose proof (json_quote_bound mime) as H2.
  pose proof (members_opt_int "length" (Z.of_nat (length data))) as H3.
  assert (inInt64 (Z.of_nat (length data))) as H4.
  { unfold inInt64, minInt64, maxInt64. change MaxClipboardSize with 33554432 in Hd. lia. }
  pose proof (itoa_length _ H4) as H5. change MaxHeaderSize with 1048576.
  change (length (json_quote "mime")) with 6%nat in H1.
  change (length (json_quote "length")) with 8%nat in H3.
  assert (members_size [("type", JStr TypeClipboardData)] = 19)%nat as H6 by by vm_compute.
  lia.
Qed.
Lemma clip_header_ok data mime :
  Z.of_nat (length data) ≤ MaxClipboardSize → Header_ok (clip_header data mime).
Proof.
  intros Hd. unfold Header_ok. cbn. split_and!; try done.
  unfold inInt64, minInt64, maxInt64. change MaxClipboardSize with 33554432 in Hd. lia.
Qed.

Lemma clip_session_script data mime :
  Z.of_nat (String.length mime) ≤ 65536 → Z.of_nat (length data) ≤ MaxClipboardSize →
  script sw_conn (λ _, True) (clip_session data mime) (clip_script data mime) (λ _ _, True).
Proof.
  intros Hm Hd. unfold clip_session, clip_script. fold clip_start.
  change (set_hdr_Length (Z.of_nat (length data)) _) with (clip_header data mime).
  eapply script_seq; [by apply send_control_script, clip_start_fits| |reflexivity].
  eapply (script_seq _ _ (λ _, True) _ (Snd (frame (clip_header data mime)) :: payload data));
    [eapply s_conn_script; [apply WriteMessage_script; [by apply clip_header_fits|done]|done]| |reflexivity].
  eapply script_seq; [by apply send_control_script, end_fits| |reflexivity].
  eapply script_bind_eq; [apply (send_read_script (λ _, True) (ack 0 true "")); [done|by apply ack_ok|by apply ack_fits]| |reflexivity].
  change (hdr_OK (valid_Header (ack 0 true ""))) with true. cbn [negb].
  apply script_quiet. intros w _. by exists (), w.
Qed.

Section clip_receiver.
Context (dir peer : string) (clipboard_set : bytes → string → option error).

Lemma receive_clip_script data mime d ev cl :
  Z.of_nat (String.length mime) ≤ 65536 → Z.of_nat (length data) ≤ MaxClipboardSize →
  clipboard_set data (to_valid mime) = None →
  script w_conn (λ w, w_disk w = d ∧ w_events w = ev ∧ w_clips w = cl)
    (receiveSession dir clipboard_set peer) (dual (clip_script data mime))
    (λ _ w, w_disk w = d ∧ w_events w = ev ∧ w_clips w = cl ++ [(data, to_valid mime)]).
Proof.
  intros Hm Hd Hset. set (F := λ w : rworld, w_disk w = d ∧ w_events w = ev ∧ w_clips w = cl).
  assert (woff_wire F) as HF by (intros w c H; exact H). unfold receiveSession, clip_script, dual.
  rewrite !map_app. cbn [map flip].
  eapply script_bind_eq; [apply script_try_eq, (recv_read_script F); [done|apply start_header_ok|apply clip_start_fits]| |reflexivity].
  cbv beta iota. rewrite (valid_type clip_start TypeSessionStart) by done.
  change (TypeSessionStart =?s TypeSessionStart) with true. cbn [negb].
  change (hdr_Kind (valid_Header clip_start)) with (to_valid KindClipboard).
  change (to_valid KindClipboard) with KindClipboard.
  change (KindClipboard =?s KindClipboard) with true. cbv beta iota. unfold receiveClipboard.
  eapply (script_bind_eq _ _ _ [Rcv (frame (clip_header data mime))]);
    [apply (recv_read_script F); [done|by apply clip_header_ok|by apply clip_header_fits]| |reflexivity].
  rewrite (valid_type (clip_header data mime) TypeClipboardData) by done.
  change (TypeClipboardData =?s TypeClipboardData) with true. cbn [negb].
  change (hdr_Length (valid_Header (clip_header data mime))) with (Z.of_nat (length data)).
  change (hdr_MIME (valid_Header (clip_header data mime))) with (to_valid mime).
  replace (_ || _) with false by lia.
  eapply (script_bind_eq _ _ _ (dual (payload data)) (inl data) F).
  - unfold payload. rewrite Nat2Z.id. destruct (decide (data = [])) as [->|Hne].
    + apply script_quiet. intros w Hw. exists (inl []), w. split; [|done].
      unfold try, on_conn, zoom. cbn. unfold read_full. cbn. rewrite drop_0, set_c_in_id. by destruct w.
    + apply script_try_eq. eapply on_conn_script; [by apply read_full_script|]. done.
  - cbv beta iota.
    eapply (script_seq _ _ F _ [Rcv (frame end_header)]); [| |reflexivity].
    + eapply script_conseq; [eapply (script_ignore _ _ _ _ (λ x w, x = valid_Header end_header ∧ F w))|done|].
      * apply recv_read_script; [done|apply end_ok|apply end_fits].
      * by intros a w (? & _ & ?).
    + rewrite Hset.
      eapply (script_seq _ _ (λ w, w_disk w = d ∧ w_events w = ev ∧ w_clips w = cl ++ [(data, to_valid mime)]) _ []);
        [| |reflexivity].
      { apply script_quiet. intros w (H1 & H2 & H3). exists (). eexists. split; [reflexivity|].
        cbn. by rewrite H3. }
      eapply (script_seq _ _ _ _ [Snd (frame (ack 0 true ""))]);
        [apply (reply_script _ (ack 0 true "")); [intros w c H; exact H|done|by apply ack_fits]| |reflexivity].
      apply script_quiet. intros w Hw. exists (). eexists. split; [reflexivity|]. done.
  - unfold dual, payload. destruct (decide _); reflexivity.
Qed.
End clip_receiver.

(** ** Files *)

(** An entry of the manifest for a regular file with this content, as
    buildManifest makes it, whose name is not that of a partial file. *)
Record regular (m : FileMeta) (content : bytes) : Prop := {
  rg_dir : fm_IsDir m = false;
  rg_rel : fm_RelPath m = "";
  rg_size : fm_Size m = Z.of_nat (length content);
  rg_int : Z.of_nat (length content) ≤ maxInt64;
  rg_sha : fm_SHA256 m = hex_encode (sha256 content);
  rg_name : shielded (sanitizeName (to_valid (fm_Name m)));
}.

(** The frames of a body, chunk by chunk. *)
Fixpoint chunk_events (fuel : nat) (i sent size : Z) (rest : bytes) : list event :=
  match fuel with
  | O => []
  | S fuel =>
      match rest with
      | [] => []
      | _ =>
          let buf := take (Z.to_nat ChunkSize) rest in
          let n := Z.of_nat (length buf) in
          [Snd (frame (chunk_header i n)); Snd buf; Snd (frame (progress_header i (sent + n) size))] ++
          chunk_events fuel i (sent + n) size (drop (Z.to_nat ChunkSize) rest)
      end
  end.

Definition entry_events (i : Z) (m : FileMeta) (content : bytes) : list event :=
  [Snd (frame (query_header i (fm_SHA256 m)))] ++ [Rcv (frame (offer_header i 0))] ++
  [Snd (frame (index_header TypeFileHeader i))] ++
  chunk_events (S (length content)) i 0 (fm_Size m) content ++
  [Snd (frame (index_header TypeFileEnd i))] ++ [Rcv (frame (ack i true ""))].

Fixpoint entries_events (i : Z) (l : list (FileMeta * bytes)) : list event :=
  match l with
  | [] => []
  | (m, content) :: l => entry_events i m content ++ entries_events (i + 1) l
  end.

Definition session_events (l : list (FileMeta * bytes)) : list event :=
  [Snd (frame (start_header (map fst l)))] ++ entries_events 0 l ++
  [Snd (frame end_header)] ++ [Rcv (frame (ack 0 true ""))].

(** *** The headers of a body fit *)
Lemma header_ints_fit (h : Header) typ zs :
  Header_json h = JObj (("type", JStr typ) :: concat (map (λ '(k, z), opt_int k z) zs)) →
  Forall (λ '(k, z), inInt64 z) zs → (length zs ≤ 4)%nat →
  forallb (λ '(k, z), (length (json_quote k) <=? 100)%nat) zs = true →
  (length (json_quote typ) ≤ 100)%nat → fits h.
Proof.
  intros E Hz Hn Hk Ht. unfold fits, marshal_Header. rewrite E.
  match goal with |- context [JObj ?l] => pose proof (print_obj_size l) as Hp end.
  match type of Hp with (_ ≤ 2 + members_size (?x :: ?l))%nat => pose proof (members_size_app [x] l) as Happ end.
  cbn [app] in Happ.
  assert (members_size (concat (map (λ '(k, z), opt_int k z) zs)) ≤ 167 * length zs)%nat as Hs.
  { clear -Hz Hk. induction zs as [|[k z] zs IH]; [done|]. cbn [map concat length].
    rewrite members_size_app. apply Forall_cons_1 in Hz as [Hz Hzs].
    cbn [forallb] in Hk. apply andb_true_iff in Hk as [Hk%Nat.leb_le Hks].
    pose proof (members_opt_int k z). pose proof (itoa_length z Hz). specialize (IH Hzs Hks). lia. }
  assert (members_size [("type", JStr typ)] ≤ 108)%nat as H1.
  { unfold members_size. cbn [sum_list_with]. rewrite member_size_str.
    assert (length (json_quote "type") = 6)%nat by by vm_compute. lia. }
  change MaxHeaderSize with 1048576. lia.
Qed.

Lemma chunk_fits i n : inInt64 i → inInt64 n → fits (chunk_header i n).
Proof.
  intros Hi Hn. apply (header_ints_fit _ TypeChunk [("file_index", i); ("length", n)]);
    [|repeat (apply Forall_cons_2; [done|]); apply Forall_nil_2|cbn; lia|by vm_compute|by vm_compute; lia].
  unfold Header_json. cbn. by rewrite !app_nil_r.
Qed.
Lemma progress_fits i a b : inInt64 i → inInt64 a → inInt64 b → fits (progress_header i a b).
Proof.
  intros Hi Ha Hb.
  apply (header_ints_fit _ TypeProgress [("file_index", i); ("bytes_done", a); ("total_bytes", b)]);
    [|repeat (apply Forall_cons_2; [done|]); apply Forall_nil_2|cbn; lia|by vm_compute|by vm_compute; lia].
  unfold Header_json. cbn. by rewrite !app_nil_r.
Qed.
Lemma index_fits t i : (length (json_quote t) ≤ 100)%nat → inInt64 i → fits (index_header t i).
Proof.
  intros Ht Hi. apply (header_ints_fit _ t [("file_index", i)]);
    [|repeat (apply Forall_cons_2; [done|]); apply Forall_nil_2|cbn; lia|by vm_compute|done].
  unfold Header_json. cbn. by rewrite !app_nil_r.
Qed.

Lemma hex_utf8 b : utf8 (hex_encode b).
Proof.
  apply ascii_utf8. unfold ascii_only, hex_encode. rewrite bs_str. apply forallb_forall.
  intros x Hx%in_flat_map. destruct Hx as (a & _ & Hx).
  assert (∀ n, 0 ≤ n < 16 → (byteZ (hex_digit n) <? 128) = true) as Hd.
  { intros n Hn. unfold hex_digit. destruct (n <? 10); rewrite byteZ_Zbyte, Z.mod_small; lia. }
  pose proof (byteZ_range a). destruct Hx as [<-|[<-|[]]]; apply Hd.
  - split; [apply Z.div_pos; lia|apply Z.div_lt_upper_bound; lia].
  - apply Z.mod_pos_bound. lia.
Qed.

(** *** The disk without faults *)
Lemma faulty_none {A} (m : M fs A) s : fs_faults s = [] → faulty m s = m s.
Proof. intros H. unfold faulty, bind, next_fault. by rewrite H. Qed.
Lemma faulty_write_none b upd s : fs_faults s = [] → faulty_write b upd s = (Ok (), upd b s).
Proof. intros H. unfold faulty_write, bind, next_fault. by rewrite H. Qed.

Definition set_w_fs (f : fs) (w : rworld) : rworld :=
  mkWorld (w_conn w) (mkSlots f (ss_slots (w_disk w))) (w_events w) (w_notes w) (w_clips w).
Lemma on_fs_eval {A} (m : M fs A) w r f : m (wfs w) = (r, f) → on_fs m w = (r, set_w_fs f w).
Proof. unfold wfs. intros E. unfold on_fs, on_disk, ss_on_fs, zoom. by rewrite E. Qed.

Section one_file.
Context (meta : FileMeta) (slot : fileSlot) (content : bytes) (s0 : fs) (claims : gset string).
Let dest := sl_dest slot.
Let tmp := sl_tmp slot.
Let side := partMetaPath tmp.
Context (Hfaults : fs_faults s0 = []) (Htmp : tmp = dest +:+ partSuffix).
Context (Hdest : fs_nodes s0 !! dest = None) (Htmp0 : fs_nodes s0 !! tmp = None)
  (Hside0 : fs_nodes s0 !! side = None).
Context (Hdir : is_dir s0 (path_dir dest) = true) (Hdt : path_dir tmp = path_dir dest)
  (Hds : path_dir side = path_dir dest) (Hroot : tmp ≠ "/" ∧ side ≠ "/" ∧ dest ≠ "/").
Context (Hsize : fm_Size meta = Z.of_nat (length content)) (Hint : Z.of_nat (length content) ≤ maxInt64).
Context (Hsha : fm_SHA256 meta = hex_encode (sha256 content)).

(** The disk once the sidecar is written, with [hashed] in the partial file. *)
Definition sidecar : bytes := bs (to_lower (fm_SHA256 meta)).
Definition part_disk (hashed : bytes) : fs := fs_set tmp (NFile hashed) (fs_set side (NFile sidecar) s0).
Definition with_part (hashed : bytes) (w : rworld) : Prop :=
  w_disk w = mkSlots (part_disk hashed) claims.

Lemma paths_differ : tmp ≠ dest ∧ side ≠ dest ∧ tmp ≠ side.
Proof.
  unfold side. rewrite Htmp. pose proof (dest_not_part dest) as H. unfold part_paths in H.
  split_and!; [intros E; apply H; by left|intros E; apply H; by right|apply part_not_meta].
Qed.

Lemma parent_not p : fs_nodes s0 !! p = None → p ≠ "/" → path_dir dest ≠ p.
Proof.
  intros Hp Hne E. rewrite E in Hdir. unfold is_dir in Hdir. rewrite Hp in Hdir.
  apply String.eqb_neq in Hne. by rewrite Hne in Hdir.
Qed.

Lemma is_dir_set p n s q : q ≠ p → is_dir (fs_set p n s) q = is_dir s q.
Proof. intros Hq. unfold is_dir. cbn. by rewrite lookup_insert_ne by congruence. Qed.
Lemma is_dir_del p s q : q ≠ p → is_dir (fs_del p s) q = is_dir s q.
Proof. intros Hq. unfold is_dir. cbn. by rewrite lookup_delete_ne by congruence. Qed.

Lemma part_lookup hashed : fs_nodes (part_disk hashed) !! tmp = Some (NFile hashed).
Proof. unfold part_disk. cbn. by rewrite lookup_insert_eq. Qed.

Lemma append_part hashed b : append_file tmp b (part_disk hashed) = (Ok (), part_disk (hashed ++ b)).
Proof.
  unfold append_file. rewrite bind_Ok with (a := hashed) (s' := part_disk hashed).
  2: { unfold read_file. by rewrite part_lookup. }
  rewrite faulty_write_none by done. unfold part_disk, fs_set. cbn. by rewrite insert_insert_eq.
Qed.

(** Renamed into place, with the sidecar removed. *)
Lemma finish_part :
  (rename tmp dest ;;; ignore (remove_file side)) (part_disk content) =
    (Ok (), fs_set dest (NFile content) s0).
Proof.
  destruct paths_differ as (D1 & D2 & D3). destruct Hroot as (R1 & R2 & R3).
  assert (path_dir dest ≠ tmp ∧ path_dir dest ≠ side) as [P1 P2] by (split; by apply parent_not).
  set (moved := fs_set dest (NFile content) (fs_del tmp (part_disk content))).
  assert (rename tmp dest (part_disk content) = (Ok (), moved)) as E1.
  { unfold rename. rewrite bind_Ok with (a := content) (s' := part_disk content).
    2: { unfold read_file. by rewrite part_lookup. }
    rewrite bind_Ok with (a := ()) (s' := part_disk content).
    2: { unfold can_create, part_disk. cbn. rewrite !lookup_insert_ne, Hdest by congruence.
         by rewrite !is_dir_set, Hdir by done. }
    by rewrite faulty_none. }
  rewrite (bind_Ok _ _ _ _ _ E1).
  assert (fs_nodes moved !! side = Some (NFile sidecar)) as Hs.
  { unfold moved, part_disk. cbn. rewrite lookup_insert_ne, lookup_delete_ne, lookup_insert_ne,
      lookup_insert_eq by congruence. done. }
  assert (remove_file side moved = (Ok (), fs_del side moved)) as E2.
  { unfold remove_file. rewrite bind_Ok with (a := NFile sidecar) (s' := moved).
    2: { unfold stat. apply String.eqb_neq in R2. by rewrite R2, Hs. }
    by rewrite faulty_none. }
  unfold ignore, bind, try. rewrite E2. unfold ret. f_equal.
  unfold moved, part_disk, fs_set, fs_del. cbn. f_equal. apply map_eq. intros q.
  destruct (decide (q = side)) as [->|Hq1].
  { by rewrite lookup_delete_eq, lookup_insert_ne, Hside0 by congruence. }
  rewrite lookup_delete_ne by done. destruct (decide (q = dest)) as [->|Hq2].
  { by rewrite !lookup_insert_eq. }
  rewrite !(lookup_insert_ne _ dest) by done. destruct (decide (q = tmp)) as [->|Hq3].
  { by rewrite lookup_delete_eq. }
  by rewrite lookup_delete_ne, !lookup_insert_ne by done.
Qed.

Lemma start_part : (open_trunc tmp ;;; writePartMeta tmp meta) s0 = (Ok (), part_disk []).
Proof.
  destruct paths_differ as (D1 & D2 & D3). destruct Hroot as (R1 & R2 & R3).
  assert (path_dir dest ≠ tmp) as P1 by by apply parent_not.
  assert (open_trunc tmp s0 = (Ok (), fs_set tmp (NFile []) s0)) as E1.
  { unfold open_trunc. rewrite bind_Ok with (a := ()) (s' := s0).
    2: { unfold can_create. by rewrite Htmp0, Hdt, Hdir. }
    by rewrite faulty_none. }
  rewrite (bind_Ok _ _ _ _ _ E1). unfold writePartMeta, ignore, bind, try, write_file.
  fold side sidecar. rewrite bind_Ok with (a := ()) (s' := fs_set tmp (NFile []) s0).
  2: { unfold can_create. cbn. rewrite lookup_insert_ne, Hside0, Hds by congruence.
       by rewrite is_dir_set, Hdir by done. }
  rewrite faulty_write_none by done. unfold ret, part_disk, fs_set. cbn. f_equal. f_equal.
  by rewrite insert_insert_ne by congruence.
Qed.

Lemma with_part_on_fs {A} (m : M fs A) hashed w r f :
  with_part hashed w → m (part_disk hashed) = (r, f) →
  on_fs m w = (r, set_w_fs f w) ∧ ss_slots (w_disk (set_w_fs f w)) = claims.
Proof.
  unfold with_part. intros Hw E. split; [apply on_fs_eval; unfold wfs; by rewrite Hw|]. cbn. by rewrite Hw.
Qed.

Lemma copy_script hashed buf n :
  buf ≠ [] →
  script w_conn (λ w, with_part hashed w ∧ under w_conn (S n) w)
    (try (copy_n tmp (Z.of_nat (length buf)))) [Rcv buf]
    (λ r w, r = inl buf ∧ (with_part (hashed ++ buf) w ∧ under w_conn n w)).
Proof.
  intros Hb w [Hw Hu] [He Hwr]. split.
  - intros rest Hin. cbn in Hin. rewrite app_nil_r in Hin.
    set (w1 := set_w_in rest w). set (w2 := set_w_fs (part_disk (hashed ++ buf)) w1).
    exists (inl buf), w2.
    assert (copy_n tmp (Z.of_nat (length buf)) w = (Ok buf, w2)) as E.
    { unfold copy_n. rewrite bind_Ok with (a := c_in (w_conn w)) (s' := w) by done. cbv zeta.
      rewrite Hin, length_app, (proj2 (Z.leb_le (Z.of_nat (length buf)) (Z.of_nat (length buf + length rest)))), Nat2Z.id by lia.
      rewrite bind_Ok with (a := buf) (s' := w1).
      2: { unfold on_conn, zoom. by rewrite (read_full_app _ buf rest). }
      rewrite (proj2 (Nat.eqb_neq (length buf) 0)) by (destruct buf; [done|cbn; lia]).
      rewrite bind_Ok with (a := ()) (s' := w2); [done|].
      by apply (with_part_on_fs _ hashed w1); [|apply append_part]. }
    rewrite (try_Ok _ _ _ _ E). split_and!; try done.
    + unfold with_part, w2, w1. cbn. unfold with_part in Hw. by rewrite Hw.
    + unfold under, w2, w1 in *. cbn. rewrite Hin, length_app in Hu. destruct buf; [done|cbn in Hu; lia].
    + cbn. by rewrite app_nil_r.
  - intros t1 b' t2 [-> ->]%one_read Hin. cbn in Hin. eexists.
    assert ((Z.of_nat (length buf) <=? 0) = false) as Hz by (apply Z.leb_gt; destruct buf; [done|cbn; lia]).
    unfold try, copy_n. rewrite bind_Ok with (a := c_in (w_conn w)) (s' := w) by done. cbv zeta.
    rewrite Hin. cbn [length Nat.eqb]. change (Z.of_nat 0) with 0. rewrite Hz.
    rewrite bind_Ok with (a := []) (s' := w).
    2: { unfold on_conn, zoom, read_full. cbn. rewrite drop_0, set_c_in_id. by destruct w. }
    rewrite bind_Ok with (a := ()) (s' := w) by done.
    rewrite bind_Ok with (a := None) (s' := w) by (unfold gets; cbn; by rewrite He).
    split; [reflexivity|]. cbn. by rewrite app_nil_r.
Qed.

(** What remains of the disk once the file is in place. *)
Definition placed (w : rworld) : Prop := w_disk w = mkSlots (fs_set dest (NFile content) s0) claims.

Lemma finish_script :
  script w_conn (with_part content)
    (c <- try (on_fs close_file) ;;
     match c with
     | inr err => on_fs (removePart tmp) ;;; throw err
     | inl _ =>
         if negb (Z.of_nat (length content) =? fm_Size meta) then
           on_fs (removePart tmp) ;;;
           throw (Errorf ("size mismatch: got " +:+ itoa (Z.of_nat (length content)) +:+ " want " +:+
                          itoa (fm_Size meta)))
         else if negb (equal_fold (hex_encode (sha256 content)) (fm_SHA256 meta)) then
           on_fs (removePart tmp) ;;; throw (Errorf "sha256 mismatch")
         else
           m <- try (on_fs (rename tmp dest)) ;;
           match m with
           | inr err => on_fs (removePart tmp) ;;; throw err
           | inl _ => on_fs (ignore (remove_file side)) ;;; ret dest
           end
     end) [] (λ p w, p = dest ∧ placed w).
Proof.
  apply script_quiet. intros w Hw. exists dest, (set_w_fs (fs_set dest (NFile content) s0) w).
  split; [|split; [split; [done|unfold placed; cbn; by rewrite Hw]|done]].
  destruct (with_part_on_fs close_file content w (Ok ()) (part_disk content) Hw) as [E1 _].
  { unfold close_file. by rewrite faulty_none. }
  rewrite (bind_Ok _ _ _ _ _ (try_Ok _ _ _ _ E1)).
  rewrite Hsize, Z.eqb_refl. cbn [negb]. rewrite Hsha. unfold equal_fold. rewrite String.eqb_refl. cbn [negb].
  set (w1 := set_w_fs (part_disk content) w).
  assert (with_part content w1) as Hw1 by (unfold with_part, w1; cbn; by rewrite Hw).
  pose proof finish_part as E. apply bind_Ok_inv in E as (u & f1 & E2 & E3).
  destruct (with_part_on_fs (rename tmp dest) content w1 _ _ Hw1 E2) as [E4 _]. destruct u.
  rewrite (bind_Ok _ _ _ _ _ (try_Ok _ _ _ _ E4)).
  rewrite bind_Ok with (a := ()) (s' := set_w_fs (fs_set dest (NFile content) s0) w); [done|].
  by apply (on_fs_eval _ (set_w_fs f1 w1)) in E3.
Qed.

Lemma read_under F n h :
  woff_wire F → Header_ok h → fits h →
  script w_conn (λ w, F w ∧ under w_conn (S n) w) (try (on_conn ReadHeader)) [Rcv (frame h)]
    (λ r w, r = inl (valid_Header h) ∧ (F w ∧ under w_conn n w)).
Proof.
  intros HF Ho Hf. eapply script_conseq.
  - apply (script_under _ n F); [by destruct (frame h) eqn:E; [apply (f_equal length) in E; rewrite frame_length in E; cbn in E; lia|]|].
    by apply script_try_eq, recv_read_script.
  - done.
  - intros r w [[? ?] ?]. done.
Qed.

Lemma with_part_off hashed : woff_wire (with_part hashed).
Proof. intros w c H. exact H. Qed.

Lemma body_script f fuel i hashed rest :
  hashed ++ rest = content → (length rest < f)%nat → inInt64 i →
  script w_conn (λ w, with_part hashed w ∧ under w_conn fuel w)
    (file_body fuel meta slot (Z.of_nat (length hashed)) hashed)
    (dual (chunk_events f i (Z.of_nat (length hashed)) (fm_Size meta) rest) ++
     [Rcv (frame (index_header TypeFileEnd i))])
    (λ p w, p = dest ∧ placed w).
Proof.
  intros Hc Hf Hi. revert fuel hashed rest Hc Hf.
  induction f as [|f IH]; intros fuel hashed rest Hc Hf; [lia|].
  destruct fuel as [|fuel]; [apply script_false; intros w [_ Hu]; unfold under in Hu; lia|].
  cbn [file_body chunk_events]. cbv zeta. destruct rest as [|x rest].
  - rewrite app_nil_r in Hc. subst hashed.
    eapply (script_bind_eq _ _ _ [Rcv (frame (index_header TypeFileEnd i))]);
      [apply read_under; [apply with_part_off|by apply index_ok|by apply index_fits; [vm_compute; lia|]]| |reflexivity].
    cbv beta iota. rewrite (valid_type (index_header TypeFileEnd i) TypeFileEnd) by done.
    change (TypeFileEnd =?s TypeChunk) with false. change (TypeFileEnd =?s TypeProgress) with false.
    change (TypeFileEnd =?s TypeFileEnd) with true. cbv beta iota.
    eapply script_conseq; [apply finish_script|by intros w [? _]|done].
  - set (buf := take (Z.to_nat ChunkSize) (x :: rest)). set (more := drop (Z.to_nat ChunkSize) (x :: rest)).
    assert (0 < ChunkSize) as Hcs by done.
    assert (buf ++ more = x :: rest) as Hsplit by apply take_drop.
    assert (buf ≠ []) as Hne.
    { unfold buf. destruct (Z.to_nat ChunkSize) eqn:E; [lia|done]. }
    assert (length more < length (x :: rest))%nat as Hless.
    { rewrite <-Hsplit, length_app. destruct buf; [done|cbn; lia]. }
    assert (Z.of_nat (length hashed) + Z.of_nat (length buf) + Z.of_nat (length more) =
      Z.of_nat (length content)) as Htot by (rewrite <-Hc, <-Hsplit, !length_app; lia).
    assert (∀ z, 0 ≤ z ≤ Z.of_nat (length content) → inInt64 z) as H64.
    { intros z Hz. unfold inInt64, minInt64, maxInt64 in *. lia. }
    clearbody buf more. cbn [dual map app flip].
    eapply (script_bind_eq _ _ _ [Rcv (frame (chunk_header i (Z.of_nat (length buf))))]);
      [apply read_under; [apply with_part_off| |by apply chunk_fits; [|apply H64; lia]]| |reflexivity].
    { unfold Header_ok. cbn. split_and!; try done. apply H64. lia. }
    cbv beta iota. rewrite (valid_type (chunk_header i (Z.of_nat (length buf))) TypeChunk) by done.
    change (TypeChunk =?s TypeChunk) with true. cbv beta iota.
    change (hdr_Length (valid_Header (chunk_header i (Z.of_nat (length buf))))) with (Z.of_nat (length buf)).
    rewrite (proj2 (Z.ltb_ge (Z.of_nat (length buf)) 0)) by lia.
    rewrite (int64_id (Z.of_nat (length hashed) + Z.of_nat (length buf))) by (apply H64; lia).
    rewrite Hsize, (proj2 (Z.ltb_ge (Z.of_nat (length content)) _)) by lia.
    eapply (script_bind_eq _ _ _ [Rcv buf] (inl buf) (λ w, with_part (hashed ++ buf) w ∧ under w_conn fuel w));
      [eapply script_conseq; [by apply (copy_script hashed buf fuel)| |done]| |reflexivity].
    { intros w [H1 H2]. split; [done|]. unfold under in *. lia. }
    cbv beta iota. destruct fuel as [|fuel]; [apply script_false; intros w [_ Hu]; unfold under in Hu; lia|].
    cbn [file_body]. cbv zeta.
    eapply (script_bind_eq _ _ _ [Rcv (frame (progress_header i (Z.of_nat (length hashed) + Z.of_nat (length buf)) (fm_Size meta)))]);
      [rewrite Hsize; apply read_under; [apply with_part_off| |apply progress_fits; [done|apply H64; lia..]]| |by rewrite Hsize].
    { unfold Header_ok. cbn. split_and!; try done; apply H64; lia. }
    cbv beta iota. rewrite (valid_type (progress_header i _ _) TypeProgress) by done.
    change (TypeProgress =?s TypeChunk) with false. change (TypeProgress =?s TypeProgress) with true.
    cbv beta iota. rewrite <-Hsize, <-Nat2Z.inj_add, <-length_app. apply IH; [by rewrite <-app_assoc, Hsplit|].
    lia.
Qed.

Lemma receive_file_script i :
  inInt64 i →
  script w_conn (λ w, w_disk w = mkSlots s0 claims) (receiveOneFile meta slot 0)
    (dual (chunk_events (S (length content)) i 0 (fm_Size meta) content) ++
     [Rcv (frame (index_header TypeFileEnd i))])
    (λ p w, p = dest ∧ placed w).
Proof.
  intros Hi. unfold receiveOneFile. cbv zeta. change (0 <? 0) with false. cbv iota.
  destruct (bind_Ok_inv _ _ _ _ _ start_part) as ([] & f1 & E1 & E2).
  eapply (script_bind_eq _ _ _ [] [] (λ w, w_disk w = mkSlots f1 claims)); [| |reflexivity].
  { apply script_quiet. intros w Hw. exists [], (set_w_fs f1 w). split; [|split; [split; [done|cbn; by rewrite Hw]|done]].
    rewrite bind_Ok with (a := ()) (s' := set_w_fs f1 w); [done|]. apply on_fs_eval. unfold wfs. by rewrite Hw. }
  eapply (script_seq _ _ (with_part []) _ []); [| |reflexivity].
  { apply script_quiet. intros w Hw. exists (), (set_w_fs (part_disk []) w).
    split; [|split; [unfold with_part; cbn; by rewrite Hw|done]]. apply on_fs_eval. unfold wfs. by rewrite Hw. }
  eapply (script_bind' _ _ _ [] (λ fuel w, with_part [] w ∧ under w_conn fuel w)); [| |reflexivity].
  { apply script_quiet. intros w Hw. eexists _, w. split; [reflexivity|]. split; [|done]. split; [done|].
    unfold under. lia. }
  intros fuel. exact (body_script (S (length content)) fuel i [] content eq_refl (Nat.lt_succ_diag_r _) Hi).
Qed.
End one_file.

(** *** A free name below the download directory *)
Section receiver.
Context (ds : list string) (Hne : ds ≠ []) (Hds : Forall plain ds).

(** No partial files are left from earlier transfers. *)
Definition no_parts (f : fs) : Prop :=
  ∀ dest p, part_paths (dest +:+ partSuffix) p → fs_nodes f !! p = None.

Record ready (f : fs) : Prop := {
  rd_faults : fs_faults f = [];
  rd_dir : is_dir f (abs_path ds) = true;
  rd_parts : no_parts f;
}.

Lemma abs_path_suffix l x y : abs_path (l ++ [x]) +:+ y = abs_path (l ++ [x +:+ y]).
Proof.
  destruct (decide (l = [])) as [->|Hl]; [done|].
  unfold abs_path. rewrite !rel_path_app by done. cbn. by rewrite !strapp_assoc.
Qed.

Lemma plain_suffix x y : no_byte "/" x → no_byte "/" y → (2 < String.length y)%nat → plain (x +:+ y).
Proof.
  intros Hx Hy Hl. assert (String.length (x +:+ y) = String.length x + String.length y)%nat as E by apply length_strapp.
  unfold plain. split_and!; [intros H; rewrite H in E; cbn in E; lia..|apply no_byte_app; by split].
Qed.

(** What a slot for a regular file is. *)
Record slot_for (f : fs) (slot : fileSlot) : Prop := {
  sf_tmp : sl_tmp slot = sl_dest slot +:+ partSuffix;
  sf_free : fs_nodes f !! sl_dest slot = None;
  sf_shielded : shielded (sl_dest slot);
  sf_dirs : path_dir (sl_dest slot) = abs_path ds ∧ path_dir (sl_tmp slot) = abs_path ds ∧
    path_dir (partMetaPath (sl_tmp slot)) = abs_path ds;
  sf_root : sl_tmp slot ≠ "/" ∧ partMetaPath (sl_tmp slot) ≠ "/" ∧ sl_dest slot ≠ "/";
}.

Lemma reserve_regular m content d :
  regular m content →
  ∃ slot, reserveSlot (abs_path ds) (valid_FileMeta m) d =
      (Ok slot, mkSlots (ss_fs d) ({[sl_tmp slot]} ∪ ss_slots d)) ∧ slot_for (ss_fs d) slot.
Proof.
  intros Hr. destruct (reserveSlot (abs_path ds) (valid_FileMeta m) d) as [r d'] eqn:E.
  assert (fm_RelPath (valid_FileMeta m) = "") as Hrel by (cbn; by rewrite (rg_rel _ _ Hr)).
  assert (∃ slot, r = Ok slot ∧ d' = mkSlots (ss_fs d) ({[sl_tmp slot]} ∪ ss_slots d)) as (slot & -> & ->).
  { unfold reserveSlot in E. rewrite Hrel in E. change ("" =?s "") with true in E. cbn [negb andb] in E.
    rewrite bind_ret_l in E. rewrite bind_Ok with (a := d) (s' := d) in E by done.
    pose proof (sanitizeName_plain (fm_Name (valid_FileMeta m))) as Hp.
    destruct (uniquePathExcept_total ds Hne Hds (ss_fs d) (ss_slots d)
      (sanitizeName (fm_Name (valid_FileMeta m)))) as [dest Hu].
    { rewrite split_on_no_byte by apply Hp. by constructor. }
    unfold unique_fuel in E. rewrite Hu in E. injection E as <- <-. by eexists. }
  exists slot. split; [done|]. apply reserveSlot_Ok in E as []; [|done..]. cbn [ss_fs ss_slots] in *.
  assert (meta_comps (valid_FileMeta m) = [sanitizeName (to_valid (fm_Name m))]) as Hmc.
  { unfold meta_comps. rewrite Hrel. done. }
  rewrite Hmc in *. cbn [removelast List.last] in *. destruct rsv_below as (rs & (Hp & Hn & Hd) & Hrm).
  destruct (exists_last Hn) as (l & x & ->). rewrite removelast_last in Hrm. subst l.
  apply Forall_inv in Hp. cbn [app] in Hd. destruct Hp as (Hx1 & Hx2 & Hx3 & Hx4).
  assert (sl_tmp slot = abs_path (ds ++ [x +:+ partSuffix])) as Ht by by rewrite rsv_tmp, Hd, abs_path_suffix.
  assert (partMetaPath (sl_tmp slot) = abs_path (ds ++ [x +:+ (partSuffix +:+ ".meta")])) as Hs.
  { unfold partMetaPath. by rewrite Ht, abs_path_suffix, strapp_assoc. }
  assert (plain (x +:+ partSuffix)) as P1 by (apply plain_suffix; [done|by apply no_byte_test|vm_compute; lia]).
  assert (plain (x +:+ (partSuffix +:+ ".meta"))) as P2 by (apply plain_suffix; [done|by apply no_byte_test|vm_compute; lia]).
  split; [done|done|by apply rsv_named, rg_name with content| |].
  - rewrite Hs, Ht, Hd. by rewrite !path_dir_abs.
  - rewrite Hs, Ht, Hd. assert (∀ y, plain y → abs_path (ds ++ [y]) ≠ "/") as Hr'.
    { intros y Hy. apply (below_not_root ds Hne Hds [y]). split; [by constructor|done]. }
    split_and!; by apply Hr'.
Qed.

(** *** The session's variables *)
Definition snap (d : slots_state) (sl : gmap Z fileSlot) (C : gset Z) (sv : list string) (s : rsess) : Prop :=
  w_disk (rs_world s) = d ∧ rs_slots s = sl ∧ rs_completed s = C ∧ rs_saved s = sv.

(** Between two entries: [i] entries are done, and their contents are where
    the session saved them. *)
Record at_entry (i : Z) (contents : list bytes) (d : slots_state) (sl : gmap Z fileSlot) (C : gset Z)
    (sv : list string) : Prop := {
  ae_ready : ready (ss_fs d);
  ae_done : ∀ j, j ∈ C ↔ 0 ≤ j < i;
  ae_fresh : ∀ j, i ≤ j → sl !! j = None;
  ae_saved : Forall2 (λ p c, file_at (ss_fs d) p = Some c) sv contents;
  ae_where : Forall (λ p, path_dir p = abs_path ds) sv;
  ae_distinct : NoDup sv;
}.

Definition soff_wire (F : rsess → Prop) : Prop :=
  ∀ s w, w_disk w = w_disk (rs_world s) → F s →
    F (mkSess w (rs_slots s) (rs_completed s) (rs_saved s)).
Lemma snap_off d sl C sv : soff_wire (snap d sl C sv).
Proof. intros s w Hw (H1 & H2 & H3 & H4). unfold snap. cbn. by rewrite Hw. Qed.

(** A step of the world that keeps the disk. *)
Lemma in_world_script {A} (m : M rworld A) t (Q : A → Prop) (F : rsess → Prop) :
  soff_wire F →
  (∀ d, script w_conn (λ w, w_disk w = d) m t (λ a w, Q a ∧ w_disk w = d)) →
  script sconn F (in_world m) t (λ a s, Q a ∧ F s).
Proof.
  intros HF Hm s Hs Hl.
  apply (script_zoom sconn w_conn rs_world (λ w s, mkSess w (rs_slots s) (rs_completed s) (rs_saved s))
    (λ w, w_disk w = w_disk (rs_world s)) (λ s', s' = s) m t
    (λ a w, Q a ∧ w_disk w = w_disk (rs_world s)) (λ a s', Q a ∧ F s')); try done.
  - by intros s' ->.
  - intros s' a x -> [HQ Hd]. split; [done|]. by apply HF.
Qed.

Lemma s_read_script F h :
  soff_wire F → Header_ok h → fits h →
  script sconn F (in_world (on_conn ReadHeader)) [Rcv (frame h)] (λ x s, x = valid_Header h ∧ F s).
Proof.
  intros HF Ho Hf. apply in_world_script; [done|]. intros d.
  apply recv_read_script; [by intros w c H|done|done].
Qed.
Lemma s_reply_script F h :
  soff_wire F → hdr_Length h = 0 → fits h →
  script sconn F (in_world (reply h)) [Snd (frame h)] (λ _, F).
Proof.
  intros HF Ho Hf. eapply script_conseq; [apply (in_world_script (reply h) _ (λ _, True) F HF)|done|by intros a s [_ H]].
  intros d. eapply script_conseq; [apply (reply_script (λ w, w_disk w = d)); [by intros w c H|done|done]|done|done].
Qed.
Lemma s_read_under F n h :
  soff_wire F → Header_ok h → fits h →
  script sconn (λ s, F s ∧ under sconn (S n) s) (try (in_world (on_conn ReadHeader))) [Rcv (frame h)]
    (λ r s, r = inl (valid_Header h) ∧ (F s ∧ under sconn n s)).
Proof.
  intros HF Ho Hf. eapply script_conseq.
  - apply (script_under _ n F).
    + destruct (frame h) eqn:E; [|done]. apply (f_equal length) in E. rewrite frame_length in E. cbn in E. lia.
    + by apply script_try_eq, s_read_script.
  - done.
  - intros r s [[? ?] ?]. done.
Qed.

Section entry.
Context (peer : string) (manifest : list FileMeta) (i : Z) (m : FileMeta) (content : bytes).
Context (Hr : regular m content) (Hent : entry manifest i = Some (valid_FileMeta m)) (Hi : inInt64 i).
Let meta := valid_FileMeta m.

Lemma no_partial slot f :
  ready f → slot_for f slot → partialBytes slot meta f = (Ok 0, f).
Proof.
  intros Hrd Hsf. unfold partialBytes. rewrite bind_Ok with (a := inr (Errno ENOENT)) (s' := f); [done|].
  apply try_Err. unfold stat. destruct (sf_root _ _ Hsf) as (H1 & _). apply String.eqb_neq in H1.
  rewrite H1. rewrite (rd_parts _ Hrd (sl_dest slot)); [done|]. left. apply sf_tmp with f. done.
Qed.

Lemma query_script contents d sl C sv :
  at_entry i contents d sl C sv →
  ∃ slot, slot_for (ss_fs d) slot ∧
  script sconn (snap d sl C sv) (recv_resume_query (abs_path ds) manifest true i)
    [Snd (frame (offer_header i 0))]
    (λ _, snap (mkSlots (ss_fs d) ({[sl_tmp slot]} ∪ ss_slots d)) (<[i := slot]> sl) C sv).
Proof.
  intros Ha. destruct (reserve_regular m content d Hr) as (slot & E & Hsf).
  exists slot. split; [done|]. unfold recv_resume_query. rewrite Hent.
  change (fm_IsDir (valid_FileMeta m)) with (fm_IsDir m). rewrite (rg_dir _ _ Hr). cbn [andb negb].
  set (F := snap (mkSlots (ss_fs d) ({[sl_tmp slot]} ∪ ss_slots d)) (<[i := slot]> sl) C sv).
  eapply (script_bind_eq _ _ _ [] 0 F); [| |reflexivity].
  - apply script_quiet. intros s (H1 & H2 & H3 & H4).
    set (d1 := mkSlots (ss_fs d) ({[sl_tmp slot]} ∪ ss_slots d)).
    set (w1 := mkWorld (w_conn (rs_world s)) d1 (w_events (rs_world s)) (w_notes (rs_world s)) (w_clips (rs_world s))).
    set (s1 := mkSess w1 (<[i := slot]> (rs_slots s)) (rs_completed s) (rs_saved s)).
    exists 0, s1. split; [|split; [split; [done|]|done]].
    + assert (slotFor (abs_path ds) i (valid_FileMeta m) s = (Ok slot, s1)) as E1.
      { unfold slotFor. rewrite bind_Ok with (a := rs_slots s) (s' := s) by done.
        rewrite H2, (ae_fresh _ _ _ _ _ _ Ha i) by lia.
        rewrite bind_Ok with (a := slot) (s' := mkSess w1 (rs_slots s) (rs_completed s) (rs_saved s)).
        2: { unfold in_world, on_disk, zoom. rewrite H1, E. done. }
        done. }
      rewrite (bind_Ok _ _ _ _ _ (try_Ok _ _ _ _ E1)). cbv beta iota.
      unfold in_world, on_fs, on_disk, ss_on_fs, zoom. cbn [rs_world s1 w1 w_disk d1 ss_fs].
      fold meta. rewrite (no_partial slot (ss_fs d)) by (try done; apply Ha). done.
    + unfold F, snap, s1. cbn. rewrite H2. by split_and!.
  - cbv beta. change (set_hdr_BytesDone 0 _) with (offer_header i 0).
    apply s_reply_script; [apply snap_off|done|by apply offer_fits].
Qed.

Lemma in_world_snap {A} (mm : M rworld A) t (Q : A → Prop) d d' sl C sv :
  script w_conn (λ w, w_disk w = d) mm t (λ a w, Q a ∧ w_disk w = d') →
  script sconn (snap d sl C sv) (in_world mm) t (λ a s, Q a ∧ snap d' sl C sv s).
Proof.
  intros Hm. eapply (script_zoom sconn w_conn); [done|done|exact Hm|by intros s [? _]|].
  intros s a x (_ & H2 & H3 & H4) [HQ Hd]. split; [done|]. by split_and!.
Qed.

Lemma file_script slot d sl C sv :
  ready (ss_fs d) → slot_for (ss_fs d) slot → sl !! i = Some slot →
  script sconn (snap d sl C sv)
    (recv_file (abs_path ds) peer (Z.of_nat (length manifest)) true i meta)
    (dual (chunk_events (S (length content)) i 0 (fm_Size m) content) ++
     [Rcv (frame (index_header TypeFileEnd i))] ++ [Snd (frame (ack i true ""))])
    (λ _, snap (mkSlots (fs_set (sl_dest slot) (NFile content) (ss_fs d)) (ss_slots d)) sl
            ({[i]} ∪ C) (sv ++ [sl_dest slot])).
Proof.
  intros Hrd Hsf Hsl. set (d' := mkSlots (fs_set (sl_dest slot) (NFile content) (ss_fs d)) (ss_slots d)).
  assert (meta = valid_FileMeta m) as Hmeta by done.
  unfold recv_file. eapply (script_bind_eq _ _ _ _ (inl (sl_dest slot)) (snap d' sl C sv)).
  - apply script_try_eq.
    eapply (script_bind_eq _ _ _ [] slot (snap d sl C sv)); [| |reflexivity].
    { apply script_quiet. intros s Hs. exists slot, s. split; [|done].
      destruct Hs as (_ & H2 & _). unfold slotFor. rewrite bind_Ok with (a := rs_slots s) (s' := s) by done.
      by rewrite H2, Hsl. }
    cbv iota. eapply (script_bind_eq _ _ _ [] 0 (snap d sl C sv)); [| |reflexivity].
    { apply script_quiet. intros s Hs. exists 0, s. split; [|done]. destruct Hs as (H1 & _).
      unfold in_world, on_fs, on_disk, ss_on_fs, zoom. rewrite H1, (no_partial slot (ss_fs d)) by done.
      destruct s as [w sl' C' sv']. cbn in *. subst d. by destruct w as [? []]. }
    apply (in_world_snap _ _ (λ p, p = sl_dest slot)).
    destruct d as [f claims]. cbn [ss_fs ss_slots] in *.
    destruct (sf_dirs _ _ Hsf) as (P1 & P2 & P3). pose proof (sf_tmp _ _ Hsf) as Ht.
    apply (receive_file_script meta slot content f claims); try done.
    + by apply rd_faults.
    + by apply sf_free.
    + apply (rd_parts _ Hrd (sl_dest slot)). left. done.
    + apply (rd_parts _ Hrd (sl_dest slot)). right. by rewrite Ht.
    + rewrite P1. by apply rd_dir.
    + by rewrite P1, P2.
    + by rewrite P1, P3.
    + by apply sf_root with f.
    + apply (rg_size _ _ Hr).
    + apply (rg_int _ _ Hr).
    + cbn. rewrite (rg_sha _ _ Hr). apply hex_utf8.
  - cbv beta iota.
    eapply (script_seq _ _ (snap d' sl ({[i]} ∪ C) (sv ++ [sl_dest slot])) _ []); [| |reflexivity].
    + apply script_quiet. intros s (H1 & H2 & H3 & H4). exists (). eexists. split; [reflexivity|].
      split; [|done]. unfold snap. cbn. by rewrite H2, H3, H4.
    + eapply script_conseq; [eapply (in_world_snap _ _ (λ _, True))|done|by intros a s [_ H]; exact H].
      eapply (script_seq _ _ (λ w, w_disk w = d') _ [Snd (frame (ack i true ""))]); [| |reflexivity].
      * apply (reply_script _ (ack i true "")); [by intros w c H|done|by apply ack_fits].
      * apply script_quiet. intros w Hw. exists (). eexists. split; [reflexivity|]. done.
  - rewrite <-!app_assoc. reflexivity.
Qed.

(** The entry is done. *)
Lemma placed_entry contents slot d sl C sv :
  ready (ss_fs d) → slot_for (ss_fs d) slot →
  at_entry i contents d sl C sv → 0 ≤ i →
  at_entry (i + 1) (contents ++ [content])
    (mkSlots (fs_set (sl_dest slot) (NFile content) (ss_fs d)) ({[sl_tmp slot]} ∪ ss_slots d))
    (<[i := slot]> sl) ({[i]} ∪ C) (sv ++ [sl_dest slot]).
Proof.
  intros Hrd Hsf Ha Hi0. destruct (sf_root _ _ Hsf) as (_ & _ & Hroot).
  assert (abs_path ds ≠ sl_dest slot) as Hne'.
  { intros E. pose proof (rd_dir _ Hrd) as Hd. unfold is_dir in Hd. rewrite E, (sf_free _ _ Hsf) in Hd.
    apply String.eqb_neq in Hroot. by rewrite Hroot in Hd. }
  split; cbn.
  - split; [apply (rd_faults _ Hrd)| |].
    + unfold is_dir. cbn. rewrite lookup_insert_ne by done. apply (rd_dir _ Hrd).
    + intros dest p Hp. cbn. rewrite lookup_insert_ne; [exact (rd_parts _ Hrd dest p Hp)|].
      intros <-. eapply part_not_shielded; [exact Hp|]. by apply sf_shielded with (ss_fs d).
  - intros j. rewrite elem_of_union, elem_of_singleton, (ae_done _ _ _ _ _ _ Ha j). lia.
  - intros j Hj. rewrite lookup_insert_ne by lia. apply (ae_fresh _ _ _ _ _ _ Ha). lia.
  - apply Forall2_app.
    + eapply Forall2_impl; [|apply (ae_saved _ _ _ _ _ _ Ha)]. intros p c Hp. unfold file_at in *. cbn.
      rewrite lookup_insert_ne; [done|]. intros <-. by rewrite (sf_free _ _ Hsf) in Hp.
    + constructor; [|constructor]. unfold file_at. cbn. by rewrite lookup_insert_eq.
  - apply Forall_app. split; [apply (ae_where _ _ _ _ _ _ Ha)|]. constructor; [|constructor].
    by apply sf_dirs with (ss_fs d).
  - apply list.NoDup_app. split_and!; [apply (ae_distinct _ _ _ _ _ _ Ha)| |apply NoDup_singleton].
    intros p Hp Hp'%list_elem_of_singleton. subst p.
    apply list_elem_of_lookup_1 in Hp as [k Hk].
    destruct (Forall2_lookup_l _ _ _ _ _ (ae_saved _ _ _ _ _ _ Ha) Hk) as (c & _ & Hc).
    unfold file_at in Hc. by rewrite (sf_free _ _ Hsf) in Hc.
Qed.
End entry.

Section loop.
Context (peer : string) (manifest : list FileMeta).
Context (Hcount : Z.of_nat (length manifest) ≤ maxInt64).
Let loop fuel := recv_loop (abs_path ds) fuel peer manifest true.

Lemma loop_query_script fuel i m content contents d sl C sv u R :
  regular m content → entry manifest i = Some (valid_FileMeta m) →
  at_entry i contents d sl C sv → fits (query_header i (fm_SHA256 m)) →
  (∀ slot, slot_for (ss_fs d) slot →
     script sconn (λ s, snap (mkSlots (ss_fs d) ({[sl_tmp slot]} ∪ ss_slots d)) (<[i := slot]> sl) C sv s ∧
       under sconn fuel s) (loop fuel) u R) →
  script sconn (λ s, snap d sl C sv s ∧ under sconn (S fuel) s) (loop (S fuel))
    ([Rcv (frame (query_header i (fm_SHA256 m)))] ++ [Snd (frame (offer_header i 0))] ++ u) R.
Proof.
  intros Hr He Ha Hf Hk. pose proof (entry_int64 manifest Hcount i _ He) as Hi.
  unfold loop. cbn [recv_loop]. cbv zeta.
  eapply (script_bind_eq _ _ _ [Rcv (frame (query_header i (fm_SHA256 m)))]);
    [apply s_read_under; [apply snap_off|by apply query_ok|done]| |reflexivity].
  cbv beta iota. rewrite (valid_type (query_header i (fm_SHA256 m)) TypeResumeQuery) by done.
  change (TypeResumeQuery =?s TypeSessionEnd) with false. change (TypeResumeQuery =?s TypeProgress) with false.
  change (TypeResumeQuery =?s TypeResumeQuery) with true. cbv iota.
  change (hdr_FileIndex (valid_Header (query_header i (fm_SHA256 m)))) with i.
  destruct (query_script manifest i m content Hr He Hi contents d sl C sv Ha) as (slot & Hsf & Hq).
  eapply (script_seq _ _ _ _ _ _ _ _ _ (script_keep_under _ fuel _ _ _ _ Hq)); [|reflexivity]. by apply Hk.
Qed.

Lemma loop_file_script fuel i m content slot d sl C sv u R :
  regular m content → entry manifest i = Some (valid_FileMeta m) → i ∉ C →
  ready (ss_fs d) → slot_for (ss_fs d) slot → sl !! i = Some slot →
  script sconn (λ s, snap (mkSlots (fs_set (sl_dest slot) (NFile content) (ss_fs d)) (ss_slots d)) sl
      ({[i]} ∪ C) (sv ++ [sl_dest slot]) s ∧ under sconn fuel s) (loop fuel) u R →
  script sconn (λ s, snap d sl C sv s ∧ under sconn (S fuel) s) (loop (S fuel))
    ([Rcv (frame (index_header TypeFileHeader i))] ++
     (dual (chunk_events (S (length content)) i 0 (fm_Size m) content) ++
      [Rcv (frame (index_header TypeFileEnd i))] ++ [Snd (frame (ack i true ""))]) ++ u) R.
Proof.
  intros Hr He Hn Hrd Hsf Hsl Hk. pose proof (entry_int64 manifest Hcount i _ He) as Hi.
  unfold loop. cbn [recv_loop]. cbv zeta.
  eapply (script_bind_eq _ _ _ [Rcv (frame (index_header TypeFileHeader i))]);
    [apply s_read_under; [apply snap_off|by apply index_ok|by apply index_fits; [vm_compute; lia|]]| |reflexivity].
  cbv beta iota. rewrite (valid_type (index_header TypeFileHeader i) TypeFileHeader) by done.
  change (TypeFileHeader =?s TypeSessionEnd) with false. change (TypeFileHeader =?s TypeProgress) with false.
  change (TypeFileHeader =?s TypeResumeQuery) with false.
  change (TypeFileHeader =?s TypeFileHeader) with true. cbv iota. cbn [negb].
  change (hdr_FileIndex (valid_Header (index_header TypeFileHeader i))) with i. rewrite He.
  change (fm_IsDir (valid_FileMeta m)) with (fm_IsDir m). rewrite (rg_dir _ _ Hr).
  eapply (script_bind_eq _ _ _ [] C (λ s, snap d sl C sv s ∧ under sconn fuel s)); [| |reflexivity].
  { apply script_quiet. intros s Hs. exists C, s. split; [|done]. destruct Hs as [(_ & _ & H3 & _) _].
    unfold gets. by rewrite H3. }
  rewrite bool_decide_false by done.
  pose proof (file_script peer manifest i m content Hr Hi slot d sl C sv Hrd Hsf Hsl) as Hfile.
  eapply (script_seq _ _ _ _ _ _ _ _ _ (script_keep_under _ fuel _ _ _ _ Hfile)); [exact Hk|].
  reflexivity.
Qed.

Lemma loop_script l i contents d sl C sv fuel :
  at_entry i contents d sl C sv → 0 ≤ i →
  (∀ k m c, l !! k = Some (m, c) → regular m c ∧ entry manifest (i + Z.of_nat k) = Some (valid_FileMeta m) ∧
     fits (query_header (i + Z.of_nat k) (fm_SHA256 m))) →
  i + Z.of_nat (length l) = Z.of_nat (length manifest) →
  script sconn (λ s, snap d sl C sv s ∧ under sconn fuel s) (loop fuel)
    (dual (entries_events i l) ++ [Rcv (frame end_header)])
    (λ _ s, ∃ d' sl' C' sv', snap d' sl' C' sv' s ∧
       at_entry (Z.of_nat (length manifest)) (contents ++ map snd l) d' sl' C' sv').
Proof.
  revert i contents d sl C sv fuel. induction l as [|[m content] l IH];
    intros i contents d sl C sv fuel Ha Hi0 Hl Hn;
    (destruct fuel as [|fuel]; [apply script_false; intros s [_ Hu]; unfold under in Hu; lia|]).
  - cbn [length] in Hn. rewrite Z.add_0_r in Hn. subst i. unfold loop. cbn [recv_loop]. cbv zeta.
    eapply (script_bind_eq _ _ _ [Rcv (frame end_header)]);
      [apply s_read_under; [apply snap_off|apply end_ok|apply end_fits]| |reflexivity].
    cbv beta iota. rewrite (valid_type end_header TypeSessionEnd) by done.
    change (TypeSessionEnd =?s TypeSessionEnd) with true. cbv iota.
    apply script_quiet. intros s [Hs _]. exists (), s. split; [|split; [|done]].
    + rewrite bind_Ok with (a := rs_completed s) (s' := s) by done.
      rewrite bool_decide_false; [done|]. intros H. apply H. destruct Hs as (_ & _ & -> & _).
      assert (C = list_to_set (seqZ 0 (Z.of_nat (length manifest)))) as ->.
      { apply set_eq. intros j. rewrite (ae_done _ _ _ _ _ _ Ha j), elem_of_list_to_set, elem_of_seqZ. lia. }
      rewrite size_list_to_set by apply NoDup_seqZ. rewrite length_seqZ. lia.
    + exists d, sl, C, sv. split; [done|]. by rewrite app_nil_r.
  - destruct (Hl 0%nat m content eq_refl) as (Hr & He & Hf). rewrite Z.add_0_r in He, Hf.
    cbn [length] in Hn. cbn [entries_events].
    replace (dual (entry_events i m content ++ entries_events (i + 1) l) ++ [Rcv (frame end_header)]) with
      ([Rcv (frame (query_header i (fm_SHA256 m)))] ++ [Snd (frame (offer_header i 0))] ++
       [Rcv (frame (index_header TypeFileHeader i))] ++
       (dual (chunk_events (S (length content)) i 0 (fm_Size m) content) ++
        [Rcv (frame (index_header TypeFileEnd i))] ++ [Snd (frame (ack i true ""))]) ++
       dual (entries_events (i + 1) l) ++ [Rcv (frame end_header)]).
    2: { unfold entry_events. rewrite !dual_app, <-!app_assoc. reflexivity. }
    apply (loop_query_script fuel i m content contents d sl C sv); try done. intros slot Hsf.
    destruct fuel as [|fuel]; [apply script_false; intros s [_ Hu]; unfold under in Hu; lia|].
    assert (ready (ss_fs d)) as Hrd by apply Ha.
    apply (loop_file_script fuel i m content slot); try done.
    + intros Hin%(ae_done _ _ _ _ _ _ Ha). lia.
    + by rewrite lookup_insert_eq.
    + pose proof (placed_entry i content contents slot d sl C sv Hrd Hsf Ha Hi0) as Ha'.
      replace (contents ++ map snd ((m, content) :: l)) with ((contents ++ [content]) ++ map snd l)
        by by rewrite <-app_assoc.
      apply IH; [exact Ha'|lia| |lia].
      intros k m' c' Hk. replace (i + 1 + Z.of_nat k) with (i + Z.of_nat (S k)) by lia. by apply Hl.
Qed.
End loop.

Lemma with_slots_script {A} (body : M rsess A) t (P : rsess → Prop) Q (F : rworld → Prop) R :
  script sconn P body t Q → (∀ w, F w → P (mkSess w ∅ ∅ [])) →
  (∀ a s c, Q a s → R a (mkWorld (sconn s) (release_all c (w_disk (rs_world s)))
     (w_events (rs_world s)) (w_notes (rs_world s)) (w_clips (rs_world s)))) →
  script w_conn F (with_slots body) t R.
Proof.
  intros Hb HP HR w Hw Hl. destruct (Hb (mkSess w ∅ ∅ []) (HP w Hw) Hl) as [H1 H2]. split.
  - intros rest Hin. destruct (H1 rest Hin) as (a & s & E & HQ & Hls & Hi & Ho).
    exists a. eexists. unfold with_slots. rewrite E. split; [reflexivity|].
    split; [by apply HR|]. done.
  - intros t1 b t2 Ht Hin. destruct (H2 t1 b t2 Ht Hin) as (s & E & Ho).
    exists (rs_world s). unfold with_slots. by rewrite E.
Qed.

Section session.
Context (peer : string) (clipboard_set : bytes → string → option error).
Context (l : list (FileMeta * bytes)).
Context (Hl : l ≠ []) (Hcount : Z.of_nat (length l) ≤ maxInt64).
Context (Hreg : Forall (λ x, regular x.1 x.2) l) (Hstart : fits (start_header (map fst l))).

Lemma regular_ok : Forall FileMeta_ok (map fst l).
Proof.
  apply Forall_map. eapply Forall_impl; [|exact Hreg]. intros [m c] Hr. unfold FileMeta_ok. cbn in *.
  rewrite (rg_size _ _ Hr). pose proof (rg_int _ _ Hr). unfold inInt64, minInt64, maxInt64 in *. lia.
Qed.

Lemma query_fits i sha : inInt64 i → (String.length sha ≤ 100)%nat → fits (query_header i sha).
Proof.
  intros Hi Hs. unfold fits, marshal_Header.
  replace (Header_json (query_header i sha)) with
    (JObj ([("type", JStr TypeResumeQuery)] ++ opt_str "sha256" sha ++ opt_int "file_index" i)).
  2: { unfold Header_json. cbn. by rewrite app_nil_r. }
  match goal with |- context [JObj ?l] => pose proof (print_obj_size l) as Hp end.
  rewrite !members_size_app in Hp.
  pose proof (members_opt_str "sha256" sha) as H1. pose proof (json_quote_bound sha) as H2.
  pose proof (members_opt_int "file_index" i) as H3. pose proof (itoa_length i Hi) as H5.
  change MaxHeaderSize with 1048576.
  assert (length (json_quote "sha256") = 8)%nat by by vm_compute.
  assert (length (json_quote "file_index") = 12)%nat by by vm_compute.
  assert (members_size [("type", JStr TypeResumeQuery)] ≤ 100)%nat as H6 by (vm_compute; lia).
  lia.
Qed.

Lemma entry_facts k m c :
  l !! k = Some (m, c) →
  regular m c ∧ entry (map valid_FileMeta (map fst l)) (0 + Z.of_nat k) = Some (valid_FileMeta m) ∧
  fits (query_header (0 + Z.of_nat k) (fm_SHA256 m)).
Proof.
  intros Hk. pose proof (Forall_lookup_1 _ _ _ _ Hreg Hk) as Hr. cbn in Hr. rewrite Z.add_0_l.
  pose proof (lookup_lt_Some _ _ _ Hk) as Hlt. split_and!; [done| |].
  - unfold entry. rewrite (proj2 (Z.ltb_ge _ _)), Nat2Z.id by lia. by rewrite !list_lookup_fmap, Hk.
  - apply query_fits; [unfold inInt64, minInt64, maxInt64 in *; lia|].
    rewrite (rg_sha _ _ Hr), hex_encode_length, sha256_length. lia.
Qed.

(** What the session leaves: every file under its own name in the download
    directory. *)
Definition stored (f : fs) : Prop :=
  ∃ paths, Forall2 (λ p c, file_at f p = Some c) paths (map snd l) ∧
    Forall (λ p, path_dir p = abs_path ds) paths ∧ NoDup paths.

Lemma receive_session_script d :
  ready (ss_fs d) →
  script w_conn (λ w, w_disk w = d) (receiveSession (abs_path ds) clipboard_set peer)
    (dual (session_events l)) (λ _ w, stored (wfs w)).
Proof.
  intros Hrd. set (manifest := map valid_FileMeta (map fst l)).
  assert (Z.of_nat (length manifest) = Z.of_nat (length l)) as Hlen by (unfold manifest; by rewrite !length_map).
  unfold receiveSession, session_events. rewrite !dual_app.
  eapply (script_bind_eq _ _ _ [Rcv (frame (start_header (map fst l)))]);
    [apply script_try_eq, (recv_read_script (λ w, w_disk w = d)); [by intros w c H|apply start_ok, regular_ok|done]| |reflexivity].
  cbv beta iota. rewrite (valid_type (start_header (map fst l)) TypeSessionStart) by done.
  change (TypeSessionStart =?s TypeSessionStart) with true. cbn [negb].
  change (hdr_Kind (valid_Header (start_header (map fst l)))) with (to_valid KindFiles).
  change (to_valid KindFiles) with KindFiles. change (KindFiles =?s KindClipboard) with false.
  change (KindFiles =?s KindFiles) with true. cbv iota.
  change (hdr_Files (valid_Header (start_header (map fst l)))) with manifest.
  change (hdr_Resume (valid_Header (start_header (map fst l)))) with true.
  unfold receiveFiles. rewrite bool_decide_false by (unfold manifest; by destruct l).
  eapply (script_seq _ _ (λ w, w_disk w = d) _ []); [| |reflexivity].
  { apply script_quiet. intros w Hw. exists (). eexists. split; [reflexivity|]. done. }
  eapply (with_slots_script _ _ (snap d ∅ ∅ []) (λ _ s, stored (wfs (rs_world s)))); [|by intros w Hw|done].
  assert (at_entry 0 [] d ∅ ∅ []) as Ha.
  { split; [done| |done|constructor|constructor|constructor]. intros j. split; [set_solver|lia]. }
  eapply (script_bind' _ _ _ [] (λ fuel s, snap d ∅ ∅ [] s ∧ under sconn fuel s)); [| |reflexivity].
  { apply script_quiet. intros s Hs. exists (S (length (c_in (sconn s)))), s. split; [by destruct s|].
    split; [split; [done|unfold under; lia]|done]. }
  intros fuel. fold (finish peer).
  eapply (script_bind' _ _ _ _ _ _ (dual [Rcv (frame (ack 0 true ""))])); [apply (loop_script peer manifest ltac:(lia) l 0 [] d ∅ ∅ [] fuel Ha ltac:(lia) entry_facts ltac:(lia))| |].
  2: { rewrite <-app_assoc. reflexivity. }
  intros [] s (d' & sl' & C' & sv' & Hs & Ha'). revert s Hs.
  change (script sconn (snap d' sl' C' sv') (finish peer) (dual [Rcv (frame (ack 0 true ""))])
    (λ _ s, stored (wfs (rs_world s)))). unfold finish.
  eapply (script_seq _ _ (snap d' sl' C' sv') _ [Snd (frame (ack 0 true ""))]);
    [apply (s_reply_script _ (ack 0 true "")); [apply snap_off|done|by apply ack_fits]| |reflexivity].
  apply script_quiet. intros s Hs. exists (). eexists. split; [reflexivity|]. split; [|done].
  cbn. destruct Hs as (Hd & _). unfold wfs. cbn. rewrite Hd. exists sv'.
  split_and!; [apply (ae_saved _ _ _ _ _ _ Ha')|apply (ae_where _ _ _ _ _ _ Ha')|apply (ae_distinct _ _ _ _ _ _ Ha')].
Qed.
End session.


End receiver.

(** *** The sender *)
Section sender.
Context (progress : bool) (devName : string) (disk : fs).

(** Nobody interrupts the sender and its files stay. *)
Definition sending (w : sworld) : Prop := sw_fs w = disk ∧ sw_ctx w = None.
Lemma sending_off : off_wire sending.
Proof. by intros w c H. Qed.

Lemma say_script line : script sw_conn sending (say progress line) [] (λ _, sending).
Proof.
  apply script_quiet. intros w Hw. unfold say. destruct progress; exists (); eexists; (split; [reflexivity|]); done.
Qed.
Lemma ctx_script : script sw_conn sending ctx_check [] (λ _, sending).
Proof.
  apply script_quiet. intros w [H1 H2]. exists (), w. unfold ctx_check. by rewrite H2.
Qed.
Lemma wrapping_script {A} pre (m : M sworld A) t v (F : sworld → Prop) :
  script sw_conn sending m t (λ a w, a = v ∧ F w) →
  script sw_conn sending (wrapping pre m) t (λ a w, a = v ∧ F w).
Proof.
  intros Hm. unfold wrapping.
  eapply (script_bind_eq _ _ _ t (inl v) F); [by apply script_try_eq| |by rewrite app_nil_r].
  apply script_quiet. intros w Hw. by exists v, w.
Qed.
Lemma wrapping_unit pre (m : M sworld unit) t :
  script sw_conn sending m t (λ _, sending) → script sw_conn sending (wrapping pre m) t (λ _, sending).
Proof.
  intros Hm. eapply script_conseq; [apply (wrapping_script pre m t () sending)|done|by intros a w [_ H]].
  eapply script_conseq; [exact Hm|done|]. by intros [] w H.
Qed.

Lemma s_control_script h :
  hdr_Length h = 0 → fits h →
  script sw_conn sending (s_conn (WriteControl h)) [Snd (frame h)] (λ _, sending).
Proof. apply send_control_script, sending_off. Qed.

Lemma chunk_write_script i buf :
  buf ≠ [] → inInt64 i → inInt64 (Z.of_nat (length buf)) →
  script sw_conn sending (s_conn (WriteMessage (chunk_header i (Z.of_nat (length buf))) (Some buf)))
    [Snd (frame (chunk_header i (Z.of_nat (length buf)))); Snd buf] (λ _, sending).
Proof.
  intros Hb Hi Hn. eapply s_conn_script; [|intros w a c Hw _; apply sending_off, Hw].
  pose proof (WriteMessage_script (chunk_header i (Z.of_nat (length buf))) buf (chunk_fits i _ Hi Hn) eq_refl) as Hw.
  unfold payload in Hw. rewrite decide_False in Hw by done. exact Hw.
Qed.

Lemma send_chunks_script f name i sent size rest :
  inInt64 i → 0 ≤ sent → sent + Z.of_nat (length rest) = size → size ≤ maxInt64 →
  (length rest < f)%nat →
  script sw_conn sending (send_chunks progress f name i sent size rest)
    (chunk_events f i sent size rest) (λ _, sending).
Proof.
  intros Hi. revert sent rest. induction f as [|f IH]; intros sent rest H0 Hs Hmax Hf; [lia|].
  destruct rest as [|x rest].
  { cbn [send_chunks chunk_events]. eapply (script_seq _ _ _ _ [] _ []); [apply ctx_script| |reflexivity].
    apply script_quiet. intros w Hw. by exists (), w. }
  cbn [send_chunks chunk_events]. cbv zeta. set (buf := take (Z.to_nat ChunkSize) (x :: rest)). set (more := drop (Z.to_nat ChunkSize) (x :: rest)).
  assert (0 < ChunkSize) as Hcs by done.
  assert (buf ++ more = x :: rest) as Hsplit by apply take_drop.
  assert (buf ≠ []) as Hne.
  { unfold buf. destruct (Z.to_nat ChunkSize) eqn:E; [lia|done]. }
  assert (0 < length buf)%nat as Hpos by (destruct buf; [done|cbn; lia]).
  assert (Z.of_nat (length buf) + Z.of_nat (length more) = Z.of_nat (length (x :: rest))) as Hlen
    by (rewrite <-Hsplit, length_app; lia).
  assert (∀ z, 0 ≤ z ≤ size → inInt64 z) as H64.
  { intros z Hz. unfold inInt64, minInt64, maxInt64 in *. lia. }
  clearbody buf more. rewrite (int64_id (sent + Z.of_nat (length buf))) by (apply H64; lia).
  eapply (script_seq _ _ _ _ []); [apply ctx_script| |reflexivity].
  eapply (script_seq _ _ sending _ [Snd (frame (chunk_header i (Z.of_nat (length buf)))); Snd buf]); [| |reflexivity].
  { apply chunk_write_script; [done|done|apply H64; lia]. }
  eapply (script_seq _ _ sending _ [Snd (frame (progress_header i (sent + Z.of_nat (length buf)) size))]); [| |reflexivity].
  { unfold fileProgress. cbv zeta. eapply (script_seq _ _ _ _ []); [apply say_script| |reflexivity].
    eapply script_conseq; [|done|].
    - apply (script_ignore _ _ _ _ (λ (_ : unit), sending)). apply s_control_script; [done|].
      apply progress_fits; [done|apply H64; lia..].
    - by intros u w [_ H]. }
  apply IH; lia.
Qed.

(** The file of an entry is where the sender looks for it. *)
Definition source (content : bytes) (path : string) : Prop := file_at disk path = Some content.

Lemma send_file_script i path m content :
  inInt64 i → regular m content → source content path →
  script sw_conn sending (sendOneFile progress i path m 0)
    ([Snd (frame (index_header TypeFileHeader i))] ++
     chunk_events (S (length content)) i 0 (fm_Size m) content ++
     [Snd (frame (index_header TypeFileEnd i))]) (λ _, sending).
Proof.
  intros Hi Hr Hsrc. unfold sendOneFile. rewrite (rg_dir _ _ Hr).
  eapply (script_bind_eq _ _ _ [] content sending); [| |reflexivity].
  { apply script_quiet. intros w [H1 H2]. exists content, w. split; [|done].
    unfold s_fs, zoom, read_file. rewrite H1. unfold source, file_at in Hsrc.
    destruct (fs_nodes disk !! path) as [[b| |]|]; simplify_eq. destruct w; cbn in *; by subst. }
  cbv zeta. change ((0 <? 0) && (0 <? fm_Size m)) with false. cbv iota.
  change (Z.to_nat 0) with 0%nat. rewrite drop_0.
  eapply script_seq; [apply s_control_script; [done|by apply index_fits; [vm_compute; lia|]]| |reflexivity].
  pose proof (rg_size _ _ Hr). pose proof (rg_int _ _ Hr).
  eapply script_seq; [apply send_chunks_script; [done|lia..]| |reflexivity].
  apply s_control_script; [done|]. by apply index_fits; [vm_compute; lia|].
Qed.

Lemma send_entry_script count i m content path :
  inInt64 i → regular m content → source content path → fits (query_header i (fm_SHA256 m)) →
  script sw_conn sending (send_entry progress count i m path) (entry_events i m content) (λ _, sending).
Proof.
  intros Hi Hr Hsrc Hf. unfold send_entry, entry_events.
  eapply (script_seq _ _ _ _ []); [apply ctx_script| |reflexivity].
  eapply (script_seq _ _ _ _ []); [apply say_script| |reflexivity].
  eapply script_seq; [apply wrapping_unit, s_control_script; [done|exact Hf]| |reflexivity].
  eapply (script_bind_eq _ _ _ [Rcv (frame (offer_header i 0))]);
    [apply wrapping_script, (send_read_script sending (offer_header i 0)); [apply sending_off|by apply offer_ok|by apply offer_fits]| |reflexivity].
  rewrite (valid_type (offer_header i 0) TypeResumeOffer) by done.
  change (TypeResumeOffer =?s TypeResumeOffer) with true. cbn [negb].
  change (hdr_BytesDone (valid_Header (offer_header i 0))) with 0.
  eapply (script_seq _ _ _ _ _ _ [Rcv (frame (ack i true ""))]); [apply wrapping_unit; by apply send_file_script| |by rewrite <-!app_assoc].
  eapply (script_bind_eq _ _ _ [Rcv (frame (ack i true ""))]);
    [apply wrapping_script, (send_read_script sending (ack i true "")); [apply sending_off|by apply ack_ok|by apply ack_fits]| |reflexivity].
  change (hdr_OK (valid_Header (ack i true ""))) with true. cbn [negb].
  apply script_quiet. intros w Hw. by exists (), w.
Qed.

Lemma send_entries_script count i l paths :
  (∀ k m c, l !! k = Some (m, c) → inInt64 (i + Z.of_nat k) ∧ regular m c ∧
     fits (query_header (i + Z.of_nat k) (fm_SHA256 m))) →
  Forall2 source (map snd l) paths →
  script sw_conn sending (send_entries progress count i (combine (map fst l) paths)) (entries_events i l)
    (λ _, sending).
Proof.
  revert i paths. induction l as [|[m c] l IH]; intros i paths Hl Hp; inversion_clear Hp as [|? p ? ps Hsrc Hps].
  - apply script_quiet. intros w Hw. by exists (), w.
  - destruct (Hl 0%nat m c eq_refl) as (Hi & Hr & Hf). rewrite Z.add_0_r in Hi, Hf.
    cbn [map combine fst snd send_entries entries_events].
    eapply script_seq; [by apply send_entry_script| |reflexivity]. apply IH; [|done].
    intros k m' c' Hk. replace (i + 1 + Z.of_nat k) with (i + Z.of_nat (S k)) by lia. by apply Hl.
Qed.

Lemma send_session_script l paths :
  l ≠ [] → Z.of_nat (length l) ≤ maxInt64 → Forall (λ x, regular x.1 x.2) l →
  fits (start_header (map fst l)) → Forall2 source (map snd l) paths →
  script sw_conn sending (send_session progress devName (map fst l) paths) (session_events l)
    (λ _ _, True).
Proof.
  intros Hne Hcount Hreg Hf Hsrc. unfold send_session, session_events. cbv zeta.
  eapply script_seq; [by apply s_control_script| |reflexivity].
  eapply script_seq; [apply send_entries_script; [|done]| |reflexivity].
  { intros k m c Hk. destruct (entry_facts l Hcount Hreg k m c Hk) as (H1 & H2 & H3).
    split_and!; [by apply entry_int64 in H2; [|rewrite !length_map]|done|done]. }
  eapply script_seq; [apply s_control_script; [done|apply end_fits]| |reflexivity].
  eapply (script_bind_eq _ _ _ [Rcv (frame (ack 0 true ""))]);
    [apply (send_read_script sending (ack 0 true "")); [apply sending_off|by apply ack_ok|by apply ack_fits]| |reflexivity].
  rewrite (valid_type (ack 0 true "") TypeAck) by done.
  change (negb (TypeAck =?s TypeAck) || negb (hdr_OK (valid_Header (ack 0 true "")))) with false. cbv iota.
  eapply script_conseq; [apply say_script|done|done].
Qed.
End sender.

(** ** Properties *)

(** The two ends as parties of an exchange: each starts on a connection that
    is open and on which nothing has arrived but its input. *)
Definition sender_side {A} (m : M sworld A) (disk : fs) (log : list string) : party A :=
  party_of sw_conn m (λ i, mkSworld (conn_of i) disk log None).
Definition receiver_side {A} (m : M rworld A) (d : slots_state) (ev : list Event)
    (notes : list (string * string)) (clips : list (bytes * string)) : party A :=
  party_of w_conn m (λ i, mkWorld (conn_of i) d ev notes clips).

(** A transfer of files that meets no failure completes. With the files
    where the manifest says, a receiver whose disk works and holds no partial
    files, and an open connection, the two sessions neither wait for each
    other nor fail: after at most as many rounds as there are frames both have
    returned success, and every file is in the download directory under a name
    of its own with the bytes that were sent. *)
Theorem files_complete ds progress devName clipboard_set peer l paths disk log d ev notes clips n :
  ds ≠ [] → Forall plain ds → ready ds (ss_fs d) →
  l ≠ [] → Z.of_nat (length l) ≤ maxInt64 → Forall (λ x, regular x.1 x.2) l →
  fits (start_header (map fst l)) → Forall2 (source disk) (map snd l) paths →
  (length (session_events l) < n)%nat →
  let send := sender_side (send_session progress devName (map fst l) paths) disk log in
  let receive := receiver_side (receiveSession (abs_path ds) clipboard_set peer) d ev notes clips in
  let '(sent, heard) := exchange n send receive in
  send heard = (Ok (), sent) ∧ receive sent = (Ok (), heard) ∧
  stored ds l (wfs (receiveSession (abs_path ds) clipboard_set peer
    (mkWorld (conn_of sent) d ev notes clips)).2).
Proof.
  intros Hne Hds Hrd Hl Hc Hreg Hf Hsrc Hn send receive.
  destruct (script_plays sw_conn _ _ _ _ (λ i, mkSworld (conn_of i) disk log None) ()
    (send_session_script progress devName disk l paths Hl Hc Hreg Hf Hsrc)) as [Hp _];
    [done|done|by intros []|].
  destruct (script_plays w_conn _ _ _ _ (λ i, mkWorld (conn_of i) d ev notes clips) ()
    (receive_session_script ds Hne Hds peer clipboard_set l Hl Hc Hreg Hf d Hrd)) as [Hq (w & E & Hst)];
    [done|done|by intros []|].
  destruct (exchange_completes send receive (session_events l) () () n Hp Hq Hn) as (-> & E1 & E2).
  split_and!; [done|done|]. rewrite reads_dual in E. by rewrite E.
Qed.

(** The world of the witness: one file of two bytes. *)
Definition demo_files : list (FileMeta * bytes) := [(demo_meta, bs "hi")].
Definition demo_store : slots_state := mkSlots demo_disk ∅.

Lemma demo_ready : ready ["d"] demo_disk.
Proof.
  split; [done|done|]. intros dest p Hp. unfold demo_disk. cbn.
  rewrite lookup_insert_ne, lookup_singleton_ne; [done|..]; intros <-;
    (eapply part_not_shielded; [exact Hp|]); by vm_compute.
Qed.
Lemma demo_regular : Forall (λ x, regular x.1 x.2) demo_files.
Proof. constructor; [|constructor]. split; [done|done|done|by vm_compute|done|by vm_compute]. Qed.
Lemma demo_fits : fits (start_header (map fst demo_files)).
Proof. by vm_compute. Qed.

Lemma files_complete_witness :
  let run := exchange 20
    (sender_side (send_session true "phone" [demo_meta] ["/s/a.txt"]) demo_source [])
    (receiver_side (receiveSession (abs_path ["d"]) (λ _ _, None) "bob") demo_store [] [] []) in
  (sender_side (send_session true "phone" [demo_meta] ["/s/a.txt"]) demo_source [] run.2).1 = Ok ().
Proof.
  destruct demo_ds as [H1 H2].
  pose proof (files_complete ["d"] true "phone" (λ _ _, None) "bob" demo_files ["/s/a.txt"]
    demo_source [] demo_store [] [] [] 20 H1 H2 demo_ready) as H. cbv zeta in H.
  change (map fst demo_files) with [demo_meta] in H.
  destruct (exchange 20 _ _) as [sent heard]. cbv zeta. cbn [snd].
  destruct H as (E & _ & _); [discriminate|by vm_compute|exact demo_regular|exact demo_fits| | |by rewrite E].
  - constructor; [reflexivity|constructor].
  - apply Nat.ltb_lt. by vm_compute.
Defined.

(** A clipboard that is sent arrives. For any data within the limit and
    a receiver that can store it, the two clipboard sessions complete and the
    receiver's clipboard gets exactly the bytes sent, once, with its type. *)
Theorem clipboard_complete dir clipboard_set peer data mime disk log d ev notes clips n :
  Z.of_nat (String.length mime) ≤ 65536 → Z.of_nat (length data) ≤ MaxClipboardSize →
  clipboard_set data (to_valid mime) = None → (6 ≤ n)%nat →
  let send := sender_side (clip_session data mime) disk log in
  let receive := receiver_side (receiveSession dir clipboard_set peer) d ev notes clips in
  let '(sent, heard) := exchange n send receive in
  send heard = (Ok (), sent) ∧ receive sent = (Ok (), heard) ∧
  let w := (receiveSession dir clipboard_set peer (mkWorld (conn_of sent) d ev notes clips)).2 in
  w_clips w = clips ++ [(data, to_valid mime)] ∧ w_disk w = d.
Proof.
  intros Hm Hd Hset Hn send receive.
  destruct (script_plays sw_conn _ _ _ _ (λ i, mkSworld (conn_of i) disk log None) ()
    (clip_session_script data mime Hm Hd)) as [Hp _]; [done|done|by intros []|].
  destruct (script_plays w_conn _ _ _ _ (λ i, mkWorld (conn_of i) d ev notes clips) ()
    (receive_clip_script dir peer clipboard_set data mime d ev clips Hm Hd Hset)) as [Hq (w & E & Hst)];
    [done|done|by intros []|].
  assert (length (clip_script data mime) < n)%nat as Hlen.
  { unfold clip_script, payload. destruct (decide _); cbn; lia. }
  destruct (exchange_completes send receive (clip_script data mime) () () n Hp Hq Hlen) as (-> & E1 & E2).
  split_and!; [done|done|]. rewrite reads_dual in E. rewrite E. by destruct Hst as (? & _ & ?).
Qed.

Lemma clipboard_complete_witness :
  let receive := receiver_side (receiveSession "/d" (λ _ _, None) "bob") demo_store [] [] [] in
  let run := exchange 6 (sender_side (clip_session (bs "hello") "text/plain") demo_source []) receive in
  (receive run.1).1 = Ok ().
Proof.
  pose proof (clipboard_complete "/d" (λ _ _, None) "bob" (bs "hello") "text/plain" demo_source []
    demo_store [] [] [] 6) as H. cbv zeta in H.
  cbv zeta. destruct (exchange 6 _ _) as [sent heard]. cbn [fst].
  destruct H as (_ & E & _); [by vm_compute|by vm_compute|reflexivity|done|by rewrite E].
Defined.
