(* ===== verification/Lan.v ===== *)
(** * internal/transport/bindlan.go: dials that stay on the local network

    Which interface a dial is bound to: the one whose subnet holds the
    address, when the address is private. Addresses are lists of bytes as
    net.IP has them, 4 or 16 long. *)

From S2P Require Import Prelude GoStrings Go GoNet.
From Stdlib Require Import ZArith Lia String Ascii List Bool.
From stdpp Require Import base list strings gmap option numbers sorting.

#[local] Open Scope string_scope.
#[local] Open Scope list_scope.
#[local] Open Scope Z_scope.

(** ** package net: networks *)

Record IPNet := mkIPNet { net_IP : ip; net_Mask : list Z }.

Definition To4 (a : ip) : option ip :=
  if (length a =? 4)%nat then Some a
  else if (length a =? 16)%nat then ip_to4 a
  else None.
(** The four-byte form where there is one. *)
Definition short_form (a : ip) : ip := default a (To4 a).

Definition networkNumberAndMask (n : IPNet) : option (ip * list Z) :=
  let number := short_form (net_IP n) in
  if negb (length number =? 4)%nat && negb (length number =? 16)%nat then None
  else if (length (net_Mask n) =? length number)%nat then Some (number, net_Mask n)
  else if (length (net_Mask n) =? 16)%nat then Some (number, drop 12 (net_Mask n))
  else None.

Fixpoint masked_eq (nn m a : list Z) : bool :=
  match nn, m, a with
  | x :: nn, k :: m, y :: a => (Z.land x k =? Z.land y k) && masked_eq nn m a
  | [], _, [] => true
  | _, _, _ => false
  end.
Definition Contains (n : IPNet) (a : ip) : bool :=
  match networkNumberAndMask n with
  | Some (nn, m) => masked_eq nn m (short_form a)
  | None => false
  end.

Definition IsPrivate (a : ip) : bool :=
  match To4 a with
  | Some l =>
      let b0 := nth 0 l 0 in
      let b1 := nth 1 l 0 in
      (b0 =? 10) || ((b0 =? 172) && (Z.land b1 240 =? 16)) || ((b0 =? 192) && (b1 =? 168))
  | None => (length a =? 16)%nat && (Z.land (nth 0 a 0) 254 =? 252)
  end.

(** net.CIDRMask for an address of [l] bytes. *)
Fixpoint cidr_mask (l n : nat) : list Z :=
  match l with
  | O => []
  | S l =>
      if (8 <=? n)%nat then 255 :: cidr_mask l (n - 8)
      else Z.lxor 255 (Z.shiftr 255 (Z.of_nat n)) :: cidr_mask l 0
  end.
(** The network of the first [n] bits of an address. *)
Definition cidr (a : ip) (n : nat) : IPNet := mkIPNet a (cidr_mask (length (short_form a)) n).

(** ** bindlan.go, bindlan_linux.go *)

(** A Go map is walked in no particular order: [subnets] is its entries in the
    order this walk happens to take. *)
Definition lanInterface (a : option ip) (subnets : list (string * list IPNet)) : string :=
  match a with
  | None => ""
  | Some a =>
      if negb (IsPrivate a) then ""
      else
        match find (λ s, existsb (λ n, Contains n a) s.2) subnets with
        | Some (name, _) => name
        | None => ""
        end
  end.

(** A network interface as anet lists it; its addresses, or [None] where they
    cannot be read; an address that is no network is [None]. *)
Record iface := mkIface { if_Name : string; if_Flags : Z; if_Addrs : option (list (option IPNet)) }.
Definition FlagUp : Z := 1.
Definition FlagLoopback : Z := 4.

Definition add_subnet (name : string) (n : IPNet) (out : gmap string (list IPNet)) : gmap string (list IPNet) :=
  <[name := default [] (out !! name) ++ [n]]> out.
Definition iface_subnets (i : iface) : list IPNet :=
  if (Z.land (if_Flags i) FlagUp =? 0) || negb (Z.land (if_Flags i) FlagLoopback =? 0) then []
  else match if_Addrs i with Some l => omap id l | None => [] end.
Definition add_iface (out : gmap string (list IPNet)) (i : iface) : gmap string (list IPNet) :=
  fold_left (λ out n, add_subnet (if_Name i) n out) (iface_subnets i) out.
Definition systemSubnets (ifaces : option (list iface)) : gmap string (list IPNet) :=
  fold_left add_iface (default [] ifaces) ∅.

(** The dial control of BindLANDials. The state is the names the socket was
    bound to; [control] is the error of RawConn.Control, which then runs
    nothing. A refused SO_BINDTODEVICE is not looked at. *)
Definition lan_control (subnets : list (string * list IPNet)) (control : option error) (address : string)
  : M (list string) unit :=
  match SplitHostPort address with
  | inr _ => ret ()
  | inl (host, _) =>
      let name := lanInterface (ParseIP host) subnets in
      if name =?s "" then ret ()
      else match control with Some e => throw e | None => modify (λ bound, bound ++ [name]) end
  end.

(** The subnets of the test of bindlan.go. *)
Definition demo_subnets : list (string * list IPNet) :=
  [("wlan0", [cidr (v4_mapped [192; 168; 0; 132]) 24; cidr ([254; 128] ++ repeat 0 13 ++ [1]) 64]);
   ("tun0", [cidr (v4_mapped [172; 19; 0; 1]) 30]);
   ("rmnet0", [cidr (v4_mapped [10; 208; 141; 161]) 24])].
Example lan_interface_examples :
  map (λ a, lanInterface (ParseIP a) demo_subnets) ["192.168.0.123"; "192.168.1.5"; "8.8.8.8"; "fe80::2"; "x"] =
  ["wlan0"; ""; ""; ""; ""].
Proof. by vm_compute. Qed.

(** Where two networks overlap the walk decides, not the longer prefix: with a
    VPN that has 192.168.0.0/16 a device next door may be dialled through it. *)
Example overlapping_subnets :
  let wifi := ("wlan0", [cidr [192; 168; 0; 132] 24]) in
  let vpn := ("tun0", [cidr [192; 168; 9; 1] 16]) in
  lanInterface (ParseIP "192.168.0.123") [wifi; vpn] = "wlan0" ∧
  lanInterface (ParseIP "192.168.0.123") [vpn; wifi] = "tun0".
Proof. by vm_compute. Qed.

(** ** Masks are prefixes *)

(** The bits of an address, most significant first. *)
Definition byte_bits (x : Z) : list bool := map (λ i, Z.testbit x i) [7; 6; 5; 4; 3; 2; 1; 0].
Definition addr_bits (a : ip) : list bool := flat_map byte_bits a.

Lemma land_eq_bits x y m :
  0 ≤ m < 256 →
  Z.land x m = Z.land y m ↔ ∀ i, 0 ≤ i < 8 → Z.testbit m i = true → Z.testbit x i = Z.testbit y i.
Proof.
  intros Hm. split.
  - intros E i Hi Ht. apply (f_equal (λ z, Z.testbit z i)) in E.
    rewrite !Z.land_spec, Ht, !andb_true_r in E. exact E.
  - intros H. apply Z.bits_inj'. intros i Hi. rewrite !Z.land_spec.
    destruct (Z.testbit m i) eqn:Ht; [|by rewrite !andb_false_r]. rewrite H; [done| |done].
    split; [done|]. destruct (Z.lt_ge_cases i 8) as [|Hge]; [done|].
    rewrite <-(Z.mod_small m (2 ^ 8)), Z.mod_pow2_bits_high in Ht by lia. done.
Qed.

Lemma cons_congr {A} (x y : A) l k : x = y → l = k → x :: l = y :: k.
Proof. congruence. Qed.
(** One byte under the mask of its first [k] bits. *)
Lemma byte_masked k x y :
  (k ≤ 8)%nat →
  Z.land x (Z.lxor 255 (Z.shiftr 255 (Z.of_nat k))) = Z.land y (Z.lxor 255 (Z.shiftr 255 (Z.of_nat k))) ↔
  take k (byte_bits x) = take k (byte_bits y).
Proof.
  intros Hk. rewrite land_eq_bits.
  2: { do 9 (destruct k as [|k]; [by vm_compute|]). lia. }
  do 9 (destruct k as [|k]; [
    cbn [byte_bits map take]; split;
    [ intros H; repeat (apply cons_congr; [apply H; [lia|reflexivity]|]); reflexivity
    | intros [= ] i Hi Ht;
      assert (i = 0 ∨ i = 1 ∨ i = 2 ∨ i = 3 ∨ i = 4 ∨ i = 5 ∨ i = 6 ∨ i = 7) as Hc by lia;
      repeat (destruct Hc as [->|Hc]); subst; first [assumption|discriminate Ht] ]|]).
  lia.
Qed.

Lemma length_cidr_mask l n : length (cidr_mask l n) = l.
Proof. revert n. induction l as [|l IH]; intros n; [done|]. cbn. case_match; cbn; by rewrite IH. Qed.

Lemma masked_eq_prefix nn k a :
  masked_eq nn (cidr_mask (length nn) k) a = true ↔
  length nn = length a ∧ take k (addr_bits nn) = take k (addr_bits a).
Proof.
  revert k a. induction nn as [|x nn IH]; intros k [|y a]; cbn [length masked_eq cidr_mask].
  - done.
  - split; [done|]. by intros [? _].
  - split; [by case_match|]. by intros [? _].
  - unfold addr_bits. cbn [flat_map]. fold (addr_bits nn) (addr_bits a).
    assert (∀ k' : nat, (k' ≤ 8)%nat → ∀ u v, take k' (byte_bits u ++ v) = take k' (byte_bits u)) as Hfront.
    { intros k' Hk' u v. rewrite take_app_le; [done|]. cbn. lia. }
    destruct (8 <=? k)%nat eqn:Hk; [apply Nat.leb_le in Hk|apply Nat.leb_gt in Hk];
      rewrite andb_true_iff, Z.eqb_eq.
    + rewrite IH. rewrite !take_app, !(take_ge (byte_bits _) k) by (cbn; lia).
      change (length (byte_bits x)) with 8%nat. change (length (byte_bits y)) with 8%nat.
      pose proof (byte_masked 8 x y ltac:(lia)) as Hb.
      change (Z.lxor 255 (255 ≫ Z.of_nat 8)) with 255 in Hb. rewrite Hb.
      rewrite !(take_ge (byte_bits _) 8) by (cbn; lia).
      split.
      * intros (E & Hl & Hr). split; [congruence|]. by rewrite E, Hr.
      * intros [Hl E]. apply app_inj_1 in E as [E1 E2]; [|done]. split_and!; [done|lia|done].
    + rewrite IH, !Hfront, byte_masked, !take_0 by lia. split; [intros (?&?&_)|intros [? ?]]; split_and!; (done || lia).
Qed.

(** The network [base/k] holds the addresses of its family that agree with
    [base] on the first [k] bits. *)
Definition holds (n : IPNet) (a : ip) : Prop :=
  ∃ base k, n = cidr base k ∧ length (short_form base) = length (short_form a) ∧
    take k (addr_bits (short_form base)) = take k (addr_bits (short_form a)).

(** A network as the system lists it: an address of 4 or 16 bytes, a prefix. *)
Definition cidr_net (n : IPNet) : Prop :=
  ∃ base k, n = cidr base k ∧ (length base = 4%nat ∨ length base = 16%nat).

Lemma length_short_form a : length a = 4%nat ∨ length a = 16%nat →
  length (short_form a) = 4%nat ∨ length (short_form a) = 16%nat.
Proof.
  unfold short_form, To4, ip_to4. intros [E|E]; rewrite E; cbn; [by left|].
  case_bool_decide; cbn; [|by right]. left. rewrite length_drop. lia.
Qed.

Lemma Contains_cidr base k a :
  length base = 4%nat ∨ length base = 16%nat →
  Contains (cidr base k) a = true ↔
  length (short_form base) = length (short_form a) ∧
  take k (addr_bits (short_form base)) = take k (addr_bits (short_form a)).
Proof.
  intros Hl%length_short_form. unfold Contains, networkNumberAndMask, cidr. cbn [net_IP net_Mask].
  rewrite length_cidr_mask, Nat.eqb_refl.
  assert (negb (length (short_form base) =? 4)%nat && negb (length (short_form base) =? 16)%nat = false) as ->.
  { destruct Hl as [-> | ->]; reflexivity. }
  apply masked_eq_prefix.
Qed.
Lemma Contains_holds n a : cidr_net n → Contains n a = true ↔ holds n a.
Proof.
  intros (base & k & -> & Hl). rewrite Contains_cidr by done. split.
  - intros [H1 H2]. by exists base, k.
  - intros (base' & k' & [= <- E] & H1 & H2). split; [done|].
    assert (masked_eq (short_form base) (cidr_mask (length (short_form base)) k') (short_form a) = true) as Hm
      by (by apply masked_eq_prefix).
    rewrite <-E in Hm. by apply masked_eq_prefix in Hm as [_ Hm].
Qed.

(** IsPrivate is membership in the blocks of RFC 1918 and RFC 4193. *)
Definition private_blocks : list IPNet :=
  [cidr [10; 0; 0; 0] 8; cidr [172; 16; 0; 0] 12; cidr [192; 168; 0; 0] 16; cidr (252 :: repeat 0 15) 7].
Lemma length_To4 a l : To4 a = Some l → length l = 4%nat.
Proof.
  unfold To4, ip_to4. destruct (Nat.eqb_spec (length a) 4) as [E|]; [by intros [= <-]|].
  destruct (Nat.eqb_spec (length a) 16) as [E|]; [|done]. case_bool_decide; intros [= <-].
  by rewrite length_drop, E.
Qed.
Lemma land_255 x : 0 ≤ x < 256 → Z.land x 255 = x.
Proof. intros H. change 255 with (Z.ones 8). rewrite Z.land_ones by lia. by apply Z.mod_small. Qed.
Lemma private_masks :
  map networkNumberAndMask private_blocks =
  [Some ([10; 0; 0; 0], [255; 0; 0; 0]); Some ([172; 16; 0; 0], [255; 240; 0; 0]);
   Some ([192; 168; 0; 0], [255; 255; 0; 0]); Some (252 :: repeat 0 15, 254 :: repeat 0 15)].
Proof. by vm_compute. Qed.
Lemma in_blocks l a :
  existsb (λ n, Contains n a) l =
  existsb (λ r, match r with Some (nn, m) => masked_eq nn m (short_form a) | None => false end)
    (map networkNumberAndMask l).
Proof. induction l as [|n l IH]; [done|]. cbn. by rewrite IH. Qed.

Lemma IsPrivate_blocks a :
  length a = 4%nat ∨ length a = 16%nat → Forall (λ x, 0 ≤ x < 256) a →
  IsPrivate a = existsb (λ n, Contains n a) private_blocks.
Proof.
  intros Hl Ha. rewrite in_blocks, private_masks. unfold IsPrivate. destruct (To4 a) as [l|] eqn:E.
  - assert (short_form a = l) as -> by (unfold short_form; by rewrite E).
    assert (Forall (λ x, 0 ≤ x < 256) l) as Hb.
    { unfold To4, ip_to4 in E. repeat case_match; simplify_eq; [done|]. by apply list.Forall_drop. }
    apply length_To4 in E. destruct l as [|b0 [|b1 [|b2 [|b3 [|]]]]]; try discriminate E.
    inversion_clear Hb as [|?? H0 Hb']. inversion_clear Hb' as [|?? H1 _].
    cbn -[Z.land Z.eqb]. change (Z.land 10 255) with 10. change (Z.land 172 255) with 172.
    change (Z.land 192 255) with 192. change (Z.land 168 255) with 168. change (Z.land 16 240) with 16.
    rewrite !Z.land_0_r, (land_255 b0), (land_255 b1) by done.
    rewrite (Z.eqb_sym 10), (Z.eqb_sym 172), (Z.eqb_sym 192), (Z.eqb_sym 168), (Z.eqb_sym 16).
    change (0 =? 0) with true. rewrite !andb_true_r, !andb_false_r, !orb_false_r. by rewrite !orb_assoc.
  - assert (short_form a = a) as -> by (unfold short_form; by rewrite E).
    assert (length a = 16%nat) as H16.
    { destruct Hl as [Hl|]; [|done]. unfold To4 in E. rewrite Hl in E. discriminate E. }
    rewrite H16. do 16 (destruct a as [|? a]; [discriminate H16|]). destruct a as [|? a]; [|discriminate H16].
    cbn -[Z.land Z.eqb]. rewrite !Z.land_0_r, (Z.eqb_sym (Z.land 252 254)), !andb_false_r. cbn [orb].
    change (Z.land 252 254) with 252. change (0 =? 0) with true. by rewrite !andb_true_r, orb_false_r.
Qed.

(** ** The interfaces of the system *)

Definition iface_up (i : iface) : Prop :=
  Z.land (if_Flags i) FlagUp ≠ 0 ∧ Z.land (if_Flags i) FlagLoopback = 0.

Lemma elem_of_iface_subnets i n :
  n ∈ iface_subnets i ↔ iface_up i ∧ ∃ l, if_Addrs i = Some l ∧ Some n ∈ l.
Proof.
  unfold iface_subnets, iface_up.
  destruct (Z.eqb_spec (Z.land (if_Flags i) FlagUp) 0) as [|Hu]; cbn [orb].
  { split; [set_solver|]. by intros [[? _] _]. }
  destruct (Z.eqb_spec (Z.land (if_Flags i) FlagLoopback) 0) as [Hl|Hl]; cbn [negb].
  2: { split; [set_solver|]. by intros [[_ ?] _]. }
  destruct (if_Addrs i) as [l|]; [|split; [set_solver|naive_solver]].
  rewrite list_elem_of_omap. split.
  - intros (x & Hx & E). cbn in E. subst x. naive_solver.
  - intros (_ & l' & [= <-] & Hx). by exists (Some n).
Qed.

Lemma add_subnets_lookup name l out name' :
  default [] (fold_left (λ out n, add_subnet name n out) l out !! name') =
  default [] (out !! name') ++ (if decide (name' = name) then l else []).
Proof.
  revert out. induction l as [|n l IH]; intros out; cbn [fold_left].
  { case_decide; by rewrite app_nil_r. }
  rewrite IH. unfold add_subnet. case_decide as E; [subst|].
  - rewrite lookup_insert_eq. cbn. by rewrite <-app_assoc.
  - by rewrite lookup_insert_ne.
Qed.
(** An interface's entry holds the subnets of every interface of its name. *)
Lemma systemSubnets_lookup l out name :
  default [] (fold_left add_iface l out !! name) =
  default [] (out !! name) ++ flat_map iface_subnets (List.filter (λ i, if_Name i =?s name) l).
Proof.
  revert out. induction l as [|i l IH]; intros out; cbn [fold_left List.filter]; [by rewrite app_nil_r|].
  rewrite IH. unfold add_iface at 1. rewrite add_subnets_lookup, <-app_assoc. f_equal.
  destruct (String.eqb_spec (if_Name i) name) as [->|Hne].
  - by rewrite decide_True.
  - by rewrite decide_False by congruence.
Qed.

Definition ifaces_of (ifaces : option (list iface)) : list iface := default [] ifaces.
Lemma elem_of_subnets ifaces order name n :
  order ≡ₚ map_to_list (systemSubnets ifaces) →
  (∃ nets, (name, nets) ∈ order ∧ n ∈ nets) ↔
  ∃ i, i ∈ ifaces_of ifaces ∧ if_Name i = name ∧ n ∈ iface_subnets i.
Proof.
  intros Ho. pose proof (systemSubnets_lookup (ifaces_of ifaces) ∅ name) as Hl.
  rewrite lookup_empty in Hl. cbn [default app] in Hl.
  trans (n ∈ default [] (systemSubnets ifaces !! name)).
  - setoid_rewrite Ho. setoid_rewrite elem_of_map_to_list. split; [by intros (nets & -> & H)|].
    intros H. destruct (systemSubnets ifaces !! name) as [nets|]; [by exists nets|]. by apply elem_of_nil in H.
  - unfold systemSubnets. fold (ifaces_of ifaces). rewrite Hl, list_elem_of_In, in_flat_map.
    setoid_rewrite filter_In. setoid_rewrite String.eqb_eq. setoid_rewrite <-list_elem_of_In. naive_solver.
Qed.

Lemma lanInterface_spec a (order : list (string * list IPNet)) :
  match find (λ s, existsb (λ n, Contains n a) s.2) order with
  | Some (name, nets) => (name, nets) ∈ order ∧ ∃ n, n ∈ nets ∧ Contains n a = true
  | None => ∀ name nets n, (name, nets) ∈ order → n ∈ nets → Contains n a = false
  end.
Proof.
  destruct (find _ order) as [[name nets]|] eqn:E.
  - apply find_some in E as [H1 H2]. cbn in H2. apply existsb_exists in H2 as (n & Hn & Hc).
    split; [by apply list_elem_of_In|]. exists n. split; [by apply list_elem_of_In|done].
  - intros name nets n H1%list_elem_of_In H2%list_elem_of_In. pose proof (find_none _ _ E _ H1) as H. cbn in H.
    rewrite <-not_true_iff_false in H |- *. intros Hc. apply H. apply existsb_exists. by exists n.
Qed.

(** The interfaces a dial to [a] may leave through. *)
Definition local_to (ifaces : option (list iface)) (a : ip) (i : iface) : Prop :=
  i ∈ ifaces_of ifaces ∧ iface_up i ∧ ∃ l n, if_Addrs i = Some l ∧ Some n ∈ l ∧ holds n a.


(** A phone on Wi-Fi: the dial next door is bound to the Wi-Fi interface. *)
Definition demo_ifaces : option (list iface) :=
  Some [mkIface "lo" 5 (Some [Some (cidr [127; 0; 0; 1] 8)]);
        mkIface "wlan0" 1 (Some [None; Some (cidr [192; 168; 0; 132] 24)])].
