(* ===== verification/Transport.v ===== *)
(** * internal/transport: pinned TLS

    The configurations the program builds, and what crypto/tls does with them:
    the two sides exchange certificate chains and protocol lists; a server that
    requires a client certificate and a configuration with a
    VerifyPeerCertificate callback refuse the peers they should. *)

From S2P Require Import Prelude GoStrings Go Config.
From Stdlib Require Import ZArith Lia String Ascii List Bool.
From stdpp Require Import base list strings gmap option numbers.

#[local] Open Scope string_scope.
#[local] Open Scope list_scope.
#[local] Open Scope Z_scope.

(** ** crypto/tls *)

(** What a peer shows: its certificate chain and the protocols it offers (as a
    client) or accepts (as a server). *)
Record tls_peer := mkTlsPeer { tp_certs : list bytes; tp_protos : list string }.

(** The fields of tls.Config the program sets. The standard chain and host
    checks are off in every configuration (InsecureSkipVerify). *)
Record tls_config := mkTlsConfig {
  tc_cert : bytes;
  tc_requireClientCert : bool;
  tc_verify : option (list bytes → option error);
  tc_NextProtos : list string;
}.

(** ConnectionState after the handshake. *)
Record tls_state := mkTlsState { ts_certs : list bytes; ts_proto : string }.

(** Protocol negotiation: the first of the server's protocols the client also
    offers. A list on one side only negotiates nothing; two lists with no
    common entry end the handshake. *)
Definition negotiate (server client : list string) : string + error :=
  match server, client with
  | [], _ | _, [] => inl ""
  | _, _ =>
      match find (λ p, existsb (String.eqb p) client) server with
      | Some p => inl p
      | None => inr (Errorf "tls: no application protocol")
      end
  end.

(** The handshake as one side sees it. *)
Definition handshake (cfg : tls_config) (server : bool) (peer : tls_peer) : tls_state + error :=
  if tc_requireClientCert cfg && bool_decide (tp_certs peer = []) then
    inr (Errorf "tls: client didn't provide a certificate")
  else
    match (match tc_verify cfg with Some v => v (tp_certs peer) | None => None end) with
    | Some e => inr e
    | None =>
        match (if server then negotiate (tc_NextProtos cfg) (tp_protos peer)
               else negotiate (tp_protos peer) (tc_NextProtos cfg)) with
        | inr e => inr e
        | inl p => inl (mkTlsState (tp_certs peer) p)
        end
    end.

(** ** The program's configurations *)

Definition PairALPN : string := "adrop-pair/1".

Section config.
(** [PeerVerifier.IsTrusted], consulted at handshake time. *)
Context (IsTrusted : string → option string).

(** The VerifyPeerCertificate callback. *)
Definition verify_pinned (rawCerts : list bytes) : option error :=
  match rawCerts with
  | [] => Some ErrUntrustedPeer
  | leaf :: _ =>
      match IsTrusted (Fingerprint leaf) with
      | Some _ => None
      | None => Some (Wrapf "pinned" ErrUntrustedPeer)
      end
  end.

Definition pinnedTLSConfig (cert : bytes) (server allowAnyPeer : bool) : tls_config :=
  mkTlsConfig cert server (if allowAnyPeer then None else Some verify_pinned) [].

Definition PinnedConfig (cert : bytes) (server : bool) : tls_config :=
  pinnedTLSConfig cert server false.

Definition with_protos (protos : list string) (cfg : tls_config) : tls_config :=
  mkTlsConfig (tc_cert cfg) (tc_requireClientCert cfg) (tc_verify cfg) protos.

(** The listener's choice per client (GetConfigForClient); [allowPair] is
    [None] when the listener was given no callback. *)
Definition listen_config (cert : bytes) (allowPair : option bool) (client : tls_peer) : tls_config :=
  let pinned := pinnedTLSConfig cert true false in
  match allowPair with
  | Some true =>
      if existsb (String.eqb PairALPN) (tp_protos client)
      then with_protos [PairALPN] (pinnedTLSConfig cert true true)
      else pinned
  | _ => pinned
  end.

(** An accepted connection, after its handshake. *)
Definition Listen_accept (cert : bytes) (allowPair : option bool) (client : tls_peer)
  : tls_state + error :=
  handshake (listen_config cert allowPair client) true client.

Definition PeerFingerprint (st : tls_state) : string + error :=
  match ts_certs st with
  | [] => inr ErrUntrustedPeer
  | leaf :: _ => inl (Fingerprint leaf)
  end.

(** ** Dialling

    The network's answer to a TCP connect to an address, with or without the
    bound interface: a peer, or an error. *)
Context {P : Type} (peer_of : P → tls_peer).
Context (connect : bool → string → P + error).

(** [dialTLS]: bound to the LAN interface when [lanControl] is set, and again
    without it where the binding is refused at once. *)
Definition bind_refused (e : error) : bool :=
  is_errno ENETUNREACH e || is_errno EHOSTUNREACH e || is_errno EPERM e || is_errno EACCES e.
Definition dialTLS {A} (lanControl : bool) (dial : bool → A + error) : A + error :=
  match dial lanControl with
  | inl a => inl a
  | inr e => if lanControl && bind_refused e then dial false else inr e
  end.

(** A TCP connect and the client's side of the handshake. *)
Definition dial_with (cfg : tls_config) (addr : string) (control : bool) : (P * tls_state) + error :=
  match connect control addr with
  | inr e => inr e
  | inl p =>
      match handshake cfg false (peer_of p) with
      | inr e => inr e
      | inl st => inl (p, st)
      end
  end.

(** The timeout bounds the connect only: an oracle of [connect]. *)
Definition DialTimeout (lanControl : bool) (cert : bytes) (addr : string) : (P * string) + error :=
  match dialTLS lanControl (dial_with (pinnedTLSConfig cert false false) addr) with
  | inr e => inr e
  | inl (p, st) =>
      match PeerFingerprint st with
      | inl fp => inl (p, fp)
      | inr e => inr e
      end
  end.
Definition Dial := DialTimeout.

(** [strings.Contains(err.Error(), "bad certificate")]: the alert of a peer
    that refused our certificate. *)
Definition is_bad_certificate (e : error) : bool :=
  let t := bs (error_text e) in
  existsb (λ i, bool_decide (take 15 (drop i t) = bs "bad certificate")) (seq 0 (S (length t))).

Definition DialPair (lanControl : bool) (cert : bytes) (addr : string) : (P * string) + error :=
  let cfg := with_protos [PairALPN] (pinnedTLSConfig cert false true) in
  match dialTLS lanControl (dial_with cfg addr) with
  | inr e => if is_bad_certificate e then inr ErrNoTapPairing else inr e
  | inl (p, st) =>
      if negb (ts_proto st =?s PairALPN) then inr ErrNoTapPairing
      else
        match PeerFingerprint st with
        | inl fp => inl (p, fp)
        | inr e => inr e
        end
  end.
End config.

(** ** Who gets in *)

Lemma handshake_certs cfg server peer st :
  handshake cfg server peer = inl st → ts_certs st = tp_certs peer.
Proof. unfold handshake. intros. repeat case_match; by simplify_eq/=. Qed.

Lemma handshake_verified cfg server peer st v :
  handshake cfg server peer = inl st → tc_verify cfg = Some v → v (tp_certs peer) = None.
Proof.
  unfold handshake. intros E Hv. rewrite Hv in E.
  destruct (tc_requireClientCert cfg && _); [done|]. by destruct (v (tp_certs peer)).
Qed.

Lemma verify_pinned_ok trusted certs :
  verify_pinned trusted certs = None →
  ∃ leaf rest, certs = leaf :: rest ∧ trusted (Fingerprint leaf) ≠ None.
Proof. destruct certs as [|leaf rest]; [done|]. intros H. exists leaf, rest. cbn in H. by destruct (trusted _). Qed.

(** A pinned handshake shows a leaf certificate that is trusted, and the
    fingerprint reported is its fingerprint. *)
Lemma pinned_handshake trusted cfg server peer st :
  tc_verify cfg = Some (verify_pinned trusted) → handshake cfg server peer = inl st →
  ∃ leaf, head (tp_certs peer) = Some leaf ∧ trusted (Fingerprint leaf) ≠ None ∧
    PeerFingerprint st = inl (Fingerprint leaf).
Proof.
  intros Hv E. pose proof (handshake_verified _ _ _ _ _ E Hv) as H.
  apply verify_pinned_ok in H as (leaf & rest & Hc & Ht). exists leaf.
  apply handshake_certs in E. unfold PeerFingerprint. rewrite E, Hc. done.
Qed.

Lemma negotiate_one p c q :
  negotiate [p] c = inl q → existsb (String.eqb p) c = true → q = p.
Proof.
  unfold negotiate. destruct c as [|x c]; [done|]. cbn [find]. intros E H. rewrite H in E. congruence.
Qed.



(** A dialled connection is to a trusted peer that answers at the address, and
    the fingerprint that comes with it is the one of its certificate. *)
Lemma DialTimeout_pins {P} trusted (peer_of : P → tls_peer) connect lan cert addr p fp :
  DialTimeout trusted peer_of connect lan cert addr = inl (p, fp) →
  (trusted fp ≠ None ∧ ∃ control, connect control addr = inl p) ∧
  ∃ leaf, head (tp_certs (peer_of p)) = Some leaf ∧ Fingerprint leaf = fp.
Proof.
  unfold DialTimeout. destruct (dialTLS _ _) as [[q st]|] eqn:E; [|done].
  destruct (PeerFingerprint st) eqn:Ep; [|done]. intros [= -> ->].
  assert (∃ control, dial_with peer_of connect (pinnedTLSConfig trusted cert false false) addr control
            = inl (p, st)) as [control Ed].
  { unfold dialTLS in E. destruct (dial_with _ _ _ _ lan) as [[]|] eqn:E1; [naive_solver|].
    destruct (_ && _); naive_solver. }
  unfold dial_with in Ed. destruct (connect control addr) as [q|] eqn:Ec; [|done].
  destruct (handshake _ _ _) eqn:Eh; [|done]. simplify_eq.
  destruct (pinned_handshake trusted (pinnedTLSConfig trusted cert false false) _ _ _ eq_refl Eh) as (leaf & ? & ? & ?).
  rewrite Ep in *. simplify_eq. split; [split; [done|by exists control]|eauto].
Qed.
