(* ===== verification/HubConn.v ===== *)
(** * internal/rns/hubconn.go: one TCP connection to a hub

    The connection's life (connecting in the background, going offline, being
    stopped) and its framing: HDLC with byte stuffing. The three HDLC constants
    and the interface's MTU belong to Reticulum-Go; the class [HDLC] is what
    this file needs of them. *)

From S2P Require Import Prelude GoStrings Go.
From Stdlib Require Import ZArith Lia String Ascii List Bool.
From stdpp Require Import base list strings gmap option numbers.

#[local] Open Scope string_scope.
#[local] Open Scope list_scope.
#[local] Open Scope Z_scope.

Class HDLC := {
  HDLCFlag : byte;
  HDLCEsc : byte;
  HDLCEscMask : Z;
  hub_MTU : nat;
}.

(** [b ^ HDLCEscMask] *)
Definition masked `{HDLC} (b : byte) : byte := Zbyte (Z.lxor (byteZ b) HDLCEscMask).

(** The documented property of the constants: an escaped byte is neither of
    the two special ones, which differ. *)
Class HDLCLaws `{HDLC} := {
  flag_not_esc : HDLCFlag ≠ HDLCEsc;
  mask_range : 0 ≤ HDLCEscMask < 256;
  masked_flag : masked HDLCFlag ≠ HDLCFlag ∧ masked HDLCFlag ≠ HDLCEsc;
  masked_esc : masked HDLCEsc ≠ HDLCFlag ∧ masked HDLCEsc ≠ HDLCEsc;
}.

Section framing.
Context `{HDLC}.

(** *** Writing *)
Definition stuff (b : byte) : bytes :=
  if Ascii.eqb b HDLCFlag || Ascii.eqb b HDLCEsc then [HDLCEsc; masked b] else [b].
Definition hdlc_frame (data : bytes) : bytes :=
  HDLCFlag :: flat_map stuff data ++ [HDLCFlag].

(** *** Reading *)
Definition maxFrame : nat := (2 * hub_MTU + 32)%nat.

(** The variables of readLoop, and the frames given to ProcessIncoming. *)
Record reader := mkReader {
  rd_frame : bytes;
  rd_inFrame : bool;
  rd_escape : bool;
  rd_out : list bytes;
}.
Definition reader0 : reader := mkReader [] false false [].

Definition read_byte (s : reader) (b : byte) : reader :=
  if Ascii.eqb b HDLCFlag then
    mkReader [] true false
      (if rd_inFrame s && negb (bool_decide (rd_frame s = [])) then rd_out s ++ [rd_frame s]
       else rd_out s)
  else if negb (rd_inFrame s) then s
  else if Ascii.eqb b HDLCEsc then mkReader (rd_frame s) true true (rd_out s)
  else
    let b := if rd_escape s then masked b else b in
    if (maxFrame <=? length (rd_frame s))%nat then mkReader [] false false (rd_out s)
    else mkReader (rd_frame s ++ [b]) true false (rd_out s).

(** Reads of up to 4096 bytes, until one fails. *)
Definition readLoop (reads : list bytes) : reader :=
  fold_left (λ s buf, fold_left read_byte buf s) reads reader0.

Lemma readLoop_concat reads : readLoop reads = fold_left read_byte (concat reads) reader0.
Proof.
  unfold readLoop. generalize reader0. induction reads as [|b l IH]; intros s; [done|].
  cbn. by rewrite fold_left_app, IH.
Qed.
End framing.

(** ** The life of a connection

    The fields of hubConn that its methods read and write. A TCP connection is
    a number; [h_closed] lists the ones that were closed. *)
Record hubConn := mkHubConn {
  h_addr : string;
  h_conn : option nat;
  h_Online : bool;
  h_Detached : bool;
  h_TxBytes : Z;
  h_TxPackets : Z;
  h_sent : bytes;
  h_closed : list nat;
}.
Definition newHubConn (addr : string) : hubConn := mkHubConn addr None false false 0 0 [] [].

Definition close_conn (c : nat) (h : hubConn) : hubConn :=
  mkHubConn (h_addr h) (h_conn h) (h_Online h) (h_Detached h) (h_TxBytes h) (h_TxPackets h)
    (h_sent h) (h_closed h ++ [c]).

(** The goroutine of Start, once the dial ended. *)
Definition Start_done (dialed : option nat) (h : hubConn) : hubConn :=
  match dialed with
  | None => h
  | Some c =>
      if h_Detached h then close_conn c h
      else mkHubConn (h_addr h) (Some c) true false (h_TxBytes h) (h_TxPackets h) (h_sent h) (h_closed h)
  end.

Definition hub_Stop (h : hubConn) : hubConn :=
  let h' := mkHubConn (h_addr h) None false true (h_TxBytes h) (h_TxPackets h) (h_sent h) (h_closed h) in
  match h_conn h with Some c => close_conn c h' | None => h' end.

Definition connected (h : hubConn) : bool := h_Online h && bool_decide (h_conn h ≠ None).
Definition GetConn (h : hubConn) : option nat := h_conn h.

Definition offline (c : nat) (h : hubConn) : hubConn :=
  close_conn c
    (if bool_decide (h_conn h = Some c)
     then mkHubConn (h_addr h) (h_conn h) false (h_Detached h) (h_TxBytes h) (h_TxPackets h)
            (h_sent h) (h_closed h)
     else h).

(** One frame; [write] is what the network says to the write. *)
Definition ProcessOutgoing `{HDLC} (write : option error) (data : bytes) (h : hubConn)
  : option error * hubConn :=
  match GetConn h with
  | Some c =>
      if connected h then
        let frame := hdlc_frame data in
        match write with
        | Some e => (Some e, offline c h)
        | None =>
            (None, mkHubConn (h_addr h) (h_conn h) (h_Online h) (h_Detached h)
                     ((h_TxBytes h + Z.of_nat (length frame)) mod 2 ^ 64)
                     ((h_TxPackets h + 1) mod 2 ^ 64) (h_sent h ++ frame) (h_closed h))
        end
      else (Some (Errorf "hub offline"), h)
  | None => (Some (Errorf "hub offline"), h)
  end.
(** [Send]: the masking of the interface's access code first. *)
Definition hub_Send `{HDLC} (mask : bytes → bytes + error) (write : option error) (data : bytes) (h : hubConn)
  : option error * hubConn :=
  match mask data with
  | inr e => (Some e, h)
  | inl masked => ProcessOutgoing write masked h
  end.

(** Everything that can happen to a hubConn, from any goroutine. *)
Inductive hub_step `{HDLC} : hubConn → hubConn → Prop :=
  | step_dialed h d : hub_step h (Start_done d h)
  | step_stop h : hub_step h (hub_Stop h)
  | step_send h mask w data : hub_step h (hub_Send mask w data h).2
  | step_read_ends h c : hub_step h (offline c h).

Section framing_laws.
Context `{HDLCLaws}.

Lemma masked_involutive b : masked (masked b) = b.
Proof.
  unfold masked. pose proof mask_range as Hm. pose proof (byteZ_range b) as Hb.
  assert (0 ≤ Z.lxor (byteZ b) HDLCEscMask < 256) as Hr.
  { split; [rewrite Z.lxor_nonneg; lia|].
    destruct (Z.eq_dec (Z.lxor (byteZ b) HDLCEscMask) 0) as [->|Hn]; [lia|].
    assert (0 < Z.lxor (byteZ b) HDLCEscMask) by (pose proof (proj2 (Z.lxor_nonneg (byteZ b) HDLCEscMask)); lia).
    apply Z.log2_lt_pow2 with (b := 8); [done|].
    eapply Z.le_lt_trans; [apply Z.log2_lxor; lia|].
    apply Z.max_lub_lt.
    - destruct (Z.eq_dec (byteZ b) 0) as [->|]; [done|]. apply Z.log2_lt_pow2; lia.
    - destruct (Z.eq_dec HDLCEscMask 0) as [->|]; [done|]. apply Z.log2_lt_pow2; lia. }
  rewrite byteZ_Zbyte, Z.mod_small by done.
  rewrite Z.lxor_assoc, Z.lxor_nilpotent, Z.lxor_0_r. apply Zbyte_byteZ.
Qed.

(** A stuffed byte adds that byte to the frame being read. *)
Lemma read_stuffed frame out b :
  (length frame < maxFrame)%nat →
  fold_left read_byte (stuff b) (mkReader frame true false out) =
  mkReader (frame ++ [b]) true false out.
Proof.
  intros Hl. pose proof flag_not_esc. pose proof masked_flag as [Hf1 Hf2].
  pose proof masked_esc as [He1 He2].
  assert (∀ c, c ≠ HDLCFlag → c ≠ HDLCEsc → ∀ e,
    read_byte (mkReader frame true e out) c =
    mkReader (frame ++ [if e then masked c else c]) true false out) as Hplain.
  { intros c Hc1 Hc2 e. unfold read_byte. rewrite (proj2 (Ascii.eqb_neq _ _) Hc1).
    rewrite (proj2 (Ascii.eqb_neq _ _) Hc2). cbn [rd_inFrame negb rd_frame rd_escape rd_out].
    by rewrite (proj2 (Nat.leb_gt _ _) Hl). }
  assert (read_byte (mkReader frame true false out) HDLCEsc = mkReader frame true true out) as Hesc.
  { unfold read_byte. rewrite (proj2 (Ascii.eqb_neq _ _)) by congruence. by rewrite Ascii.eqb_refl. }
  unfold stuff. destruct (Ascii.eqb_spec b HDLCFlag) as [->|Hb1];
    [|destruct (Ascii.eqb_spec b HDLCEsc) as [->|Hb2]]; cbn [orb fold_left].
  - rewrite Hesc, Hplain by done. by rewrite masked_involutive.
  - rewrite Hesc, Hplain by done. by rewrite masked_involutive.
  - by rewrite Hplain.
Qed.

Lemma read_body data : ∀ frame out,
  (length frame + length data ≤ maxFrame)%nat →
  fold_left read_byte (flat_map stuff data) (mkReader frame true false out) =
  mkReader (frame ++ data) true false out.
Proof.
  induction data as [|b data IH]; intros frame out Hl; cbn [flat_map fold_left] in *.
  { by rewrite app_nil_r. }
  cbn [length] in Hl. rewrite fold_left_app, read_stuffed by lia.
  rewrite IH by (rewrite length_app; cbn [length]; lia). by rewrite <-app_assoc.
Qed.

(** A frame, read from any state, ends with the reader between frames and its
    data delivered after whatever the first flag ended. *)
Lemma read_frame data s :
  data ≠ [] → (length data ≤ maxFrame)%nat →
  fold_left read_byte (hdlc_frame data) s =
  mkReader [] true false (rd_out (read_byte s HDLCFlag) ++ [data]).
Proof.
  intros Hne Hl. unfold hdlc_frame. cbn [fold_left]. rewrite fold_left_app.
  assert (read_byte s HDLCFlag = mkReader [] true false (rd_out (read_byte s HDLCFlag))) as Hs.
  { unfold read_byte. by rewrite Ascii.eqb_refl. }
  rewrite Hs at 1. rewrite read_body by (cbn [length]; lia). cbn [app fold_left].
  unfold read_byte at 1. rewrite Ascii.eqb_refl. cbn [rd_inFrame rd_frame rd_out andb].
  by rewrite bool_decide_eq_false_2.
Qed.

(** C18: whatever junk the stream starts with and however TCP cuts it into
    reads, the packets written one after the other come out whole, in order
    and nothing else after them. *)
Theorem readLoop_delivers reads junk packets :
  Forall (λ p, p ≠ [] ∧ (length p ≤ maxFrame)%nat) packets →
  concat reads = junk ++ concat (map hdlc_frame packets) →
  ∃ pre, rd_out (readLoop reads) = pre ++ packets.
Proof.
  intros Hp Hr. rewrite readLoop_concat, Hr, fold_left_app.
  generalize (fold_left read_byte junk reader0). clear Hr.
  assert (∀ out, rd_out (fold_left read_byte (concat (map hdlc_frame packets))
            (mkReader [] true false out)) = out ++ packets) as Hclean.
  { induction Hp as [|p l [Hne Hl] Hp IH]; intros out; cbn [map concat fold_left].
    { by rewrite app_nil_r. }
    rewrite fold_left_app, read_frame by done. rewrite IH. unfold read_byte at 1.
    rewrite Ascii.eqb_refl. cbn. by rewrite <-app_assoc. }
  intros s. destruct packets as [|p l]; [exists (rd_out s); by rewrite app_nil_r|].
  apply Forall_cons_1 in Hp as [[Hne Hl] Hp]. cbn [map concat] in *.
  rewrite fold_left_app, read_frame by done. exists (rd_out (read_byte s HDLCFlag)).
  specialize (Hclean (rd_out (read_byte s HDLCFlag))). rewrite fold_left_app, read_frame in Hclean by done.
  assert (rd_out (read_byte (mkReader [] true false (rd_out (read_byte s HDLCFlag))) HDLCFlag) =
    rd_out (read_byte s HDLCFlag)) as E.
  { unfold read_byte at 1. by rewrite Ascii.eqb_refl. }
  by rewrite E in Hclean.
Qed.
End framing_laws.

(** ** A stopped connection stays down *)

Definition down (h : hubConn) : Prop := h_Detached h = true ∧ h_conn h = None ∧ h_Online h = false.

Lemma down_step `{HDLC} h h' : hub_step h h' → down h → down h'.
Proof.
  intros Hs (Hd & Hc & Ho). destruct Hs as [h [c|]|h|h w data|h c]; unfold down in *.
  - unfold Start_done. rewrite Hd. done.
  - done.
  - unfold hub_Stop. rewrite Hc. done.
  - unfold hub_Send, ProcessOutgoing, GetConn. rewrite Hc. by case_match.
  - unfold offline. rewrite Hc, bool_decide_eq_false_2 by done. done.
Qed.

(** Once a hub was stopped, nothing brings it back, not even a dial that
    was under way: it never counts as connected and sends nothing more. *)
Theorem stopped_stays_down `{HDLC} h h' :
  rtc hub_step (hub_Stop h) h' →
  connected h' = false ∧ h_sent h' = h_sent h.
Proof.
  intros Hr. assert (down (hub_Stop h)) as Hd.
  { unfold hub_Stop, down. by destruct (h_conn h). }
  assert (h_sent (hub_Stop h) = h_sent h) as Hs by (unfold hub_Stop; by destruct (h_conn h)).
  revert Hr Hd Hs. generalize (hub_Stop h), (h_sent h). clear h. intros h out Hr.
  induction Hr as [x|x y z Hxy _ IH]; intros Hd Hs.
  { destruct Hd as (_ & Hc & Ho). split; [|done]. unfold connected. by rewrite Ho. }
  apply IH; [by eapply down_step|]. destruct Hd as (Hd & Hc & Ho).
  destruct Hxy as [x [c|]|x|x w data|x c].
  - unfold Start_done. by rewrite Hd.
  - done.
  - unfold hub_Stop. by rewrite Hc.
  - unfold hub_Send, ProcessOutgoing, GetConn. rewrite Hc. by case_match.
  - unfold offline. by rewrite Hc, bool_decide_eq_false_2.
Qed.

(** The constants of Reticulum's HDLC framing. *)
Definition hdlc_7e : HDLC :=
  {| HDLCFlag := Zbyte 126; HDLCEsc := Zbyte 125; HDLCEscMask := 32; hub_MTU := 500 |}.
Lemma hdlc_7e_laws : @HDLCLaws hdlc_7e.
Proof. split; vm_compute; try split; by try intros [=]. Qed.

Lemma readLoop_delivers_witness :
  let packets := [bs "announce"; bs "}~"] in
  let stream := bs "xx" ++ concat (map (@hdlc_frame hdlc_7e) packets) in
  ∃ pre, rd_out (@readLoop hdlc_7e [take 5 stream; drop 5 stream]) = pre ++ packets.
Proof.
  cbv zeta. apply (@readLoop_delivers hdlc_7e hdlc_7e_laws _ (bs "xx")).
  - repeat constructor; try done; cbn; lia.
  - cbn [concat]. by rewrite app_nil_r, take_drop.
Defined.

Lemma stopped_stays_down_witness :
  let h := Start_done (Some 0%nat) (newHubConn "hub:4242") in
  connected (Start_done (Some 1%nat) (hub_Stop h)) = false ∧
  h_sent (Start_done (Some 1%nat) (hub_Stop h)) = h_sent h.
Proof.
  cbv zeta. apply (@stopped_stays_down hdlc_7e). eapply rtc_l; [|apply rtc_refl].
  apply (@step_dialed hdlc_7e _ (Some 1%nat)).
Defined.
