(* ===== verification/Rns.v ===== *)
(** * internal/rns/rns.go: the Reticulum endpoint

    A node signs small messages, waits for a path to the peer and sends them;
    what arrives is checked (length, signature, age, trust) and queued. The
    network stack, its identities and cryptography belong to Reticulum-Go: the
    class [Reticulum] lists the operations the node calls and [ReticulumLaws]
    what they promise. *)

From S2P Require Import Prelude GoStrings GoPath Go Sha256 Fs Config GoNet HubConn.
From Stdlib Require Import ZArith Lia String Ascii List Bool.
From stdpp Require Import base list strings gmap option numbers.

#[local] Open Scope string_scope.
#[local] Open Scope list_scope.
#[local] Open Scope Z_scope.

(** ** The interface of Reticulum-Go *)

Class Reticulum := {
  id_public : bytes → bytes;                   (* identity.GetPublicKey of a private key *)
  id_sign : bytes → bytes → bytes;             (* private key, message *)
  id_verify : bytes → bytes → bytes → bool;    (* public key, message, signature *)
  id_address : bytes → option bytes;           (* destination hash; None: no such public key *)
  id_encrypt : bytes → bytes → bytes + error;  (* public key, message *)
  id_decrypt : bytes → bytes → option bytes;   (* private key, packet *)
  packet_EncryptedMDU : Z;
  tr_register : string → option error;         (* transport.RegisterInterface *)
}.

Class ReticulumLaws `{Reticulum} := {
  public_length : ∀ k, length (id_public k) = 64%nat;
  sign_length : ∀ k m, length (id_sign k m) = 64%nat;
  verify_sign : ∀ k m, id_verify (id_public k) m (id_sign k m) = true;
  decrypt_encrypt : ∀ k m c, id_encrypt (id_public k) m = inl c → id_decrypt k c = Some m;
}.

(** Sealing what fits a packet succeeds, and every identity has an address. *)
Class ReticulumSeals `{Reticulum} := {
  encrypt_fits : ∀ k m, Z.of_nat (length m) ≤ packet_EncryptedMDU → ∃ c, id_encrypt (id_public k) m = inl c;
  address_known : ∀ k, ∃ h, id_address (id_public k) = Some h;
}.

Definition ErrNoPath : error := Errorf "rns: no path to the peer".
Definition pubLen : nat := 64.
Definition sigLen : nat := 64.
Definition MaxMessage `{Reticulum} : Z :=
  packet_EncryptedMDU - Z.of_nat pubLen - 8 - Z.of_nat sigLen.
Definition maxAge : Z := 5 * 60 * 10 ^ 9.

(** ** State *)

Record Message := mkMessage { msg_From : bytes; msg_Body : bytes }.
#[export] Instance Message_eq_dec : EqDecision Message.
Proof. solve_decision. Defined.

(** What the network does with one Send: after how many polls a path is
    known ([None]: never), and what SendPacket returns. *)
Record air := mkAir { air_path : option nat; air_send : option error }.
Definition clear_air : air := mkAir (Some O) None.

Record Node := mkNode {
  n_key : bytes;
  n_hubs : gmap string hubConn;
  n_ifaces : gset string;             (* interfaces the transport knows *)
  n_inbox : list Message;
  n_packets : list (bytes * bytes);   (* destination hash, sealed envelope *)
  n_requests : list (bytes * string); (* path requests: hash, hub *)
  n_announces : Z;
  n_air : list air;
}.

Definition with_hubs (h : gmap string hubConn) (i : gset string) (n : Node) : Node :=
  mkNode (n_key n) h i (n_inbox n) (n_packets n) (n_requests n) (n_announces n) (n_air n).
Definition with_inbox (l : list Message) (n : Node) : Node :=
  mkNode (n_key n) (n_hubs n) (n_ifaces n) l (n_packets n) (n_requests n) (n_announces n) (n_air n).
Definition with_requests (l : list (bytes * string)) (n : Node) : Node :=
  mkNode (n_key n) (n_hubs n) (n_ifaces n) (n_inbox n) (n_packets n) l (n_announces n) (n_air n).
Definition with_packets (l : list (bytes * bytes)) (n : Node) : Node :=
  mkNode (n_key n) (n_hubs n) (n_ifaces n) (n_inbox n) l (n_requests n) (n_announces n) (n_air n).
Definition with_air (l : list air) (n : Node) : Node :=
  mkNode (n_key n) (n_hubs n) (n_ifaces n) (n_inbox n) (n_packets n) (n_requests n) (n_announces n) l.
Definition announced (n : Node) : Node :=
  mkNode (n_key n) (n_hubs n) (n_ifaces n) (n_inbox n) (n_packets n) (n_requests n)
    (n_announces n + 1) (n_air n).

Definition node_of (key : bytes) : Node := mkNode key ∅ ∅ [] [] [] 0 [].

(** ** Hubs *)
Section hubs.
Context `{Reticulum}.

Definition ConnectHub (addr : string) : M Node unit :=
  match SplitHostPort addr with
  | inr e => throw e
  | inl _ =>
      n <- get_state ;;
      if bool_decide (n_hubs n !! addr ≠ None) then ret ()
      else
        match tr_register addr with
        | Some e => throw e
        | None =>
            modify (with_hubs (<[addr := newHubConn addr]> (n_hubs n)) ({[addr]} ∪ n_ifaces n))
        end
  end.

(** The hub leaves the table; its connection is stopped. The hub itself is the
    result, as the model has no other place for an object no one refers to. *)
Definition DropHub (addr : string) : M Node (option hubConn) :=
  n <- get_state ;;
  match n_hubs n !! addr with
  | None => ret None
  | Some h =>
      modify (with_hubs (delete addr (n_hubs n)) (n_ifaces n ∖ {[addr]})) ;;;
      ret (Some (hub_Stop h))
  end.

Definition Hubs (n : Node) : gmap string bool := connected <$> n_hubs n.

(** GetRxBytes belongs to the interface: [rx]. *)
Definition HubStats (rx : string → Z) (n : Node) (addr : string) : option (bool * Z * Z) :=
  h ← n_hubs n !! addr; Some (connected h, rx addr, h_TxBytes h).

Definition Announce : M Node unit := modify announced.

Fixpoint drop_hubs (addrs : list string) : M Node unit :=
  match addrs with
  | [] => ret ()
  | a :: l => DropHub a ;;; drop_hubs l
  end.
Definition Node_Close : M Node unit := n <- get_state ;; drop_hubs (elements (dom (Hubs n))).

(** ** Sending *)

(** public key | unix time | body | signature of all that. *)
Definition envelope (key : bytes) (now : Z) (body : bytes) : bytes :=
  let signed := id_public key ++ be_bytes 8 ((now / 10 ^ 9) mod 2 ^ 64) ++ body in
  signed ++ id_sign key signed.

Definition request_paths (hash : bytes) : M Node unit :=
  modify (λ n, with_requests (n_requests n ++ map (λ a, (hash, a)) (elements (dom (n_hubs n)))) n).

(** Poll every 100 ms; [known] polls until there is a path, [ctx] until the
    context is done. With neither, the call waits for ever. *)
Fixpoint wait_polls (fuel : nat) (i : nat) (known ctx : option nat) (hash : bytes) : M Node unit :=
  match fuel with
  | O => λ n, (Block, n)
  | S fuel =>
      if (match known with Some k => (k <=? i)%nat | None => false end) then ret ()
      else
        (if (i mod 20 =? 0)%nat then request_paths hash else ret ()) ;;;
        if (match ctx with Some c => (c <=? i)%nat | None => false end) then throw ErrNoPath
        else wait_polls fuel (S i) known ctx hash
  end.
Definition wait_fuel (known ctx : option nat) : nat :=
  match known, ctx with
  | Some k, Some c => S (Nat.min k c)
  | Some k, None => S k
  | None, Some c => S c
  | None, None => O
  end.
(** This device's identity as peers pin it, and the hash they send to. *)
Definition AddressOf (pub : bytes) : bytes + error :=
  match id_address pub with Some h => inl h | None => inr (Errorf "rns: bad public key") end.
Definition PublicKey (n : Node) : bytes := id_public (n_key n).
Definition Address (n : Node) : string :=
  match id_address (PublicKey n) with Some h => hex_encode h | None => "" end.

Definition waitPath (ctx : option nat) (hash : bytes) : M Node unit :=
  a <- gets (λ n, hd clear_air (n_air n)) ;;
  wait_polls (wait_fuel (air_path a) ctx) 0 (air_path a) ctx hash.

Definition Send (ctx : option nat) (now : Z) (peer body : bytes) : M Node unit :=
  if MaxMessage <? Z.of_nat (length body) then
    throw (Errorf ("rns: message of " +:+ itoa (Z.of_nat (length body)) +:+ " bytes exceeds " +:+
                   itoa MaxMessage))
  else
    match AddressOf peer with
    | inr e => throw e
    | inl hash =>
        waitPath ctx hash ;;;
        n <- get_state ;;
        sealed <- of_res (id_encrypt peer (envelope (n_key n) now body)) ;;
        modify (with_air (tl (n_air n))) ;;;
        match air_send (hd clear_air (n_air n)) with
        | Some e => throw e
        | None => modify (λ n, with_packets (n_packets n ++ [(hash, sealed)]) n)
        end
    end.

(** ** Receiving *)

(** A decrypted packet for this device; the inbox holds 64 messages and drops
    the rest. *)
Definition receive (trusted : bytes → bool) (now : Z) (data : bytes) : M Node unit :=
  if (length data <? pubLen + 8 + sigLen)%nat then ret ()
  else
    let signed := take (length data - sigLen) data in
    let sg := drop (length data - sigLen) data in
    let pub := take pubLen signed in
    if bool_decide (id_address pub = None) || negb (id_verify pub signed sg) then ret ()
    else
      let at_ := int64 (be_word (take 8 (drop pubLen signed))) * 10 ^ 9 in
      let d := now - at_ in
      if (maxAge <? d) || (d <? - maxAge) then ret ()
      else if negb (trusted pub) then ret ()
      else
        modify (λ n,
          if (length (n_inbox n) <? 64)%nat
          then with_inbox (n_inbox n ++ [mkMessage pub (drop (pubLen + 8) signed)]) n else n).

(** The transport hands a packet to the node it is addressed to. *)
Definition deliver (trusted : bytes → bool) (now : Z) (packet : bytes * bytes) : M Node unit :=
  n <- get_state ;;
  if bool_decide (id_address (id_public (n_key n)) = Some packet.1) then
    match id_decrypt (n_key n) packet.2 with
    | Some data => receive trusted now data
    | None => ret ()
    end
  else ret ().

(** ** The identity file *)
Section identity_file.
Context (id_of_file : bytes → bytes + error) (id_to_file : bytes → bytes) (fresh : bytes).
Definition identityFile : string := "reticulum.id".
Definition rns_loadOrCreateIdentity (path : string) : M fs bytes :=
  r <- try (stat path) ;;
  match r with
  | inl _ => b <- read_file path ;; of_res (id_of_file b)
  | inr _ =>
      mkdir_all "/" (List.filter (λ p, negb (p =?s "")) (split_on "/" (path_dir path))) ;;;
      write_file path (id_to_file fresh) ;;;
      ret fresh
  end.
Definition rns_Open (dir : string) : M fs Node :=
  key <- rns_loadOrCreateIdentity (path_join dir identityFile) ;;
  ret (node_of key).
End identity_file.
End hubs.

(** ** What the inbox can hold *)

(** Why [receive] takes a message: the envelope of a trusted sender, recent
    and signed by the key it claims. *)
Definition genuine `{Reticulum} (trusted : bytes → bool) (now : Z) (data : bytes) (m : Message)
  : Prop :=
  ∃ stamp sg,
    data = msg_From m ++ stamp ++ msg_Body m ++ sg ∧
    length (msg_From m) = pubLen ∧ length stamp = 8%nat ∧ length sg = sigLen ∧
    id_verify (msg_From m) (msg_From m ++ stamp ++ msg_Body m) sg = true ∧
    trusted (msg_From m) = true ∧
    Z.abs (now - int64 (be_word stamp) * 10 ^ 9) ≤ maxAge.

(** C16: a message reaches the inbox only if a trusted device signed it within
    the last five minutes; anything else leaves the node as it was, and the
    inbox never holds more than 64. *)
Theorem receive_genuine `{Reticulum} trusted now data n :
  (length (n_inbox n) ≤ 64)%nat →
  ∃ n', receive trusted now data n = (Ok (), n') ∧ (length (n_inbox n') ≤ 64)%nat ∧
    (n' = n ∨ ∃ m, n' = with_inbox (n_inbox n ++ [m]) n ∧ genuine trusted now data m).
Proof.
  intros Hn. unfold receive. destruct (Nat.ltb_spec (length data) (pubLen + 8 + sigLen)); [eauto|].
  set (signed := take _ data). set (sg := drop _ data). cbv zeta.
  destruct (bool_decide (id_address _ = None) || _) eqn:Ev; [eauto|].
  destruct ((maxAge <? _) || _) eqn:Ea; [eauto|].
  destruct (trusted _) eqn:Et; cbn [negb]; [|eauto].
  destruct (Nat.ltb_spec (length (n_inbox n)) 64) as [Hl|Hl].
  2: { eexists. split; [reflexivity|]. cbv beta. rewrite (proj2 (Nat.ltb_ge _ _)) by done. auto. }
  eexists. split; [reflexivity|]. cbv beta. rewrite (proj2 (Nat.ltb_lt _ _)) by done.
  split; [cbn; rewrite length_app; cbn; lia|]. right. eexists. split; [reflexivity|].
  apply orb_false_iff in Ev as [_ Ev%negb_false_iff]. apply orb_false_iff in Ea as [E1 E2].
  exists (take 8 (drop pubLen signed)), sg. cbn [msg_From msg_Body].
  assert (length signed = length data - sigLen)%nat as Hs by (subst signed; rewrite length_take; lia).
  assert (signed = take pubLen signed ++ take 8 (drop pubLen signed) ++ drop (pubLen + 8) signed) as Hd.
  { rewrite <-(take_drop pubLen signed) at 1. f_equal. rewrite <-(take_drop 8 (drop pubLen signed)) at 1.
    f_equal. by rewrite drop_drop. }
  unfold sigLen, pubLen in *. split_and!.
  - rewrite !app_assoc, <-(app_assoc (take _ _)), <-Hd. subst signed sg. by rewrite take_drop.
  - rewrite length_take. lia.
  - rewrite length_take, length_drop. lia.
  - subst sg. rewrite length_drop. lia.
  - by rewrite <-Hd.
  - done.
  - unfold maxAge in *. lia.
Qed.

(** A concrete Reticulum: the signature of a message is a hash bound to the
    key, and sealing writes the receiver's key in front. *)
Definition toy_tag (p m : bytes) : bytes := sha256 (p ++ m) ++ sha256 (m ++ p).
Definition toy_public (k : bytes) : bytes := take 64 (k ++ repeat "0"%char 64).
Definition toy_reticulum : Reticulum := {|
  id_public := toy_public;
  id_sign k m := toy_tag (toy_public k) m;
  id_verify p m s := bool_decide (s = toy_tag p m);
  id_address p := if (length p =? 64)%nat then Some (take 16 p) else None;
  id_encrypt p m := inl (p ++ m);
  id_decrypt k c := if bool_decide (take 64 c = toy_public k) then Some (drop 64 c) else None;
  packet_EncryptedMDU := 383;
  tr_register _ := None;
|}.

Lemma toy_public_length k : length (toy_public k) = 64%nat.
Proof. unfold toy_public. rewrite length_take, length_app, repeat_length. lia. Qed.
Lemma toy_laws : @ReticulumLaws toy_reticulum.
Proof.
  split; cbn.
  - apply toy_public_length.
  - intros k m. change (length (sha256 (toy_public k ++ m) ++ sha256 (m ++ toy_public k)) = 64%nat).
    by rewrite length_app, !sha256_length.
  - intros k m. by apply bool_decide_eq_true_2.
  - intros k m c [= <-]. rewrite take_app_exact, drop_app_exact by (by rewrite toy_public_length).
    by rewrite bool_decide_eq_true_2.
Qed.

Lemma toy_seals : @ReticulumSeals toy_reticulum.
Proof.
  split; cbn; [eauto|]. intros k. rewrite toy_public_length. eauto.
Qed.

Lemma receive_genuine_witness :
  let data := @envelope toy_reticulum (bs "pc") 0 (bs "hi") in
  let trusted p := bool_decide (p = toy_public (bs "pc")) in
  (length (n_inbox (node_of (bs "phone"))) ≤ 64)%nat ∧
  ∃ n', @receive toy_reticulum trusted 0 data (node_of (bs "phone")) = (Ok (), n') ∧
    (length (n_inbox n') ≤ 64)%nat ∧
    (n' = node_of (bs "phone") ∨
     ∃ m, n' = with_inbox (n_inbox (node_of (bs "phone")) ++ [m]) (node_of (bs "phone")) ∧
       @genuine toy_reticulum trusted 0 data m).
Proof.
  cbv zeta. split; [apply Nat.le_0_l|].
  apply (@receive_genuine toy_reticulum _ 0 _ (node_of (bs "phone"))). apply Nat.le_0_l.
Defined.

(** ** From one node to another *)

Lemma wait_polls_ok `{Reticulum} k ctx hash fuel : ∀ i n,
  (i ≤ k)%nat → (k - i < fuel)%nat → match ctx with Some c => (k ≤ c)%nat | None => True end →
  ∃ l, wait_polls fuel i (Some k) ctx hash n = (Ok (), with_requests l n).
Proof.
  induction fuel as [|fuel IH]; intros i n Hi Hf Hc; [lia|]. cbn [wait_polls].
  destruct (Nat.leb_spec k i) as [Hk|Hk].
  { exists (n_requests n). by destruct n. }
  assert (∃ l, (if (i mod 20 =? 0)%nat then request_paths hash else ret ()) n =
    (Ok (), with_requests l n)) as [l Hl].
  { destruct (Nat.eqb (i mod 20) 0); [eexists; reflexivity|]. exists (n_requests n). by destruct n. }
  rewrite (bind_Ok _ _ _ _ _ Hl).
  assert ((match ctx with Some c => (c <=? i)%nat | None => false end) = false) as ->.
  { destruct ctx; [|done]. apply Nat.leb_gt. lia. }
  destruct (IH (S i) (with_requests l n)) as [l' ->]; [lia..|done|]. exists l'. done.
Qed.

Lemma waitPath_spec `{Reticulum} c hash n :
  ∃ r l, waitPath (Some c) hash n = (r, with_requests l n) ∧ (r = Ok () ∨ r = Err ErrNoPath) ∧
    (length l ≤ length (n_requests n) + S (c / 20) * size (dom (n_hubs n)))%nat.
Proof.
  unfold waitPath. rewrite bind_Ok with (a := hd clear_air (n_air n)) (s' := n) by done.
  generalize (air_path (hd clear_air (n_air n))). intros known.
  assert (∀ fuel i n, (match known with Some k => Nat.min k c | None => c end - i < fuel)%nat →
    (i ≤ match known with Some k => Nat.min k c | None => c end)%nat →
    ∃ r l, wait_polls fuel i known (Some c) hash n = (r, with_requests l n) ∧
      (r = Ok () ∨ r = Err ErrNoPath) ∧
      (length l + (i + 19) / 20 * size (dom (n_hubs n)) ≤
       length (n_requests n) + S (c / 20) * size (dom (n_hubs n)))%nat) as Hw.
  2: { destruct (Hw (wait_fuel known (Some c)) O n) as (r & l & -> & Hr & Hl).
       - unfold wait_fuel. destruct known; lia.
       - lia.
       - exists r, l. split_and!; [done..|]. change ((0 + 19) / 20)%nat with 0%nat in Hl. lia. }
  clear n. induction fuel as [|fuel IH]; intros i n Hf Hi; [lia|]. cbn [wait_polls].
  assert ((i + 19) / 20 ≤ S (c / 20))%nat as Hb.
  { assert (i ≤ c)%nat by (destruct known; lia).
    etransitivity; [apply Nat.Div0.div_le_mono with (b := (c + 20)%nat); lia|].
    replace (c + 20)%nat with (c + 1 * 20)%nat by lia. rewrite Nat.div_add by lia. lia. }
  destruct (match known with Some k => (k <=? i)%nat | None => false end) eqn:Ek.
  { exists (Ok ()), (n_requests n). split_and!; [by destruct n|by left|]. nia. }
  assert (∃ l, (if (i mod 20 =? 0)%nat then request_paths hash else ret ()) n =
    (Ok (), with_requests l n) ∧
    (length l + (i + 19) / 20 * size (dom (n_hubs n)) ≤
     length (n_requests n) + (i + 20) / 20 * size (dom (n_hubs n)))%nat) as (l & Hl & Hs).
  { destruct (Nat.eqb_spec (i mod 20) 0) as [E|E].
    - eexists. split; [reflexivity|]. rewrite length_app, length_map.
      change (length (elements (dom (n_hubs n)))) with (size (dom (n_hubs n))).
      assert ((i + 20) / 20 = S ((i + 19) / 20))%nat as ->; [|lia].
      apply Nat.Div0.mod_divides in E as [q ->].
      replace (20 * q + 20)%nat with (0 + (S q) * 20)%nat by lia.
      replace (20 * q + 19)%nat with (19 + q * 20)%nat by lia.
      rewrite !Nat.div_add by lia. cbn. lia.
    - exists (n_requests n). split; [by destruct n|].
      apply Nat.add_le_mono_l, Nat.mul_le_mono_r, Nat.Div0.div_le_mono. lia. }
  rewrite (bind_Ok _ _ _ _ _ Hl). destruct (Nat.leb_spec c i) as [Hc|Hc].
  { exists (Err ErrNoPath), l. split_and!; [done|by right|].
    assert ((i + 20) / 20 ≤ S (c / 20))%nat; [|nia].
    assert (i ≤ c)%nat by (destruct known; lia).
    replace (i + 20)%nat with (i + 1 * 20)%nat by lia. rewrite Nat.div_add by lia.
    pose proof (Nat.Div0.div_le_mono i c 20). lia. }
  assert (S i ≤ match known with Some k => Nat.min k c | None => c end)%nat as Hsi.
  { destruct known as [k|]; [|lia]. apply Nat.leb_gt in Ek. lia. }
  destruct (IH (S i) (with_requests l n)) as (r & l' & Hr & Hr' & Hl'); [lia|done|].
  exists r, l'. split_and!; [by rewrite Hr|done|]. cbn [n_hubs n_requests with_requests] in Hl'.
  replace (S i + 19)%nat with (i + 20)%nat in Hl' by lia. lia.
Qed.

(** Waiting for a path under a context always ends, with a path or with
    ErrNoPath, and asks the hubs again every two seconds at most. *)
Theorem waitPath_returns `{Reticulum} c hash n :
  ∃ r l, waitPath (Some c) hash n = (r, with_requests l n) ∧ (r = Ok () ∨ r = Err ErrNoPath) ∧
    (length l ≤ length (n_requests n) + S (c / 20) * size (dom (n_hubs n)))%nat.
Proof. apply waitPath_spec. Qed.

Lemma Send_returns `{Reticulum} c now pub body n : finished (Send (Some c) now pub body n).1 = true.
Proof.
  unfold Send. case_match; [done|]. case_match; [|done].
  destruct (waitPath_spec c l n) as (r & q & E & [-> | ->] & _); unfold bind; rewrite E; [|done].
  cbn. destruct (id_encrypt _ _); [|done]. cbn. by destruct (air_send _).
Qed.

Lemma envelope_split `{ReticulumLaws} k now body :
  let stamp := be_bytes 8 ((now / 10 ^ 9) mod 2 ^ 64) in
  let e := envelope k now body in
  let signed := id_public k ++ stamp ++ body in
  length e = (length body + 136)%nat ∧
  take (length e - sigLen) e = signed ∧ drop (length e - sigLen) e = id_sign k signed ∧
  take pubLen signed = id_public k ∧ take 8 (drop pubLen signed) = stamp ∧
  drop (pubLen + 8) signed = body.
Proof.
  cbv zeta. unfold envelope. set (stamp := be_bytes 8 _).
  assert (length stamp = 8%nat) as Hst by apply be_bytes_length.
  set (signed := id_public k ++ stamp ++ body).
  assert (length signed = (length body + 72)%nat) as Hs.
  { subst signed. rewrite !length_app, public_length, Hst. lia. }
  assert (length (signed ++ id_sign k signed) = (length body + 136)%nat) as He.
  { rewrite length_app, sign_length, Hs. lia. }
  unfold sigLen, pubLen. split_and!; [done| | | | |].
  - apply take_app_exact. lia.
  - apply drop_app_exact. lia.
  - apply take_app_exact. by rewrite public_length.
  - subst signed. rewrite drop_app_exact by (by rewrite public_length). by apply take_app_exact.
  - subst signed. rewrite app_assoc. apply drop_app_exact. rewrite length_app, public_length, Hst. lia.
Qed.

(** A node that has a path puts the sealed envelope on the air. *)
Lemma Send_sends `{Reticulum} (A : Node) ctx now peer body known hash sealed :
  hd clear_air (n_air A) = mkAir (Some known) None →
  match ctx with Some c => (known ≤ c)%nat | None => True end →
  Z.of_nat (length body) ≤ MaxMessage →
  id_address peer = Some hash → id_encrypt peer (envelope (n_key A) now body) = inl sealed →
  ∃ l, Send ctx now peer body A =
    (Ok (), with_packets (n_packets A ++ [(hash, sealed)]) (with_air (tl (n_air A)) (with_requests l A))).
Proof.
  intros Hair Hctx Hlen Haddr Henc.
  unfold Send, AddressOf. rewrite (proj2 (Z.ltb_ge _ _)) by done. rewrite Haddr.
  assert (∃ l, waitPath ctx hash A = (Ok (), with_requests l A)) as [l Hl].
  { unfold waitPath. rewrite bind_Ok with (a := hd clear_air (n_air A)) (s' := A) by done.
    rewrite Hair. cbn [air_path]. apply wait_polls_ok; [lia| |done].
    unfold wait_fuel. destruct ctx; lia. }
  rewrite (bind_Ok _ _ _ _ _ Hl).
  rewrite bind_Ok with (a := with_requests l A) (s' := with_requests l A) by done.
  cbn [n_key n_air with_requests]. rewrite Henc, Hair.
  rewrite bind_Ok with (a := sealed) (s' := with_requests l A) by done.
  exists l. reflexivity.
Qed.

(** The envelope of a trusted device whose clock agrees within the limit comes
    out as the message that was put in. *)
Lemma deliver_arrives `{ReticulumLaws} (B : Node) key now now' body hash sealed trusted :
  id_address (id_public (n_key B)) = Some hash →
  id_encrypt (id_public (n_key B)) (envelope key now body) = inl sealed →
  id_address (id_public key) ≠ None → trusted (id_public key) = true →
  0 ≤ now / 10 ^ 9 < 2 ^ 63 → Z.abs (now' - now / 10 ^ 9 * 10 ^ 9) ≤ maxAge →
  (length (n_inbox B) < 64)%nat →
  deliver trusted now' (hash, sealed) B =
    (Ok (), with_inbox (n_inbox B ++ [mkMessage (id_public key) body]) B).
Proof.
  intros Haddr Henc HaddrA Htr Hnow Hage Hroom.
  unfold deliver. rewrite bind_Ok with (a := B) (s' := B) by done. cbn [fst snd].
  rewrite bool_decide_eq_true_2 by done. rewrite (decrypt_encrypt _ _ _ Henc).
  destruct (envelope_split key now body) as (E1 & E2 & E3 & E4 & E5 & E6).
  unfold receive. rewrite (proj2 (Nat.ltb_ge _ _)) by (unfold pubLen, sigLen; lia).
  cbv zeta. rewrite E2, E3, E4, E5, E6.
  rewrite bool_decide_eq_false_2 by done. rewrite verify_sign. cbn [negb orb].
  rewrite Z.mod_small, be_word_bytes by (cbn; lia).
  rewrite int64_id by (unfold inInt64, minInt64, maxInt64; lia).
  rewrite (proj2 (Z.ltb_ge _ _)), (proj2 (Z.ltb_ge _ _)) by lia. cbn [orb].
  rewrite Htr. cbn [negb]. unfold modify. by rewrite (proj2 (Nat.ltb_lt _ _)).
Qed.

(** What one device sends, a paired device whose clock agrees within the
    limit receives: the message arrives whole and with its sender, provided
    there is a path, the message is short enough and the inbox has room. *)
Theorem Send_deliver `{ReticulumLaws} (A B : Node) ctx now now' body known hash sealed trusted :
  hd clear_air (n_air A) = mkAir (Some known) None →
  match ctx with Some c => (known ≤ c)%nat | None => True end →
  Z.of_nat (length body) ≤ MaxMessage →
  id_address (id_public (n_key B)) = Some hash →
  id_encrypt (id_public (n_key B)) (envelope (n_key A) now body) = inl sealed →
  id_address (id_public (n_key A)) ≠ None → trusted (id_public (n_key A)) = true →
  0 ≤ now / 10 ^ 9 < 2 ^ 63 → Z.abs (now' - now / 10 ^ 9 * 10 ^ 9) ≤ maxAge →
  (length (n_inbox B) < 64)%nat →
  ∃ A', Send ctx now (id_public (n_key B)) body A = (Ok (), A') ∧
    n_packets A' = n_packets A ++ [(hash, sealed)] ∧
    deliver trusted now' (hash, sealed) B =
      (Ok (), with_inbox (n_inbox B ++ [mkMessage (id_public (n_key A)) body]) B).
Proof.
  intros Hair Hctx Hlen Haddr Henc HaddrA Htr Hnow Hage Hroom.
  destruct (Send_sends A ctx now (id_public (n_key B)) body known hash sealed) as [l E]; [done..|].
  eexists. split_and!; [exact E|done|]. by eapply deliver_arrives.
Qed.

Lemma Send_deliver_witness :
  let A := node_of (bs "pc") in let B := node_of (bs "phone") in
  let pubB := toy_public (bs "phone") in
  let sealed := pubB ++ @envelope toy_reticulum (bs "pc") 0 (bs "hi") in
  ∃ A', @Send toy_reticulum (Some 600%nat) 0 pubB (bs "hi") A = (Ok (), A') ∧
    n_packets A' = [] ++ [(take 16 pubB, sealed)] ∧
    @deliver toy_reticulum (λ _, true) (10 ^ 9) (take 16 pubB, sealed) B =
      (Ok (), with_inbox ([] ++ [mkMessage (toy_public (bs "pc")) (bs "hi")]) B).
Proof.
  cbv zeta. apply (@Send_deliver toy_reticulum toy_laws (node_of (bs "pc")) (node_of (bs "phone"))
    (Some 600%nat) 0 (10 ^ 9) (bs "hi") 0); try done; try lia; [vm_compute; lia..].
Defined.
