(* ===== verification/Hubs.v ===== *)
(** * internal/rns/hubs.go: keeping a few working hubs

    The hub manager measures the hubs it holds, drops the bad ones and fills
    up from the candidates in order. The catalog of hubs is JSON. Maps are
    walked in any order by the code; nothing here depends on it. *)

From S2P Require Import Prelude GoStrings Go Json JsonRec Fs GoNet HubConn Rns.
From Stdlib Require Import ZArith Lia String Ascii List Bool.
From stdpp Require Import base list strings gmap option numbers fin_map_dom.

#[local] Open Scope string_scope.
#[local] Open Scope list_scope.
#[local] Open Scope Z_scope.

Definition BuiltinHubs : list string :=
  ["rns.michmesh.net:7822"; "rns.pawgslayers.club:4242"; "rns.buzag.ru:4242"; "ralsei.ru:4343";
   "suah.dev:4343"; "rns.mari-el.net:4242"; "reticulum.nepamesh.com:4242"; "rns.utn.lol:4965";
   "reticulum.washmesh.net:7242"; "rns.simplyequipped.com:4242"; "rns.radical.computer:4242";
   "rns.noderage.org:4242"; "rns.reticulum.world:6666"; "rmap.world:4242"].

(** ** State *)

(** Durations and times are nanoseconds. *)
Definition second : Z := 10 ^ 9.
Record HubPolicy := mkHubPolicy {
  hp_Want : Z;
  hp_Check : Z;
  hp_ConnectGrace : Z;
  hp_Silence : Z;
  hp_Backoff : Z;
  hp_AnnounceEvery : Z;
}.
Definition withDefaults (p : HubPolicy) : HubPolicy :=
  let def v d := if v =? 0 then d else v in
  mkHubPolicy (def (hp_Want p) 3) (def (hp_Check p) (15 * second))
    (def (hp_ConnectGrace p) (20 * second)) (def (hp_Silence p) (90 * second))
    (def (hp_Backoff p) (30 * 60 * second)) (def (hp_AnnounceEvery p) (2 * 60 * second)).

Record hubState := mkHubState {
  hs_added : Z;
  hs_announced : bool;
  hs_lastRx : Z;
  hs_lastData : option Z; (* None: the zero time *)
}.

Record HubManager := mkManager {
  m_node : Node;
  m_policy : HubPolicy;
  m_candidates : list string;
  m_state : gmap string hubState;
  m_bad : gmap string Z;
}.

Fixpoint dedup_from (seen : gset string) (l : list string) : list string :=
  match l with
  | [] => []
  | s :: l' =>
      if negb (s =?s "") && negb (bool_decide (s ∈ seen))
      then s :: dedup_from ({[s]} ∪ seen) l' else dedup_from seen l'
  end.
Definition dedup (l : list string) : list string := dedup_from ∅ l.

Definition NewHubManager (node : Node) (candidates : list string) (policy : HubPolicy) : HubManager :=
  mkManager node (withDefaults policy) (dedup candidates) ∅ ∅.

Definition AddCandidates (hubs : list string) (m : HubManager) : HubManager :=
  mkManager (m_node m) (m_policy m) (dedup (m_candidates m ++ hubs)) (m_state m) (m_bad m).

Definition Working (m : HubManager) : list string :=
  map fst (List.filter (λ p, bool_decide (hs_lastData p.2 ≠ None)) (map_to_list (m_state m))).

(** ** Measuring *)
Section measure.
Context (policy : HubPolicy) (now : Z).

(** What one measurement makes of a hub: the new state of it, and whether it
    is bad and why. *)
Definition measure_hub (isConnected : bool) (rx : Z) (st : hubState) : hubState * option string :=
  let st :=
    mkHubState (hs_added st) (hs_announced st || isConnected)
      (if hs_lastRx st <? rx then rx else hs_lastRx st)
      (if hs_lastRx st <? rx then Some now else hs_lastData st) in
  (st,
   if negb isConnected && (hp_ConnectGrace policy <? now - hs_added st)
   then Some "connection does not hold"
   else
     match hs_lastData st with
     | None =>
         if hp_Silence policy <? now - hs_added st then Some "connected but sent nothing" else None
     | Some t => if hp_Silence policy <? now - t then Some "silent" else None
     end).

(** The fate of an entry: gone with its hub, bad, or kept. *)
Inductive verdict := Gone | Bad (reason : string) | Keep (st : hubState).
Definition judge (stats : string → option (bool * Z * Z)) (addr : string) (st : hubState) : verdict :=
  match stats addr with
  | None => Gone
  | Some (isConnected, rx, _) =>
      match measure_hub isConnected rx st with
      | (_, Some reason) => Bad reason
      | (st', None) => Keep st'
      end
  end.
Definition newly_up (stats : string → option (bool * Z * Z)) (addr : string) (st : hubState) : bool :=
  match stats addr with
  | Some (isConnected, _, _) => isConnected && negb (hs_announced st)
  | None => false
  end.
End measure.

Section manager.
Context `{Reticulum}.
(** GetRxBytes of a hub's interface, which counts what Reticulum-Go read. *)
Context (rx : string → Z).

Definition on_node {A} (m : M Node A) : M HubManager A :=
  zoom m_node (λ n m, mkManager n (m_policy m) (m_candidates m) (m_state m) (m_bad m)) m.
Definition set_tables (state : gmap string hubState) (bad : gmap string Z) : M HubManager unit :=
  modify (λ m, mkManager (m_node m) (m_policy m) (m_candidates m) state bad).

(** The announcements and drops run in goroutines of their own: here after
    the tables are updated. *)
Definition measure (now : Z) : M HubManager unit :=
  m <- get_state ;;
  let stats := HubStats rx (m_node m) in
  let verdicts := map_imap (λ a st, Some (judge (m_policy m) now stats a st)) (m_state m) in
  let kept := omap (λ v, match v with Keep st => Some st | _ => None end) verdicts in
  let bad := omap (λ v, match v with Bad _ => Some now | _ => None end) verdicts in
  let up := length (List.filter (λ p, newly_up stats p.1 p.2) (map_to_list (m_state m))) in
  set_tables kept (bad ∪ m_bad m) ;;;
  on_node (Nat.iter up (λ k, Announce ;;; k) (ret ())) ;;;
  on_node (drop_hubs (elements (dom bad))).

(** ** Filling up *)

(** Which candidates to take: those not used and not bad lately, in order, as
    many as are missing. *)
Fixpoint pick (policy : HubPolicy) (now : Z) (need : Z) (bad : gmap string Z)
    (state : gmap string hubState) (candidates : list string) : list string :=
  match candidates with
  | [] => []
  | a :: l =>
      if need <=? 0 then []
      else if bool_decide (state !! a ≠ None) then pick policy now need bad state l
      else
        match bad !! a with
        | Some t =>
            if now - t <? hp_Backoff policy then pick policy now need bad state l
            else a :: pick policy now (need - 1) bad (<[a := mkHubState now false 0 None]> state) l
        | None =>
            a :: pick policy now (need - 1) bad (<[a := mkHubState now false 0 None]> state) l
        end
  end.

Definition add_picks (now : Z) (picks : list string) (state : gmap string hubState)
  : gmap string hubState :=
  foldl (λ s a, <[a := mkHubState now false 0 None]> s) state picks.

Fixpoint connect_picks (now : Z) (picks : list string) : M HubManager unit :=
  match picks with
  | [] => ret ()
  | a :: l =>
      r <- try (on_node (ConnectHub a)) ;;
      match r with
      | inl _ => ret ()
      | inr _ =>
          m <- get_state ;;
          set_tables (delete a (m_state m)) (<[a := now]> (m_bad m))
      end ;;;
      connect_picks now l
  end.

Definition fill (now : Z) : M HubManager unit :=
  m <- get_state ;;
  let need := hp_Want (m_policy m) - Z.of_nat (size (m_state m)) in
  let picks := pick (m_policy m) now need (m_bad m) (m_state m) (m_candidates m) in
  set_tables (add_picks now picks (m_state m)) (m_bad m) ;;;
  connect_picks now picks.

(** announceWhenUp, at the poll that ends its wait. *)
Definition announce_up (addr : string) : M HubManager unit :=
  m <- get_state ;;
  match HubStats rx (m_node m) addr with
  | Some (true, _, _) =>
      match m_state m !! addr with
      | Some st =>
          if hs_announced st then ret ()
          else
            set_tables (<[addr := mkHubState (hs_added st) true (hs_lastRx st) (hs_lastData st)]>
                          (m_state m)) (m_bad m) ;;;
            on_node Announce
      | None => ret ()
      end
  | _ => ret ()
  end.

(** One round of Run's loop. *)
Inductive run_event := Tick | AnnounceTick.
Definition run_round (now : Z) (e : run_event) : M HubManager unit :=
  match e with
  | Tick => measure now ;;; fill now
  | AnnounceTick => on_node Announce
  end.
End manager.

(** ** The catalog *)

Record catalog_entry := mkEntry {
  ce_Type : string; ce_Network : string; ce_Host : string; ce_Port : Z; ce_Status : string;
}.
Definition zero_entry : catalog_entry := mkEntry "" "" "" 0 "".
Definition entry_fields : list (string * field catalog_entry) :=
  [("type", str_field (λ x e, mkEntry x (ce_Network e) (ce_Host e) (ce_Port e) (ce_Status e)));
   ("network", str_field (λ x e, mkEntry (ce_Type e) x (ce_Host e) (ce_Port e) (ce_Status e)));
   ("host", str_field (λ x e, mkEntry (ce_Type e) (ce_Network e) x (ce_Port e) (ce_Status e)));
   ("port", int_field (λ x e, mkEntry (ce_Type e) (ce_Network e) (ce_Host e) x (ce_Status e)));
   ("status", str_field (λ x e, mkEntry (ce_Type e) (ce_Network e) (ce_Host e) (ce_Port e) x))].
Definition catalog_fields : list (string * field (list catalog_entry)) :=
  [("data", λ v acc,
      match v with
      | JNull => Some []
      | JArr l => mapM (decode_object entry_fields zero_entry) l
      | _ => None
      end)].

Definition usable (e : catalog_entry) : bool :=
  (ce_Network e =?s "clearnet") && (ce_Status e =?s "online") && negb (ce_Host e =?s "") &&
  (0 <? ce_Port e) && ((ce_Type e =?s "tcp") || (ce_Type e =?s "backbone")).

Definition parseCatalog (raw : bytes) : list string + error :=
  match (v ← parse raw; decode_object catalog_fields [] v) with
  | None => inr (Wrapf "catalog" (Errorf "json: cannot unmarshal"))
  | Some doc => inl (map (λ e, JoinHostPort (ce_Host e) (itoa (ce_Port e))) (List.filter usable doc))
  end.

(** What net/http makes of a GET: the status, as much of the body as came, and
    the error that ended it early. *)
Record http_answer := mkHttpAnswer { ha_StatusCode : Z; ha_Status : string; ha_Body : bytes; ha_err : option error }.
Definition catalog_limit : Z := 4 * 1024 * 1024.
Definition download (get : string → http_answer + error) (url : string) : bytes + error :=
  match get url with
  | inr e => inr e
  | inl a =>
      if negb (ha_StatusCode a =? 200) then inr (Errorf ("catalog: " +:+ ha_Status a))
      else if catalog_limit <=? Z.of_nat (length (ha_Body a)) then inl (take (Z.to_nat catalog_limit) (ha_Body a))
      else match ha_err a with Some e => inr e | None => inl (ha_Body a) end
  end.
(** [download] is what came of the download. *)
Definition FetchCatalog (download : bytes + error) (cachePath : string) : M fs (list string) :=
  match download with
  | inl raw => ignore (write_file cachePath raw) ;;; of_res (parseCatalog raw)
  | inr e =>
      r <- try (read_file cachePath) ;;
      match r with
      | inl cached => of_res (parseCatalog cached)
      | inr _ => throw e
      end
  end.

(** ** Candidates *)

Lemma dedup_from_spec seen l :
  NoDup (dedup_from seen l) ∧
  ∀ s, s ∈ dedup_from seen l ↔ s ∈ l ∧ s ≠ "" ∧ s ∉ seen.
Proof.
  revert seen. induction l as [|x l IH]; intros seen; cbn [dedup_from].
  { split; [constructor|]. intros s. rewrite !elem_of_nil. naive_solver. }
  destruct (String.eqb_spec x "") as [->|Hx]; cbn [negb andb].
  { destruct (IH seen) as [H1 H2]. split; [done|]. intros s. rewrite H2, elem_of_cons. naive_solver. }
  case_bool_decide as Hs; cbn [negb].
  { destruct (IH seen) as [H1 H2]. split; [done|]. intros s. rewrite H2, elem_of_cons. naive_solver. }
  destruct (IH ({[x]} ∪ seen)) as [H1 H2]. split.
  - apply list.NoDup_cons. split; [|done]. rewrite H2. set_solver.
  - intros s. rewrite !elem_of_cons, H2, not_elem_of_union, not_elem_of_singleton.
    destruct (decide (s = x)) as [->|]; tauto.
Qed.

(** ** The manager's invariant *)

(** Candidates are distinct, no more hubs are held than wanted, all of them
    candidates, and none was taken back before its backoff ended. *)
Record manager_ok (m : HubManager) : Prop := {
  mo_nodup : NoDup (m_candidates m);
  mo_named : "" ∉ m_candidates m;
  mo_want : (0 ≤ hp_Want (m_policy m) → Z.of_nat (size (m_state m)) ≤ hp_Want (m_policy m));
  mo_candidates : ∀ a st, m_state m !! a = Some st → a ∈ m_candidates m;
  mo_backoff : ∀ a st t, m_state m !! a = Some st → m_bad m !! a = Some t →
    hp_Backoff (m_policy m) ≤ hs_added st - t;
}.

(** What stays when the tables change. *)
Definition same_setup (m m' : HubManager) : Prop :=
  m_policy m' = m_policy m ∧ m_candidates m' = m_candidates m.

Lemma pick_spec policy now bad l : ∀ need state,
  let p := pick policy now need bad state l in
  NoDup p ∧ Z.of_nat (length p) ≤ Z.max 0 need ∧
  ∀ a, a ∈ p → a ∈ l ∧ state !! a = None ∧
    ∀ t, bad !! a = Some t → hp_Backoff policy ≤ now - t.
Proof.
  cbv zeta. induction l as [|x l IH]; intros need state; cbn [pick].
  { split_and!; [constructor|cbn; lia|]. intros a Ha. by apply elem_of_nil in Ha. }
  destruct (Z.leb_spec need 0).
  { split_and!; [constructor|cbn; lia|]. intros a Ha. by apply elem_of_nil in Ha. }
  assert (∀ need' state', (∀ a, state' !! a = None → state !! a = None) → need' ≤ need →
    let p := pick policy now need' bad state' l in
    NoDup p ∧ Z.of_nat (length p) ≤ Z.max 0 need' ∧
    ∀ a, a ∈ p → (a ∈ x :: l ∧ state !! a = None ∧
      ∀ t, bad !! a = Some t → hp_Backoff policy ≤ now - t) ∧ state' !! a = None) as Hrec.
  { cbv zeta. intros need' state' Hs Hn. destruct (IH need' state') as (H1 & H2 & H3).
    split_and!; [done|done|]. intros a Ha. destruct (H3 a Ha) as (Ha1 & Ha2 & Ha3).
    rewrite elem_of_cons. auto. }
  assert (∀ p, NoDup p ∧ Z.of_nat (length p) ≤ Z.max 0 need ∧
    (∀ a, a ∈ p → (a ∈ x :: l ∧ state !! a = None ∧
      ∀ t, bad !! a = Some t → hp_Backoff policy ≤ now - t) ∧ state !! a = None) →
    NoDup p ∧ Z.of_nat (length p) ≤ Z.max 0 need ∧ ∀ a, a ∈ p → a ∈ x :: l ∧ state !! a = None ∧
      ∀ t, bad !! a = Some t → hp_Backoff policy ≤ now - t) as Hweak.
  { intros p (H1 & H2 & H3). split_and!; [done|done|]. intros a Ha. by destruct (H3 a Ha). }
  case_bool_decide as Hx; [apply Hweak, (Hrec need state); [done|lia]|].
  assert (state !! x = None) as Hx' by (destruct (state !! x); [by destruct Hx|done]).
  set (state' := <[x := _]> state).
  assert (∀ a, state' !! a = None → state !! a = None ∧ a ≠ x) as Hs'.
  { subst state'. intros a. destruct (decide (a = x)) as [->|]; [by rewrite lookup_insert_eq|].
    by rewrite lookup_insert_ne. }
  assert ((∀ t, bad !! x = Some t → hp_Backoff policy ≤ now - t) →
    let p := x :: pick policy now (need - 1) bad state' l in
    NoDup p ∧ Z.of_nat (length p) ≤ Z.max 0 need ∧ ∀ a, a ∈ p → a ∈ x :: l ∧ state !! a = None ∧
      ∀ t, bad !! a = Some t → hp_Backoff policy ≤ now - t) as Htake.
  { cbv zeta. intros Hb. destruct (Hrec (need - 1) state') as (H1 & H2 & H3); [by intros a []%Hs'|lia|].
    split_and!.
    - apply list.NoDup_cons. split; [|done]. intros Hin. apply H3 in Hin as [_ [_ Hin]%Hs'].
      done.
    - cbn [length]. lia.
    - intros a Ha. apply elem_of_cons in Ha as [->|Ha]; [|by apply H3].
      split_and!; [by left|done|done]. }
  destruct (bad !! x) as [t|] eqn:Eb; [|apply Htake; congruence].
  destruct (Z.ltb_spec (now - t) (hp_Backoff policy)); [apply Hweak, (Hrec need state); [done|lia]|].
  apply Htake. intros t' [= ->]. lia.
Qed.

Lemma add_picks_lookup now picks : ∀ state a,
  add_picks now picks state !! a =
  (if bool_decide (a ∈ picks) then Some (mkHubState now false 0 None) else state !! a).
Proof.
  unfold add_picks. induction picks as [|x l IH]; intros state a; cbn [foldl].
  { by rewrite bool_decide_eq_false_2 by apply not_elem_of_nil. }
  rewrite IH. destruct (decide (a ∈ l)) as [Hl|Hl].
  { rewrite !bool_decide_eq_true_2; [done|by right|done]. }
  rewrite (bool_decide_eq_false_2 (a ∈ l)) by done. destruct (decide (a = x)) as [->|Hne].
  - rewrite lookup_insert_eq, bool_decide_eq_true_2 by (by left). done.
  - rewrite lookup_insert_ne, bool_decide_eq_false_2 by (rewrite ?elem_of_cons; naive_solver). done.
Qed.

Lemma add_picks_size now picks : ∀ state,
  NoDup picks → (∀ a, a ∈ picks → state !! a = None) →
  size (add_picks now picks state) = (size state + length picks)%nat.
Proof.
  unfold add_picks. induction picks as [|x l IH]; intros state Hn Hs; cbn [foldl length]; [lia|].
  apply list.NoDup_cons in Hn as [Hx Hn]. rewrite IH.
  - rewrite map_size_insert_None by (apply Hs; by left). lia.
  - done.
  - intros a Ha. rewrite lookup_insert_ne by (intros ->; done). apply Hs. by right.
Qed.

Section invariant.
Context `{Reticulum} (rx : string → Z).

(** A table change that only removes hubs, keeps their times, and marks as
    bad only hubs that are not held. *)
Lemma manager_ok_shrink m state bad node :
  manager_ok m →
  (∀ a st, state !! a = Some st → ∃ st0, m_state m !! a = Some st0 ∧ hs_added st = hs_added st0) →
  (∀ a t, bad !! a = Some t → state !! a = None ∨ m_bad m !! a = Some t) →
  manager_ok (mkManager node (m_policy m) (m_candidates m) state bad).
Proof.
  intros [H1 H0 H2 H3 H4] Hs Hb. split; cbn.
  - done.
  - done.
  - intros Hw. etransitivity; [|by apply H2].
    rewrite <-!size_dom. apply inj_le, subseteq_size. intros a [st Ha]%elem_of_dom.
    apply Hs in Ha as (st0 & Ha & _). apply elem_of_dom. eauto.
  - intros a st Ha. apply Hs in Ha as (st0 & Ha & _). eauto.
  - intros a st t Ha Ht. destruct (Hb a t Ht) as [|Ht']; [congruence|].
    apply Hs in Ha as (st0 & Ha & ->). eauto.
Qed.

Lemma on_node_ok {A} (k : M Node A) m a n' :
  k (m_node m) = (Ok a, n') →
  on_node k m = (Ok a, mkManager n' (m_policy m) (m_candidates m) (m_state m) (m_bad m)).
Proof. intros E. unfold on_node, zoom. by rewrite E. Qed.

(** Only the node changed, and the call came back. *)
Definition node_only {A} (k : M HubManager A) : Prop :=
  ∀ m, ∃ r n', k m = (r, mkManager n' (m_policy m) (m_candidates m) (m_state m) (m_bad m)) ∧
    finished r = true.
Lemma node_manager_ok m n' :
  manager_ok m → manager_ok (mkManager n' (m_policy m) (m_candidates m) (m_state m) (m_bad m)).
Proof. intros Hm. apply manager_ok_shrink; eauto. Qed.

Lemma ConnectHub_returns a n : finished (ConnectHub a n).1 = true.
Proof.
  unfold ConnectHub. destruct (SplitHostPort a); [|done].
  rewrite bind_Ok with (a := n) (s' := n) by done. case_match; [done|]. by destruct (tr_register a).
Qed.

Lemma connect_picks_ok now picks : ∀ m,
  manager_ok m → ∃ m', connect_picks now picks m = (Ok (), m') ∧ manager_ok m' ∧ same_setup m m'.
Proof.
  induction picks as [|a l IH]; intros m Hm; cbn [connect_picks]; [by eexists|].
  pose proof (ConnectHub_returns a (m_node m)) as Hf.
  destruct (ConnectHub a (m_node m)) as [r n'] eqn:E.
  set (m1 := mkManager n' (m_policy m) (m_candidates m) (m_state m) (m_bad m)).
  assert (manager_ok m1) as Hm1 by by apply node_manager_ok.
  assert (on_node (ConnectHub a) m = (r, m1)) as E1 by (unfold on_node, zoom; by rewrite E).
  destruct r as [u|e| | |]; try done.
  - rewrite (bind_Ok _ _ _ _ _ (try_Ok _ _ _ _ E1)).
    rewrite bind_Ok with (a := ()) (s' := m1) by done. by apply (IH m1).
  - rewrite (bind_Ok _ _ _ _ _ (try_Err _ _ _ _ E1)).
    set (m2 := mkManager n' (m_policy m) (m_candidates m) (delete a (m_state m)) (<[a := now]> (m_bad m))).
    rewrite bind_Ok with (a := ()) (s' := m2) by done. apply (IH m2).
    apply manager_ok_shrink; [done| |].
    + intros b st [_ Hb]%lookup_delete_Some. eauto.
    + intros b t Hb. destruct (decide (b = a)) as [->|Hne]; [left; apply lookup_delete_eq|right].
      by rewrite lookup_insert_ne in Hb.
Qed.

Lemma fill_ok now m :
  manager_ok m → ∃ m', fill now m = (Ok (), m') ∧ manager_ok m' ∧ same_setup m m'.
Proof.
  intros Hm. unfold fill. rewrite bind_Ok with (a := m) (s' := m) by done. cbv zeta.
  set (need := hp_Want (m_policy m) - Z.of_nat (size (m_state m))).
  destruct (pick_spec (m_policy m) now (m_bad m) (m_candidates m) need (m_state m)) as (H1 & H2 & H3).
  set (picks := pick _ _ _ _ _ _) in *.
  set (m1 := mkManager (m_node m) (m_policy m) (m_candidates m) (add_picks now picks (m_state m)) (m_bad m)).
  rewrite bind_Ok with (a := ()) (s' := m1) by done.
  apply (connect_picks_ok now picks m1). destruct Hm as [Hc Hn Hw Hs Hb]. split; cbn.
  - done.
  - done.
  - intros Hwant. rewrite add_picks_size by (try done; intros a Ha; by apply H3).
    specialize (Hw Hwant). lia.
  - intros a st. rewrite add_picks_lookup. case_bool_decide as Ha; [|eauto]. intros _. by apply H3.
  - intros a st t. rewrite add_picks_lookup. case_bool_decide as Ha; [|eauto].
    intros [= <-] Ht. cbn. by apply (H3 a Ha).
Qed.

Lemma announces_ok k (n : Node) : ∃ n', Nat.iter k (λ c, Announce ;;; c) (ret ()) n = (Ok (), n').
Proof. revert n. induction k as [|k IH]; intros n; [by eexists|]. cbn. apply IH. Qed.

Lemma drop_hubs_ok l (n : Node) : ∃ n', drop_hubs l n = (Ok (), n').
Proof.
  revert n. induction l as [|a l IH]; intros n; [by eexists|]. cbn [drop_hubs].
  assert (∃ h n', DropHub a n = (Ok h, n')) as (h & n' & E).
  { unfold DropHub. rewrite bind_Ok with (a := n) (s' := n) by done. case_match; by eexists _, _. }
  rewrite (bind_Ok _ _ _ _ _ E). apply IH.
Qed.

Lemma measure_hub_added policy now up r st : hs_added (measure_hub policy now up r st).1 = hs_added st.
Proof. done. Qed.

Lemma measure_ok now m :
  manager_ok m → ∃ m', measure rx now m = (Ok (), m') ∧ manager_ok m' ∧ same_setup m m'.
Proof.
  intros Hm. unfold measure. rewrite bind_Ok with (a := m) (s' := m) by done. cbv zeta.
  set (verdicts := map_imap _ (m_state m)). set (kept := omap _ verdicts). set (bad := omap _ verdicts).
  set (m1 := mkManager (m_node m) (m_policy m) (m_candidates m) kept (bad ∪ m_bad m)).
  rewrite bind_Ok with (a := ()) (s' := m1) by done.
  assert (manager_ok m1) as Hm1.
  { apply manager_ok_shrink; [done| |].
    - intros a st Ha. subst kept verdicts. rewrite lookup_omap, map_lookup_imap in Ha.
      destruct (m_state m !! a) as [st0|] eqn:E; [|done]. cbn in Ha. exists st0. split; [done|].
      unfold judge in Ha. repeat case_match; simplify_eq/=. by unfold measure_hub in *; simplify_eq.
    - intros a t [Ha|[_ Ha]]%lookup_union_Some_raw; [left|by right].
      subst kept bad verdicts. rewrite lookup_omap, map_lookup_imap in Ha.
      rewrite lookup_omap, map_lookup_imap.
      destruct (m_state m !! a); [|done]. cbn in *. by destruct (judge _ _ _ _ _). }
  set (up := length (List.filter _ (map_to_list (m_state m)))).
  destruct (announces_ok up (m_node m1)) as [n1 E1].
  apply (on_node_ok _ m1) in E1. rewrite (bind_Ok _ _ _ _ _ E1).
  set (m2 := mkManager n1 _ _ _ _). destruct (drop_hubs_ok (elements (dom bad)) (m_node m2)) as [n2 E2].
  apply (on_node_ok _ m2) in E2. rewrite E2. eexists. split; [reflexivity|]. split; [|done].
  by apply (node_manager_ok m1).
Qed.

(** *** Everything that happens to a manager *)
Inductive hub_op :=
  | OpRound (now : Z) (e : run_event)
  | OpUp (addr : string)
  | OpAdd (hubs : list string)
  | OpNode (f : Node → Node). (* connections come up, go down, carry data *)
Definition run_hub_op (op : hub_op) : M HubManager unit :=
  match op with
  | OpRound now e => run_round rx now e
  | OpUp addr => announce_up rx addr
  | OpAdd hubs => modify (AddCandidates hubs)
  | OpNode f => on_node (modify f)
  end.
Fixpoint run_hub_ops (ops : list hub_op) : M HubManager unit :=
  match ops with
  | [] => ret ()
  | op :: l => run_hub_op op ;;; run_hub_ops l
  end.

Lemma run_hub_op_ok op m :
  manager_ok m → ∃ m', run_hub_op op m = (Ok (), m') ∧ manager_ok m' ∧ m_policy m' = m_policy m.
Proof.
  intros Hm. destruct op as [now [|]|addr|hubs|f]; cbn [run_hub_op run_round].
  - destruct (measure_ok now m Hm) as (m1 & E1 & Hm1 & Hp1 & _). rewrite (bind_Ok _ _ _ _ _ E1).
    destruct (fill_ok now m1 Hm1) as (m2 & E2 & Hm2 & Hp2 & _). exists m2.
    split_and!; [done..|congruence].
  - eexists. split; [reflexivity|]. split; [|done]. by apply node_manager_ok.
  - unfold announce_up. rewrite bind_Ok with (a := m) (s' := m) by done.
    destruct (HubStats _ _ _) as [[[[] r] t]|]; [|by eexists..].
    destruct (m_state m !! addr) as [st|] eqn:E; [|by eexists].
    destruct (hs_announced st); [by eexists|]. eexists. split; [reflexivity|]. split; [|done].
    cbn. set (st' := mkHubState _ true _ _).
    apply (manager_ok_shrink m (<[addr := st']> (m_state m)) (m_bad m)); [done| |by right].
    intros a st0 Ha. destruct (decide (a = addr)) as [->|Hne].
    + rewrite lookup_insert_eq in Ha. simplify_eq. eauto.
    + rewrite lookup_insert_ne in Ha by done. eauto.
  - eexists. split; [reflexivity|]. split; [|done]. destruct Hm as [H1 H0 H2 H3 H4].
    destruct (dedup_from_spec ∅ (m_candidates m ++ hubs)) as [Hd1 Hd2].
    split; cbn; [done|by intros (_ & ? & _)%Hd2|done| |done].
    intros a st Ha. apply Hd2. split_and!; [apply elem_of_app; left; eauto| |apply not_elem_of_empty].
    intros ->. by apply H0, (H3 "" st).
  - eexists. split; [reflexivity|]. split; [|done]. by apply node_manager_ok.
Qed.

Lemma run_hub_ops_ok ops : ∀ m,
  manager_ok m → ∃ m', run_hub_ops ops m = (Ok (), m') ∧ manager_ok m' ∧ m_policy m' = m_policy m.
Proof.
  induction ops as [|op ops IH]; intros m Hm; cbn [run_hub_ops]; [by eexists|].
  destruct (run_hub_op_ok op m Hm) as (m1 & E1 & Hm1 & Hp1). rewrite (bind_Ok _ _ _ _ _ E1).
  destruct (IH m1 Hm1) as (m2 & E2 & Hm2 & Hp2). exists m2. split_and!; [done..|congruence].
Qed.

Lemma NewHubManager_ok node candidates policy : manager_ok (NewHubManager node candidates policy).
Proof.
  destruct (dedup_from_spec ∅ candidates) as [H1 H2].
  split; cbn; [done|by intros (_ & ? & _)%H2| |done|done].
  intros Hw. rewrite map_size_empty. done.
Qed.

(** C19: whatever happens to the hubs and in whatever order, the manager never
    gets stuck, never holds more hubs than the policy wants, holds only
    candidates, and never takes a hub back before its backoff ended. *)
Theorem manager_keeps_policy ops node candidates policy :
  0 ≤ hp_Want policy →
  ∃ m, run_hub_ops ops (NewHubManager node candidates policy) = (Ok (), m) ∧
    Z.of_nat (size (m_state m)) ≤ hp_Want (withDefaults policy) ∧
    ∀ a st, m_state m !! a = Some st →
      a ∈ m_candidates m ∧
      ∀ t, m_bad m !! a = Some t → t + hp_Backoff (withDefaults policy) ≤ hs_added st.
Proof.
  intros Hw. destruct (run_hub_ops_ok ops _ (NewHubManager_ok node candidates policy))
    as (m & E & [H1 H0 H2 H3 H4] & Hp).
  change (m_policy (NewHubManager node candidates policy)) with (withDefaults policy) in Hp.
  rewrite Hp in *. exists m. split_and!; [done| |].
  - apply H2. cbn. case_match; lia.
  - intros a st Ha. split; [eauto|]. intros t Ht. specialize (H4 a st t Ha Ht). lia.
Qed.

(** *** Filling up takes every candidate it may *)

Lemma pick_full policy now bad l : ∀ need state,
  let p := pick policy now need bad state l in
  Z.of_nat (length p) = need ∨ need ≤ 0 ∨
  ∀ a, a ∈ l → state !! a ≠ None ∨ a ∈ p ∨ ∃ t, bad !! a = Some t ∧ now - t < hp_Backoff policy.
Proof.
  cbv zeta. induction l as [|x l IH]; intros need state; cbn [pick].
  { right. right. intros a Ha. by apply elem_of_nil in Ha. }
  destruct (Z.leb_spec need 0); [auto|].
  case_bool_decide as Hx.
  { destruct (IH need state) as [Hr|[Hr|Hr]]; [auto|auto|]. right. right.
    intros a [->|Ha]%elem_of_cons; auto. }
  set (st0 := mkHubState now false 0 None).
  assert (let p := x :: pick policy now (need - 1) bad (<[x := st0]> state) l in
    Z.of_nat (length p) = need ∨ need ≤ 0 ∨
    ∀ a, a ∈ x :: l → state !! a ≠ None ∨ a ∈ p ∨ ∃ t, bad !! a = Some t ∧ now - t < hp_Backoff policy)
    as Htake.
  { cbv zeta. destruct (IH (need - 1) (<[x := st0]> state)) as [Hr|[Hr|Hr]].
    - left. cbn [length]. lia.
    - assert (need = 1) as -> by lia. left.
      destruct l; cbn [pick length]; [done|]. by replace (1 - 1 <=? 0) with true by done.
    - right. right. intros a [->|Ha]%elem_of_cons; [right; left; by left|].
      destruct (Hr a Ha) as [Hs|[Hs|Hs]]; [|right; left; by right|auto].
      destruct (decide (a = x)) as [->|Hne]; [right; left; by left|].
      rewrite lookup_insert_ne in Hs by done. auto. }
  destruct (bad !! x) as [t|] eqn:Eb; [|exact Htake].
  destruct (Z.ltb_spec (now - t) (hp_Backoff policy)); [|exact Htake].
  destruct (IH need state) as [Hr|[Hr|Hr]]; [auto|auto|]. right. right.
  intros a [->|Ha]%elem_of_cons; eauto.
Qed.

Lemma connect_all now picks : ∀ m,
  (∀ a, a ∈ picks → (∃ hp, SplitHostPort a = inl hp) ∧ tr_register a = None) →
  ∃ n', connect_picks now picks m =
    (Ok (), mkManager n' (m_policy m) (m_candidates m) (m_state m) (m_bad m)).
Proof.
  induction picks as [|a l IH]; intros m Ha; cbn [connect_picks]; [exists (m_node m); by destruct m|].
  destruct (Ha a) as [[hp Hs] Hr]; [by left|].
  assert (∃ n1, ConnectHub a (m_node m) = (Ok (), n1)) as [n1 E].
  { unfold ConnectHub. rewrite Hs. rewrite bind_Ok with (a := m_node m) (s' := m_node m) by done.
    case_match; [by eexists|]. rewrite Hr. by eexists. }
  apply on_node_ok in E. rewrite (bind_Ok _ _ _ _ _ (try_Ok _ _ _ _ E)).
  set (m1 := mkManager n1 _ _ _ _). rewrite bind_Ok with (a := ()) (s' := m1) by done.
  destruct (IH m1) as [n2 E2]; [intros b Hb; apply Ha; by right|]. by exists n2.
Qed.

(** When the hubs can be reached, filling up leaves as many as wanted, or
    no candidate unused but those in their backoff. *)
Theorem fill_full now m :
  manager_ok m → 0 ≤ hp_Want (m_policy m) →
  (∀ a, a ∈ m_candidates m → (∃ hp, SplitHostPort a = inl hp) ∧ tr_register a = None) →
  ∃ m', fill now m = (Ok (), m') ∧
    (Z.of_nat (size (m_state m')) = hp_Want (m_policy m) ∨
     ∀ a, a ∈ m_candidates m → m_state m' !! a ≠ None ∨
       ∃ t, m_bad m !! a = Some t ∧ now - t < hp_Backoff (m_policy m)).
Proof.
  intros Hm Hw Hc. unfold fill. rewrite bind_Ok with (a := m) (s' := m) by done. cbv zeta.
  set (need := hp_Want (m_policy m) - Z.of_nat (size (m_state m))).
  destruct (pick_spec (m_policy m) now (m_bad m) (m_candidates m) need (m_state m)) as (H1 & H2 & H3).
  pose proof (pick_full (m_policy m) now (m_bad m) (m_candidates m) need (m_state m)) as Hf.
  cbv zeta in Hf. set (picks := pick _ _ _ _ _ _) in *.
  set (m1 := mkManager (m_node m) (m_policy m) (m_candidates m) (add_picks now picks (m_state m)) (m_bad m)).
  rewrite bind_Ok with (a := ()) (s' := m1) by done.
  destruct (connect_all now picks m1) as [n' ->]; [intros a Ha; by apply Hc, H3|].
  eexists. split; [reflexivity|]. cbn [m_state m1].
  rewrite add_picks_size by (try done; intros a Ha; by apply H3).
  pose proof (mo_want m Hm Hw). destruct Hf as [Hf|[Hf|Hf]]; [left; lia|left; lia|right].
  intros a Ha. rewrite add_picks_lookup. case_bool_decide as Hp; [by left|].
  destruct (Hf a Ha) as [Hs|[Hs|Hs]]; auto.
Qed.
End invariant.

Definition demo_policy : HubPolicy := mkHubPolicy 2 0 0 0 0 0.
Definition demo_manager : HubManager :=
  NewHubManager (node_of (bs "pc")) ["a:1"; "b:2"; "a:1"; "c:3"] demo_policy.

Lemma manager_keeps_policy_witness :
  0 ≤ hp_Want demo_policy ∧
  ∃ m, @run_hub_ops toy_reticulum (λ _, 0) [OpRound 0 Tick; OpRound (21 * second) Tick] demo_manager = (Ok (), m) ∧
    Z.of_nat (size (m_state m)) ≤ hp_Want (withDefaults demo_policy) ∧
    ∀ a st, m_state m !! a = Some st →
      a ∈ m_candidates m ∧
      ∀ t, m_bad m !! a = Some t → t + hp_Backoff (withDefaults demo_policy) ≤ hs_added st.
Proof.
  split; [done|]. by apply (@manager_keeps_policy toy_reticulum (λ _, 0) _ (node_of (bs "pc"))
    ["a:1"; "b:2"; "a:1"; "c:3"] demo_policy).
Defined.

(** The same run, evaluated: the hubs that did not come up are bad and the
    third candidate took a place. *)
Example demo_rounds :
  let m := (@run_hub_ops toy_reticulum (λ _, 0) [OpRound 0 Tick; OpRound (21 * second) Tick] demo_manager).2 in
  (elements (dom (m_state m)), elements (dom (m_bad m))) = (["c:3"], ["a:1"; "b:2"]) ∨
  (elements (dom (m_state m)), elements (dom (m_bad m))) = (["c:3"], ["b:2"; "a:1"]).
Proof. vm_compute. auto. Qed.

Lemma fill_full_witness :
  ∃ m', @fill toy_reticulum 0 demo_manager = (Ok (), m') ∧
    (Z.of_nat (size (m_state m')) = hp_Want (m_policy demo_manager) ∨
     ∀ a, a ∈ m_candidates demo_manager → m_state m' !! a ≠ None ∨
       ∃ t, m_bad demo_manager !! a = Some t ∧ 0 - t < hp_Backoff (m_policy demo_manager)).
Proof.
  apply (@fill_full toy_reticulum 0 demo_manager).
  - apply NewHubManager_ok.
  - done.
  - intros a Ha. split; [|done]. vm_compute in Ha.
    repeat (apply elem_of_cons in Ha as [->|Ha]; [eexists; vm_compute; reflexivity|]).
    by apply elem_of_nil in Ha.
Defined.

(** Any page with status 200 replaces the cached list before it is parsed: a
    captive portal's answer leaves no hubs for the time after it. *)
Example portal_ruins_cache :
  let good := bs "{" ++ [dq] ++ bs "data" ++ [dq] ++ bs ":[]}" in
  let disk := mkFs {["/c" := NDir; "/c/hubs.json" := NFile good]} [] in
  let page := download (λ _, inl (mkHttpAnswer 200 "200 OK" (bs "<html>") None)) "http://x" in
  let offline := download (λ _, inr (Errorf "no network")) "http://x" in
  (FetchCatalog offline "/c/hubs.json" disk).1 = Ok [] ∧
  (FetchCatalog offline "/c/hubs.json" (FetchCatalog page "/c/hubs.json" disk).2).1 =
    Err (Wrapf "catalog" (Errorf "json: cannot unmarshal")).
Proof. by vm_compute. Qed.
