(* ===== verification/World.v ===== *)
(** * internal/daemon/daemon.go: the state of a running daemon

    The record every handler shares, one field per mutex of the code, and the
    operations of daemon.go on it: construction, trust, the LAN address, the
    nearby table and the event subscribers. Log lines are not modelled. *)

From S2P Require Import Prelude GoStrings Go GoNet Fs Ipc Paths Receive Config Rns.
From Stdlib Require Import ZArith Lia String Ascii List Bool.
From stdpp Require Import base list strings gmap option numbers sorting.

#[local] Open Scope string_scope.
#[local] Open Scope list_scope.
#[local] Open Scope Z_scope.

(** ** State *)

(** What does not change while the daemon runs. *)
Record settings := mkSettings {
  o_name : string;
  o_listenIP : string;
  o_port : Z;
  o_autoIP : bool;
  o_relayAddr : string;
  o_downloadDir : string;
  o_tapPair : bool;
  o_rnsEnabled : bool;
  o_rnsHubs : list string;
  o_queueAll : bool;
}.

(** The network as [detectLANIP] sees it: the local address of a UDP socket
    towards the internet, and the interface addresses. *)
Record netview := mkNetview { nv_udp : option string; nv_addrs : list (option ip) }.

(** A pairing window (pairSession); [ps_done] is the closed channel. *)
Record pairSession := mkPairSession {
  ps_expectFingerprint : string;
  ps_expectName : string;
  ps_done : bool;
  ps_paired : string;
}.

(** A tap pairing (pendingPair). [pp_decide] is the buffered answer,
    [pp_done] the outcome once the done channel is closed. *)
Record pendingPair := mkPendingPair {
  pp_info : PairInfo;
  pp_rns : string;
  pp_decide : option bool;
  pp_done : option (option error);
}.

(** A clipboard text arriving in parts (clipParts). *)
Record clipParts := mkClipParts { cp_parts : list (option bytes); cp_got : Z }.

(** One signalling message of a direct channel (direct.Msg). *)
Record Msg := mkMsg { m_Kind : string; m_Ufrag : string; m_Pwd : string; m_Cand : string }.
#[export] Instance Msg_eq_dec : EqDecision Msg.
Proof. solve_decision. Defined.

(** Pairing windows live in a store of their own, since callers keep pointers
    to them after the daemon forgot them; so do pending tap pairings. *)
Record pairing_state := mkPairing {
  pg_sessions : gmap nat pairSession;
  pg_window : option nat;
  pg_pending : gmap string pendingPair;
  pg_tapPairs : gset string;
}.

Record rnsFields := mkRnsFields {
  r_node : option Node;
  r_pongs : gset string;             (* IDs waiting for a pong or clip-ack *)
  r_answered : gset string;          (* their closed channels *)
  r_iceSetups : gmap string (list Msg);
  r_kick : bool;
  r_clips : gmap string clipParts;
}.

Record Daemon := mkDaemon {
  d_set : settings;
  d_tcpAddr : string;
  d_net : netview;
  d_cs : cstate;                     (* store, disk, clock *)
  d_slots : gset string;
  d_pair : pairing_state;
  d_nearby : gmap string NearbyInfo;
  d_subs : gmap nat (list Event);    (* subscriber channels: undelivered events *)
  d_next : nat;                      (* next fresh object *)
  d_rns : rnsFields;
  d_notes : list (string * string);
  d_clipboard : list (bytes * string);
  d_shown : list PairInfo;           (* codes given to callers of PairWith *)
}.

Definition d_store (d : Daemon) : Store := cs_store (d_cs d).
Definition d_fs (d : Daemon) : fs := cs_fs (d_cs d).
Definition d_now (d : Daemon) : Z := cs_now (d_cs d).

(** *** Field updates *)
Definition with_tcpAddr (x : string) (d : Daemon) : Daemon :=
  mkDaemon (d_set d) x (d_net d) (d_cs d) (d_slots d) (d_pair d) (d_nearby d) (d_subs d)
    (d_next d) (d_rns d) (d_notes d) (d_clipboard d) (d_shown d).
Definition with_cs (x : cstate) (d : Daemon) : Daemon :=
  mkDaemon (d_set d) (d_tcpAddr d) (d_net d) x (d_slots d) (d_pair d) (d_nearby d) (d_subs d)
    (d_next d) (d_rns d) (d_notes d) (d_clipboard d) (d_shown d).
Definition with_pair (x : pairing_state) (d : Daemon) : Daemon :=
  mkDaemon (d_set d) (d_tcpAddr d) (d_net d) (d_cs d) (d_slots d) x (d_nearby d) (d_subs d)
    (d_next d) (d_rns d) (d_notes d) (d_clipboard d) (d_shown d).
Definition with_nearby (x : gmap string NearbyInfo) (d : Daemon) : Daemon :=
  mkDaemon (d_set d) (d_tcpAddr d) (d_net d) (d_cs d) (d_slots d) (d_pair d) x (d_subs d)
    (d_next d) (d_rns d) (d_notes d) (d_clipboard d) (d_shown d).
Definition with_subs (x : gmap nat (list Event)) (d : Daemon) : Daemon :=
  mkDaemon (d_set d) (d_tcpAddr d) (d_net d) (d_cs d) (d_slots d) (d_pair d) (d_nearby d) x
    (d_next d) (d_rns d) (d_notes d) (d_clipboard d) (d_shown d).
Definition with_next (x : nat) (d : Daemon) : Daemon :=
  mkDaemon (d_set d) (d_tcpAddr d) (d_net d) (d_cs d) (d_slots d) (d_pair d) (d_nearby d) (d_subs d)
    x (d_rns d) (d_notes d) (d_clipboard d) (d_shown d).
Definition with_rns (x : rnsFields) (d : Daemon) : Daemon :=
  mkDaemon (d_set d) (d_tcpAddr d) (d_net d) (d_cs d) (d_slots d) (d_pair d) (d_nearby d) (d_subs d)
    (d_next d) x (d_notes d) (d_clipboard d) (d_shown d).
Definition with_notes (x : list (string * string)) (d : Daemon) : Daemon :=
  mkDaemon (d_set d) (d_tcpAddr d) (d_net d) (d_cs d) (d_slots d) (d_pair d) (d_nearby d) (d_subs d)
    (d_next d) (d_rns d) x (d_clipboard d) (d_shown d).

Definition show_code (info : PairInfo) (d : Daemon) : Daemon :=
  mkDaemon (d_set d) (d_tcpAddr d) (d_net d) (d_cs d) (d_slots d) (d_pair d) (d_nearby d) (d_subs d)
    (d_next d) (d_rns d) (d_notes d) (d_clipboard d) (d_shown d ++ [info]).

Definition on_store {A} (m : M cstate A) : M Daemon A := zoom d_cs with_cs m.
Definition on_daemon_fs {A} (m : M fs A) : M Daemon A := on_store (on_store_fs m).
Definition asks {A} (f : Daemon → A) : M Daemon A := gets f.

(** ** Addresses *)

Definition v4_text (l : list Z) : string := join_with "." (map itoa l).
Definition detectLANIP (nv : netview) : string :=
  match nv_udp nv with
  | Some ip => ip
  | None =>
      match find (λ a, match a with
                       | Some a => negb (IsLoopback a) && bool_decide (ip_to4 a ≠ None)
                       | None => false
                       end) (nv_addrs nv) with
      | Some (Some a) => match ip_to4 a with Some l => v4_text l | None => "127.0.0.1" end
      | _ => "127.0.0.1"
      end
  end.

Definition refreshAdvertiseAddr : M Daemon unit :=
  d <- get_state ;;
  if negb (o_autoIP (d_set d)) then ret ()
  else
    let ip := detectLANIP (d_net d) in
    if ip =?s "127.0.0.1" then ret ()
    else modify (with_tcpAddr (JoinHostPort ip (itoa (o_port (d_set d))))).

Definition advertiseAddr : M Daemon string :=
  d <- get_state ;;
  match (if o_autoIP (d_set d) then SplitHostPort (d_tcpAddr d) else inr EOF) with
  | inl (host, _) => if host =?s "127.0.0.1" then refreshAdvertiseAddr else ret ()
  | inr _ => ret ()
  end ;;;
  asks d_tcpAddr.

(** ** Construction *)

Definition DefaultPort : Z := 53127.

Record Options := mkOptions {
  op_Store : option cstate;
  op_Name : string;
  op_Port : Z;
  op_AdvertiseIP : string;
  op_ListenIP : string;
  op_DownloadDir : string;
  op_RelayAddr : string;
  op_TapPair : bool;
  op_Reticulum : bool;
  op_RNSHubs : list string;
  op_QueueUnreachable : bool;
}.

(** The host as New sees it. *)
Record host_env := mkHostEnv { he_hostname : string; he_home : string; he_relay : string; he_net : netview }.

Definition New (env : host_env) (opt : Options) : Daemon + error :=
  match op_Store opt with
  | None => inr (Errorf "daemon: nil store")
  | Some cs =>
      let or (a b : string) := if a =?s "" then b else a in
      let name := or (or (op_Name opt) (he_hostname env)) "adrop-pc" in
      let port := if op_Port opt =? 0 then DefaultPort else op_Port opt in
      let ip := or (op_AdvertiseIP opt) (detectLANIP (he_net env)) in
      inl (mkDaemon
        (mkSettings name (op_ListenIP opt) port (op_AdvertiseIP opt =?s "")
           (or (op_RelayAddr opt) (he_relay env)) (or (op_DownloadDir opt) (he_home env +:+ "/Downloads"))
           (op_TapPair opt) (op_Reticulum opt) (op_RNSHubs opt) (op_QueueUnreachable opt))
        (JoinHostPort ip (itoa port)) (he_net env) cs ∅ (mkPairing ∅ None ∅ ∅) ∅ ∅ O
        (mkRnsFields None ∅ ∅ ∅ false ∅) [] [] [])
  end.

(** ** Trust *)

(** The open pairing window admits [fp]. *)
Definition window_admits (d : Daemon) (fp : string) : option pairSession :=
  i ← pg_window (d_pair d);
  ps ← pg_sessions (d_pair d) !! i;
  if (ps_expectFingerprint ps =?s "") || (ps_expectFingerprint ps =?s fp) then Some ps else None.

(** transport.PeerVerifier *)
Definition daemon_IsTrusted (d : Daemon) (fp : string) : option string :=
  match Config.IsTrusted (d_store d) fp with
  | Some name => Some name
  | None => ps_expectName <$> window_admits d fp
  end.

(** ** Nearby devices *)

Definition same_kick (k : bool) (r : rnsFields) : rnsFields :=
  mkRnsFields (r_node r) (r_pongs r) (r_answered r) (r_iceSetups r) k (r_clips r).
(** The kick channel has room for one; a second kick is dropped. *)
Definition kickQueue : M Daemon unit := modify (λ d, with_rns (same_kick true (d_rns d)) d).

Definition add_nearby (name addr fp : string) : M Daemon unit :=
  modify (λ d, with_nearby (<[name := mkNearbyInfo name addr fp false]> (d_nearby d)) d).

Definition AddNearby (name addr fp : string) : M Daemon unit :=
  own <- asks (store_Fingerprint ∘ d_store) ;;
  if fp =?s own then ret ()
  else
    add_nearby name addr fp ;;;
    on_store (UpdateAddr fp addr) ;;;
    st <- asks d_store ;;
    match Config.IsTrusted st fp with Some _ => kickQueue | None => ret () end.

Definition RemoveNearby (name : string) : M Daemon unit :=
  modify (λ d, with_nearby (delete name (d_nearby d)) d).

#[export] Instance nearby_le_dec : ∀ a b, Decision (negb (str_lt (ni_Name b) (ni_Name a)) = true).
Proof. intros a b. apply _. Defined.
Definition Nearby (d : Daemon) : list NearbyInfo :=
  merge_sort (λ a b, negb (str_lt (ni_Name b) (ni_Name a)) = true)
    (map (λ p, mkNearbyInfo (ni_Name p.2) (ni_Addr p.2) (ni_Fingerprint p.2)
                 (bool_decide (Config.IsTrusted (d_store d) (ni_Fingerprint p.2) ≠ None)))
       (map_to_list (d_nearby d))).

(** The mDNS callbacks of startMDNS and refreshAddrViaMDNS. *)
Definition mdns_record (name addr fp : string) : M Daemon unit :=
  own <- asks (store_Fingerprint ∘ d_store) ;;
  if fp =?s own then ret ()
  else
    add_nearby name addr fp ;;;
    st <- asks d_store ;;
    match Config.IsTrusted st fp with
    | Some _ => ignore (on_store (UpdateAddr fp addr))
    | None => ret ()
    end.

Fixpoint refreshAddrViaMDNS (want : string) (records : list (string * string * string)) : M Daemon bool :=
  match records with
  | [] => ret false
  | (_, addr, fp) :: l =>
      own <- asks (store_Fingerprint ∘ d_store) ;;
      st <- asks d_store ;;
      let skip := (fp =?s own) || bool_decide (Config.IsTrusted st fp = None) in
      (if skip then ret () else ignore (on_store (UpdateAddr fp addr))) ;;;
      seen <- refreshAddrViaMDNS want l ;;
      ret (negb skip && (negb (want =?s "") && (fp =?s want)) || seen)
  end.

(** ** Subscribers *)

Definition subBuffer : nat := 32.

Definition subscribe : M Daemon nat :=
  d <- get_state ;;
  modify (λ d, with_next (S (d_next d)) (with_subs (<[d_next d := []]> (d_subs d)) d)) ;;;
  ret (d_next d).
Definition unsubscribe (ch : nat) : M Daemon unit :=
  modify (λ d, with_subs (delete ch (d_subs d)) d).

Definition push_event (e : Event) (buf : list Event) : list Event :=
  if (length buf <? subBuffer)%nat then buf ++ [e] else buf.
Definition daemon_broadcast (e : Event) : M Daemon unit :=
  modify (λ d, with_subs (push_event e <$> d_subs d) d).

(** A subscriber takes the next event. *)
Definition next_event (ch : nat) : M Daemon (option Event) :=
  d <- get_state ;;
  match d_subs d !! ch with
  | Some (e :: l) => modify (with_subs (<[ch := l]> (d_subs d))) ;;; ret (Some e)
  | _ => ret None
  end.

Definition notify (title body : string) : M Daemon unit :=
  modify (λ d, with_notes (d_notes d ++ [(title, body)]) d).

(** ** A session inside the daemon

    Receive's session runs on the daemon's disk, slots, notes and clipboard;
    its events go to every subscriber. *)
Record peer := mkPeer { p_conn : conn; p_d : Daemon }.
Definition on_d {A} (m : M Daemon A) : M peer A := zoom p_d (λ d p, mkPeer (p_conn p) d) m.
Definition on_c {A} (m : M conn A) : M peer A := zoom p_conn (λ c p, mkPeer c (p_d p)) m.

Definition session_of (p : peer) : rworld :=
  mkWorld (p_conn p) (mkSlots (d_fs (p_d p)) (d_slots (p_d p))) [] (d_notes (p_d p))
    (d_clipboard (p_d p)).
Definition after_session (w : rworld) (p : peer) : peer :=
  let d := p_d p in
  let cs := mkCstate (cs_store (d_cs d)) (ss_fs (w_disk w)) (cs_now (d_cs d)) in
  mkPeer (w_conn w)
    (mkDaemon (d_set d) (d_tcpAddr d) (d_net d) cs (ss_slots (w_disk w)) (d_pair d) (d_nearby d)
       (foldl (λ subs e, push_event e <$> subs) (d_subs d) (w_events w)) (d_next d) (d_rns d)
       (w_notes w) (w_clips w) (d_shown d)).
Definition in_session {A} (m : M rworld A) : M peer A := zoom session_of after_session m.

(** ** Subscribers see events in order *)

Inductive sub_step := SubBroadcast (e : Event) | SubTake.
Fixpoint run_sub (ch : nat) (steps : list sub_step) : M Daemon (list Event) :=
  match steps with
  | [] => ret []
  | SubBroadcast e :: l => daemon_broadcast e ;;; run_sub ch l
  | SubTake :: l =>
      r <- next_event ch ;;
      rest <- run_sub ch l ;;
      ret (match r with Some e => e :: rest | None => rest end)
  end.
Definition broadcasts (steps : list sub_step) : list Event :=
  omap (λ s, match s with SubBroadcast e => Some e | SubTake => None end) steps.

(** A subscriber that takes events now and then gets them in the order
    they were broadcast, each at most once; broadcasting never waits for it,
    and it misses events only when 32 are already waiting. *)
Theorem events_in_order ch steps d buf :
  d_subs d !! ch = Some buf → (length buf ≤ subBuffer)%nat →
  ∃ got d' buf', run_sub ch steps d = (Ok got, d') ∧ d_subs d' !! ch = Some buf' ∧
    (length buf' ≤ subBuffer)%nat ∧ got ++ buf' `sublist_of` buf ++ broadcasts steps ∧
    ((length buf + length (broadcasts steps) ≤ subBuffer)%nat →
     got ++ buf' = buf ++ broadcasts steps).
Proof.
  revert d buf. induction steps as [|[e|] steps IH]; intros d buf Hch Hb.
  - exists [], d, buf. cbn. rewrite app_nil_r. split_and!; done.
  - set (d1 := with_subs (push_event e <$> d_subs d) d).
    destruct (IH d1 (push_event e buf)) as (got & d' & buf' & E & H1 & H2 & H3 & H4).
    { cbn. by rewrite lookup_fmap, Hch. }
    { unfold push_event. case_match eqn:Hl; [|done]. apply Nat.ltb_lt in Hl.
      rewrite length_app. cbn. unfold subBuffer in *. lia. }
    exists got, d', buf'. cbn [run_sub]. rewrite bind_Ok with (a := ()) (s' := d1) by done.
    change (broadcasts (SubBroadcast e :: steps)) with (e :: broadcasts steps).
    split_and!; [done..| |].
    + etransitivity; [exact H3|]. unfold push_event. case_match.
      * by rewrite <-app_assoc.
      * apply sublist_app; [done|]. by apply sublist_cons.
    + cbn [length]. intros Hl. rewrite H4.
      * unfold push_event. rewrite (proj2 (Nat.ltb_lt _ _)) by lia. by rewrite <-app_assoc.
      * unfold push_event. rewrite (proj2 (Nat.ltb_lt _ _)) by lia. rewrite length_app. cbn [length]. lia.
  - change (broadcasts (SubTake :: steps)) with (broadcasts steps). cbn [run_sub].
    unfold next_event. destruct buf as [|e buf].
    + destruct (IH d [] Hch Hb) as (got & d' & buf' & E & H1 & H2 & H3 & H4).
      exists got, d', buf'. rewrite bind_assoc, bind_Ok with (a := d) (s' := d) by done.
      rewrite Hch. rewrite bind_ret_l. rewrite (bind_Ok _ _ _ _ _ E). split_and!; done.
    + cbn [length] in Hb. set (d1 := with_subs (<[ch := buf]> (d_subs d)) d).
      destruct (IH d1 buf) as (got & d' & buf' & E & H1 & H2 & H3 & H4).
      { cbn. by rewrite lookup_insert_eq. }
      { lia. }
      exists (e :: got), d', buf'. rewrite bind_assoc, bind_Ok with (a := d) (s' := d) by done.
      rewrite Hch. rewrite bind_assoc, bind_Ok with (a := ()) (s' := d1) by done.
      rewrite bind_ret_l, (bind_Ok _ _ _ _ _ E). split_and!; [done..| |].
      * cbn [app]. by apply sublist_skip.
      * cbn [length app]. intros Hl. f_equal. apply H4. lia.
Qed.

(** *** A daemon to evaluate on *)
Definition demo_fs : fs := mkFs (<["/cfg" := NDir]> ∅) [].
Definition demo_own : bytes := bs "own certificate".
Definition demo_phone : Device :=
  mkDevice "phone" (Fingerprint (bs "phone certificate")) "192.168.1.7:53127" 0 "" "".
Definition demo_options (devices : list Device) : Options :=
  mkOptions (Some (mkCstate (mkStore "/cfg" demo_own devices "") demo_fs 0))
    "pc" 0 "192.168.1.5" "" "/dl" "" true false [] false.
Definition demo_env : host_env := mkHostEnv "host" "/home/u" "" (mkNetview None []).
Definition demo_daemon (devices : list Device) : Daemon :=
  match New demo_env (demo_options devices) with
  | inl d => d
  | inr _ => mkDaemon (mkSettings "" "" 0 false "" "" false false [] false) "" (mkNetview None [])
               (mkCstate (mkStore "" [] [] "") demo_fs 0) ∅ (mkPairing ∅ None ∅ ∅) ∅ ∅ O
               (mkRnsFields None ∅ ∅ ∅ false ∅) [] [] []
  end.

Lemma events_in_order_witness :
  let d := (subscribe (demo_daemon [])).2 in
  let steps := [SubBroadcast (event "recv-start" "phone"); SubTake; SubBroadcast (event "recv-done" "phone")] in
  d_subs d !! O = Some [] ∧
  ∃ got d' buf', run_sub 0 steps d = (Ok got, d') ∧ d_subs d' !! O = Some buf' ∧
    (length buf' ≤ subBuffer)%nat ∧ got ++ buf' `sublist_of` [] ++ broadcasts steps ∧
    ((length (@nil Event) + length (broadcasts steps) ≤ subBuffer)%nat →
     got ++ buf' = [] ++ broadcasts steps).
Proof.
  cbv zeta. split; [done|]. apply (events_in_order 0 _ (subscribe (demo_daemon [])).2 []); [done|].
  apply Nat.le_0_l.
Defined.
