(* ===== verification/Peer.v ===== *)
(** * internal/daemon: inbound connections and QR pairing

    handlePeer and servePeer of receive.go, the pairing window and the
    pairing operations of pairing.go. A handler runs on its connection and the
    shared daemon ([peer]). *)

From S2P Require Import Prelude GoStrings Go GoNet Fs Proto Ipc Paths Receive Config Pairing.
From S2P Require Import Transport Rns World.
From Stdlib Require Import ZArith Lia String Ascii List Bool.
From stdpp Require Import base list strings gmap option numbers.

#[local] Open Scope string_scope.
#[local] Open Scope list_scope.
#[local] Open Scope Z_scope.

(** ** The pairing window *)

Definition set_window (w : option nat) (s : gmap nat pairSession) (p : pairing_state) : pairing_state :=
  mkPairing s w (pg_pending p) (pg_tapPairs p).

Definition OpenPairWindow (fingerprint name : string) : M Daemon nat :=
  d <- get_state ;;
  let i := d_next d in
  let ps := mkPairSession fingerprint name false "" in
  modify (λ d, with_next (S i)
    (with_pair (set_window (Some i) (<[i := ps]> (pg_sessions (d_pair d))) (d_pair d)) d)) ;;;
  ret i.

(** The timer, the cancel function and a completed pairing all end here. *)
Definition closePairWindow (i : nat) : M Daemon unit :=
  modify (λ d,
    let p := d_pair d in
    with_pair (set_window (if bool_decide (pg_window p = Some i) then None else pg_window p)
      (alter (λ ps, mkPairSession (ps_expectFingerprint ps) (ps_expectName ps) true (ps_paired ps)) i
         (pg_sessions p)) p) d).

Definition pairWindowDone (d : Daemon) : option (nat * pairSession) :=
  i ← pg_window (d_pair d); ps ← pg_sessions (d_pair d) !! i; Some (i, ps).

(** ** Which address to remember *)

Definition resolvePeerAddr (port : Z) (advertised remote : string) : string :=
  let remoteHost := match SplitHostPort remote with inl (h, _) => h | inr _ => "" end in
  match SplitHostPort advertised with
  | inl (host, p) =>
      if (p =?s "") || (p =?s "0") then JoinHostPort remoteHost (itoa port)
      else
        let src := ParseIP remoteHost in
        let ip := ParseIP host in
        let from_source :=
          match src with Some a => negb (IsLoopback a) | None => false end ||
          match ip with Some a => IsUnspecified a | None => true end in
        JoinHostPort (if from_source then remoteHost else host) p
  | inr _ => JoinHostPort remoteHost (itoa port)
  end.

(** ** Completing a pairing *)

Definition set_paired (i : nat) (name : string) : M Daemon unit :=
  modify (λ d,
    let p := d_pair d in
    with_pair (set_window (pg_window p)
      (alter (λ ps, mkPairSession (ps_expectFingerprint ps) (ps_expectName ps) (ps_done ps) name) i
         (pg_sessions p)) p) d).

(** The window as it is read under pairMu, and the rest of the function: two
    steps, between which other connections run. *)
Definition read_window (fp : string) : M Daemon (option nat) :=
  d <- get_state ;;
  ret (match pg_window (d_pair d), window_admits d fp with
       | Some i, Some _ => Some i
       | _, _ => None
       end).
Definition complete_window (i : nat) (fp name advertisedAddr remote : string) : M Daemon bool :=
  d <- get_state ;;
  if bool_decide (Config.IsTrusted (d_store d) fp ≠ None) then ret false
  else
    let addr := resolvePeerAddr (o_port (d_set d)) advertisedAddr remote in
    r <- try (on_store (AddDevice (mkDevice name fp addr (d_now d) "" ""))) ;;
    match r with
    | inr _ => ret false
    | inl _ => set_paired i name ;;; closePairWindow i ;;; ret true
    end.
Definition tryCompletePairing (fp name advertisedAddr remote : string) : M Daemon bool :=
  w <- read_window fp ;;
  match w with
  | Some i => complete_window i fp name advertisedAddr remote
  | None => ret false
  end.

(** ** Hello *)
Section peer.
Context `{Reticulum}.
(** clipboardSet of the daemon's options. *)
Context (clipboard_set : bytes → string → option error).

Definition rnsKey (d : Daemon) : string :=
  match r_node (d_rns d) with Some n => hex_encode (PublicKey n) | None => "" end.

Definition hello_header (d : Daemon) (addr : string) (folders : bool) : Header :=
  set_hdr_Folders folders (set_hdr_Version ProtocolVersion (set_hdr_RNS (rnsKey d)
    (set_hdr_Fingerprint (store_Fingerprint (d_store d)) (set_hdr_Name (o_name (d_set d))
      (set_hdr_Addr addr (set_hdr_Type TypeHello zero_Header)))))).

Definition send_hello (folders : bool) : M peer unit :=
  addr <- on_d advertiseAddr ;;
  d <- gets p_d ;;
  on_c (WriteControl (hello_header d addr folders)).

(** [servePeer] on a connection whose peer has proven [fp]; [remote] is where
    it comes from, [lan] whether that is an address on the LAN. *)
Definition servePeer (fp remote : string) (lan : bool) : M peer unit :=
  r <- try (on_c ReadHeader) ;;
  match r with
  | inr _ => ret ()
  | inl hello =>
      if negb (hdr_Type hello =?s TypeHello) then ret ()
      else
        sent <- try (send_hello true) ;;
        match sent with
        | inr _ => ret ()
        | inl _ =>
            paired <- (if lan then on_d (tryCompletePairing fp (hdr_Name hello) (hdr_Addr hello) remote)
                       else ret false) ;;
            if paired then
              on_d (on_store (UpdateRNS fp (hdr_RNS hello))) ;;;
              on_d (daemon_broadcast (event "paired" (hdr_Name hello)))
            else
              d <- gets p_d ;;
              match Config.IsTrusted (d_store d) fp with
              | None => ret ()
              | Some peerName =>
                  (if lan then
                     ignore (on_d (on_store (UpdateAddr fp
                       (resolvePeerAddr (o_port (d_set d)) (hdr_Addr hello) remote))))
                   else ret ()) ;;;
                  on_d (on_store (UpdateFcmToken fp (hdr_FcmToken hello))) ;;;
                  on_d (on_store (UpdateRNS fp (hdr_RNS hello))) ;;;
                  ignore (in_session (receiveSession (o_downloadDir (d_set d)) clipboard_set peerName))
              end
        end
  end.

(** What an accepted connection becomes: handlePeer's dispatch. The TLS state
    is [st] once the handshake succeeded; [handleTapPair] is in TapPair. *)
Definition handlePeer (handleTapPair : string → M peer unit) (st : tls_state + error)
    (remote : string) : M peer unit :=
  match st with
  | inr _ => ret ()
  | inl st =>
      match PeerFingerprint st with
      | inr _ => ret ()
      | inl fp => if ts_proto st =?s PairALPN then handleTapPair fp else servePeer fp remote true
      end
  end.

(** ** The network a daemon dials into

    What answers at an address at a given time, with or without the socket
    bound to the LAN interface. *)
Record remote_peer := mkRemote { rm_tls : tls_peer; rm_conn : conn; rm_addr : string }.
Context (connect : Z → bool → string → remote_peer + error) (lanControl : bool).

Definition dial (addr : string) : M Daemon (remote_peer * string) :=
  d <- get_state ;;
  of_res (DialTimeout (daemon_IsTrusted d) rm_tls (connect (d_now d)) lanControl
            (s_certDER (d_store d)) addr).

(** Run a handler on a connection that was dialled. *)
Definition on_dialled {A} (c : conn) (m : M peer A) : M Daemon (A * conn) := λ d,
  match m (mkPeer c d) with
  | (Ok a, p) => (Ok (a, p_conn p), p_d p)
  | (r, p) => (recast r, p_d p)
  end.

(** ** QR pairing *)

Definition PairingURI : M Daemon string :=
  refreshAdvertiseAddr ;;;
  addr <- advertiseAddr ;;
  d <- get_state ;;
  of_res (Encode (mkPayload 2 (o_name (d_set d)) (store_Fingerprint (d_store d))
                    (str (CertPEM (d_store d))) addr (rnsKey d))).

(** The exchange of helloPeer on the connection. *)
Definition hello_back (fp : string) : M peer unit :=
  send_hello false ;;;
  theirs <- on_c ReadHeader ;;
  on_d (on_store (UpdateRNS fp (hdr_RNS theirs))).
Definition helloPeer (dev : Device) : M Daemon unit :=
  c <- dial (dev_Addr dev) ;;
  let '(rm, fp) := c in
  if negb (fp =?s dev_Fingerprint dev) then
    throw (Errorf ("peer fingerprint changed: " +:+ str (take 16 (bs fp))))
  else
    on_dialled (rm_conn rm) (hello_back fp) ;;; ret ().

Definition AddPeer (uri : string) : M Daemon Device :=
  refreshAdvertiseAddr ;;;
  p <- of_res (Decode uri) ;;
  now <- asks d_now ;;
  let dev := mkDevice (p_Name p) (p_Fingerprint p) (p_Addr p) now "" (p_RNS p) in
  r <- try (on_store (AddDevice dev)) ;;
  match r with
  | inr e => throw (Wrapf "save device" e)
  | inl _ => ignore (helloPeer dev) ;;; ret dev
  end.
End peer.

(** ** What a stranger can change *)

(** At most the address the daemon advertises, which it detects itself. *)
Definition only_addr (d d' : Daemon) : Prop := ∃ x, d' = with_tcpAddr x d.
#[export] Instance only_addr_preorder : PreOrder only_addr.
Proof.
  split; [intros d; exists (d_tcpAddr d); by destruct d|].
  intros d1 d2 d3 [x ->] [y ->]. by exists y.
Qed.
Definition p_only_addr (p p' : peer) : Prop := only_addr (p_d p) (p_d p').
#[export] Instance p_only_addr_preorder : PreOrder p_only_addr.
Proof. split; [intros p; unfold p_only_addr; reflexivity|].
  intros p1 p2 p3. unfold p_only_addr. apply transitivity. Qed.

#[export] Hint Extern 1 (PreOrder _) => apply _ : keeps.

Lemma refreshAdvertiseAddr_keeps : keeps only_addr refreshAdvertiseAddr.
Proof.
  unfold refreshAdvertiseAddr. apply keeps_bind; [apply _|auto with keeps|]. intros d. cbv zeta.
  repeat case_match; [auto with keeps..|]. apply keeps_modify. intros d'. by eexists.
Qed.
Lemma advertiseAddr_keeps : keeps only_addr advertiseAddr.
Proof.
  unfold advertiseAddr. apply keeps_bind; [apply _|auto with keeps|]. intros d.
  apply keeps_bind; [apply _| |intros _; unfold asks; auto with keeps].
  repeat case_match; auto using refreshAdvertiseAddr_keeps with keeps.
Qed.

Lemma on_d_keeps {A} (m : M Daemon A) : keeps only_addr m → keeps p_only_addr (on_d m).
Proof. intros Hm. apply (keeps_zoom p_only_addr only_addr); [done|]. by intros p d. Qed.
Lemma on_c_keeps {A} (m : M conn A) : keeps p_only_addr (on_c m).
Proof. intros p r p' (c & _ & ->)%zoom_inv. by exists (d_tcpAddr (p_d p)); destruct (p_d p). Qed.
#[export] Hint Resolve on_d_keeps on_c_keeps advertiseAddr_keeps refreshAdvertiseAddr_keeps : keeps.

Lemma send_hello_keeps `{Reticulum} folders : keeps p_only_addr (send_hello folders).
Proof. unfold send_hello. auto 10 with keeps. Qed.
#[export] Hint Resolve send_hello_keeps : keeps.

Lemma only_addr_same d d' fp :
  only_addr d d' →
  d_cs d' = d_cs d ∧ d_set d' = d_set d ∧ d_pair d' = d_pair d ∧
  window_admits d' fp = window_admits d fp.
Proof. by intros [x ->]. Qed.

Lemma read_window_none fp d : window_admits d fp = None → read_window fp d = (Ok None, d).
Proof.
  intros H. unfold read_window. rewrite bind_Ok with (a := d) (s' := d) by done. rewrite H.
  by destruct (pg_window _).
Qed.

Lemma tryCompletePairing_closed fp name addr remote d :
  window_admits d fp = None → tryCompletePairing fp name addr remote d = (Ok false, d).
Proof. intros H. unfold tryCompletePairing. by rewrite (bind_Ok _ _ _ _ _ (read_window_none _ _ H)). Qed.

(** C20: a peer that is not trusted and finds no pairing window open for it
    gets a hello back and nothing else: no session is received, and the
    trusted devices, the disk, the clipboard, the notifications and the
    subscribers stay as they are, whatever the peer sends. *)
Theorem servePeer_untrusted `{Reticulum} clipboard_set fp remote lan p r p' :
  Config.IsTrusted (d_store (p_d p)) fp = None →
  lan = false ∨ window_admits (p_d p) fp = None →
  servePeer clipboard_set fp remote lan p = (r, p') →
  only_addr (p_d p) (p_d p').
Proof.
  intros Ht Hw E. pose (P := λ q, p_only_addr p q).
  assert (triple P (servePeer clipboard_set fp remote lan) (λ _, P) P) as Htr.
  2: { specialize (Htr p r p' ltac:(unfold P, p_only_addr; reflexivity) E). by destruct r. }
  assert (∀ {A} (m : M peer A), keeps p_only_addr m → triple P m (λ _, P) P) as Hk.
  { intros A m Hm. apply (triple_keeps p_only_addr); [done|]. intros q q' Hq Hq'. unfold P. by transitivity q. }
  assert (keeps p_only_addr (ret (S:=peer) ())) as Hret by auto with keeps.
  unfold servePeer. eapply triple_bind; [apply Hk; auto with keeps|]. intros [hello|]; [|by apply Hk].
  case_match; [by apply Hk|]. eapply triple_bind; [apply Hk; auto with keeps|].
  intros [[]|]; [|by apply Hk].
  apply triple_bind with (Q := λ b q, b = false ∧ P q).
  { intros q r0 q' Hq E0. destruct lan; [|by injection E0 as <- <-].
    destruct Hw as [|Hw]; [done|]. destruct (only_addr_same _ _ fp Hq) as (_ & _ & _ & Hw').
    rewrite Hw in Hw'. apply zoom_inv in E0 as (d & E0 & ->).
    rewrite tryCompletePairing_closed in E0 by done. injection E0 as <- <-. split; [done|].
    by destruct q. }
  intros b q r0 q' [-> Hq] E0. rewrite bind_Ok with (a := p_d q) (s' := q) in E0 by done.
  destruct (only_addr_same _ _ fp Hq) as (Hcs & _). unfold d_store in E0. rewrite Hcs in E0.
  unfold d_store in Ht. rewrite Ht in E0. by injection E0 as <- <-.
Qed.

(** A stranger that sends a whole files session. *)
Definition demo_stranger : string := Fingerprint (bs "stranger").
Definition demo_hello : bytes :=
  frame (set_hdr_Addr "192.168.1.9:53127" (set_hdr_Name "x" (set_hdr_Type TypeHello zero_Header))).
Definition demo_visit (d : Daemon) (session : bytes) : peer :=
  mkPeer (conn_closed (demo_hello ++ session)) d.

Lemma servePeer_untrusted_witness :
  let p := demo_visit (demo_daemon [demo_phone]) demo_input in
  Config.IsTrusted (d_store (p_d p)) demo_stranger = None ∧
  only_addr (p_d p)
    (p_d (@servePeer toy_reticulum (λ _ _, None) demo_stranger "192.168.1.9:4000" true p).2).
Proof.
  cbv zeta. split; [by vm_compute|].
  eapply (@servePeer_untrusted toy_reticulum (λ _ _, None) demo_stranger "192.168.1.9:4000" true).
  - by vm_compute.
  - by right.
  - apply surjective_pairing.
Defined.

(** ** What a pairing window lets in *)

(** Completing a pairing through an open window trusts exactly the peer
    that connected, saves it, and closes the window: every later connection
    finds none, and no other device gained or lost trust. *)
Theorem pairing_trusts_one fp name addr remote d d' :
  tryCompletePairing fp name addr remote d = (Ok true, d') →
  window_admits d fp ≠ None ∧ Config.IsTrusted (d_store d) fp = None ∧
  (∀ fp', Config.IsTrusted (d_store d') fp' =
     if fp =?s fp' then Some name else Config.IsTrusted (d_store d) fp') ∧
  file_at (d_fs d') (devicesPath (d_store d')) = Some (marshal_devices (d_store d')) ∧
  ∀ fp' name' addr' remote', tryCompletePairing fp' name' addr' remote' d' = (Ok false, d').
Proof.
  unfold tryCompletePairing at 1, read_window. rewrite bind_assoc, bind_Ok with (a := d) (s' := d) by done.
  rewrite bind_ret_l. destruct (pg_window (d_pair d)) as [i|] eqn:Ei; [|done].
  destruct (window_admits d fp) as [ps|]; [|done]. unfold complete_window.
  rewrite bind_Ok with (a := d) (s' := d) by done. case_bool_decide as Ht; [done|].
  assert (Config.IsTrusted (d_store d) fp = None) as Ht' by (destruct (Config.IsTrusted _ _); [by destruct Ht|done]).
  cbv zeta. set (dev := mkDevice _ _ _ _ _ _). intros E.
  apply bind_Ok_inv in E as (r & d1 & E1 & E2). apply try_inv in E1 as (r0 & E1 & Hr).
  apply zoom_inv in E1 as (cs & E1 & ->). destruct r as [[]|]; [|done].
  destruct r0 as [[]| | | |]; try done. apply AddDevice_saved in E1 as Hs. destruct Hs as [Hs _].
  apply AddDevice_store in E1. change (cs_store (d_cs d)) with (d_store d) in E1.
  assert (find_fp (dev_Fingerprint dev) (s_devices (d_store d)) = None) as Hn.
  { unfold Config.IsTrusted in Ht'. by apply fmap_None in Ht'. }
  rewrite bind_Ok with (a := ()) (s' := (set_paired i name (with_cs cs d)).2) in E2 by done.
  rewrite bind_Ok with (a := ()) (s' := (closePairWindow i (set_paired i name (with_cs cs d)).2).2) in E2 by done.
  injection E2 as <-. split_and!; [done|done| | |].
  - intros fp'. transitivity (Config.IsTrusted (cs_store cs) fp'); [done|].
    rewrite E1. by rewrite add_store_trust.
  - exact Hs.
  - intros fp' name' addr' remote'. apply tryCompletePairing_closed. unfold window_admits. cbn.
    rewrite Ei. by rewrite bool_decide_eq_true_2.
Qed.

Definition demo_window (devices : list Device) : Daemon := (OpenPairWindow "" "" (demo_daemon devices)).2.

Lemma pairing_trusts_one_witness :
  let d := demo_window [] in
  let d' := (tryCompletePairing demo_stranger "x" "192.168.1.9:53127" "192.168.1.9:4000" d).2 in
  window_admits d demo_stranger ≠ None ∧ Config.IsTrusted (d_store d) demo_stranger = None ∧
  (∀ fp', Config.IsTrusted (d_store d') fp' =
     if demo_stranger =?s fp' then Some "x" else Config.IsTrusted (d_store d) fp') ∧
  file_at (d_fs d') (devicesPath (d_store d')) = Some (marshal_devices (d_store d')) ∧
  ∀ fp' name' addr' remote', tryCompletePairing fp' name' addr' remote' d' = (Ok false, d').
Proof.
  cbv zeta. apply (pairing_trusts_one demo_stranger "x" "192.168.1.9:53127" "192.168.1.9:4000").
  by vm_compute.
Defined.

(** Between reading the window and closing it another connection reads it too:
    two strangers pair through one window. *)
Example pair_window_race :
  let d := demo_window [] in
  let other := Fingerprint (bs "other") in
  let '(w1, d1) := read_window demo_stranger d in
  let '(w2, d2) := read_window other d1 in
  let '(r1, d3) := complete_window 0 demo_stranger "x" "" "192.168.1.9:4000" d2 in
  let '(r2, d4) := complete_window 0 other "y" "" "192.168.1.8:4000" d3 in
  w1 = Ok (Some 0%nat) ∧ w2 = Ok (Some 0%nat) ∧ r1 = Ok true ∧ r2 = Ok true ∧
  map dev_Name (s_devices (d_store d4)) = ["x"; "y"].
Proof. vm_compute. auto 10. Qed.

(** When saving the new device fails, the pairing is reported as not
    completed, but the device stays in memory: the same connection goes on as
    a trusted one and its session is received. *)
Definition demo_clip_session : bytes :=
  frame (set_hdr_Kind KindClipboard (set_hdr_Type TypeSessionStart zero_Header)) ++
  frame (set_hdr_Length 2 (set_hdr_MIME "text/plain" (set_hdr_Type TypeClipboardData zero_Header))) ++
  bs "hi" ++ frame (set_hdr_Type TypeSessionEnd zero_Header).
Definition with_faults (l : list fault) (d : Daemon) : Daemon :=
  with_cs (mkCstate (d_store d) (mkFs (fs_nodes (d_fs d)) l) (d_now d)) d.
Example failed_save_trusts :
  let d := with_faults [FailWith EIO] (demo_window []) in
  let p := demo_visit d demo_clip_session in
  (tryCompletePairing demo_stranger "x" "" "192.168.1.9:4000" d).1 = Ok false ∧
  let p' := (@servePeer toy_reticulum (λ _ _, None) demo_stranger "192.168.1.9:4000" true p).2 in
  Config.IsTrusted (d_store (p_d p')) demo_stranger = Some "x" ∧
  d_clipboard (p_d p') = [(bs "hi", "text/plain")] ∧ d_subs (p_d p') = ∅.
Proof. vm_compute. auto. Qed.

(** The address remembered for a peer has the port it listens on and the
    host it was seen at; only a connection over loopback says nothing about
    the host, and then a concrete advertised address is kept. Without a usable
    port our own default port is tried at the source. *)
Theorem resolvePeerAddr_spec own src rport host port a :
  host_text src → port_text rport → host_text host → port_text port →
  ParseIP src = Some a →
  (port ≠ "" → port ≠ "0" → IsLoopback a = false →
   resolvePeerAddr own (JoinHostPort host port) (JoinHostPort src rport) = JoinHostPort src port) ∧
  (∀ b, port ≠ "" → port ≠ "0" → IsLoopback a = true → ParseIP host = Some b → IsUnspecified b = false →
   resolvePeerAddr own (JoinHostPort host port) (JoinHostPort src rport) = JoinHostPort host port) ∧
  (port = "" ∨ port = "0" →
   resolvePeerAddr own (JoinHostPort host port) (JoinHostPort src rport) = JoinHostPort src (itoa own)).
Proof.
  intros Hs Hr Hh Hp Ha. unfold resolvePeerAddr. rewrite !Split_Join by done.
  split_and!.
  - intros H1 H2 Hl. rewrite (proj2 (String.eqb_neq _ _) H1), (proj2 (String.eqb_neq _ _) H2).
    cbn [orb]. by rewrite Ha, Hl.
  - intros b H1 H2 Hl Hb Hu. rewrite (proj2 (String.eqb_neq _ _) H1), (proj2 (String.eqb_neq _ _) H2).
    cbn [orb]. by rewrite Ha, Hl, Hb, Hu.
  - by intros [-> | ->].
Qed.

Lemma resolvePeerAddr_spec_witness :
  (("53127" ≠ "" → "53127" ≠ "0" → IsLoopback (v4_mapped [192; 168; 1; 9]) = false →
    resolvePeerAddr 1 (JoinHostPort "10.8.0.2" "53127") (JoinHostPort "192.168.1.9" "4000") =
      JoinHostPort "192.168.1.9" "53127") ∧
   (∀ b, "53127" ≠ "" → "53127" ≠ "0" → IsLoopback (v4_mapped [192; 168; 1; 9]) = true →
      ParseIP "10.8.0.2" = Some b → IsUnspecified b = false →
      resolvePeerAddr 1 (JoinHostPort "10.8.0.2" "53127") (JoinHostPort "192.168.1.9" "4000") =
        JoinHostPort "10.8.0.2" "53127") ∧
   ("53127" = "" ∨ "53127" = "0" →
      resolvePeerAddr 1 (JoinHostPort "10.8.0.2" "53127") (JoinHostPort "192.168.1.9" "4000") =
        JoinHostPort "192.168.1.9" (itoa 1))) ∧
  resolvePeerAddr 1 "10.8.0.2:53127" "192.168.1.9:4000" = "192.168.1.9:53127".
Proof.
  split; [|by vm_compute].
  apply resolvePeerAddr_spec; [split; by apply no_byte_test|split_and!; by apply no_byte_test|
    split; by apply no_byte_test|split_and!; by apply no_byte_test|by vm_compute].
Defined.
