(* ===== verification/QrPair.v ===== *)
(** * QR pairing, both devices together

    One device shows its code and waits with an open window; the other scans
    it. AddPeer of daemon/pairing.go on the second against handlePeer of
    daemon/receive.go on the first: afterwards each trusts the other. *)

From S2P Require Import Prelude GoStrings GoPath Go GoNet GoFmt GoTime Sha256 Json JsonRec JsonSize Base64 Fs Proto Ipc Paths Receive Config Pairing Transport Rns World Peer Transfer Exchange Completion.
From Stdlib Require Import ZArith Lia String Ascii List Bool.
From stdpp Require Import base list strings gmap option numbers.

#[local] Open Scope string_scope.
#[local] Open Scope list_scope.
#[local] Open Scope Z_scope.

(** ** A disk that takes the store *)

(** [p] is a file or could be one. *)
Definition takes_file (f : fs) (p : string) : Prop :=
  match fs_nodes f !! p with
  | Some (NFile _) => True
  | Some _ => False
  | None => is_dir f (path_dir p) = true
  end.
Definition devices_tmp (st : Store) : string := devicesPath st +:+ ".tmp".
Record can_save (st : Store) (f : fs) : Prop := {
  cs_faultless : fs_faults f = [];
  cs_tmp : takes_file f (devices_tmp st);
  cs_file : takes_file f (devicesPath st);
  cs_years : forallb (λ d, year_ok (dev_PairedAt d)) (s_devices st) = true;
}.

Lemma can_create_ok f p : takes_file f p → can_create p f = (Ok (), f).
Proof. unfold takes_file, can_create. destruct (fs_nodes f !! p) as [[]|]; try done. by intros ->. Qed.
Lemma write_file_ok f p b : fs_faults f = [] → takes_file f p → write_file p b f = (Ok (), fs_set p (NFile b) f).
Proof.
  intros Hf Hw. unfold write_file. rewrite (bind_Ok _ _ _ _ _ (can_create_ok _ _ Hw)).
  by apply faulty_write_none.
Qed.
(** Writing a file does not take the place of another. *)
Lemma writing_keeps_dirs f p b d : takes_file f p → is_dir f d = true → is_dir (fs_set p (NFile b) f) d = true.
Proof.
  unfold takes_file, is_dir, fs_set. cbn [fs_nodes]. destruct (d =?s "/"); [done|]. cbn [orb]. intros Hw Hd.
  destruct (decide (p = d)) as [->|Hne].
  - rewrite lookup_insert_eq. by destruct (fs_nodes f !! d) as [[]|].
  - by rewrite lookup_insert_ne.
Qed.
Lemma writable_set f p b q : p ≠ q → takes_file f p → takes_file f q → takes_file (fs_set p (NFile b) f) q.
Proof.
  intros Hne Hp Hq. unfold takes_file at 1. cbn [fs_set fs_nodes]. rewrite lookup_insert_ne by done.
  unfold takes_file in Hq. destruct (fs_nodes f !! q) as [[]|]; [done..|]. by apply writing_keeps_dirs.
Qed.
Lemma rename_ok f p q b :
  fs_faults f = [] → file_at f p = Some b → takes_file f q →
  ∃ f', rename p q f = (Ok (), f').
Proof.
  intros Hf Hp Hq. unfold rename. eexists.
  assert (read_file p f = (Ok b, f)) as E.
  { unfold read_file. unfold file_at in Hp. destruct (fs_nodes f !! p) as [[]|]; naive_solver. }
  rewrite (bind_Ok _ _ _ _ _ E), (bind_Ok _ _ _ _ _ (can_create_ok _ _ Hq)), faulty_none by done. reflexivity.
Qed.

Lemma saveDevicesLocked_ok s :
  can_save (cs_store s) (cs_fs s) → ∃ s', saveDevicesLocked s = (Ok (), s').
Proof.
  intros [Hf Ht Hp Hy]. unfold saveDevicesLocked. rewrite (bind_Ok _ _ s (cs_store s) s) by done. rewrite Hy. cbn [negb].
  cbv zeta. fold (devices_tmp (cs_store s)). set (tmp := devices_tmp (cs_store s)) in *. set (b := marshal_devices (cs_store s)).
  assert (tmp ≠ devicesPath (cs_store s)) as Hne by apply tmp_not_devices.
  unfold bind, on_store_fs, zoom. rewrite write_file_ok by done. cbn [cs_fs].
  destruct (rename_ok (fs_set tmp (NFile b) (cs_fs s)) tmp (devicesPath (cs_store s)) b) as [f' E];
    [done|unfold file_at; cbn; by rewrite lookup_insert_eq|by apply writable_set|].
  rewrite E. by eexists.
Qed.

(** The device as AddDevice stores it is saved. *)
Lemma AddDevice_ok d s :
  can_save (cs_store s) (cs_fs s) → year_ok (cs_now s) = true → dev_PairedAt d = cs_now s →
  ∃ s', AddDevice d s = (Ok (), s') ∧ cs_store s' = add_store (cs_now s) d (cs_store s).
Proof.
  intros Hc Hy Hd.
  assert (∃ s', AddDevice d s = (Ok (), s')) as [s' E]; [|exists s'; split; [done|by eapply AddDevice_store]].
  unfold AddDevice. rewrite (bind_Ok _ _ s (cs_now s) s) by done. cbv zeta.
  rewrite (bind_Ok _ _ s (cs_store s) s) by done.
  assert (year_ok (dev_PairedAt (if dev_PairedAt d =? zeroTime then set_dev_PairedAt (cs_now s) d else d)) = true) as Hy'.
  { case_match; cbn; [done|by rewrite Hd]. }
  set (d' := if _ =? _ then _ else _) in *. clearbody d'. destruct Hc as [Hf Ht Hp Hys].
  assert (∀ l, forallb (λ d, year_ok (dev_PairedAt d)) l = true →
    ∃ s', (set_store (with_devices l (cs_store s)) ;;; saveDevicesLocked) s = (Ok (), s')) as Hsave.
  { intros l Hl. apply saveDevicesLocked_ok. by split. }
  destruct (find_fp _ _); apply Hsave.
  - clear -Hys Hy'. induction (s_devices (cs_store s)) as [|e l IH]; [done|]. cbn [forallb update_first] in *.
    apply andb_true_iff in Hys as [H1 H2]. case_match; cbn [forallb]; [by rewrite Hy', H2|by rewrite H1, IH].
  - rewrite forallb_app, Hys. cbn [forallb]. by rewrite Hy'.
Qed.

(** ** Greetings *)
Section pairing.
Context `{Reticulum}.

(** advertiseAddr always returns; [greeted] is the daemon after it and
    [greeting] the hello that is sent. *)
Lemma refreshAdvertiseAddr_ok d : ∃ d', refreshAdvertiseAddr d = (Ok (), d') ∧ only_addr d d'.
Proof.
  assert (∃ d', refreshAdvertiseAddr d = (Ok (), d')) as [d' E].
  { unfold refreshAdvertiseAddr, bind, get_state, ret, modify. cbv zeta. repeat case_match; eauto. }
  exists d'. split; [done|]. by eapply refreshAdvertiseAddr_keeps.
Qed.
Lemma advertiseAddr_ok d : ∃ a d', advertiseAddr d = (Ok a, d') ∧ only_addr d d'.
Proof.
  assert (∃ a d', advertiseAddr d = (Ok a, d')) as (a & d' & E).
  { unfold advertiseAddr. rewrite (bind_Ok _ _ d d d) by done. destruct (refreshAdvertiseAddr_ok d) as (d1 & E & _).
    destruct (if o_autoIP (d_set d) then _ else _) as [[host p]|]; [destruct (host =?s "127.0.0.1")|];
      eexists _, _; (rewrite (bind_Ok _ _ _ _ _ E) || rewrite (bind_Ok _ _ d () d) by done); reflexivity. }
  exists a, d'. split; [done|]. by eapply advertiseAddr_keeps.
Qed.
Definition advertised (d : Daemon) : string := match (advertiseAddr d).1 with Ok a => a | _ => "" end.
Definition greeted (d : Daemon) : Daemon := (advertiseAddr d).2.
Definition greeting (d : Daemon) (folders : bool) : Header := hello_header (greeted d) (advertised d) folders.

Lemma advertiseAddr_eq d : advertiseAddr d = (Ok (advertised d), greeted d).
Proof. destruct (advertiseAddr_ok d) as (a & d' & E & _). unfold advertised, greeted. by rewrite E. Qed.
Lemma greeted_only d : only_addr d (greeted d).
Proof. destruct (advertiseAddr_ok d) as (a & d' & E & Ho). unfold greeted. by rewrite E. Qed.

(** Bounds under which a hello fits a frame. *)
Definition modest_as (name addr rns : string) : Prop :=
  Z.of_nat (String.length name) ≤ 65536 ∧ Z.of_nat (String.length addr) ≤ 1024 ∧
  Z.of_nat (String.length rns) ≤ 1024.
Definition modest (d : Daemon) : Prop := modest_as (o_name (d_set d)) (advertised d) (rnsKey d).

Lemma rnsKey_only d d' : only_addr d d' → rnsKey d' = rnsKey d.
Proof. by intros [x ->]. Qed.
Lemma greeting_ok d folders : Header_ok (greeting d folders).
Proof. unfold Header_ok. cbn. by split_and!. Qed.
(** A header that introduces a device. *)
Definition introduction (ty fp name addr rns : string) (folders : bool) : Header :=
  set_hdr_Folders folders (set_hdr_Version ProtocolVersion (set_hdr_RNS rns (set_hdr_Fingerprint fp
    (set_hdr_Name name (set_hdr_Addr addr (set_hdr_Type ty zero_Header)))))).
Lemma introduction_fits ty fp name addr rns folders :
  (members_size [("type", JStr ty)] ≤ 40)%nat → (String.length fp ≤ 64)%nat →
  Z.of_nat (String.length name) ≤ 65536 → Z.of_nat (String.length addr) ≤ 1024 →
  Z.of_nat (String.length rns) ≤ 1024 → fits (introduction ty fp name addr rns folders).
Proof.
  intros Ht Hf Hn Ha Hr. unfold fits, marshal_Header.
  replace (Header_json (introduction ty fp name addr rns folders)) with
    (JObj (opt_bool "folders" folders ++ [("type", JStr ty)] ++ opt_int "version" ProtocolVersion ++
           opt_str "fingerprint" fp ++ opt_str "name" name ++ opt_str "addr" addr ++ opt_str "rns" rns)).
  2: { unfold Header_json. cbn. by rewrite !app_nil_r. }
  match goal with |- context [JObj ?l] => pose proof (print_obj_size l) as Hp end.
  rewrite !members_size_app in Hp.
  pose proof (members_opt_str "fingerprint" fp) as H1. pose proof (json_quote_bound fp) as H2.
  pose proof (members_opt_str "name" name) as H3. pose proof (json_quote_bound name) as H4.
  pose proof (members_opt_str "addr" addr) as H5. pose proof (json_quote_bound addr) as H6.
  pose proof (members_opt_str "rns" rns) as H7. pose proof (json_quote_bound rns) as H8.
  assert (members_size (opt_bool "folders" folders) ≤ 40)%nat as H10 by (apply Nat.leb_le; destruct folders; by vm_compute).
  assert (members_size (opt_int "version" ProtocolVersion) ≤ 40)%nat as H12 by (apply Nat.leb_le; by vm_compute).
  change MaxHeaderSize with 1048576.
  change (length (json_quote "fingerprint")) with 13%nat in H1. change (length (json_quote "name")) with 6%nat in H3.
  change (length (json_quote "addr")) with 6%nat in H5. change (length (json_quote "rns")) with 5%nat in H7. lia.
Qed.
Lemma modest_greeted d : modest d → modest_as (o_name (d_set (greeted d))) (advertised d) (rnsKey (greeted d)).
Proof.
  intros Hm. pose proof (greeted_only d) as Ho. unfold modest_as. rewrite (rnsKey_only _ _ Ho). by destruct Ho as [x ->].
Qed.
Lemma greeting_fits d folders : modest d → fits (greeting d folders).
Proof.
  intros (Hn & Ha & Hr)%modest_greeted. apply introduction_fits; [apply Nat.leb_le; by vm_compute| |done..].
  unfold store_Fingerprint, Fingerprint. by rewrite hex_encode_length, sha256_length.
Qed.

(** ** Trust and the fields that move later *)

Lemma update_first_trust st fp f fp' :
  (∀ d, dev_Name (f d) = dev_Name d ∧ dev_Fingerprint (f d) = dev_Fingerprint d) →
  IsTrusted (with_devices (update_first fp f (s_devices st)) st) fp' = IsTrusted st fp'.
Proof.
  intros Hf. unfold IsTrusted. cbn [with_devices s_devices]. induction (s_devices st) as [|d l IH]; [done|].
  unfold find_fp in *. cbn [update_first]. destruct (dev_Fingerprint d =?s fp); cbn [find].
  - destruct (Hf d) as [H1 ->]. destruct (dev_Fingerprint d =?s fp'); [|done]. cbn. by rewrite H1.
  - destruct (dev_Fingerprint d =?s fp'); [done|]. exact IH.
Qed.
Lemma UpdateRNS_ok fp v s :
  ∃ s', UpdateRNS fp v s = (Ok (), s') ∧ ∀ fp', IsTrusted (cs_store s') fp' = IsTrusted (cs_store s) fp'.
Proof.
  assert (∃ s', UpdateRNS fp v s = (Ok (), s')) as [s' E].
  { unfold UpdateRNS, update_field. destruct (v =?s ""); [by eexists|]. rewrite (bind_Ok _ _ s (cs_store s) s) by done.
    destruct (find_fp _ _) as [d|]; [|by eexists]. destruct (dev_RNS d =?s v); [by eexists|]. unfold bind at 1, set_store.
    apply (ignore_returns any_cstate); [apply saveDevicesLocked_runs|done]. }
  exists s'. split; [done|]. intros fp'. unfold UpdateRNS in E. apply update_field_store in E; [|by intros []].
  rewrite E. destruct (v =?s ""); [done|]. by apply update_first_trust.
Qed.

(** An operation of the store, in the daemon. *)
Lemma on_store_Ok {A} (m : M cstate A) d a s' :
  m (d_cs d) = (Ok a, s') → on_store m d = (Ok a, with_cs s' d).
Proof. intros E. unfold on_store, zoom. by rewrite E. Qed.

(** ** The window *)

(** A device that connects through an open window becomes trusted under the
    name it gives, and the window is closed. *)
Lemma tryCompletePairing_ok d fp name addr remote ps :
  window_admits d fp = Some ps → IsTrusted (d_store d) fp = None →
  can_save (d_store d) (d_fs d) → year_ok (d_now d) = true →
  ∃ d', tryCompletePairing fp name addr remote d = (Ok true, d') ∧
    (∀ fp', IsTrusted (d_store d') fp' = if fp =?s fp' then Some name else IsTrusted (d_store d) fp') ∧
    pg_window (d_pair d') = None.
Proof.
  intros Hw Ht Hc Hy. unfold tryCompletePairing, read_window. rewrite (bind_Ok _ _ d _ d) by reflexivity.
  assert (∃ i, pg_window (d_pair d) = Some i) as [i Hi].
  { unfold window_admits in Hw. destruct (pg_window (d_pair d)) as [i|]; [by exists i|done]. }
  rewrite Hi, Hw. unfold complete_window. rewrite (bind_Ok _ _ d d d) by done.
  rewrite bool_decide_eq_false_2 by (rewrite Ht; by intros H1; apply H1). cbv zeta.
  set (dev := mkDevice name fp _ (d_now d) "" "").
  destruct (AddDevice_ok dev (d_cs d)) as (s' & E & Hs); [done|done|done|].
  rewrite (bind_Ok _ _ _ _ _ (try_Ok _ _ _ _ (on_store_Ok _ _ _ _ E))). eexists. split; [reflexivity|]. split.
  - intros fp'. change (IsTrusted (cs_store s') fp' = (if fp =?s fp' then Some name else IsTrusted (d_store d) fp')).
    rewrite Hs. apply add_store_trust.
  - cbn. rewrite Hi. by rewrite bool_decide_eq_true_2.
Qed.

(** ** Both ends of the hello *)

Lemma on_c_script {A} (m : M conn A) t (Q : A → conn → Prop) (F : peer → Prop) R :
  script on_wire any_conn m t Q → (∀ p a c, F p → Q a c → R a (mkPeer c (p_d p))) → script p_conn F (on_c m) t R.
Proof. intros Hm HR. by eapply (script_zoom p_conn on_wire). Qed.

(** The daemon of the peer, off the wire. *)
Definition at_daemon (d : Daemon) (p : peer) : Prop := p_d p = d.

Lemma on_d_script {A} (m : M Daemon A) d a d' :
  m d = (Ok a, d') → script p_conn (at_daemon d) (on_d m) [] (λ x p, x = a ∧ at_daemon d' p).
Proof.
  intros E. apply script_quiet. intros p Hp. exists a, (mkPeer (p_conn p) d'). unfold on_d, zoom.
  rewrite (Hp : p_d p = d), E. done.
Qed.
Lemma on_d_seq {B} (m : M Daemon unit) d d' (k : M peer B) t R :
  m d = (Ok (), d') → script p_conn (at_daemon d') k t R → script p_conn (at_daemon d) (on_d m ;;; k) t R.
Proof.
  intros E Hk. eapply (script_bind_eq _ _ _ [] () (at_daemon d')); [by apply on_d_script|exact Hk|done].
Qed.
Lemma read_hello_script d h :
  Header_ok h → fits h →
  script p_conn (at_daemon d) (on_c ReadHeader) [Rcv (frame h)] (λ x p, x = valid_Header h ∧ at_daemon d p).
Proof. intros Ho Hf. eapply on_c_script; [by apply ReadHeader_script|]. by intros p a c Hp ->. Qed.

Lemma send_hello_script d folders :
  modest d → script p_conn (at_daemon d) (send_hello folders) [Snd (frame (greeting d folders))] (λ x p, x = () ∧ at_daemon (greeted d) p).
Proof.
  intros Hm. unfold send_hello.
  eapply (script_bind_eq _ _ _ [] (advertised d) (at_daemon (greeted d))); [apply on_d_script, advertiseAddr_eq| |reflexivity].
  eapply (script_bind_eq _ _ _ [] (greeted d) (at_daemon (greeted d)));
    [eapply script_conseq; [apply script_gets|done|by intros a p [-> Hp]]| |reflexivity].
  eapply on_c_script; [apply WriteControl_script; [done|by apply greeting_fits]|]. by intros p [] c Hp _.
Qed.

(** The scanning device, once it has added the other. *)
Definition guest_after (d : Daemon) (fp : string) (h : Header) : Daemon :=
  (on_store (UpdateRNS fp (hdr_RNS (valid_Header h))) (greeted d)).2.
Lemma hello_back_script d fp h :
  modest d → Header_ok h → fits h →
  script p_conn (at_daemon d) (hello_back fp) [Snd (frame (greeting d false)); Rcv (frame h)]
    (λ x p, x = () ∧ at_daemon (guest_after d fp h) p).
Proof.
  intros Hm Ho Hf. unfold hello_back.
  eapply (script_bind_eq _ _ _ [Snd (frame (greeting d false))]); [by apply send_hello_script| |reflexivity].
  eapply (script_bind_eq _ _ _ [Rcv (frame h)]); [by apply read_hello_script| |reflexivity].
  apply on_d_script. unfold guest_after. destruct (UpdateRNS_ok fp (hdr_RNS (valid_Header h)) (d_cs (greeted d))) as (s' & E & _).
  by rewrite (on_store_Ok _ _ _ _ E).
Qed.

(** The showing device: it reads the hello, answers, and pairs. *)
Lemma servePeer_script clipboard_set d fp remote h ps :
  modest d → Header_ok h → fits h → hdr_Type h = TypeHello →
  window_admits d fp = Some ps → IsTrusted (d_store d) fp = None →
  can_save (d_store d) (d_fs d) → year_ok (d_now d) = true →
  ∃ d', script p_conn (at_daemon d) (servePeer clipboard_set fp remote true)
      [Rcv (frame h); Snd (frame (greeting d true))] (λ x p, x = () ∧ at_daemon d' p) ∧
    (∀ fp', IsTrusted (d_store d') fp' =
       if fp =?s fp' then Some (to_valid (hdr_Name h)) else IsTrusted (d_store d) fp') ∧
    pg_window (d_pair d') = None.
Proof.
  intros Hm Ho Hf Hty Hw Ht Hc Hy. destruct (greeted_only d) as [x Ex].
  destruct (tryCompletePairing_ok (greeted d) fp (hdr_Name (valid_Header h)) (hdr_Addr (valid_Header h)) remote ps)
    as (d1 & E1 & Htrust & Hwin); [by rewrite Ex..|].
  destruct (UpdateRNS_ok fp (hdr_RNS (valid_Header h)) (d_cs d1)) as (s2 & E2 & Hkeep).
  set (d2 := with_cs s2 d1). set (d3 := (daemon_broadcast (Ipc.event "paired" (hdr_Name (valid_Header h))) d2).2).
  exists d3. split; [|split].
  - unfold servePeer.
    eapply (script_bind_eq _ _ _ [Rcv (frame h)] (inl (valid_Header h)) (at_daemon d)); [apply script_try_eq, read_hello_script; done| |reflexivity].
    cbv beta iota. rewrite (valid_type h TypeHello Hty) by done. change (TypeHello =?s TypeHello) with true. cbn [negb].
    eapply (script_bind_eq _ _ _ [Snd (frame (greeting d true))] (inl ()) (at_daemon (greeted d)));
      [by apply script_try_eq, send_hello_script| |reflexivity].
    cbv beta iota.
    eapply (script_bind_eq _ _ _ [] true (at_daemon d1)); [by apply on_d_script| |reflexivity]. cbv iota.
    eapply on_d_seq; [by apply on_store_Ok|]. by apply on_d_script.
  - intros fp'. change (IsTrusted (cs_store s2) fp' = (if fp =?s fp' then Some (to_valid (hdr_Name h)) else IsTrusted (d_store d) fp')).
    rewrite Hkeep. change (cs_store (d_cs d1)) with (d_store d1). rewrite Htrust, Ex. done.
  - exact Hwin.
Qed.

(** A handshake with a pinned certificate succeeds on either side. *)
Lemma pinned_accepts (trusted : string → option string) cert server der :
  trusted (Fingerprint der) ≠ None →
  handshake (pinnedTLSConfig trusted cert server false) server (mkTlsPeer [der] []) = inl (mkTlsState [der] "").
Proof.
  intros Ht. unfold handshake, pinnedTLSConfig, verify_pinned. cbn [tc_verify tc_requireClientCert tc_NextProtos tp_certs tp_protos].
  rewrite bool_decide_eq_false_2, andb_false_r by done. destruct (trusted (Fingerprint der)); [|done]. by destruct server.
Qed.
(** What the listener makes of a device it lets in. *)
Lemma trusted_lets_in d der allowPair :
  daemon_IsTrusted d (Fingerprint der) ≠ None →
  Listen_accept (daemon_IsTrusted d) (s_certDER (d_store d)) allowPair (mkTlsPeer [der] []) = inl (mkTlsState [der] "").
Proof.
  intros Ht. unfold Listen_accept, listen_config. cbn [tp_protos existsb].
  destruct allowPair as [[]|]; by apply pinned_accepts.
Qed.
Lemma window_lets_in d der ps allowPair :
  window_admits d (Fingerprint der) = Some ps →
  Listen_accept (daemon_IsTrusted d) (s_certDER (d_store d)) allowPair (mkTlsPeer [der] []) = inl (mkTlsState [der] "").
Proof.
  intros Hw. apply trusted_lets_in. unfold daemon_IsTrusted. destruct (Config.IsTrusted _ _); [done|]. by rewrite Hw.
Qed.
(** What the guest makes of a server that shows the certificate it pinned. *)
Lemma dial_pinned d der connect lan addr c raddr :
  IsTrusted (d_store d) (Fingerprint der) ≠ None →
  (∀ control, connect (d_now d) control addr = inl (mkRemote (mkTlsPeer [der] []) c raddr)) →
  dial connect lan addr d = (Ok (mkRemote (mkTlsPeer [der] []) c raddr, Fingerprint der), d).
Proof.
  intros Ht Hc. unfold dial. rewrite (bind_Ok _ _ d d d) by done. unfold DialTimeout, dialTLS, dial_with.
  rewrite !Hc. cbn [rm_tls]. unfold PinnedConfig. rewrite pinned_accepts; [done|].
  unfold daemon_IsTrusted. by destruct (Config.IsTrusted (d_store d) (Fingerprint der)).
Qed.
(** ** The scan *)

(** AddPeer up to the point where it dials. *)
Definition scan (uri : string) : M Daemon Device :=
  refreshAdvertiseAddr ;;;
  p <- of_res (Decode uri) ;;
  now <- asks d_now ;;
  let dev := mkDevice (p_Name p) (p_Fingerprint p) (p_Addr p) now "" (p_RNS p) in
  r <- try (on_store (AddDevice dev)) ;;
  match r with
  | inr e => throw (Wrapf "save device" e)
  | inl _ => ret dev
  end.
Lemma AddPeer_scan connect lan uri d dev d1 :
  scan uri d = (Ok dev, d1) →
  AddPeer connect lan uri d = (ignore (helloPeer connect lan dev) ;;; ret dev) d1.
Proof.
  unfold scan, AddPeer, bind. destruct (refreshAdvertiseAddr d) as [[] d0]; try done.
  destruct (of_res (Decode uri) d0) as [[] d2]; try done. destruct (asks d_now d2) as [[] d3]; try done. cbv zeta.
  destruct (try (on_store (AddDevice _)) d3) as [r d4]; try done. destruct r as [[]| | | |]; try done. by intros [= <- <-].
Qed.

(** The code a device shows, scanned by another. *)
Lemma PairingURI_decodes d uri d' :
  PairingURI d = (Ok uri, d') → s_certDER (d_store d) ≠ [] →
  ∃ v addr rns, Decode uri = inl (payload_of v (o_name (d_set d)) addr (s_certDER (d_store d)) rns).
Proof.
  intros E Hd. unfold PairingURI in E. destruct (refreshAdvertiseAddr_ok d) as (d0 & E0 & [x Hx]).
  rewrite (bind_Ok _ _ _ _ _ E0) in E. destruct (advertiseAddr_ok d0) as (a & d1 & E1 & [y Hy]).
  rewrite (bind_Ok _ _ _ _ _ E1), (bind_Ok _ _ d1 d1 d1) in E by done. unfold of_res in E.
  destruct (Encode _) as [u|e] eqn:Ee; [|done]. injection E as <- _.
  eapply (Encode_decodes _ (s_certDER (d_store d))) in Ee as (v & rns & Ee); [|done|by rewrite Hy, Hx..|done].
  exists v, a, rns. rewrite Ee, Hy, Hx. done.
Qed.

(** What the scan leaves: the other device is trusted, and nothing else of
    what an introduction depends on has changed. *)
Lemma scan_ok uri v name addr der rns d :
  Decode uri = inl (payload_of v name addr der rns) →
  can_save (d_store d) (d_fs d) → year_ok (d_now d) = true →
  ∃ dev d1, scan uri d = (Ok dev, d1) ∧ dev_Fingerprint dev = Fingerprint der ∧ dev_Addr dev = addr ∧
    d_now d1 = d_now d ∧ (∃ s, d1 = with_cs s (refreshAdvertiseAddr d).2) ∧
    ∀ fp, IsTrusted (d_store d1) fp = if Fingerprint der =?s fp then Some name else IsTrusted (d_store d) fp.
Proof.
  intros Ed Hc Hy. destruct (refreshAdvertiseAddr_ok d) as (d0 & E0 & [x Hx]).
  set (dev := mkDevice name (Fingerprint der) addr (d_now d) "" rns).
  destruct (AddDevice_ok dev (d_cs d)) as (s' & E & Hs); [done..|].
  exists dev, (with_cs s' d0). split; [|split_and!; [done|done| |by exists s'; rewrite E0|]].
  - unfold scan. rewrite (bind_Ok _ _ _ _ _ E0). unfold of_res at 1. rewrite Ed.
    rewrite (bind_Ok _ _ d0 (payload_of v name addr der rns) d0) by done.
    rewrite (bind_Ok _ _ d0 (d_now d) d0) by (by rewrite Hx). cbv zeta. unfold payload_of. cbn [p_Name p_Fingerprint p_Addr p_RNS]. fold dev.
    rewrite (bind_Ok _ _ d0 (inl ()) (with_cs s' d0)); [done|]. apply try_Ok, on_store_Ok. by rewrite Hx.
  - by destruct (AddDevice_saved _ _ _ E).
  - intros fp. change (d_store (with_cs s' d0)) with (cs_store s'). rewrite Hs. apply add_store_trust.
Qed.
(** ** The meeting *)

(** A network in which the device with certificate [der] answers at [addr],
    over a connection that will deliver [input], and nothing else answers. *)
Definition listening (addr : string) (der : bytes) (input : bytes) : Z → bool → string → remote_peer + error :=
  λ _ _ a, if a =?s addr then inl (mkRemote (mkTlsPeer [der] []) (conn_of input) addr) else inr (Errno ECONNREFUSED).
(** The two ends of the connection: helloPeer's exchange on one, handlePeer
    on the other. *)
Definition scanner (fp : string) (d : Daemon) : party unit :=
  party_of p_conn (hello_back fp) (λ input, mkPeer (conn_of input) d).
Definition shower clipboard_set tap st remote (d : Daemon) : party unit :=
  party_of p_conn (handlePeer clipboard_set tap st remote) (λ input, mkPeer (conn_of input) d).

Lemma guest_after_trust d fp h fp' : IsTrusted (d_store (guest_after d fp h)) fp' = IsTrusted (d_store d) fp'.
Proof.
  unfold guest_after. destruct (UpdateRNS_ok fp (hdr_RNS (valid_Header h)) (d_cs (greeted d))) as (s' & E & Ht).
  rewrite (on_store_Ok _ _ _ _ E). change (IsTrusted (cs_store s') fp' = IsTrusted (d_store d) fp'). rewrite Ht.
  by destruct (greeted_only d) as [x ->].
Qed.
Lemma refreshAdvertiseAddr_cs s d :
  refreshAdvertiseAddr (with_cs s d) = (Ok (), with_cs s (refreshAdvertiseAddr d).2).
Proof.
  unfold refreshAdvertiseAddr, bind, get_state, ret, modify. cbv beta iota zeta.
  change (d_set (with_cs s d)) with (d_set d). change (d_net (with_cs s d)) with (d_net d).
  destruct (o_autoIP (d_set d)); cbn [negb]; [|done]. by destruct (detectLANIP (d_net d) =?s "127.0.0.1").
Qed.
Lemma modest_cs s d : modest d → modest (with_cs s d).
Proof.
  unfold modest. assert (advertised (with_cs s d) = advertised d) as ->; [|done].
  unfold advertised, advertiseAddr. rewrite (bind_Ok _ _ d d d), (bind_Ok _ _ (with_cs s d) _ _) by done.
  change (d_set (with_cs s d)) with (d_set d). change (d_tcpAddr (with_cs s d)) with (d_tcpAddr d).
  destruct (if o_autoIP (d_set d) then _ else _) as [[h q]|]; [|done]. destruct (h =?s "127.0.0.1"); [|done].
  destruct (refreshAdvertiseAddr_ok d) as (d' & E & _). rewrite (bind_Ok _ _ _ _ _ E), (bind_Ok _ _ _ _ _ (refreshAdvertiseAddr_cs s d)).
  by rewrite E.
Qed.

(** AddPeer, once its exchange has its input. *)
Lemma AddPeer_completes uri d dev d1 der input lan :
  scan uri d = (Ok dev, d1) → dev_Fingerprint dev = Fingerprint der →
  IsTrusted (d_store d1) (Fingerprint der) ≠ None →
  ∀ p, hello_back (Fingerprint der) (mkPeer (conn_of input) d1) = (Ok (), p) →
  AddPeer (listening (dev_Addr dev) der input) lan uri d = (Ok dev, p_d p).
Proof.
  intros Hs Hf Ht p Hp. rewrite (AddPeer_scan _ _ _ _ _ _ Hs).
  assert (helloPeer (listening (dev_Addr dev) der input) lan dev d1 = (Ok (), p_d p)) as E.
  { unfold helloPeer. rewrite (bind_Ok _ _ d1 (mkRemote (mkTlsPeer [der] []) (conn_of input) (dev_Addr dev), Fingerprint der) d1).
    2: { apply dial_pinned; [done|]. intros c. unfold listening. by rewrite String.eqb_refl. }
    cbv beta iota. rewrite Hf, String.eqb_refl. cbn [negb rm_conn]. unfold bind, on_dialled. by rewrite Hp. }
  rewrite (bind_Ok _ _ d1 () (p_d p)); [done|]. unfold ignore, bind, try. by rewrite E.
Qed.
Lemma meet_reads (a b : bytes) : reads [Rcv a; Snd b] = writes [Snd a; Rcv b].
Proof. done. Qed.

(** A device that can store a new one. *)
Definition can_pair (d : Daemon) : Prop := can_save (d_store d) (d_fs d) ∧ year_ok (d_now d) = true.

End pairing.

(** Two fresh devices. *)
Definition demo_guest : Daemon :=
  with_cs (mkCstate (mkStore "/cfg" (bs "guest certificate") [] "") demo_fs 0) (demo_daemon []).
Lemma demo_saves cert : can_save (mkStore "/cfg" cert [] "") demo_fs.
Proof. split; [done|by vm_compute..]. Qed.
Lemma demo_modest : @modest toy_reticulum (demo_window []) ∧ @modest toy_reticulum (refreshAdvertiseAddr demo_guest).2.
Proof. split; split_and!; by vm_compute. Qed.

