(* ===== verification/Signals.v ===== *)
(** * internal/daemon/rns.go, directch.go, queue.go: signals between paired devices

    What the daemon says over Reticulum: pings, the setup of direct channels,
    and short clipboard texts in parts. Replies that the code sends from a
    goroutine are sent at once. *)

From S2P Require Import Prelude GoStrings GoFmt Go Sha256 Json JsonRec Base64 Fs Proto Ipc Receive Config.
From S2P Require Import Transport Rns Hubs World Peer.
From Stdlib Require Import ZArith Lia String Ascii List Bool.
From stdpp Require Import base list strings gmap option numbers.

#[local] Open Scope string_scope.
#[local] Open Scope list_scope.
#[local] Open Scope Z_scope.

(** ** Signals on the wire *)

Record signal := mkSignal {
  sg_Type : string;
  sg_ID : string;
  sg_Ufrag : string;
  sg_Pwd : string;
  sg_Cand : string;
  sg_N : Z;
  sg_Of : Z;
  sg_Data : string;
}.
#[export] Instance signal_eq_dec : EqDecision signal.
Proof. solve_decision. Defined.
Definition zero_signal : signal := mkSignal "" "" "" "" "" 0 0 "".
Definition simple_signal (typ id : string) : signal := mkSignal typ id "" "" "" 0 0 "".
Definition clip_signal (id : string) (n parts : Z) (data : string) : signal :=
  mkSignal "clip" id "" "" "" n parts data.

Definition signal_json (s : signal) : json :=
  JObj (req_str "t" (sg_Type s) ++ opt_str "id" (sg_ID s) ++ opt_str "u" (sg_Ufrag s) ++
        opt_str "p" (sg_Pwd s) ++ opt_str "c" (sg_Cand s) ++ opt_int "n" (sg_N s) ++
        opt_int "of" (sg_Of s) ++ opt_str "d" (sg_Data s)).
Definition marshal_signal (s : signal) : bytes := print (signal_json s).

Definition set_sg_Type x s := mkSignal x (sg_ID s) (sg_Ufrag s) (sg_Pwd s) (sg_Cand s) (sg_N s) (sg_Of s) (sg_Data s).
Definition set_sg_ID x s := mkSignal (sg_Type s) x (sg_Ufrag s) (sg_Pwd s) (sg_Cand s) (sg_N s) (sg_Of s) (sg_Data s).
Definition set_sg_Ufrag x s := mkSignal (sg_Type s) (sg_ID s) x (sg_Pwd s) (sg_Cand s) (sg_N s) (sg_Of s) (sg_Data s).
Definition set_sg_Pwd x s := mkSignal (sg_Type s) (sg_ID s) (sg_Ufrag s) x (sg_Cand s) (sg_N s) (sg_Of s) (sg_Data s).
Definition set_sg_Cand x s := mkSignal (sg_Type s) (sg_ID s) (sg_Ufrag s) (sg_Pwd s) x (sg_N s) (sg_Of s) (sg_Data s).
Definition set_sg_N x s := mkSignal (sg_Type s) (sg_ID s) (sg_Ufrag s) (sg_Pwd s) (sg_Cand s) x (sg_Of s) (sg_Data s).
Definition set_sg_Of x s := mkSignal (sg_Type s) (sg_ID s) (sg_Ufrag s) (sg_Pwd s) (sg_Cand s) (sg_N s) x (sg_Data s).
Definition set_sg_Data x s := mkSignal (sg_Type s) (sg_ID s) (sg_Ufrag s) (sg_Pwd s) (sg_Cand s) (sg_N s) (sg_Of s) x.
Definition signal_fields : list (string * field signal) :=
  [("t", str_field set_sg_Type); ("id", str_field set_sg_ID); ("u", str_field set_sg_Ufrag);
   ("p", str_field set_sg_Pwd); ("c", str_field set_sg_Cand); ("n", int_field set_sg_N);
   ("of", int_field set_sg_Of); ("d", str_field set_sg_Data)].
Definition signal_of_json (v : json) : option signal := decode_object signal_fields zero_signal v.
Definition unmarshal_signal (raw : bytes) : option signal := v ← parse raw; signal_of_json v.

(** ** Who is who *)

Definition deviceByRNS (d : Daemon) (pub : bytes) : option Device :=
  find (λ dev, dev_RNS dev =?s hex_encode pub) (s_devices (d_store d)).
Definition trustedRNS (d : Daemon) (pub : bytes) : bool := bool_decide (deviceByRNS d pub ≠ None).

(** *** Field updates of rnsFields *)
Definition with_node (n : option Node) (r : rnsFields) : rnsFields :=
  mkRnsFields n (r_pongs r) (r_answered r) (r_iceSetups r) (r_kick r) (r_clips r).
Definition with_pongs (p a : gset string) (r : rnsFields) : rnsFields :=
  mkRnsFields (r_node r) p a (r_iceSetups r) (r_kick r) (r_clips r).
Definition with_ice (m : gmap string (list Msg)) (r : rnsFields) : rnsFields :=
  mkRnsFields (r_node r) (r_pongs r) (r_answered r) m (r_kick r) (r_clips r).
Definition with_clips (c : gmap string clipParts) (r : rnsFields) : rnsFields :=
  mkRnsFields (r_node r) (r_pongs r) (r_answered r) (r_iceSetups r) (r_kick r) c.
Definition on_rns (f : rnsFields → rnsFields) : M Daemon unit := modify (λ d, with_rns (f (d_rns d)) d).

(** A call on the node, which is there. *)
Definition on_rns_node {A} (m : M Node A) : M Daemon A := λ d,
  match r_node (d_rns d) with
  | Some n => let '(r, n') := m n in (r, with_rns (with_node (Some n') (d_rns d)) d)
  | None => (Panic, d)
  end.

Section signals.
Context `{Reticulum}.
Context (clipboard_set : bytes → string → option error).

(** ** Sending *)

Definition sendSignal (ctx : option nat) (target : string) (s : signal) : M Daemon Device :=
  d <- get_state ;;
  match r_node (d_rns d) with
  | None => throw (Errorf "reticulum is off on this device (ADROP_RNS=1 turns it on)")
  | Some _ =>
      match Config.Lookup (d_store d) target with
      | None => throw (Errorf ("no trusted device matching " +:+ quote target))
      | Some dev =>
          if dev_RNS dev =?s "" then
            throw (Errorf (dev_Name dev +:+
              " has not shared its Reticulum identity yet; connect to it once in the LAN"))
          else
            match hex_decode (dev_RNS dev) with
            | None => throw (Errorf "encoding/hex: invalid byte")
            | Some pub =>
                on_rns_node (Send ctx (d_now d) pub (marshal_signal s)) ;;;
                ret dev
            end
      end
  end.

(** A reply from a goroutine with 30 s: 300 polls. *)
Definition send_reply (fp : string) (s : signal) : M Daemon unit :=
  ignore (sendSignal (Some 300%nat) fp s).

(** *** Waiting for an answer: the channel registered under an ID *)
Definition expect_pong (id : string) : M Daemon unit :=
  on_rns (λ r, with_pongs ({[id]} ∪ r_pongs r) (r_answered r ∖ {[id]}) r).
Definition forget_pong (id : string) : M Daemon unit :=
  on_rns (λ r, with_pongs (r_pongs r ∖ {[id]}) (r_answered r ∖ {[id]}) r).
Definition close_pong (id : string) : M Daemon unit :=
  on_rns (λ r, if bool_decide (id ∈ r_pongs r)
               then with_pongs (r_pongs r ∖ {[id]}) ({[id]} ∪ r_answered r) r else r).

(** Run [body] with the channel of [id] registered. *)
Definition with_pong {A} (id : string) (body : M Daemon A) : M Daemon A :=
  expect_pong id ;;;
  r <- try body ;;
  forget_pong id ;;;
  of_res r.

(** What other goroutines do while the call waits. *)
Context (meanwhile : M Daemon unit).

Definition Ping (ctx : option nat) (id target : string) : M Daemon Z :=
  with_pong id (
    start <- asks d_now ;;
    dev <- sendSignal ctx target (simple_signal "ping" id) ;;
    meanwhile ;;;
    d <- get_state ;;
    if bool_decide (id ∈ r_answered (d_rns d)) then ret (d_now d - start)
    else throw (Errorf ("no answer from " +:+ dev_Name dev +:+ " over reticulum"))).

(** ** The clipboard through the hubs *)

Definition hubClipMax : Z := Z.shiftl 4 10.
Definition hubClipPart : Z := 138.

Definition Std_encode (b : bytes) : string := str (b64_encode false true b).

(** [data[n*hubClipPart : min((n+1)*hubClipPart, len(data))]] *)
Definition clip_part (data : bytes) (n : nat) : bytes :=
  take (Z.to_nat hubClipPart) (drop (n * Z.to_nat hubClipPart) data).
Definition clip_count (data : bytes) : Z :=
  let parts := (Z.of_nat (length data) + hubClipPart - 1) / hubClipPart in
  if parts =? 0 then 1 else parts.
Definition clip_signals (id : string) (data : bytes) : list signal :=
  map (λ n, clip_signal id (Z.of_nat n) (clip_count data) (Std_encode (clip_part data n)))
    (seq 0 (Z.to_nat (clip_count data))).

Fixpoint send_all (ctx : option nat) (fp : string) (l : list signal) : M Daemon unit :=
  match l with
  | [] => ret ()
  | s :: l' => sendSignal ctx fp s ;;; send_all ctx fp l'
  end.

(** 45 s for the parts and the acknowledgement together. *)
Definition sendClipOverHubs (id : string) (dev : Device) (data : bytes) : M Daemon unit :=
  with_pong id (
    send_all (Some 450%nat) (dev_Fingerprint dev) (clip_signals id data) ;;;
    meanwhile ;;;
    d <- get_state ;;
    if bool_decide (id ∈ r_answered (d_rns d)) then ret ()
    else throw (Errorf "no acknowledgement through the hubs")).

(** [make([][]byte, n)] panics beyond what the address space holds: 24 bytes
    an element, 2^48 bytes in all. *)
Definition make_parts (n : Z) : option (list (option bytes)) :=
  if (0 <=? n) && (n * 24 <=? 2 ^ 48) then Some (repeat None (Z.to_nat n)) else None.

Definition clip_key (dev : Device) (s : signal) : string := dev_Fingerprint dev +:+ "/" +:+ sg_ID s.
Definition set_clips (c : gmap string clipParts) : M Daemon unit := on_rns (with_clips c).
(** The timer of a text that never became complete. *)
Definition expire_clip (key : string) : M Daemon unit := on_rns (λ r, with_clips (delete key (r_clips r)) r).

Definition add_clipboard (b : bytes) (mime : string) (d : Daemon) : Daemon :=
  mkDaemon (d_set d) (d_tcpAddr d) (d_net d) (d_cs d) (d_slots d) (d_pair d) (d_nearby d) (d_subs d)
    (d_next d) (d_rns d) (d_notes d) (d_clipboard d ++ [(b, mime)]) (d_shown d).

Definition clip_complete (dev : Device) (s : signal) (text : bytes) : M Daemon unit :=
  match clipboard_set text "text/plain" with
  | Some _ => ret ()
  | None =>
      modify (add_clipboard text "text/plain") ;;;
      daemon_broadcast (mkEvent "recv-done" (dev_Name dev) "clipboard" 0 0 0 0 "" None "") ;;;
      notify ("Clipboard from " +:+ dev_Name dev) "Received through the Reticulum hubs." ;;;
      send_reply (dev_Fingerprint dev) (simple_signal "clip-ack" (sg_ID s))
  end.

(** The products are Go ints of 64 bits. *)
Definition receiveClipPart (dev : Device) (s : signal) : M Daemon unit :=
  if (sg_Of s <=? 0) || (hubClipMax + hubClipPart <? int64 (sg_Of s * hubClipPart)) ||
     (sg_N s <? 0) || (sg_Of s <=? sg_N s)
  then ret ()
  else
    match Std_decode (bs (sg_Data s)) with
    | None => ret ()
    | Some part =>
        if hubClipPart <? Z.of_nat (length part) then ret ()
        else
          let key := clip_key dev s in
          d <- get_state ;;
          cp <- (match r_clips (d_rns d) !! key with
                 | Some cp => ret cp
                 | None =>
                     match make_parts (sg_Of s) with
                     | Some l => ret (mkClipParts l 0)
                     | None => panic
                     end
                 end) ;;
          if negb (Z.of_nat (length (cp_parts cp)) =? sg_Of s) ||
             negb (bool_decide (cp_parts cp !! Z.to_nat (sg_N s) = Some None))
          then set_clips (<[key := cp]> (r_clips (d_rns d)))
          else
            let cp := mkClipParts (<[Z.to_nat (sg_N s) := Some part]> (cp_parts cp)) (cp_got cp + 1) in
            if cp_got cp =? Z.of_nat (length (cp_parts cp)) then
              set_clips (delete key (r_clips (d_rns d))) ;;;
              clip_complete dev s (concat (map (default []) (cp_parts cp)))
            else set_clips (<[key := cp]> (r_clips (d_rns d)))
    end.

(** ** Direct channels *)

(** The setup queue of an ID holds 64 messages. *)
Definition iceInbox (id : string) : M Daemon unit :=
  on_rns (λ r, if bool_decide (r_iceSetups r !! id = None) then with_ice (<[id := []]> (r_iceSetups r)) r else r).
Definition dropIceInbox (id : string) : M Daemon unit := on_rns (λ r, with_ice (delete id (r_iceSetups r)) r).
Definition ice_push (id : string) (m : Msg) : M Daemon unit :=
  iceInbox id ;;;
  on_rns (λ r, with_ice (alter (λ q, if (length q <? 64)%nat then q ++ [m] else q) id (r_iceSetups r)) r).
Definition iceSignal (ctx : option nat) (dev : Device) (id : string) (m : Msg) : M Daemon unit :=
  sendSignal ctx (dev_Fingerprint dev)
    (mkSignal ("ice-" +:+ m_Kind m) id (m_Ufrag m) (m_Pwd m) (m_Cand m) 0 0 "") ;;;
  ret ().

(** What package direct returns: the session stream and the certificates the
    peer showed inside QUIC, whose handshake is pinned. *)
Record channel := mkChannel { ch_conn : conn; ch_certs : list bytes; ch_remote : string }.
Definition PeerCertificate (c : channel) : bytes := hd [] (ch_certs c).

(** The pinned handshake of both ends (transport.PinnedConfig). *)
Definition pinned_channel (d : Daemon) (server : bool) (r : channel + error) : channel + error :=
  match r with
  | inr e => inr e
  | inl c =>
      match handshake (PinnedConfig (daemon_IsTrusted d) (s_certDER (d_store d)) server) server
              (mkTlsPeer (ch_certs c) []) with
      | inr e => inr (Wrapf "direct: quic" e)
      | inl _ => inl c
      end
  end.

Definition fp16 (fp : string) : string := str (take 16 (bs fp)).

(** [reach] is what the ICE and QUIC setup comes to once the signals of this
    side are out. *)
Definition dialDirect (reach : channel + error) (id : string) (dev : Device)
  : M Daemon (conn * string) :=
  iceInbox id ;;;
  d <- get_state ;;
  r <- try (c <- of_res (pinned_channel d false reach) ;;
            let fp := Fingerprint (PeerCertificate c) in
            if negb (fp =?s dev_Fingerprint dev) then
              throw (Errorf ("direct channel reached " +:+ fp16 fp +:+ " instead of " +:+ dev_Name dev))
            else ret (ch_conn c, fp)) ;;
  dropIceInbox id ;;;
  of_res r.

Definition acceptDirect (reach : channel + error) (dev : Device) (s : signal) : M Daemon unit :=
  iceInbox (sg_ID s) ;;;
  d <- get_state ;;
  match pinned_channel d true reach with
  | inr _ => ret ()
  | inl c =>
      let fp := Fingerprint (PeerCertificate c) in
      if negb (fp =?s dev_Fingerprint dev) then ret ()
      else ignore (on_dialled (ch_conn c) (servePeer clipboard_set fp (ch_remote c) false))
  end ;;;
  dropIceInbox (sg_ID s).

(** ** The inbox *)

(** One message of the node; [reach] is what a direct channel set up for it
    comes to. *)
Definition rns_message (reach : channel + error) (m : Message) : M Daemon unit :=
  d <- get_state ;;
  match deviceByRNS d (msg_From m) with
  | None => ret ()
  | Some dev =>
      match unmarshal_signal (msg_Body m) with
      | None => ret ()
      | Some s =>
          kickQueue ;;;
          if sg_Type s =?s "ping" then send_reply (dev_Fingerprint dev) (simple_signal "pong" (sg_ID s))
          else if sg_Type s =?s "ice-offer" then acceptDirect reach dev s
          else if (sg_Type s =?s "ice-answer") || (sg_Type s =?s "ice-cand") then
            ice_push (sg_ID s) (mkMsg (drop_str 4 (sg_Type s)) (sg_Ufrag s) (sg_Pwd s) (sg_Cand s))
          else if sg_Type s =?s "clip" then receiveClipPart dev s
          else if (sg_Type s =?s "clip-ack") || (sg_Type s =?s "pong") then close_pong (sg_ID s)
          else ret ()
      end
  end.

(** The loop of rnsInbox on the messages that are there. *)
Definition pop_inbox : M Daemon (option Message) :=
  d <- get_state ;;
  match r_node (d_rns d) with
  | Some n =>
      match n_inbox n with
      | m :: l => on_rns (with_node (Some (with_inbox l n))) ;;; ret (Some m)
      | [] => ret None
      end
  | None => ret None
  end.
Fixpoint rnsInbox (fuel : nat) (reach : channel + error) : M Daemon unit :=
  match fuel with
  | O => ret ()
  | S fuel =>
      m <- pop_inbox ;;
      match m with
      | Some m => rns_message reach m ;;; rnsInbox fuel reach
      | None => ret ()
      end
  end.

(** What the daemon reports of Reticulum; [working] are the hubs that pass. *)
Definition RNSStatus (working : list string) (d : Daemon) : string * list string :=
  match r_node (d_rns d) with
  | None => ("", [])
  | Some n => (Address n, working)
  end.
End signals.
