(* ===== verification/Clips.v ===== *)
(** * A short clipboard through the hubs

    Signals.v splits a clipboard text into signals (sendClipOverHubs) and puts
    the arriving parts together (receiveClipPart). Here: every part fits one
    Reticulum message, the signals survive the wire, and the parts come
    together in any order, duplicates included. *)

From S2P Require Import Prelude GoStrings GoFmt Go Sha256 Json JsonRec JsonSize Base64 Fs Proto Ipc.
From S2P Require Import Receive Config Transport Rns Hubs World Peer Signals.
From Stdlib Require Import ZArith Lia String Ascii List Bool.
From stdpp Require Import base list strings gmap option numbers.

#[local] Open Scope string_scope.
#[local] Open Scope list_scope.
#[local] Open Scope Z_scope.

(** ** Signals on the wire *)

Definition valid_signal (s : signal) : signal :=
  mkSignal (to_valid (sg_Type s)) (to_valid (sg_ID s)) (to_valid (sg_Ufrag s)) (to_valid (sg_Pwd s))
    (to_valid (sg_Cand s)) (sg_N s) (sg_Of s) (to_valid (sg_Data s)).

Ltac norm_signal :=
  cbn [set_sg_Type set_sg_ID set_sg_Ufrag set_sg_Pwd set_sg_Cand set_sg_N set_sg_Of set_sg_Data
       sg_Type sg_ID sg_Ufrag sg_Pwd sg_Cand sg_N sg_Of sg_Data].

Lemma signal_json_wf s : json_wf (signal_json s).
Proof. constructor. wire_wf. Qed.

Lemma signal_roundtrip s :
  inInt64 (sg_N s) → inInt64 (sg_Of s) →
  unmarshal_signal (marshal_signal s) = Some (valid_signal s).
Proof.
  intros Hn Ho. unfold unmarshal_signal, marshal_signal.
  rewrite parse_print by apply signal_json_wf. destruct s as [t i u p c n o d]. cbn in Hn, Ho.
  unfold signal_json, signal_of_json, decode_object. cbn [mbind option_bind norm]. fold norm_member.
  rewrite decode_members_nil, !map_app. unfold zero_signal.
  cbn [sg_Type sg_ID sg_Ufrag sg_Pwd sg_Cand sg_N sg_Of sg_Data].
  do 8 (decode_step; norm_signal). reflexivity.
Qed.

(** ** Sizes *)

Lemma b64_length b : (length (b64_encode false true b) ≤ 4 * ((length b + 2) / 3))%nat.
Proof.
  induction b as [|x|x y|x y z t IH] using list_ind3; [done..|].
  change (length (b64_encode false true (x :: y :: z :: t)))
    with (S (S (S (S (length (b64_encode false true t)))))). cbn [length].
  replace (S (S (S (length t))) + 2)%nat with (length t + 2 + 1 * 3)%nat by lia.
  rewrite Nat.div_add by lia. lia.
Qed.

Lemma b64_plain b : forallb plain_byte (b64_encode false true b) = true.
Proof.
  assert (∀ n, 0 ≤ n < 64 → plain_byte (b64_char false n) = true) as Hc.
  { intros n Hn.
    assert (forallb (λ n, plain_byte (b64_char false n)) (seqZ 0 64) = true) as H by by vm_compute.
    rewrite forallb_forall in H. apply H, list_elem_of_In, elem_of_seqZ. lia. }
  apply forallb_forall. pose proof (b64_encode_chars false true b) as Hb.
  rewrite Forall_forall in Hb. intros a Ha.
  destruct (Hb a Ha) as [_ [->|(n & Hn & ->)]]; [by vm_compute|by apply Hc].
Qed.

Lemma plain_ascii s : forallb plain_byte (bs s) = true → utf8 s.
Proof.
  intros H. apply ascii_utf8. unfold ascii_only. rewrite forallb_forall in H |- *.
  intros a Ha%H. unfold plain_byte in Ha. lia.
Qed.

Lemma Std_encode_plain b : forallb plain_byte (bs (Std_encode b)) = true.
Proof. unfold Std_encode. rewrite bs_str. apply b64_plain. Qed.

(** A clip signal takes at most 42 bytes around its ID and its data. *)
Lemma clip_signal_size id n parts data :
  forallb plain_byte (bs id) = true → forallb plain_byte (bs data) = true →
  0 ≤ n < 100 → 0 ≤ parts < 100 →
  (length (marshal_signal (clip_signal id n parts data)) ≤ 42 + String.length id + String.length data)%nat.
Proof.
  intros Hid Hdata Hn Hp. unfold marshal_signal, signal_json.
  etransitivity; [exact (print_obj_cons_size _ _)|].
  match goal with |- context [members_size (?m :: ?l)] =>
    change (members_size (m :: l)) with (members_size (req_str "t" "clip") + members_size l)%nat end.
  unfold clip_signal. cbn [sg_Type sg_ID sg_Ufrag sg_Pwd sg_Cand sg_N sg_Of sg_Data].
  rewrite !members_size_app. change (members_size (opt_str "u" "")) with O.
  change (members_size (opt_str "p" "")) with O. change (members_size (opt_str "c" "")) with O.
  change (members_size (req_str "t" "clip")) with 11%nat.
  pose proof (members_opt_str "id" id) as H1. pose proof (members_opt_int "n" n) as H2.
  pose proof (members_opt_int "of" parts) as H3. pose proof (members_opt_str "d" data) as H4.
  rewrite (json_quote_plain id) in H1 by done. rewrite (json_quote_plain data) in H4 by done.
  pose proof (itoa_small n Hn). pose proof (itoa_small parts Hp).
  change (length (json_quote "id")) with 4%nat in H1. change (length (json_quote "n")) with 3%nat in H2.
  change (length (json_quote "of")) with 4%nat in H3. change (length (json_quote "d")) with 3%nat in H4.
  lia.
Qed.

Lemma clip_part_length data n : (length (clip_part data n) ≤ 138)%nat.
Proof. unfold clip_part. rewrite length_take. change (Z.to_nat hubClipPart) with 138%nat. lia. Qed.

Lemma clip_count_range data :
  Z.of_nat (length data) ≤ hubClipMax → 1 ≤ clip_count data ≤ 30.
Proof.
  unfold clip_count. change hubClipMax with 4096. change hubClipPart with 138. cbv zeta. intros H.
  pose proof (Z.div_le_mono (Z.of_nat (length data) + 138 - 1) (30 * 138 + 137) 138 ltac:(lia) ltac:(lia)) as Hle.
  change ((30 * 138 + 137) / 138) with 30 in Hle.
  pose proof (Z.div_pos (Z.of_nat (length data) + 138 - 1) 138 ltac:(lia) ltac:(lia)).
  case_match; lia.
Qed.

(** ** The guard at start-up *)

(** [init]: the largest clip signal must fit one Reticulum message, or the
    program panics before main. *)
Definition worst_clip : signal :=
  clip_signal "0123456789abcdef" (hubClipMax / hubClipPart) (hubClipMax / hubClipPart + 1)
    (Std_encode (repeat "000"%char (Z.to_nat hubClipPart))).
Definition queue_init `{Reticulum} {S} : M S unit :=
  if MaxMessage <? Z.of_nat (length (marshal_signal worst_clip)) then panic else ret ().

Lemma queue_init_bound `{Reticulum} {S} (s s' : S) r :
  queue_init s = (r, s') → r = Ok () → 242 ≤ MaxMessage.
Proof.
  unfold queue_init. change (length (marshal_signal worst_clip)) with 242%nat.
  destruct (Z.ltb_spec MaxMessage (Z.of_nat 242)) as [Hm|Hm]; intros [= <- _] Hr; [done|lia].
Qed.

Lemma clip_part_fits `{Reticulum} id data n :
  242 ≤ MaxMessage → forallb plain_byte (bs id) = true → (String.length id ≤ 16)%nat →
  Z.of_nat (length data) ≤ hubClipMax → 0 ≤ Z.of_nat n < clip_count data →
  Z.of_nat (length (marshal_signal
    (clip_signal id (Z.of_nat n) (clip_count data) (Std_encode (clip_part data n))))) ≤ MaxMessage.
Proof.
  intros Hmax Hid Hlen Hdata Hn. pose proof (clip_count_range data Hdata) as Hc.
  pose proof (clip_signal_size id (Z.of_nat n) (clip_count data) (Std_encode (clip_part data n))
    Hid (Std_encode_plain _) ltac:(lia) ltac:(lia)) as Hsz.
  assert (String.length (Std_encode (clip_part data n)) ≤ 184)%nat as Hd; [|lia].
  unfold Std_encode. rewrite <-length_bs, bs_str.
  etransitivity; [apply b64_length|]. pose proof (clip_part_length data n) as Hl.
  pose proof (Nat.Div0.div_le_mono (length (clip_part data n) + 2) 140 3 ltac:(lia)) as Hle.
  change (140 / 3)%nat with 46%nat in Hle. lia.
Qed.

(** C22: the guard of [init] is enough. Where it lets the program start, every
    signal a clipboard of at most hubClipMax bytes is split into fits one
    Reticulum message, for IDs of 16 plain characters: sending it is never
    refused for its size. *)
Theorem clip_signals_fit `{Reticulum} id data s :
  queue_init tt = (Ok (), tt) →
  forallb plain_byte (bs id) = true → (String.length id ≤ 16)%nat →
  Z.of_nat (length data) ≤ hubClipMax →
  s ∈ clip_signals id data → Z.of_nat (length (marshal_signal s)) ≤ MaxMessage.
Proof.
  intros Hinit%queue_init_bound Hid Hlen Hdata Hs; [|done].
  unfold clip_signals in Hs. apply list_elem_of_fmap in Hs as (n & -> & Hn%elem_of_seq).
  pose proof (clip_count_range data Hdata). apply clip_part_fits; [done..|]. lia.
Qed.

(** ** The parts are the text *)

Lemma take_all_parts (l : bytes) k n :
  concat (map (λ i, take k (drop (i * k) l)) (seq 0 n)) = take (n * k) l.
Proof.
  induction n as [|n IH]; [by rewrite take_0|].
  rewrite seq_S, map_app, concat_app, IH. cbn [map concat Nat.add]. rewrite app_nil_r.
  rewrite take_take_drop. f_equal. lia.
Qed.

Lemma clip_parts_concat data :
  concat (map (clip_part data) (seq 0 (Z.to_nat (clip_count data)))) = data.
Proof.
  unfold clip_part. change (Z.to_nat hubClipPart) with 138%nat. rewrite take_all_parts.
  apply take_ge. unfold clip_count. change hubClipPart with 138. cbv zeta.
  pose proof (Z.div_mod (Z.of_nat (length data) + 138 - 1) 138 ltac:(lia)).
  pose proof (Z.mod_pos_bound (Z.of_nat (length data) + 138 - 1) 138 ltac:(lia)).
  case_match; lia.
Qed.

(** What the receiver holds once the parts in [S] came. *)
Definition parts_of (data : bytes) (n : nat) (S : gset nat) : list (option bytes) :=
  map (λ i, if decide (i ∈ S) then Some (clip_part data i) else None) (seq 0 n).
Definition collected (data : bytes) (n : nat) (S : gset nat) : clipParts :=
  mkClipParts (parts_of data n S) (Z.of_nat (size S)).

Lemma parts_of_length data n S : length (parts_of data n S) = n.
Proof. unfold parts_of. by rewrite length_map, length_seq. Qed.

Lemma parts_of_lookup data n S i :
  (i < n)%nat →
  parts_of data n S !! i = Some (if decide (i ∈ S) then Some (clip_part data i) else None).
Proof.
  intros Hi. unfold parts_of.
  change (map ?f ?l) with (f <$> l). rewrite list_lookup_fmap, lookup_seq_lt by done. done.
Qed.

Lemma parts_of_insert data n S i :
  (i < n)%nat → <[i := Some (clip_part data i)]> (parts_of data n S) = parts_of data n ({[i]} ∪ S).
Proof.
  intros Hi. apply list_eq_same_length with (n := n); [by rewrite parts_of_length| |].
  { by rewrite length_insert, parts_of_length. }
  intros j x y Hj. rewrite parts_of_lookup by done. destruct (decide (i = j)) as [<-|Hne].
  - rewrite list_lookup_insert_eq by by rewrite parts_of_length.
    rewrite decide_True by set_solver. congruence.
  - rewrite list_lookup_insert_ne, parts_of_lookup by done.
    destruct (decide (j ∈ S)); [rewrite decide_True by set_solver|rewrite decide_False by set_solver]; congruence.
Qed.

Lemma parts_of_full data n S :
  (∀ i, (i < n)%nat → i ∈ S) →
  concat (map (default []) (parts_of data n S)) = concat (map (clip_part data) (seq 0 n)).
Proof.
  intros HS. unfold parts_of. rewrite map_map. f_equal. apply map_ext_in.
  intros i Hi%in_seq. rewrite decide_True by (apply HS; lia). done.
Qed.

Lemma parts_of_empty data n : parts_of data n ∅ = repeat None n.
Proof.
  unfold parts_of. generalize 0%nat at 1. induction n as [|n IH]; intros k; [done|].
  cbn [seq map repeat]. by rewrite IH.
Qed.

(** Sets of part numbers below [n]. *)
Definition part_set (n : nat) : gset nat := list_to_set (seq 0 n).
Lemma elem_of_part_set n i : i ∈ part_set n ↔ (i < n)%nat.
Proof. unfold part_set. rewrite elem_of_list_to_set, elem_of_seq. lia. Qed.
Lemma size_part_set n : size (part_set n) = n.
Proof.
  unfold part_set. rewrite size_list_to_set by apply NoDup_seq. apply length_seq.
Qed.
Lemma size_full n (S : gset nat) : S ⊆ part_set n → size S = n → S = part_set n.
Proof.
  intros Hs Hn. apply set_subseteq_size_eq; [done|]. rewrite size_part_set. lia.
Qed.
Lemma insert_part n i (S : gset nat) : (i < n)%nat → S ⊆ part_set n → {[i]} ∪ S ⊆ part_set n.
Proof. intros Hi HS. apply union_subseteq. split; [|done]. by apply singleton_subseteq_l, elem_of_part_set. Qed.

(** ** One part *)

Definition text_key (dev : Device) (id : string) : string := dev_Fingerprint dev +:+ "/" +:+ id.
Definition part_signal (id : string) (data : bytes) (i : nat) : signal :=
  clip_signal id (Z.of_nat i) (clip_count data) (Std_encode (clip_part data i)).
Definition parts_number (data : bytes) : nat := Z.to_nat (clip_count data).

(** The parts in [S] of the text came, and no more. *)
Definition collecting (dev : Device) (id : string) (data : bytes) (S : gset nat) (d : Daemon) : Prop :=
  r_clips (d_rns d) !! text_key dev id =
    if decide (S = ∅) then None else Some (collected data (parts_number data) S).
Definition put_clips (c : gmap string clipParts) (d : Daemon) : Daemon :=
  with_rns (with_clips c (d_rns d)) d.

Section parts.
Context `{Reticulum} (clipboard_set : bytes → string → option error).
Variables (dev : Device) (id : string) (data : bytes).
Hypothesis (Hdata : Z.of_nat (length data) ≤ hubClipMax).

Lemma part_guards i :
  (i < parts_number data)%nat →
  ((clip_count data <=? 0) || (hubClipMax + hubClipPart <? int64 (clip_count data * hubClipPart)) ||
   (Z.of_nat i <? 0) || (clip_count data <=? Z.of_nat i)) = false.
Proof.
  intros Hi. unfold parts_number in Hi. pose proof (clip_count_range data Hdata) as Hc.
  change hubClipPart with 138. change hubClipMax with 4096.
  rewrite int64_id by (unfold inInt64, minInt64, maxInt64; lia). lia.
Qed.

Lemma part_decodes i :
  Std_decode (bs (Std_encode (clip_part data i))) = Some (clip_part data i).
Proof.
  unfold Std_encode, Std_decode. rewrite bs_str, no_breaks_id; [apply b64_decode_encode|].
  eapply Forall_impl; [|apply b64_encode_chars]. by intros a [? _].
Qed.

Lemma make_parts_ok : make_parts (clip_count data) = Some (parts_of data (parts_number data) ∅).
Proof.
  pose proof (clip_count_range data Hdata). unfold make_parts.
  rewrite parts_of_empty. by replace ((0 <=? clip_count data) && (clip_count data * 24 <=? 2 ^ 48)) with true by lia.
Qed.

Lemma part_signal_wire i :
  utf8 id → (i < parts_number data)%nat →
  unmarshal_signal (marshal_signal (part_signal id data i)) = Some (part_signal id data i).
Proof.
  intros Hid Hi. pose proof (clip_count_range data Hdata) as Hc. unfold parts_number in Hi.
  rewrite signal_roundtrip.
  - unfold valid_signal, part_signal, clip_signal.
    cbn [sg_Type sg_ID sg_Ufrag sg_Pwd sg_Cand sg_N sg_Of sg_Data]. rewrite Hid.
    rewrite (plain_ascii (Std_encode _)) by apply Std_encode_plain. done.
  - cbn. unfold inInt64, minInt64, maxInt64. lia.
  - cbn. unfold inInt64, minInt64, maxInt64. lia.
Qed.

(** Whether the text is new or under way, its entry is that of [S]. *)
Lemma parts_entry S d :
  collecting dev id data S d →
  (match r_clips (d_rns d) !! text_key dev id with
   | Some cp => ret cp
   | None => match make_parts (clip_count data) with Some l => ret (mkClipParts l 0) | None => panic end
   end) d = (Ok (collected data (parts_number data) S), d).
Proof.
  unfold collecting. intros ->. destruct (decide (S = ∅)) as [->|]; [|done].
  rewrite make_parts_ok. done.
Qed.

Lemma receiveClipPart_step i S d :
  (i < parts_number data)%nat → S ⊆ part_set (parts_number data) → (size S < parts_number data)%nat →
  collecting dev id data S d →
  receiveClipPart clipboard_set dev (part_signal id data i) d =
    if decide (size ({[i]} ∪ S) = parts_number data)
    then clip_complete clipboard_set dev (part_signal id data i) data
           (put_clips (delete (text_key dev id) (r_clips (d_rns d))) d)
    else (Ok (), put_clips (<[text_key dev id := collected data (parts_number data) ({[i]} ∪ S)]>
                              (r_clips (d_rns d))) d).
Proof.
  intros Hi HS Hsz Hd. unfold receiveClipPart, part_signal, clip_signal.
  cbn [sg_Of sg_N sg_Data]. rewrite part_guards, part_decodes by done.
  pose proof (clip_part_length data i) as Hl. change hubClipPart with 138 at 1.
  rewrite (proj2 (Z.ltb_ge _ _)) by lia. unfold clip_key. cbn [sg_ID]. fold (text_key dev id).
  rewrite bind_Ok with (a := d) (s' := d) by done.
  rewrite (bind_Ok _ _ _ _ _ (parts_entry S d Hd)). cbn [cp_parts cp_got collected].
  rewrite Nat2Z.id, parts_of_length, parts_of_lookup by done.
  pose proof (clip_count_range data Hdata) as Hc.
  assert (Z.of_nat (parts_number data) = clip_count data) as Hpn by (apply Z2Nat.id; lia).
  rewrite Hpn, Z.eqb_refl.
  cbn [negb orb]. destruct (decide (i ∈ S)) as [HiS|HiS].
  - rewrite bool_decide_eq_false_2 by done. cbn [negb].
    replace ({[i]} ∪ S) with S by set_solver. rewrite decide_False by lia. done.
  - rewrite bool_decide_eq_true_2 by done. cbn [negb]. rewrite parts_of_insert by done.
    assert (size ({[i]} ∪ S) = size S + 1)%nat as Hs.
    { rewrite size_union by set_solver. rewrite size_singleton. lia. }
    rewrite parts_of_length.
    replace (Z.of_nat (size S) + 1) with (Z.of_nat (size ({[i]} ∪ S))) by lia.
    destruct (decide (size ({[i]} ∪ S) = parts_number data)) as [Hfull|Hfull].
    + rewrite (proj2 (Z.eqb_eq _ _)) by lia.
      rewrite parts_of_full, clip_parts_concat.
      * rewrite bind_Ok with (a := ()) (s' := put_clips (delete (text_key dev id) (r_clips (d_rns d))) d) by done.
        done.
      * intros j Hj. rewrite (size_full _ _ (insert_part _ _ _ Hi HS) Hfull). by apply elem_of_part_set.
    + rewrite (proj2 (Z.eqb_neq _ _)) by lia. done.
Qed.
End parts.

(** ** Replies go out or not, and change only the node *)

Definition only_node (d d' : Daemon) : Prop := ∃ n, d' = with_rns (with_node n (d_rns d)) d.
#[export] Instance only_node_preorder : PreOrder only_node.
Proof.
  split; [intros d; exists (r_node (d_rns d)); by destruct d as [? ? ? ? ? ? ? ? ? [] ? ?]|].
  intros d1 d2 d3 [x ->] [y ->]. by exists y.
Qed.

Lemma on_rns_node_keeps {A} (m : M Node A) : keeps only_node (on_rns_node m).
Proof.
  intros d r d' E. unfold on_rns_node in E. destruct (r_node (d_rns d)) as [n|].
  - destruct (m n) as [r0 n']. injection E as <- <-. by exists (Some n').
  - injection E as <- <-. reflexivity.
Qed.
#[export] Hint Resolve on_rns_node_keeps : keeps.

Lemma sendSignal_keeps `{Reticulum} ctx target s : keeps only_node (sendSignal ctx target s).
Proof.
  unfold sendSignal. apply keeps_bind; [apply _|auto with keeps|]. intros d.
  repeat case_match; auto with keeps.
Qed.
#[export] Hint Resolve sendSignal_keeps : keeps.

Lemma sendSignal_returns `{Reticulum} c target s d :
  finished (sendSignal (Some c) target s d).1 = true.
Proof.
  unfold sendSignal. rewrite bind_Ok with (a := d) (s' := d) by done.
  destruct (r_node (d_rns d)) as [n|] eqn:En; [|done]. destruct (Config.Lookup _ _) as [dev|]; [|done].
  case_match; [done|]. destruct (hex_decode _) as [pub|]; [|done]. unfold bind, on_rns_node.
  rewrite En. pose proof (Send_returns c (d_now d) pub (marshal_signal s) n) as Hs.
  by destruct (Send _ _ _ _ n) as [[] n'].
Qed.

Lemma send_reply_ok `{Reticulum} fp s d :
  ∃ d', send_reply fp s d = (Ok (), d') ∧ only_node d d'.
Proof.
  unfold send_reply, ignore. pose proof (sendSignal_returns 300 fp s d) as Hf.
  destruct (sendSignal (Some 300%nat) fp s d) as [r d'] eqn:E. pose proof (sendSignal_keeps _ _ _ _ _ _ E) as Hk.
  exists d'. unfold bind, try. rewrite E. by destruct r.
Qed.

Lemma clip_complete_ok `{Reticulum} clipboard_set dev s text d :
  clipboard_set text "text/plain" = None →
  ∃ d', clip_complete clipboard_set dev s text d = (Ok (), d') ∧
    d_clipboard d' = d_clipboard d ++ [(text, "text/plain")] ∧ r_clips (d_rns d') = r_clips (d_rns d).
Proof.
  intros Hset. unfold clip_complete. rewrite Hset.
  set (ev := mkEvent _ _ _ _ _ _ _ _ _ _).
  set (d1 := add_clipboard text "text/plain" d). set (d2 := (daemon_broadcast ev d1).2).
  set (d3 := (notify ("Clipboard from " +:+ dev_Name dev) "Received through the Reticulum hubs." d2).2).
  rewrite bind_Ok with (a := ()) (s' := d1) by done. rewrite bind_Ok with (a := ()) (s' := d2) by done.
  rewrite bind_Ok with (a := ()) (s' := d3) by done.
  destruct (send_reply_ok (dev_Fingerprint dev) (simple_signal "clip-ack" (sg_ID s)) d3) as (d' & -> & n & ->).
  eexists. split; [reflexivity|]. done.
Qed.

(** ** The inbox brings the parts *)

Section delivery.
Context `{Reticulum} (clipboard_set : bytes → string → option error) (reach : channel + error).
Variables (dev : Device) (pub : bytes) (id : string) (data : bytes).
Hypothesis (Hdata : Z.of_nat (length data) ≤ hubClipMax).
Hypothesis (Hid : utf8 id).

Definition part_message (i : nat) : Message := mkMessage pub (marshal_signal (part_signal id data i)).

(** The parts in [S] are collected and [msgs] wait in the inbox. *)
Definition receiving (S : gset nat) (msgs : list Message) (d : Daemon) : Prop :=
  deviceByRNS d pub = Some dev ∧ collecting dev id data S d ∧
  ∃ n, r_node (d_rns d) = Some n ∧ n_inbox n = msgs.

Definition kicked (d : Daemon) : Daemon := with_rns (same_kick true (d_rns d)) d.

Lemma part_message_signal i :
  (i < parts_number data)%nat →
  unmarshal_signal (msg_Body (part_message i)) = Some (part_signal id data i).
Proof. by apply part_signal_wire. Qed.

(** The loop takes the first message and handles it. *)
Lemma rnsInbox_part k i msgs S d :
  (i < parts_number data)%nat → receiving S (part_message i :: msgs) d →
  ∃ d1, receiving S msgs d1 ∧ d_clipboard d1 = d_clipboard d ∧
    rnsInbox clipboard_set (1 + k) reach d =
      bind (receiveClipPart clipboard_set dev (part_signal id data i))
        (λ _, rnsInbox clipboard_set k reach) d1.
Proof.
  intros Hi (Hdev & Hcol & n & Hn & Hin).
  set (d0 := with_rns (with_node (Some (with_inbox msgs n)) (d_rns d)) d).
  exists (kicked d0). split_and!; [|done|].
  - split_and!; [done|done|]. by exists (with_inbox msgs n).
  - cbn [rnsInbox Nat.add]. unfold pop_inbox. rewrite bind_assoc, bind_Ok with (a := d) (s' := d) by done.
    rewrite Hn, Hin. rewrite bind_assoc, bind_Ok with (a := ()) (s' := d0) by done. rewrite bind_ret_l.
    unfold bind at 1 2. unfold rns_message. rewrite bind_Ok with (a := d0) (s' := d0) by done.
    change (deviceByRNS d0 (msg_From (part_message i))) with (deviceByRNS d pub). rewrite Hdev.
    rewrite part_message_signal by done. rewrite bind_Ok with (a := ()) (s' := kicked d0) by done.
    reflexivity.
Qed.

Lemma inbox_collect js k msgs S d :
  Forall (λ i, i < parts_number data)%nat js → S ⊆ part_set (parts_number data) →
  (size (list_to_set js ∪ S) < parts_number data)%nat →
  receiving S (map part_message js ++ msgs) d →
  ∃ d', rnsInbox clipboard_set (length js + k) reach d = rnsInbox clipboard_set k reach d' ∧
    receiving (list_to_set js ∪ S) msgs d' ∧ d_clipboard d' = d_clipboard d.
Proof.
  revert S d. induction js as [|i js IH]; intros S d His HS Hsz Hd.
  { exists d. cbn [list_to_set foldr]. rewrite (left_id_L ∅ (∪)). split_and!; done. }
  apply Forall_cons_1 in His as [Hi His]. change (list_to_set (i :: js)) with ({[i]} ∪ list_to_set js : gset nat) in Hsz |- *.
  destruct (rnsInbox_part (length js + k) i _ S d Hi Hd) as (d1 & (Hdev & Hcol & Hin) & Hc & E).
  assert (list_to_set js ∪ ({[i]} ∪ S) = {[i]} ∪ list_to_set js ∪ S) as Hun by set_solver.
  assert (size S < parts_number data)%nat as HszS.
  { eapply Nat.le_lt_trans; [|exact Hsz]. apply subseteq_size. set_solver. }
  assert (size ({[i]} ∪ S) < parts_number data)%nat as HszS'.
  { eapply Nat.le_lt_trans; [|exact Hsz]. apply subseteq_size. set_solver. }
  set (d2 := put_clips (<[text_key dev id := collected data (parts_number data) ({[i]} ∪ S)]>
                          (r_clips (d_rns d1))) d1).
  destruct (IH ({[i]} ∪ S) d2) as (d' & E' & Hr & Hc').
  - done.
  - by apply insert_part.
  - by rewrite Hun.
  - split_and!; [done| |exact Hin]. unfold collecting. rewrite decide_False by set_solver.
    cbn. apply lookup_insert_eq.
  - exists d'. rewrite Hun in Hr. split_and!; [|done|by rewrite Hc', <-Hc].
    change (length (i :: js) + k)%nat with (1 + (length js + k))%nat. rewrite E.
    unfold bind. rewrite (receiveClipPart_step _ _ _ _ Hdata i S d1) by done.
    rewrite decide_False by lia. exact E'.
Qed.

Lemma inbox_last i msgs S d :
  (i < parts_number data)%nat → S ⊆ part_set (parts_number data) →
  (size S < parts_number data)%nat → size ({[i]} ∪ S) = parts_number data →
  clipboard_set data "text/plain" = None →
  receiving S (part_message i :: msgs) d →
  ∃ d', rnsInbox clipboard_set 1 reach d = (Ok (), d') ∧
    d_clipboard d' = d_clipboard d ++ [(data, "text/plain")] ∧
    r_clips (d_rns d') !! text_key dev id = None.
Proof.
  intros Hi HS Hsz Hfull Hset Hd.
  destruct (rnsInbox_part 0 i _ S d Hi Hd) as (d1 & (Hdev & Hcol & Hin) & Hc & E).
  change 1%nat with (1 + 0)%nat. rewrite E. unfold bind.
  rewrite (receiveClipPart_step _ _ _ _ Hdata i S d1) by done. rewrite decide_True by done.
  destruct (clip_complete_ok clipboard_set dev (part_signal id data i) data
    (put_clips (delete (text_key dev id) (r_clips (d_rns d1))) d1) Hset) as (d' & -> & H1 & H2).
  exists d'. split_and!; [done| |].
  - rewrite H1. by rewrite <-Hc.
  - rewrite H2. cbn. apply lookup_delete_eq.
Qed.
End delivery.

(** All parts but one are a smaller set; the last completes it. *)
Lemma last_part js i n :
  (∀ j, j ∈ js ++ [i] ↔ (j < n)%nat) → i ∉ js →
  (list_to_set js ∪ ∅ : gset nat) ⊆ part_set n ∧ (size (list_to_set js ∪ ∅ : gset nat) < n)%nat ∧
  size ({[i]} ∪ (list_to_set js ∪ ∅) : gset nat) = n ∧ Forall (λ j, j < n)%nat js.
Proof.
  intros Hall Hi. set (S := list_to_set js ∪ ∅ : gset nat).
  assert ({[i]} ∪ S = part_set n) as HS.
  { apply set_eq. intros j. rewrite elem_of_part_set, <-Hall. unfold S. set_solver. }
  assert (size ({[i]} ∪ S) = n) as Hfull by (rewrite HS; apply size_part_set).
  split_and!; [rewrite <-HS; set_solver| |done|].
  - rewrite <-Hfull, size_union by (unfold S; set_solver). rewrite size_singleton. lia.
  - apply list.Forall_forall. intros j Hj. apply Hall. set_solver.
Qed.

(** C23: a clipboard text of at most hubClipMax bytes that arrives through
    the hubs is put together whatever the order of its parts and however often
    each of them comes: while a part is missing the clipboard stays as it js,
    and the last one sets it, once, to exactly the text that was sent. *)
Theorem clip_parts_deliver `{Reticulum} clipboard_set reach dev pub id data js i d n :
  Z.of_nat (length data) ≤ hubClipMax → utf8 id →
  deviceByRNS d pub = Some dev → r_clips (d_rns d) !! text_key dev id = None →
  r_node (d_rns d) = Some n → n_inbox n = map (part_message pub id data) (js ++ [i]) →
  (∀ j, j ∈ js ++ [i] ↔ (j < parts_number data)%nat) → i ∉ js →
  clipboard_set data "text/plain" = None →
  ∃ d1 d2, rnsInbox clipboard_set (length js) reach d = (Ok (), d1) ∧ d_clipboard d1 = d_clipboard d ∧
    rnsInbox clipboard_set (length (js ++ [i])) reach d = (Ok (), d2) ∧
    d_clipboard d2 = d_clipboard d ++ [(data, "text/plain")] ∧
    r_clips (d_rns d2) !! text_key dev id = None.
Proof.
  intros Hdata Hid Hdev Hcl Hn Hin Hall Hi Hset.
  destruct (last_part js i _ Hall Hi) as (HS & Hsz & Hfull & His).
  assert (receiving dev pub id data ∅ (map (part_message pub id data) js ++ [part_message pub id data i]) d) as Hd.
  { split_and!; [done|by unfold collecting; rewrite decide_True|]. exists n. split; [done|].
    by rewrite Hin, map_app. }
  pose proof (inbox_collect clipboard_set reach dev pub id data Hdata Hid js) as Hcollect.
  destruct (Hcollect 0%nat _ (@empty (gset nat) gset_empty) d His ltac:(set_solver) Hsz Hd) as (d1 & E1 & _ & Hc1).
  destruct (Hcollect 1%nat _ (@empty (gset nat) gset_empty) d His ltac:(set_solver) Hsz Hd) as (d1' & E2 & Hr & Hc2).
  destruct (inbox_last clipboard_set reach dev pub id data Hdata Hid i [] (list_to_set js ∪ ∅) d1') as (d2 & E3 & Hc3 & Hcl2);
    [apply Hall; set_solver|done..|].
  exists d1, d2. rewrite Nat.add_0_r in E1. rewrite length_app.
  change (length [i]) with 1%nat. split_and!; [exact E1|done| |by rewrite Hc3, Hc2|done].
  by rewrite E2.
Qed.

(** Three parts of 300 bytes; the last comes first, and twice. *)
Definition demo_text : bytes := repeat "a"%char 300.
Definition demo_rns_phone : Device :=
  mkDevice "phone" (Fingerprint (bs "phone certificate")) "" 0 "" (hex_encode (toy_public (bs "phone"))).
Definition demo_clip_node (order : list nat) : Node :=
  with_inbox (map (part_message (toy_public (bs "phone")) "0123456789abcdef" demo_text) order)
    (node_of (bs "pc")).
Definition demo_clip_daemon (order : list nat) : Daemon :=
  let d := demo_daemon [demo_rns_phone] in
  with_rns (with_node (Some (demo_clip_node order)) (d_rns d)) d.

Lemma clip_parts_deliver_witness :
  let d := demo_clip_daemon ([2; 0; 2] ++ [1])%nat in
  let reach := inr EOF in
  ∃ d1 d2, @rnsInbox toy_reticulum (λ _ _, None) (length [2; 0; 2]%nat) reach d = (Ok (), d1) ∧
    d_clipboard d1 = d_clipboard d ∧
    @rnsInbox toy_reticulum (λ _ _, None) (length ([2; 0; 2] ++ [1])%nat) reach d = (Ok (), d2) ∧
    d_clipboard d2 = d_clipboard d ++ [(demo_text, "text/plain")] ∧
    r_clips (d_rns d2) !! text_key demo_rns_phone "0123456789abcdef" = None.
Proof.
  cbv zeta.
  apply (@clip_parts_deliver toy_reticulum (λ _ _, None) (inr EOF) demo_rns_phone (toy_public (bs "phone"))
           "0123456789abcdef" demo_text [2; 0; 2]%nat 1%nat _ (demo_clip_node ([2; 0; 2] ++ [1])%nat)).
  - by vm_compute.
  - by vm_compute.
  - by vm_compute.
  - by vm_compute.
  - done.
  - done.
  - intros j. change (parts_number demo_text) with 3%nat. cbn [app]. set_unfold. lia.
  - set_unfold. lia.
  - done.
Defined.

Lemma clip_signals_fit_witness :
  let s := clip_signal "0123456789abcdef" 29 30 (Std_encode (clip_part (repeat "z"%char 4096) 29)) in
  Z.of_nat (length (marshal_signal s)) ≤ @MaxMessage toy_reticulum.
Proof.
  cbv zeta. apply (@clip_signals_fit toy_reticulum "0123456789abcdef" (repeat "z"%char 4096)).
  - by vm_compute.
  - by vm_compute.
  - vm_compute. lia.
  - by vm_compute.
  - unfold clip_signals. apply list_elem_of_fmap. exists 29%nat. split; [by vm_compute|].
    change (clip_count (repeat "z"%char 4096)) with 30. apply elem_of_seq. lia.
Defined.

(** A trusted peer that claims 2^62 parts gets past the guard, whose product
    wraps around to a negative number, and the allocation panics: the daemon
    is down. *)
Example clip_part_count_overflow :
  (@receiveClipPart toy_reticulum (λ _ _, None) demo_rns_phone
     (clip_signal "x" 0 (2 ^ 62) "") (demo_clip_daemon [])).1 = Panic.
Proof. vm_compute. reflexivity. Qed.
