(* ===== verification/Dial.v ===== *)
(** * internal/daemon/send.go, dialerror.go: reaching a device and sending to it

    dialPeer with its fallbacks (a fresh address from mDNS, a direct channel,
    a wake push through the relay), the Hello exchange, and the two senders
    that run a session of Send.v on the connection. *)

From S2P Require Import Prelude GoStrings GoFmt Go GoNet Json JsonRec Fs Proto Ipc Paths Receive Config.
From S2P Require Import Send Transport Rns Hubs World Peer Signals.
From Stdlib Require Import ZArith Lia String Ascii List Bool.
From stdpp Require Import base list strings gmap option numbers.

#[local] Open Scope string_scope.
#[local] Open Scope list_scope.
#[local] Open Scope Z_scope.

(** ** dialerror.go *)

(** [errors.As] for a [net.Error] that is a timeout. *)
Fixpoint isTimeout (e : error) : bool :=
  match e with
  | DeadlineExceeded => true
  | Errno n => bool_decide (n = ETIMEDOUT)
  | Wrapf _ e' | Unreachable _ e' => isTimeout e'
  | _ => false
  end.

Definition dialFailure (dev : Device) (err : error) (seenOnLAN : bool) (wake : string) : error :=
  let addr := dev_Addr dev in
  let name := dev_Name dev in
  let host := match SplitHostPort addr with inl (h, _) => h | inr _ => addr end in
  let msg :=
    if is_errno EHOSTUNREACH err || is_errno ENETUNREACH err then
      name +:+ " is not on this network: no route to " +:+ host +:+ ". " +:+
      "Put both devices on the same Wi-Fi — a wake push only opens the phone's " +:+
      "receive window, it cannot create a route."
    else if is_errno ECONNREFUSED err then
      if seenOnLAN then
        name +:+ " is on this network but nothing is listening on " +:+ addr +:+ ": " +:+
        "the app's receive window is closed."
      else
        "nothing is listening on " +:+ addr +:+ ", and " +:+ name +:+ " is not announcing " +:+
        "itself on this network either — it is probably on another Wi-Fi or on " +:+
        "mobile data, and " +:+ host +:+ " is a stale address."
    else if isTimeout err then
      name +:+ " did not answer at " +:+ addr +:+ " in time: it may be asleep, or this " +:+
      "network may isolate clients from each other (guest Wi-Fi often does)."
    else "cannot reach " +:+ name +:+ " at " +:+ addr +:+ ": " +:+ error_text err in
  Errorf (if wake =?s "" then msg else msg +:+ " " +:+ wake).

(** ** Outside the process *)

(** What the daemon meets while it dials, each answer at the time of the
    question: TCP, the direct channel that ICE sets up, the devices that
    answer an mDNS query, the relay's HTTP status and body; how long a call
    takes, and what the daemon's other goroutines do to its state meanwhile. *)
Record surroundings := mkSurroundings {
  env_connect : Z → bool → string → remote_peer + error;
  env_lanControl : bool;
  env_reach : Z → Device → channel + error;
  env_mdns : Z → list (string * string * string);
  env_post : Z → string → bytes → (Z * bytes) + error;
  env_took : Z → Z;
  env_others : Daemon → Daemon;
}.

(** A context ends at an instant, with its error; [None]: never. *)
Definition context := option (Z * error).
Definition ctx_err (ctx : context) (now : Z) : option error :=
  match ctx with Some (t, e) => if t <=? now then Some e else None | None => None end.

Definition millisecond : Z := 10 ^ 6.
Definition second : Z := 10 ^ 9.
Definition wakePollInterval : Z := 500 * millisecond.
Definition wakeTimeout : Z := 15 * second.
Definition mdnsRecoverPoll : Z := 200 * millisecond.
Definition mdnsRecoverTimeout : Z := 2 * second.

Definition set_now (t : Z) (d : Daemon) : Daemon := with_cs (mkCstate (d_store d) (d_fs d) t) d.

Section dial.
Context `{Reticulum} (env : surroundings).

(** [n] nanoseconds go by; others run. *)
Definition elapse (n : Z) : M Daemon unit :=
  modify (λ d, set_now (d_now d + Z.max 0 n) (env_others env d)).
(** A blocking call of the network. *)
Definition blocking : M Daemon unit := now <- asks d_now ;; elapse (env_took env now).

(** [select] between the end of the context and a timer. *)
Definition sleep (ctx : context) (n : Z) : M Daemon unit :=
  now <- asks d_now ;;
  match ctx with
  | Some (t, e) => if t <=? now + n then elapse (t - now) ;;; throw e else elapse n
  | None => elapse n
  end.

Definition dial_tcp (addr : string) : M Daemon (conn * string) :=
  blocking ;;;
  r <- dial (env_connect env) (env_lanControl env) addr ;;
  ret (rm_conn r.1, r.2).

Definition refresh_mdns (want : string) : M Daemon bool :=
  blocking ;;;
  now <- asks d_now ;;
  refreshAddrViaMDNS want (env_mdns env now).

(** ** The recovery loops

    Both end by their deadline: 12 rounds of 200 ms, 31 of 500 ms. *)
Fixpoint mdns_recover (fuel : nat) (ctx : context) (target : string) (deadline : Z) (dev : Device)
    (err : error) : M Daemon (Device * ((conn * string) + error)) :=
  match fuel with
  | O => out_of_fuel
  | S fuel =>
      d <- get_state ;;
      r <- (match Config.Lookup (d_store d) target with
            | Some cur =>
                if negb (dev_Addr cur =?s dev_Addr dev) then
                  r <- try (dial_tcp (dev_Addr cur)) ;; ret (cur, r)
                else ret (dev, inr err)
            | None => ret (dev, inr err)
            end) ;;
      match r with
      | (dev, inl c) => ret (dev, inl c)
      | (dev, inr err) =>
          now <- asks d_now ;;
          if deadline <? now then ret (dev, inr err)
          else sleep ctx mdnsRecoverPoll ;;; mdns_recover fuel ctx target deadline dev err
      end
  end.
Definition recover_fuel : nat := 12.

Fixpoint wake_poll (fuel : nat) (ctx : context) (target : string) (deadline : Z) (dev : Device)
    : M Daemon (Device * ((conn * string) + error)) :=
  match fuel with
  | O => out_of_fuel
  | S fuel =>
      sleep ctx wakePollInterval ;;;
      d <- get_state ;;
      let dev := default dev (Config.Lookup (d_store d) target) in
      r <- try (dial_tcp (dev_Addr dev)) ;;
      match r with
      | inl c => ret (dev, inl c)
      | inr err =>
          now <- asks d_now ;;
          if deadline <? now then ret (dev, inr err) else wake_poll fuel ctx target deadline dev
      end
  end.
Definition wake_fuel : nat := 31.

(** ** The wake push *)

Definition wake_json (fingerprint sender token : string) : json :=
  JObj (req_str "fingerprint" fingerprint ++ req_str "sender" sender ++ req_str "fcm_token" token).

Definition wakeViRelay (dev : Device) : M Daemon unit :=
  d <- get_state ;;
  blocking ;;;
  now <- asks d_now ;;
  match env_post env now (o_relayAddr (d_set d) +:+ "/wake")
          (print (wake_json (dev_Fingerprint dev) (o_name (d_set d)) (dev_FcmToken dev))) with
  | inr e => throw e
  | inl (status, body) =>
      if status =? 200 then ret ()
      else throw (Errorf ("relay: status " +:+ itoa status +:+ ": " +:+ str body))
  end.

(** The last resort after [err]: the device and the connection it opened, or
    the error and what to say about the wake. *)
Definition try_wake (ctx : context) (target : string) (dev : Device) (err : error)
    : M Daemon (Device * ((conn * string) + (error * string))) :=
  d <- get_state ;;
  let name := dev_Name dev in
  let relay := o_relayAddr (d_set d) in
  if dev_FcmToken dev =?s "" then
    ret (dev, inr (err, "No wake was tried: " +:+ name +:+ " hasn't shared an FCM token yet " +:+
                        "(it does so on its next direct connection)."))
  else if relay =?s "" then
    ret (dev, inr (err, "No wake was tried: no relay is configured (ADROP_RELAY)."))
  else
    woken <- try (wakeViRelay dev) ;;
    match woken with
    | inr werr =>
        ret (dev, inr (err, "The wake relay at " +:+ relay +:+ " could not be reached: " +:+
                            error_text werr +:+ "."))
    | inl _ =>
        now <- asks d_now ;;
        r <- wake_poll wake_fuel ctx target (now + wakeTimeout) dev ;;
        ret (match r with
             | (dev, inl c) => (dev, inl c)
             | (dev, inr err) =>
                 (dev, inr (err, "A wake push was delivered, but " +:+ dev_Name dev +:+
                                 " did not open its receive window within 15s."))
             end)
    end.

(** ** dialPeer *)

(** The connection to the device, however it was reached. [id] names the
    direct-channel setup. *)
Definition canGoDirect (d : Daemon) (dev : Device) : bool :=
  bool_decide (r_node (d_rns d) ≠ None) && negb (dev_RNS dev =?s "").

Definition connect_peer (ctx : context) (id target : string) (dev : Device)
    : M Daemon (Device * conn * string) :=
  d <- get_state ;;
  let direct := canGoDirect d dev in
  r <- try (dial_tcp (dev_Addr dev)) ;;
  match r with
  | inl (c, fp) => ret (dev, c, fp)
  | inr err =>
      seenOnLAN <- refresh_mdns (dev_Fingerprint dev) ;;
      now <- asks d_now ;;
      r <- mdns_recover recover_fuel ctx target (now + mdnsRecoverTimeout) dev err ;;
      match r with
      | (dev, inl (c, fp)) => ret (dev, c, fp)
      | (dev, inr lanErr) =>
          r <- (if direct then
                  blocking ;;;
                  now <- asks d_now ;;
                  try (dialDirect (env_reach env now dev) id dev)
                else ret (inr lanErr)) ;;
          match r with
          | inl (c, fp) => ret (dev, c, fp)
          | inr _ =>
              r <- try_wake ctx target dev lanErr ;;
              match r with
              | (dev, inl (c, fp)) => ret (dev, c, fp)
              | (dev, inr (err, wake)) =>
                  throw (Unreachable dev (dialFailure dev err seenOnLAN wake))
              end
          end
      end
  end.

(** The fingerprint check and the Hello exchange. *)
Definition hello_exchange (folders : bool) (dev : Device) (fp : string) : M peer unit :=
  if negb (fp =?s dev_Fingerprint dev) then
    throw (Errorf ("peer fingerprint mismatch for " +:+ dev_Name dev))
  else
    send_hello false ;;;
    theirHello <- on_c ReadHeader ;;
    if folders && negb (hdr_Folders theirHello) then
      throw (Errorf "peer does not support folder transfers; update the receiving app")
    else
      on_d (on_store (UpdateFcmToken fp (hdr_FcmToken theirHello))) ;;;
      on_d (on_store (UpdateRNS fp (hdr_RNS theirHello))) ;;;
      ret ().

Definition dialPeer (ctx : context) (id target : string) (folders : bool)
    : M Daemon (conn * Device) :=
  d <- get_state ;;
  match Config.Lookup (d_store d) target with
  | None => throw (Errorf ("no trusted device matching " +:+ quote target))
  | Some dev =>
      r <- connect_peer ctx id target dev ;;
      let '(dev, c, fp) := r in
      h <- on_dialled c (hello_exchange folders dev fp) ;;
      ret (h.2, dev)
  end.

(** pairing.go: Hello *)
Definition daemon_Hello (ctx : context) (id target : string) : M Daemon Device :=
  r <- dialPeer ctx id target false ;; ret r.2.

(** ** Sending *)

(** What one send came to: the lines given to the progress callback, the
    connection it opened as it is when it is closed, and the error. *)
Record sent := mkSent { sent_lines : list string; sent_conn : option conn; sent_err : option error }.

(** Run [session] on the connection [c]; a success makes the device the last
    peer. [checks] says how many more times ctx.Err() is nil. *)
Definition run_session (checks : option nat) (dev : Device) (c : conn) (session : M sworld unit)
    : M Daemon sent := λ d,
  let '(r, w) := session (mkSworld c (d_fs d) [] checks) in
  let d := with_cs (mkCstate (d_store d) (sw_fs w) (d_now d)) d in
  let report := mkSent (sw_progress w) (Some (sw_conn w)) in
  match r with
  | Ok _ => (ignore (on_store (SetLastPeer (dev_Fingerprint dev))) ;;; ret (report None)) d
  | Err e => (Ok (report (Some e)), d)
  | _ => (recast r, d)
  end.
Definition not_sent (e : error) : sent := mkSent [] None (Some e).

Definition SendFiles (ctx : context) (checks : option nat) (id cwd target : string)
    (paths : list string) (progress : bool) : M Daemon sent :=
  m <- try (on_daemon_fs (buildManifest cwd paths)) ;;
  match m with
  | inr e => ret (not_sent e)
  | inl (manifest, fsPaths) =>
      r <- try (dialPeer ctx id target (needsFolders manifest)) ;;
      match r with
      | inr e => ret (not_sent e)
      | inl (c, dev) =>
          run_session checks dev c (send_session progress (dev_Name dev) manifest fsPaths)
      end
  end.

Definition SendClipboard (ctx : context) (id target : string) (data : bytes) (mime : string)
    : M Daemon sent :=
  match clip_too_big data with
  | Some e => ret (not_sent e)
  | None =>
      r <- try (dialPeer ctx id target false) ;;
      match r with
      | inr e => ret (not_sent e)
      | inl (c, dev) => run_session None dev c (clip_session data (default_mime mime))
      end
  end.
End dial.

(** ** Who is at the other end *)

(** The connection [c] is to somebody who proved the certificate [fp]: over
    TCP, or inside a direct channel. *)
Definition proven (env : surroundings) (c : conn) (fp : string) : Prop :=
  (∃ t control addr rm leaf, env_connect env t control addr = inl rm ∧ rm_conn rm = c ∧
     head (tp_certs (rm_tls rm)) = Some leaf ∧ Fingerprint leaf = fp) ∨
  (∃ t dev ch leaf, env_reach env t dev = inl ch ∧ ch_conn ch = c ∧
     head (ch_certs ch) = Some leaf ∧ Fingerprint leaf = fp).

Section authentic.
Context `{Reticulum} (env : surroundings).

Definition proven_pair (r : conn * string) : Prop := proven env r.1 r.2.

Lemma dial_tcp_proven addr : ensures (dial_tcp env addr) proven_pair.
Proof.
  unfold dial_tcp. apply ensures_bind_any. intros _. eapply ensures_bind; [|intros r Hr; apply ensures_ret; exact Hr].
  unfold dial. intros d [rm fp] d' E.
  rewrite bind_Ok with (a := d) (s' := d) in E by done.
  destruct (DialTimeout _ _ _ _ _ _) as [[rm' fp']|] eqn:Ed; [|done]. injection E as <- <- <-.
  apply DialTimeout_pins in Ed as [[_ [control Ec]] (leaf & Hl & Hf)].
  left. by exists (d_now d), control, addr, rm', leaf.
Qed.

Lemma dialDirect_proven t id dev : ensures (dialDirect (env_reach env t dev) id dev) proven_pair.
Proof.
  unfold dialDirect. apply ensures_bind_any. intros _. intros d r d' E.
  rewrite bind_Ok with (a := d) (s' := d) in E by done.
  apply bind_Ok_inv in E as ([r1|e] & d1 & E1 & E2).
  2: { by apply bind_Ok_inv in E2 as ([] & d2 & _ & E2). }
  apply bind_Ok_inv in E2 as ([] & d2 & _ & E2). injection E2 as -> <-.
  apply try_inv in E1 as (r0 & E1 & Hr0). destruct r0; simplify_eq.
  apply bind_Ok_inv in E1 as (c & d3 & E1 & E3). cbv zeta in E3. case_match; [done|].
  injection E3 as <- <-. unfold pinned_channel in E1. destruct (env_reach env t dev) as [ch|] eqn:Er; [|done].
  destruct (handshake _ _ _) as [st|] eqn:Eh; [|done]. injection E1 as <- <-.
  destruct (pinned_handshake (daemon_IsTrusted d) (PinnedConfig (daemon_IsTrusted d)
    (s_certDER (d_store d)) false) _ _ _ eq_refl Eh) as (leaf & Hl & _ & _).
  cbn [tp_certs] in Hl. right. exists t, dev, ch, leaf. split_and!; [exact Er|reflexivity|exact Hl|].
  unfold PeerCertificate. destruct (ch_certs ch) as [|x l]; [discriminate|].
  injection Hl as ->. reflexivity.
Qed.

(** The device of the store that the target names, now or at some moment of
    the call. *)
Definition names (target : string) (dev : Device) : Prop :=
  ∃ st : Store, Config.Lookup st target = Some dev.
Definition recovered (target : string) (r : Device * ((conn * string) + error)) : Prop :=
  names target r.1 ∧ match r.2 with inl c => proven_pair c | inr _ => True end.

Lemma mdns_recover_ensures fuel ctx target deadline dev err :
  names target dev → ensures (mdns_recover env fuel ctx target deadline dev err) (recovered target).
Proof.
  revert dev err. induction fuel as [|fuel IH]; intros dev err Hdev; [done|]. cbn [mdns_recover].
  apply ensures_bind_any. intros d. apply ensures_bind with (Q := recovered target).
  - destruct (Config.Lookup (d_store d) target) as [cur|] eqn:El; [|by apply ensures_ret].
    case_match; [|by apply ensures_ret].
    eapply ensures_bind; [apply ensures_try, dial_tcp_proven|].
    intros r Hr. apply ensures_ret. split; [by exists (d_store d)|]. by destruct r.
  - intros [dev' [c|e]] [Hn Hc]; [by apply ensures_ret|]. apply ensures_bind_any. intros now.
    destruct (deadline <? now); [by apply ensures_ret|]. apply ensures_bind_any. intros _. by apply IH.
Qed.

Lemma wake_poll_ensures fuel ctx target deadline dev :
  names target dev → ensures (wake_poll env fuel ctx target deadline dev) (recovered target).
Proof.
  revert dev. induction fuel as [|fuel IH]; intros dev Hdev; [done|]. cbn [wake_poll].
  apply ensures_bind_any. intros _. apply ensures_bind_any. intros d. cbv zeta.
  set (dev' := default dev _). assert (names target dev') as Hdev'.
  { subst dev'. destruct (Config.Lookup (d_store d) target) eqn:El; [|done]. by exists (d_store d). }
  eapply ensures_bind; [apply ensures_try, dial_tcp_proven|]. intros [c|e] Hr; [by apply ensures_ret|].
  apply ensures_bind_any. intros now.
  destruct (deadline <? now); [by apply ensures_ret|]. by apply IH.
Qed.

Lemma try_wake_ensures ctx target dev err :
  names target dev →
  ensures (try_wake env ctx target dev err)
    (λ r, names target r.1 ∧ match r.2 with inl c => proven_pair c | inr _ => True end).
Proof.
  intros Hdev. unfold try_wake. apply ensures_bind_any. intros d. cbv zeta.
  do 2 (case_match; [by apply ensures_ret|]). apply ensures_bind_any. intros [|]; [|by apply ensures_ret].
  apply ensures_bind_any. intros now. eapply ensures_bind; [by apply wake_poll_ensures|].
  intros [dev' [c|e]] [Hn Hc]; by apply ensures_ret.
Qed.

Lemma connect_peer_ensures ctx id target dev :
  names target dev →
  ensures (connect_peer env ctx id target dev) (λ r, names target r.1.1 ∧ proven env r.1.2 r.2).
Proof.
  intros Hdev. unfold connect_peer. apply ensures_bind_any. intros d. cbv zeta.
  eapply ensures_bind; [apply ensures_try, dial_tcp_proven|].
  intros [[c fp]|err] Hr; [by apply ensures_ret|]. do 2 (apply ensures_bind_any; intros ?).
  eapply ensures_bind; [by apply mdns_recover_ensures|]. intros [dev' [[c fp]|lanErr]] [Hn Hc];
    [by apply ensures_ret|].
  apply ensures_bind with (Q := λ r, match r with inl c => proven_pair c | inr _ => True end).
  { destruct (canGoDirect _ _); [|by apply ensures_ret]. do 2 (apply ensures_bind_any; intros ?).
    apply ensures_try, dialDirect_proven. }
  intros [[c fp]|e] Hr2; [by apply ensures_ret|].
  eapply ensures_bind; [by apply try_wake_ensures|].
  intros [dev2 [[c fp]|[e' w]]] [Hn2 Hc2]; [by apply ensures_ret|done].
Qed.
End authentic.


(** *** A phone to reach *)
Definition demo_phone_hello : bytes :=
  frame (set_hdr_Folders true (set_hdr_Name "phone" (set_hdr_Type TypeHello zero_Header))).
(** The network of [demo_phone]: it answers at [addr] from the time [t] on,
    and mDNS knows that address; elsewhere connections are refused. *)
Definition demo_network (t : Z) (addr : string) (input : bytes) : surroundings :=
  mkSurroundings
    (λ now _ a, if (t <=? now) && (a =?s addr)
                then inl (mkRemote (mkTlsPeer [bs "phone certificate"] []) (conn_closed input) addr)
                else inr (Errno ECONNREFUSED))
    false (λ _ _, inr (Errorf "direct: no candidates"))
    (λ now, if t <=? now then [("phone", addr, Fingerprint (bs "phone certificate"))] else [])
    (λ _ _ _, inl (200, [])) (λ _, millisecond) (λ d, d).


(** ** dialPeer comes back *)

Section returns.
Context `{Reticulum} (env : surroundings).
Definition any_daemon (d : Daemon) : Prop := True.

Lemma elapse_now n d : elapse env n d = (Ok (), set_now (d_now d + Z.max 0 n) (env_others env d)).
Proof. reflexivity. Qed.
Lemma elapse_runs n : runs any_daemon (elapse env n).
Proof. by apply runs_modify. Qed.
Lemma blocking_runs : runs any_daemon (blocking env).
Proof. unfold blocking, asks. auto using elapse_runs with runs. Qed.
Lemma sleep_runs ctx n : runs any_daemon (sleep env ctx n).
Proof.
  unfold sleep, asks. apply runs_bind; [auto with runs|]. intros now.
  repeat case_match; auto using elapse_runs with runs.
Qed.
Lemma sleep_now ctx n d u d' :
  0 ≤ n → sleep env ctx n d = (Ok u, d') → d_now d' = d_now d + n.
Proof.
  unfold sleep, asks. rewrite bind_Ok with (a := d_now d) (s' := d) by done. intros Hn.
  destruct ctx as [[t e]|].
  - destruct (t <=? d_now d + n); [done|]. rewrite elapse_now. intros [= _ <-]. cbn. lia.
  - rewrite elapse_now. intros [= _ <-]. cbn. lia.
Qed.

Lemma dial_runs addr : runs any_daemon (dial (env_connect env) (env_lanControl env) addr).
Proof. unfold dial, of_res. apply runs_bind; [auto with runs|]. intros d. case_match; auto with runs. Qed.
Lemma dial_tcp_runs addr : runs any_daemon (dial_tcp env addr).
Proof. unfold dial_tcp. eauto using blocking_runs, dial_runs with runs. Qed.
Lemma dial_tcp_now addr d : d_now d ≤ d_now (dial_tcp env addr d).2.
Proof.
  unfold dial_tcp, blocking, asks. rewrite bind_assoc, bind_Ok with (a := d_now d) (s' := d) by done.
  rewrite bind_Ok with (a := ()) (s' := set_now (d_now d + Z.max 0 (env_took env (d_now d))) (env_others env d)) by done.
  set (d1 := set_now _ _). assert (d_now d ≤ d_now d1) as Hle by (cbn; lia).
  unfold dial, bind at 1 2. unfold get_state. unfold of_res.
  by destruct (DialTimeout _ _ _ _ _ _) as [[rm fp]|].
Qed.
Lemma on_store_runs {A} (m : M cstate A) : runs any_cstate m → runs any_daemon (on_store m).
Proof. intros Hm. by eapply runs_zoom. Qed.
Lemma refreshAddrViaMDNS_runs want l : runs any_daemon (refreshAddrViaMDNS want l).
Proof.
  induction l as [|[[name addr] fp] l IH]; [apply runs_ret|]. cbn [refreshAddrViaMDNS]. unfold asks.
  do 2 (apply runs_bind; [auto with runs|intros ?]). cbv zeta.
  apply runs_bind; [|intros _; eauto with runs].
  case_match; auto using on_store_runs with runs.
Qed.
Lemma refresh_mdns_runs want : runs any_daemon (refresh_mdns env want).
Proof.
  unfold refresh_mdns, asks. apply runs_bind; [apply blocking_runs|]. intros _.
  apply runs_bind; [auto with runs|]. intros now. apply refreshAddrViaMDNS_runs.
Qed.
Lemma wakeViRelay_runs dev : runs any_daemon (wakeViRelay env dev).
Proof.
  unfold wakeViRelay, asks. apply runs_bind; [auto with runs|]. intros d.
  apply runs_bind; [apply blocking_runs|]. intros _. apply runs_bind; [auto with runs|]. intros now.
  repeat case_match; auto with runs.
Qed.
Lemma dialDirect_runs t id dev : runs any_daemon (dialDirect (env_reach env t dev) id dev).
Proof.
  unfold dialDirect, iceInbox, dropIceInbox, on_rns. apply runs_bind; [by apply runs_modify|]. intros _.
  apply runs_bind; [auto with runs|]. intros d. unfold of_res.
  apply runs_bind.
  - apply runs_try, runs_bind; [case_match; auto with runs|]. intros c. cbv zeta. case_match; auto with runs.
  - intros r. apply runs_bind; [by apply runs_modify|]. intros _. case_match; auto with runs.
Qed.

(** The first loop: with [fuel] rounds left the deadline is less than
    [fuel - 1] polls away. *)
Lemma mdns_recover_returns fuel ctx target deadline dev err d :
  deadline < d_now d + (Z.of_nat fuel - 1) * mdnsRecoverPoll → (0 < fuel)%nat →
  finished (mdns_recover env fuel ctx target deadline dev err d).1 = true.
Proof.
  revert dev err d. induction fuel as [|fuel IH]; intros dev err d Hdl Hf; [lia|]. cbn [mdns_recover].
  rewrite bind_Ok with (a := d) (s' := d) by done.
  set (step := match Config.Lookup _ _ with Some _ => _ | None => _ end).
  assert (∃ r d1, step d = (Ok r, d1) ∧ d_now d ≤ d_now d1) as (r & d1 & E & Hnow).
  { subst step. destruct (Config.Lookup _ _) as [cur|]; [|by eexists _, _].
    case_match; [|by eexists _, _]. pose proof (dial_tcp_now (dev_Addr cur) d) as Hle.
    destruct (dial_tcp_runs (dev_Addr cur) d I) as [Hfin _]. unfold bind, try.
    destruct (dial_tcp env (dev_Addr cur) d) as [[] d1]; try done; by eexists _, _. }
  rewrite (bind_Ok _ _ _ _ _ E). destruct r as [dev1 [c|e]]; [done|].
  unfold asks. rewrite bind_Ok with (a := d_now d1) (s' := d1) by done.
  destruct (Z.ltb_spec deadline (d_now d1)); [done|].
  destruct (sleep_runs ctx mdnsRecoverPoll d1 I) as [Hs _].
  destruct (sleep env ctx mdnsRecoverPoll d1) as [[] d2] eqn:Es; try done.
  2: { unfold bind. by rewrite Es. }
  rewrite (bind_Ok _ _ _ _ _ Es).
  apply sleep_now in Es; [|unfold mdnsRecoverPoll, millisecond; lia].
  assert (0 < mdnsRecoverPoll) by (unfold mdnsRecoverPoll, millisecond; lia).
  destruct fuel as [|fuel]; [exfalso; nia|]. apply IH; [|lia]. nia.
Qed.

Lemma wake_poll_returns fuel ctx target deadline dev d :
  deadline < d_now d + Z.of_nat fuel * wakePollInterval → (0 < fuel)%nat →
  finished (wake_poll env fuel ctx target deadline dev d).1 = true.
Proof.
  revert dev d. induction fuel as [|fuel IH]; intros dev d Hdl Hf; [lia|]. cbn [wake_poll].
  assert (0 < wakePollInterval) by (unfold wakePollInterval, millisecond; lia).
  destruct (sleep_runs ctx wakePollInterval d I) as [Hs _].
  destruct (sleep env ctx wakePollInterval d) as [[] d1] eqn:Es; try done.
  2: { unfold bind. by rewrite Es. }
  rewrite (bind_Ok _ _ _ _ _ Es). apply sleep_now in Es; [|lia].
  rewrite bind_Ok with (a := d1) (s' := d1) by done. cbv zeta. set (dev1 := default dev _).
  pose proof (dial_tcp_now (dev_Addr dev1) d1) as Hle.
  destruct (runs_try _ _ (dial_tcp_runs (dev_Addr dev1)) d1 I) as [Hfin _].
  destruct (try (dial_tcp env (dev_Addr dev1)) d1) as [[r|e| | |] d2] eqn:Ed; try done.
  2: { apply try_inv in Ed as ([] & _ & ?); done. }
  rewrite (bind_Ok _ _ _ _ _ Ed). destruct r as [c|e]; [done|].
  unfold asks. rewrite bind_Ok with (a := d_now d2) (s' := d2) by done.
  destruct (Z.ltb_spec deadline (d_now d2)); [done|].
  assert (d_now d1 ≤ d_now d2).
  { apply try_inv in Ed as (r0 & Ed & _). by rewrite Ed in Hle. }
  destruct fuel as [|fuel]; [exfalso; nia|]. apply IH; [nia|lia].
Qed.

Lemma try_wake_runs ctx target dev err : runs any_daemon (try_wake env ctx target dev err).
Proof.
  unfold try_wake, asks. apply runs_bind; [auto with runs|]. intros d. cbv zeta.
  do 2 (case_match; [auto with runs|]). apply runs_bind; [auto using wakeViRelay_runs with runs|].
  intros [|]; [|auto with runs]. intros d1 _. split; [|done].
  rewrite bind_Ok with (a := d_now d1) (s' := d1) by done. apply finished_bind; [|done].
  apply wake_poll_returns; unfold wake_fuel, wakeTimeout, wakePollInterval, second, millisecond; lia.
Qed.

Lemma connect_peer_runs ctx id target dev : runs any_daemon (connect_peer env ctx id target dev).
Proof.
  unfold connect_peer, asks. apply runs_bind; [auto with runs|]. intros d. cbv zeta.
  apply runs_bind; [auto using dial_tcp_runs with runs|]. intros [[c fp]|err]; [auto with runs|].
  apply runs_bind; [apply refresh_mdns_runs|]. intros seen d1 _. split; [|done].
  rewrite bind_Ok with (a := d_now d1) (s' := d1) by done. apply finished_bind.
  { apply mdns_recover_returns; unfold recover_fuel, mdnsRecoverTimeout, mdnsRecoverPoll, second, millisecond; lia. }
  intros [dev1 [[c fp]|e]] d2; [done|].
  assert (∀ (m : M Daemon (Device * conn * string)), runs any_daemon m → finished (m d2).1 = true) as Hr.
  { intros m Hm. by apply Hm. }
  apply Hr. apply runs_bind.
  - case_match; [|auto with runs]. apply runs_bind; [apply blocking_runs|]. intros _.
    apply runs_bind; [auto with runs|]. intros now. apply runs_try, dialDirect_runs.
  - intros [[c fp]|e2]; [auto with runs|]. apply runs_bind; [apply try_wake_runs|].
    intros [dev2 [[c fp]|[e3 w]]]; auto with runs.
Qed.

(** *** The Hello exchange *)
Definition peer_ends (n : nat) (p : peer) : Prop := ends_in n (p_conn p).

Lemma on_d_runs {A} n (m : M Daemon A) : runs any_daemon m → runs (peer_ends n) (on_d m).
Proof. intros Hm. by eapply runs_zoom. Qed.
Lemma on_c_runs {A} n (m : M conn A) : runs (ends_in n) m → runs (peer_ends n) (on_c m).
Proof. intros Hm. by eapply runs_zoom. Qed.
Lemma refreshAdvertiseAddr_runs : runs any_daemon refreshAdvertiseAddr.
Proof.
  unfold refreshAdvertiseAddr. apply runs_bind; [auto with runs|]. intros d. cbv zeta.
  repeat case_match; [auto with runs..|]. by apply runs_modify.
Qed.
Lemma advertiseAddr_runs : runs any_daemon advertiseAddr.
Proof.
  unfold advertiseAddr, asks. apply runs_bind; [auto with runs|]. intros d.
  apply runs_bind; [|auto with runs]. repeat case_match; auto using refreshAdvertiseAddr_runs with runs.
Qed.

Lemma hello_exchange_runs n folders dev fp : runs (peer_ends n) (hello_exchange folders dev fp).
Proof.
  unfold hello_exchange, send_hello. case_match; [auto with runs|].
  apply runs_bind.
  { apply runs_bind; [auto using on_d_runs, advertiseAddr_runs|]. intros addr.
    apply runs_bind; [auto with runs|]. intros d. apply on_c_runs, WriteControl_runs. }
  intros _. apply runs_bind; [auto using on_c_runs, ReadHeader_runs|]. intros h. case_match; [auto with runs|].
  do 2 (apply runs_bind; [apply on_d_runs, on_store_runs, update_field_runs|intros _]). auto with runs.
Qed.
End returns.



(** ** An unreachable device got nothing *)

(** Errors that do not say the peer was never reached. *)
Definition plain_error (e : error) : Prop := as_unreachable e = None.
(** Connections fail with such errors: no other code makes an unreachableError. *)
Definition plain_end (c : conn) : Prop := ∀ e, c_end c = Some e → plain_error e.
Definition plain_peer (p : peer) : Prop := plain_end (p_conn p).
Definition plain_session (w : sworld) : Prop := plain_end (sw_conn w).

Lemma read_full_errs n : errs plain_end plain_error (read_full n).
Proof.
  intros c r c' Hc E. unfold read_full in E. destruct (decide _); [by injection E as <- <-|].
  destruct (c_end c) as [e|] eqn:Ee; [|injection E as <- <-; split; [|done]; intros e; cbn; congruence].
  assert (plain_error e) as He by by apply Hc.
  assert (plain_end (set_c_in [] c)) as Hc'. { intros e'. cbn. rewrite Ee. by intros [= <-]. }
  destruct e; injection E as <- <-; (split; [done|]); intros e' [= <-]; try done. by case_match.
Qed.
Lemma conn_write_errs b : errs plain_end plain_error (conn_write b).
Proof.
  intros c r c' Hc E. unfold conn_write in E. destruct (c_writes c) as [[]|]; injection E as <- <-; (split; [done|]); try done.
  by intros e [= <-].
Qed.
#[export] Hint Resolve read_full_errs conn_write_errs : errs.
#[export] Hint Extern 1 (plain_error _) => reflexivity : errs.

Lemma ReadHeader_errs : errs plain_end plain_error ReadHeader.
Proof.
  unfold ReadHeader. apply errs_bind; [auto with errs|]. intros lb. cbv zeta. case_match; [auto with errs|].
  apply errs_bind; [auto with errs|]. intros raw. case_match; auto with errs.
Qed.
Lemma WriteMessage_errs h p : errs plain_end plain_error (WriteMessage h p).
Proof.
  unfold WriteMessage. cbv zeta. case_match; [auto with errs|].
  do 2 (apply errs_bind; [auto with errs|intros _]). case_match; [|auto with errs].
  destruct p; [|auto with errs]. apply errs_bind; [auto with errs|]. intros _. case_match; auto with errs.
Qed.
Lemma WriteControl_errs h : errs plain_end plain_error (WriteControl h).
Proof. apply WriteMessage_errs. Qed.
#[export] Hint Resolve ReadHeader_errs WriteMessage_errs WriteControl_errs : errs.

Lemma on_c_errs {A} (m : M conn A) : errs plain_end plain_error m → errs plain_peer plain_error (on_c m).
Proof. intros Hm. by eapply errs_zoom. Qed.
Lemma on_d_errs {A} (m : M Daemon A) : errs any_daemon plain_error m → errs plain_peer plain_error (on_d m).
Proof. intros Hm. by eapply errs_zoom. Qed.
Lemma on_store_errs {A} (m : M cstate A) : errs any_cstate plain_error m → errs any_daemon plain_error (on_store m).
Proof. intros Hm. by eapply errs_zoom. Qed.
Lemma s_conn_errs {A} (m : M conn A) : errs plain_end plain_error m → errs plain_session plain_error (s_conn m).
Proof. intros Hm. by eapply errs_zoom. Qed.
#[export] Hint Resolve on_c_errs on_d_errs on_store_errs s_conn_errs : errs.

Lemma modify_errs {S} E (f : S → S) : errs (λ _, True) E (modify f).
Proof. by intros s r s' _ [= <- <-]. Qed.
Lemma advertiseAddr_errs : errs any_daemon plain_error advertiseAddr.
Proof.
  unfold advertiseAddr, asks. apply errs_bind; [auto with errs|]. intros d.
  apply errs_bind; [|auto with errs].
  assert (errs any_daemon plain_error refreshAdvertiseAddr) as Hr.
  { unfold refreshAdvertiseAddr. apply errs_bind; [auto with errs|]. intros d'. cbv zeta.
    repeat case_match; [auto with errs..|]. apply modify_errs. }
  repeat case_match; auto with errs.
Qed.
Lemma update_field_errs get set fp x : errs any_cstate plain_error (update_field get set fp x).
Proof.
  unfold update_field. case_match; [auto with errs|].
  apply errs_bind; [by intros s r s' _ [= <- <-]|]. intros st. case_match; [|auto with errs].
  case_match; [auto with errs|]. apply errs_bind; [apply modify_errs|]. intros _. by apply errs_ignore.
Qed.

Lemma hello_exchange_errs `{Reticulum} folders dev fp : errs plain_peer plain_error (hello_exchange folders dev fp).
Proof.
  unfold hello_exchange, send_hello. case_match; [auto with errs|].
  apply errs_bind; [eauto 10 using advertiseAddr_errs with errs|]. intros _.
  apply errs_bind; [auto with errs|]. intros h. case_match; [auto with errs|].
  do 2 (apply errs_bind; [apply on_d_errs, on_store_errs, update_field_errs|intros _]). auto with errs.
Qed.

(** *** The session's own errors *)
Lemma wrapping_errs {A} pre (m : M sworld A) :
  errs plain_session plain_error m → errs plain_session plain_error (wrapping pre m).
Proof.
  intros Hm w r w' Hw E. unfold wrapping in E. unfold bind, try in E.
  destruct (m w) as [r0 w1] eqn:E0. destruct (Hm _ _ _ Hw E0) as [H1 H2].
  destruct r0 as [a|e0| | |]; injection E as <- <-; (split; [exact H1|]); intros e' He';
    [discriminate He'|injection He' as <-; exact (H2 e0 eq_refl)|discriminate He'..].
Qed.
Lemma read_file_errs p : errs any_fs plain_error (read_file p).
Proof.
  intros s r s' _ E. unfold read_file in E. split; [done|]. intros e ->.
  destruct (fs_nodes s !! p) as [[]|]; by simplify_eq.
Qed.
Lemma s_fs_errs {A} (m : M fs A) : errs any_fs plain_error m → errs plain_session plain_error (s_fs m).
Proof. intros Hm. by eapply errs_zoom. Qed.
Lemma ctx_check_errs : errs plain_session plain_error ctx_check.
Proof.
  intros w r w' Hw E. unfold ctx_check in E. destruct (sw_ctx w) as [[]|]; injection E as <- <-; (split; [done|]); try done.
  by intros e [= <-].
Qed.
Lemma say_errs progress l : errs plain_session plain_error (say progress l).
Proof. unfold say, report. case_match; [|auto with errs]. by intros w r w' Hw [= <- <-]. Qed.
#[export] Hint Resolve wrapping_errs read_file_errs s_fs_errs ctx_check_errs say_errs : errs.

Lemma send_chunks_errs progress fuel name index bytesSent size rest :
  errs plain_session plain_error (send_chunks progress fuel name index bytesSent size rest).
Proof.
  revert bytesSent rest. induction fuel as [|fuel IH]; intros bytesSent rest.
  { by intros w r w' Hw [= <- <-]. }
  cbn [send_chunks]. apply errs_bind; [auto with errs|]. intros _. destruct rest as [|x rest]; [auto with errs|].
  cbv zeta. apply errs_bind; [auto with errs|]. intros _. apply errs_bind; [|intros _; apply IH].
  unfold fileProgress. cbv zeta. apply errs_bind; [auto with errs|]. intros _. apply errs_ignore.
  by eapply errs_weaken; [|apply s_conn_errs, WriteControl_errs].
Qed.
Lemma sendOneFile_errs progress index path m off : errs plain_session plain_error (sendOneFile progress index path m off).
Proof.
  unfold sendOneFile. case_match; [auto with errs|]. apply errs_bind; [auto with errs|].
  intros content. cbv zeta. apply errs_bind; [auto with errs|]. intros _.
  apply errs_bind; [apply send_chunks_errs|auto with errs].
Qed.
Lemma send_entries_errs progress count i l : errs plain_session plain_error (send_entries progress count i l).
Proof.
  revert i. induction l as [|[m path] l IH]; intros i; cbn [send_entries]; [auto with errs|].
  apply errs_bind; [|intros _; apply IH]. unfold send_entry.
  do 3 (apply errs_bind; [auto with errs|intros ?]). apply errs_bind; [auto with errs|]. intros offer.
  case_match; [auto with errs|]. apply errs_bind; [auto using sendOneFile_errs with errs|]. intros _.
  apply errs_bind; [auto with errs|]. intros ack. case_match; auto with errs.
Qed.
Lemma send_session_errs progress name manifest paths :
  errs plain_session plain_error (send_session progress name manifest paths).
Proof.
  unfold send_session. cbv zeta. apply errs_bind; [auto with errs|]. intros _.
  apply errs_bind; [apply send_entries_errs|]. intros _. do 2 (apply errs_bind; [auto with errs|intros ?]).
  case_match; auto with errs.
Qed.
Lemma clip_session_errs data mime : errs plain_session plain_error (clip_session data mime).
Proof. unfold clip_session. do 4 (apply errs_bind; [auto with errs|intros ?]). case_match; auto with errs. Qed.

(** A dial that failed as unreachable found no connection at all. *)
Lemma dialPeer_unreachable `{Reticulum} env ctx id target folders d e d' dev :
  (∀ c fp, proven env c fp → plain_end c) →
  dialPeer env ctx id target folders d = (Err e, d') → as_unreachable e = Some dev →
  ∃ dev0, Config.Lookup (d_store d) target = Some dev0 ∧
    connect_peer env ctx id target dev0 d = (Err e, d').
Proof.
  intros Hend E He. unfold dialPeer in E. rewrite bind_Ok with (a := d) (s' := d) in E by done.
  destruct (Config.Lookup (d_store d) target) as [dev0|] eqn:El; [|injection E as <- <-; discriminate He].
  exists dev0. split; [done|].
  apply bind_inv in E as [([[dev1 c] fp] & d1 & E1 & E2)|(r0 & E1 & _ & Hr)].
  2: { destruct r0; try discriminate Hr. injection Hr as <-. exact E1. }
  exfalso. apply (connect_peer_ensures env ctx id target dev0 ltac:(by exists (d_store d))) in E1 as [_ Hp].
  apply bind_inv in E2 as [([u c2] & d2 & _ & E2)|(r0 & E2 & _ & Hr)]; [discriminate E2|].
  destruct r0; try discriminate Hr. injection Hr as ->. unfold on_dialled in E2.
  destruct (hello_exchange folders dev1 fp (mkPeer c d1)) as [r p] eqn:Eh.
  apply hello_exchange_errs in Eh as [_ Hpl]; [|by eapply Hend].
  destruct r; try discriminate E2. injection E2 as -> _. rewrite (Hpl e0 eq_refl) in He. discriminate He.
Qed.

(** The connection handed out has a plain end. *)
Lemma dialPeer_conn_end `{Reticulum} env ctx id target folders d c' dev d' :
  (∀ c fp, proven env c fp → plain_end c) →
  dialPeer env ctx id target folders d = (Ok (c', dev), d') → plain_end c'.
Proof.
  intros Hend E. unfold dialPeer in E. rewrite bind_Ok with (a := d) (s' := d) in E by done.
  destruct (Config.Lookup (d_store d) target) as [dev0|] eqn:El; [|discriminate E].
  apply bind_Ok_inv in E as ([[dev1 c] fp] & d1 & E1 & E2).
  apply (connect_peer_ensures env ctx id target dev0 ltac:(by exists (d_store d))) in E1 as [_ Hp].
  apply bind_Ok_inv in E2 as ([u c2] & d2 & E2 & E3). injection E3 as <- _ _. unfold on_dialled in E2.
  destruct (hello_exchange folders dev1 fp (mkPeer c d1)) as [r p] eqn:Eh.
  apply hello_exchange_errs in Eh as [Hpl _]; [|by eapply Hend].
  destruct r; try discriminate E2. injection E2 as _ <- _. exact Hpl.
Qed.

Lemma run_session_plain checks dev c session d s d' e :
  errs plain_session plain_error session → plain_end c →
  run_session checks dev c session d = (Ok s, d') → sent_err s = Some e → plain_error e.
Proof.
  intros Hs Hc E He. unfold run_session in E.
  destruct (session _) as [r w] eqn:Es. apply Hs in Es as [_ Hp]; [|exact Hc].
  destruct r as [a|e0| | |]; try discriminate E.
  - apply bind_Ok_inv in E as ([] & d1 & _ & E). injection E as <- _. discriminate He.
  - injection E as <- _. injection He as <-. by apply Hp.
Qed.

Lemma stat_errs p : errs any_fs plain_error (stat p).
Proof.
  intros s r s' _ E. unfold stat in E. split; [done|]. intros e ->.
  destruct (p =?s "/"); [done|]. by destruct (fs_nodes s !! p); simplify_eq.
Qed.
#[export] Hint Resolve stat_errs : errs.
Lemma hashFile_errs p : errs any_fs plain_error (hashFile p).
Proof. unfold hashFile. auto with errs. Qed.
Lemma each_errs {A B} (f : A → M fs (list B)) l :
  (∀ x, errs any_fs plain_error (f x)) → errs any_fs plain_error (each f l).
Proof. intros Hf. induction l as [|x l IH]; cbn [each]; auto with errs. Qed.
Lemma walk_errs fuel parentDir entry : errs any_fs plain_error (walk fuel parentDir entry).
Proof.
  revert entry. induction fuel as [|fuel IH]; intros entry; [by intros s r s' _ [= <- <-]|].
  cbn [walk]. apply errs_bind.
  - unfold visit, lstat. cbv zeta. case_match; [auto with errs|]. apply errs_bind; [auto with errs|].
    intros n. case_match; auto using hashFile_errs with errs.
  - intros m. case_match; [|auto with errs]. apply errs_bind; [auto with errs|]. intros s.
    apply errs_bind; [|auto with errs]. by apply each_errs.
Qed.
Lemma buildManifest_errs cwd paths : errs any_fs plain_error (buildManifest cwd paths).
Proof.
  unfold buildManifest. case_match; [auto with errs|]. apply errs_bind; [|intros l; case_match; auto with errs].
  apply each_errs. intros p. unfold manifest_entry, lstat. cbv zeta. apply errs_bind; [auto with errs|].
  intros n. case_match; [auto using hashFile_errs with errs..| |auto with errs].
  apply errs_bind; [auto with errs|]. intros s0. apply walk_errs.
Qed.

Definition never_connected `{Reticulum} (env : surroundings) ctx id target (e : error) (d' : Daemon) : Prop :=
  ∃ dev d0, Config.Lookup (d_store d0) target = Some dev ∧
    connect_peer env ctx id target dev d0 = (Err e, d').

(** Both senders after the checks of their own: dial, then run the session. *)
Lemma dial_and_run_unreachable `{Reticulum} env ctx checks id target folders session d s d' e dev :
  (∀ c fp, proven env c fp → plain_end c) →
  (∀ dv, errs plain_session plain_error (session dv)) →
  bind (try (dialPeer env ctx id target folders)) (λ r,
    match r with inr e => ret (not_sent e) | inl (c, dv) => run_session checks dv c (session dv) end) d
    = (Ok s, d') →
  sent_err s = Some e → as_unreachable e = Some dev →
  sent_conn s = None ∧ never_connected env ctx id target e d'.
Proof.
  intros Hend Hs E He Hdev. apply bind_Ok_inv in E as ([[c dv]|e0] & d1 & E1 & E2).
  - exfalso. apply try_inv in E1 as (r0 & E1 & Hr). destruct r0; try discriminate Hr.
    injection Hr as <-. apply dialPeer_conn_end in E1; [|done].
    eapply run_session_plain in E2; [|apply Hs|done|done]. rewrite E2 in Hdev. discriminate Hdev.
  - apply try_inv in E1 as (r0 & E1 & Hr). destruct r0; try discriminate Hr. injection Hr as <-.
    injection E2 as <- <-. injection He as ->. split; [done|].
    apply (dialPeer_unreachable _ _ _ _ _ _ _ _ _ Hend E1) in Hdev as (dev0 & Hl & Hc).
    by exists dev0, d.
Qed.

(** C26: a send of files or of a clipboard that fails with the unreachable
    error, the only one that is queued and sent again later, failed while
    connecting: no connection to the device was ever opened, so nothing of the
    session was transferred. *)
Theorem unreachable_sent_nothing `{Reticulum} env ctx checks id cwd target paths progress data mime d s d' e dev :
  (∀ c fp, proven env c fp → plain_end c) →
  SendFiles env ctx checks id cwd target paths progress d = (Ok s, d') ∨
    SendClipboard env ctx id target data mime d = (Ok s, d') →
  sent_err s = Some e → as_unreachable e = Some dev →
  sent_conn s = None ∧ never_connected env ctx id target e d'.
Proof.
  intros Hend [E|E] He Hdev.
  - unfold SendFiles in E. apply bind_Ok_inv in E as ([[manifest fsPaths]|e0] & d1 & E1 & E2).
    + apply (dial_and_run_unreachable env ctx checks id target (needsFolders manifest)
        (λ dv, send_session progress (dev_Name dv) manifest fsPaths) d1 s d' e dev Hend); [|done..].
      intros dv. apply send_session_errs.
    + exfalso. apply try_inv in E1 as (r0 & E1 & Hr). destruct r0; try discriminate Hr. injection Hr as <-.
      injection E2 as <- _. injection He as ->.
      apply zoom_inv in E1 as (cs & E1 & _). apply zoom_inv in E1 as (f & E1 & _).
      apply buildManifest_errs in E1 as [_ Hp]; [|done]. rewrite (Hp e eq_refl) in Hdev. discriminate Hdev.
  - unfold SendClipboard in E. destruct (clip_too_big data) as [e0|] eqn:Eb.
    + injection E as <- _. injection He as ->. unfold clip_too_big in Eb. case_match; [|discriminate Eb].
      injection Eb as <-. discriminate Hdev.
    + apply (dial_and_run_unreachable env ctx None id target false
        (λ dv, clip_session data (default_mime mime)) d s d' e dev Hend); [|done..].
      intros dv. apply clip_session_errs.
Qed.

(** Nobody listens: the error carries the device and the session never ran. *)
Lemma unreachable_sent_nothing_witness :
  let env := demo_network (100 * second) "192.168.1.7:53127" demo_phone_hello in
  let d := demo_daemon [demo_phone] in
  ∃ s d' e, @SendClipboard toy_reticulum env None "id" "phone" (bs "hi") "" d = (Ok s, d') ∧
    sent_err s = Some e ∧ as_unreachable e = Some demo_phone ∧
    sent_conn s = None ∧ @never_connected toy_reticulum env None "id" "phone" e d'.
Proof.
  cbv zeta. set (env := demo_network _ _ _).
  destruct (@SendClipboard toy_reticulum env None "id" "phone" (bs "hi") "" (demo_daemon [demo_phone]))
    as [r d'] eqn:E.
  assert (∃ s e, r = Ok s ∧ sent_err s = Some e ∧ as_unreachable e = Some demo_phone) as (s & e & -> & He & Hdev).
  { apply (f_equal fst) in E. cbn [fst] in E. rewrite <-E. clear. vm_compute. eexists _, _. split_and!; reflexivity. }
  exists s, d', e. split; [reflexivity|]. split; [exact He|]. split; [exact Hdev|].
  eapply (@unreachable_sent_nothing toy_reticulum env None None "id" "" "phone" [] false (bs "hi") "").
  - intros c fp [(t & ctl & addr & rm & leaf & Ec & <- & _)|(t & dev & ch & leaf & Ec & _)]; [|discriminate Ec].
    cbn in Ec. destruct (_ && _); [|discriminate Ec]. injection Ec as <-.
    intros e' Hp. cbn in Hp. injection Hp as <-. reflexivity.
  - right. exact E.
  - exact He.
  - exact Hdev.
Defined.
