(* ===== verification/Delivery.v ===== *)
(** * A send, from one daemon to the other

    SendFiles and SendClipboard of daemon/send.go on one device against
    handlePeer of daemon/receive.go on the other, over one connection: the
    dial, the hello, and the session. *)

From S2P Require Import Prelude GoStrings GoPath Go GoNet GoFmt Sha256 Json JsonRec JsonSize Fs Proto Ipc Paths Receive Config Send Transfer Exchange Completion Transport Rns World Peer QrPair Signals Dial.
From Stdlib Require Import ZArith Lia String Ascii List Bool.
From stdpp Require Import base list strings gmap option numbers.

#[local] Open Scope string_scope.
#[local] Open Scope list_scope.
#[local] Open Scope Z_scope.

(** ** What a hello changes *)

(** The files of the device store. *)
Definition store_file (st : Store) (p : string) : Prop := p = devicesPath st ∨ p = devices_tmp st.

(** The disk, apart from some files; no fault turns up. *)
Definition fs_settled (P : string → Prop) (f f' : fs) : Prop :=
  only P f f' ∧ (fs_faults f = [] → fs_faults f' = []).
#[export] Instance fs_settled_preorder P : PreOrder (fs_settled P).
Proof. split; [by intros f|]. intros f1 f2 f3 [H1 H2] [H3 H4]. split; [by etransitivity|auto]. Qed.

Lemma keeps_next_fault P : keeps (fs_settled P) next_fault.
Proof.
  intros f r f' E. unfold next_fault in E. destruct (fs_faults f) as [|x l] eqn:Ef; injection E as <- <-; [done|].
  split; [done|]. by rewrite Ef.
Qed.
Lemma keeps_set (P : string → Prop) p n : P p → keeps (fs_settled P) (modify (fs_set p n)).
Proof.
  intros Hp. apply keeps_modify. intros f. split; [|done]. intros q Hq. apply lookup_insert_ne. by intros ->.
Qed.
#[local] Hint Resolve keeps_next_fault keeps_set : keeps.
Lemma write_file_settled (P : string → Prop) p b : P p → keeps (fs_settled P) (write_file p b).
Proof.
  intros Hp. unfold write_file, faulty_write. apply keeps_bind; [apply _| |].
  { intros f r f' ->%can_create_pure. reflexivity. }
  intros _. apply keeps_bind; [apply _|auto with keeps|]. intros [|k|e]; auto with keeps.
Qed.
Lemma rename_settled (P : string → Prop) p q : P p → P q → keeps (fs_settled P) (rename p q).
Proof.
  intros Hp Hq. unfold rename, faulty. apply keeps_bind; [apply _| |].
  { intros f r f' E. apply read_file_pure in E as ->. reflexivity. }
  intros b. apply keeps_bind; [apply _| |].
  { intros f r f' ->%can_create_pure. reflexivity. }
  intros _. apply keeps_bind; [apply _|auto with keeps|]. intros [|k|e]; auto with keeps; apply keeps_modify; intros f; (split; [|done]);
    intros x Hx; cbn; rewrite lookup_insert_ne, lookup_delete_ne by (by intros ->); done.
Qed.

(** The store, apart from the addresses and keys of its devices. *)
Record settled (s s' : cstate) : Prop := {
  se_now : cs_now s' = cs_now s;
  se_dir : s_dir (cs_store s') = s_dir (cs_store s);
  se_cert : s_certDER (cs_store s') = s_certDER (cs_store s);
  se_trust : ∀ fp, IsTrusted (cs_store s') fp = IsTrusted (cs_store s) fp;
  se_fs : fs_settled (store_file (cs_store s)) (cs_fs s) (cs_fs s');
}.
Lemma store_file_dir st st' : s_dir st' = s_dir st → store_file st' = store_file st.
Proof. unfold store_file, devices_tmp, devicesPath. by intros ->. Qed.
#[export] Instance settled_preorder : PreOrder settled.
Proof.
  split; [by intros s; split|]. intros s1 s2 s3 [H1 H2 H3 H4 H5] [K1 K2 K3 K4 K5].
  split; [congruence..|by intros fp; rewrite K4|]. rewrite (store_file_dir _ _ H2) in K5. by etransitivity.
Qed.

Lemma on_store_fs_settled {A} (m : M fs A) s r s' :
  on_store_fs m s = (r, s') → keeps (fs_settled (store_file (cs_store s))) m → settled s s'.
Proof.
  intros E Hm. apply zoom_inv in E as (f & E & ->). apply Hm in E. by split.
Qed.
Lemma saveDevicesLocked_settled : keeps settled saveDevicesLocked.
Proof.
  intros s r s' E. unfold saveDevicesLocked in E. rewrite (bind_Ok _ _ s (cs_store s) s) in E by done.
  destruct (negb _) in E; [by injection E as _ <-|]. cbv zeta in E.
  apply bind_inv in E as [(u & s1 & E1 & E2)|(r0 & E1 & _)];
    (apply on_store_fs_settled in E1; [|apply write_file_settled; by right]); [|done].
  pose proof (store_file_dir _ _ (se_dir _ _ E1)) as Hd.
  apply on_store_fs_settled in E2; [by etransitivity|]. rewrite Hd. apply rename_settled; [by right|by left].
Qed.

Lemma set_devices_settled f fp s :
  (∀ d, dev_Name (f d) = dev_Name d ∧ dev_Fingerprint (f d) = dev_Fingerprint d) →
  settled s (mkCstate (with_devices (update_first fp f (s_devices (cs_store s))) (cs_store s)) (cs_fs s) (cs_now s)).
Proof. intros Hf. split; [done..| |done]. intros fp'. by apply update_first_trust. Qed.
Lemma update_field_settled get set fp v :
  (∀ d, dev_Name (set v d) = dev_Name d ∧ dev_Fingerprint (set v d) = dev_Fingerprint d) →
  keeps settled (update_field get set fp v).
Proof.
  intros Hs s r s' E. unfold update_field in E. destruct (v =?s ""); [by injection E as _ <-|].
  rewrite (bind_Ok _ _ s (cs_store s) s) in E by done.
  destruct (find_fp fp _) as [d|]; [|by injection E as _ <-]. destruct (get d =?s v); [by injection E as _ <-|].
  apply set_then_save in E. etransitivity; [by apply (set_devices_settled (set v) fp)|].
  by apply (keeps_ignore settled saveDevicesLocked saveDevicesLocked_settled) in E.
Qed.
Lemma UpdateRNS_settled fp v : keeps settled (UpdateRNS fp v).
Proof. by apply update_field_settled. Qed.
Lemma UpdateFcmToken_settled fp v : keeps settled (UpdateFcmToken fp v).
Proof. by apply update_field_settled. Qed.
Lemma UpdateAddr_settled fp a : keeps settled (UpdateAddr fp a).
Proof.
  intros s r s' E. unfold UpdateAddr in E. rewrite (bind_Ok _ _ s (cs_store s) s) in E by done.
  destruct (find_fp fp _) as [d|]; [|by injection E as _ <-]. destruct (dev_Addr d =?s a); [by injection E as _ <-|].
  etransitivity; [by apply (set_devices_settled (set_dev_Addr a) fp)|].
  set (s1 := mkCstate _ _ _). rewrite (bind_Ok _ _ s () s1) in E by done.
  apply bind_inv in E as [(u & s2 & E1 & E2)|(r0 & E1 & _)];
    apply (keeps_ignore settled saveDevicesLocked saveDevicesLocked_settled) in E1; [by injection E2 as _ <-|done].
Qed.

(** The daemon around it. *)
Record minor (d d' : Daemon) : Prop := {
  mi_cs : settled (d_cs d) (d_cs d');
  mi_set : d_set d' = d_set d;
  mi_slots : d_slots d' = d_slots d;
  mi_clipboard : d_clipboard d' = d_clipboard d;
}.
#[export] Instance minor_preorder : PreOrder minor.
Proof.
  split; [by intros d; split|]. intros d1 d2 d3 [H1 H2 H3 H4] [K1 K2 K3 K4].
  split; [by etransitivity|congruence..].
Qed.
Lemma on_store_minor {A} (m : M cstate A) : keeps settled m → keeps minor (on_store m).
Proof. intros Hm. eapply keeps_zoom; [exact Hm|]. intros d cs H. by split. Qed.
Lemma only_addr_minor d d' : only_addr d d' → minor d d'.
Proof. intros [x ->]. by split. Qed.
Lemma greeted_minor d : minor d (greeted d).
Proof. apply only_addr_minor, greeted_only. Qed.

(** A step of the daemon that returns, in a script. *)
Lemma on_d_minor {A} d (m : M Daemon A) :
  keeps minor m → (∀ d', minor d d' → ∃ a d'', m d' = (Ok a, d'')) →
  script p_conn (λ p, minor d (p_d p)) (on_d m) [] (λ _ p, minor d (p_d p)).
Proof.
  intros Hk Hr. apply script_quiet. intros p Hp. destruct (Hr _ Hp) as (a & d'' & E). exists a, (mkPeer (p_conn p) d'').
  unfold on_d, zoom. rewrite E. split; [done|]. split; [|done]. etransitivity; [exact Hp|by eapply Hk].
Qed.
Lemma update_field_ok get set fp v s : ∃ s', update_field get set fp v s = (Ok (), s').
Proof.
  unfold update_field. destruct (v =?s ""); [by eexists|]. rewrite (bind_Ok _ _ s (cs_store s) s) by done.
  destruct (find_fp _ _) as [d|]; [|by eexists]. destruct (get d =?s v); [by eexists|]. unfold bind at 1, set_store.
  apply (ignore_returns any_cstate); [apply saveDevicesLocked_runs|done].
Qed.
Lemma on_store_minor_script {A} d (m : M cstate A) :
  keeps settled m → (∀ s, ∃ a s', m s = (Ok a, s')) →
  script p_conn (λ p, minor d (p_d p)) (on_d (on_store m)) [] (λ _ p, minor d (p_d p)).
Proof.
  intros Hk Hr. apply on_d_minor; [by apply on_store_minor|]. intros d' _. destruct (Hr (d_cs d')) as (a & s' & E).
  exists a, (with_cs s' d'). by apply on_store_Ok.
Qed.
Lemma UpdateRNS_script d fp v : script p_conn (λ p, minor d (p_d p)) (on_d (on_store (UpdateRNS fp v))) [] (λ _ p, minor d (p_d p)).
Proof.
  apply on_store_minor_script; [apply UpdateRNS_settled|]. intros s. exists (). apply update_field_ok.
Qed.
Lemma UpdateFcmToken_script d fp v :
  script p_conn (λ p, minor d (p_d p)) (on_d (on_store (UpdateFcmToken fp v))) [] (λ _ p, minor d (p_d p)).
Proof.
  apply on_store_minor_script; [apply UpdateFcmToken_settled|]. intros s. exists (). apply update_field_ok.
Qed.
Lemma UpdateAddr_script d fp a :
  script p_conn (λ p, minor d (p_d p)) (ignore (on_d (on_store (UpdateAddr fp a)))) [] (λ _ p, minor d (p_d p)).
Proof.
  eapply script_conseq; [apply script_ignore, (on_store_minor_script d); [apply UpdateAddr_settled|]|done|by intros u p [? ?]].
  intros s. unfold UpdateAddr. rewrite (bind_Ok _ _ s (cs_store s) s) by done.
  destruct (find_fp fp _) as [e|]; [|by eexists _, _]. destruct (dev_Addr e =?s a); [by eexists _, _|].
  set (s1 := mkCstate (with_devices (update_first fp (set_dev_Addr a) (s_devices (cs_store s))) (cs_store s)) (cs_fs s) (cs_now s)).
  rewrite (bind_Ok _ _ s () s1) by done.
  destruct (ignore_returns any_cstate saveDevicesLocked s1 saveDevicesLocked_runs I) as [s2 E].
  exists true, s2. by rewrite (bind_Ok _ _ _ _ _ E).
Qed.

(** ** The two ends of the hello *)
Section sides.
Context `{Reticulum}.

Lemma script_pointwise {S A} (cn : S → conn) (P : S → Prop) (m : M S A) t Q :
  (∀ s0, P s0 → script cn (λ s, s = s0) m t Q) → script cn P m t Q.
Proof. intros Hm s Hs. by apply (Hm s Hs s). Qed.

Lemma send_hello_minor d folders :
  modest d → script p_conn (at_daemon d) (send_hello folders) [Snd (frame (greeting d folders))] (λ _ p, minor d (p_d p)).
Proof.
  intros Hm. eapply script_conseq; [by apply send_hello_script|done|]. intros u p [_ Hp].
  rewrite (Hp : p_d p = greeted d). apply greeted_minor.
Qed.
Lemma read_hello_minor d h :
  Header_ok h → fits h →
  script p_conn (λ p, minor d (p_d p)) (on_c ReadHeader) [Rcv (frame h)] (λ x p, x = valid_Header h ∧ minor d (p_d p)).
Proof. intros Ho Hf. eapply on_c_script; [by apply ReadHeader_script|]. by intros p a c Hp ->. Qed.

(** The side that dialled. *)
Lemma hello_exchange_script d folders dev fp h :
  fp = dev_Fingerprint dev → modest d → Header_ok h → fits h → hdr_Folders h = true →
  script p_conn (at_daemon d) (hello_exchange folders dev fp) [Snd (frame (greeting d false)); Rcv (frame h)]
    (λ _ p, minor d (p_d p)).
Proof.
  intros -> Hm Ho Hf Hfold. unfold hello_exchange. rewrite String.eqb_refl. cbn [negb].
  eapply script_seq with (t := [Snd (frame (greeting d false))]); [by apply send_hello_minor| |reflexivity].
  eapply (script_bind_eq _ _ _ [Rcv (frame h)]); [by apply read_hello_minor| |reflexivity].
  change (hdr_Folders (valid_Header h)) with (hdr_Folders h). rewrite Hfold, andb_false_r.
  eapply script_seq with (t := []); [apply UpdateFcmToken_script| |reflexivity].
  eapply script_seq with (t := []); [apply UpdateRNS_script| |reflexivity].
  eapply script_conseq; [apply (script_ret p_conn (λ p, minor d (p_d p)) ())|done|by intros u p [_ ?]].
Qed.

(** The side that listens, for a device it trusts. *)
Lemma tryCompletePairing_trusted d fp name addr remote :
  IsTrusted (d_store d) fp ≠ None → tryCompletePairing fp name addr remote d = (Ok false, d).
Proof.
  intros Ht. unfold tryCompletePairing, read_window. rewrite (bind_Ok _ _ d _ d) by reflexivity.
  destruct (pg_window (d_pair d)) as [i|]; [|done]. destruct (window_admits d fp); [|done].
  unfold complete_window. rewrite (bind_Ok _ _ d d d) by done. by rewrite bool_decide_eq_true_2.
Qed.

Lemma servePeer_trusted_script clipboard_set d fp remote h name t (Q : rworld → Prop) :
  modest d → Header_ok h → fits h → hdr_Type h = TypeHello → IsTrusted (d_store d) fp = Some name →
  (∀ d', minor d d' → script w_conn
    (λ w, w_disk w = mkSlots (d_fs d') (d_slots d) ∧ w_events w = [] ∧ w_clips w = d_clipboard d)
    (receiveSession (o_downloadDir (d_set d)) clipboard_set name) t (λ _ w, Q w)) →
  script p_conn (at_daemon d) (servePeer clipboard_set fp remote true)
    (Rcv (frame h) :: Snd (frame (greeting d true)) :: t)
    (λ _ p, ∃ w, Q w ∧ d_fs (p_d p) = wfs w ∧ d_clipboard (p_d p) = w_clips w).
Proof.
  intros Hm Ho Hf Hty Ht Hrecv. unfold servePeer.
  eapply (script_bind_eq _ _ _ [Rcv (frame h)] (inl (valid_Header h)) (at_daemon d)); [apply script_try_eq, read_hello_script; done| |reflexivity].
  cbv beta iota. rewrite (valid_type h TypeHello Hty) by done. change (TypeHello =?s TypeHello) with true. cbn [negb].
  eapply (script_bind_eq _ _ _ [Snd (frame (greeting d true))] (inl ()) (at_daemon (greeted d)));
    [by apply script_try_eq, send_hello_script| |reflexivity].
  cbv beta iota. pose proof (se_trust _ _ (mi_cs _ _ (greeted_minor d))) as Htr.
  change (cs_store (d_cs (greeted d))) with (d_store (greeted d)) in Htr. change (cs_store (d_cs d)) with (d_store d) in Htr.
  eapply (script_bind_eq _ _ _ [] false (at_daemon (greeted d)));
    [apply on_d_script, tryCompletePairing_trusted; by rewrite Htr, Ht| |reflexivity].
  cbv iota.
  eapply (script_bind_eq _ _ _ [] (greeted d) (λ p, minor d (p_d p)));
    [eapply script_conseq; [apply script_gets|done|intros a p [-> Hp]; split; [done|rewrite (Hp : p_d p = _); apply greeted_minor]]| |reflexivity].
  cbv beta. rewrite Htr, Ht.
  eapply script_seq with (t := []); [apply UpdateAddr_script| |reflexivity].
  eapply script_seq with (t := []); [apply UpdateFcmToken_script| |reflexivity].
  eapply script_seq with (t := []); [apply UpdateRNS_script| |reflexivity].
  assert (o_downloadDir (d_set (greeted d)) = o_downloadDir (d_set d)) as -> by (by rewrite (mi_set _ _ (greeted_minor d))).
  set (R := λ (u : unit) (p : peer), ∃ w, Q w ∧ d_fs (p_d p) = wfs w ∧ d_clipboard (p_d p) = w_clips w).
  apply (script_conseq p_conn (λ p, minor d (p_d p)) _ _ _ (λ _ p, ∃ u, R u p)); [|done|by intros u p [[] Hr]].
  apply script_ignore, script_pointwise. intros p0 Hp0. eapply script_zoom; [| |by apply (Hrecv (p_d p0))|intros p ->; cbn|]; [done|done| |].
  - rewrite (mi_slots _ _ Hp0), (mi_clipboard _ _ Hp0). done.
  - intros p u w _ Hq. by exists w.
Qed.
End sides.

(** ** The sending daemon *)
Section sender.
Context `{Reticulum}.

(** A session on the peer's connection, as [run_session] runs it. *)
Definition on_session {A} (m : M sworld A) : M peer A :=
  zoom (λ p, mkSworld (p_conn p) (d_fs (p_d p)) [] None)
    (λ w p, mkPeer (sw_conn w) (with_cs (mkCstate (d_store (p_d p)) (sw_fs w) (d_now (p_d p))) (p_d p))) m.
(** The sender's part of the wire: the hello, then the session. *)
Definition sending_to (folders : bool) (dev : Device) (fp : string) (session : M sworld unit) : M peer unit :=
  hello_exchange folders dev fp ;;; on_session session.

Lemma sending_to_script d folders dev fp h session t :
  fp = dev_Fingerprint dev → modest d → Header_ok h → fits h → hdr_Folders h = true →
  (∀ d', minor d d' → script sw_conn (λ w, sw_fs w = d_fs d' ∧ sw_ctx w = None) session t (λ _ _, True)) →
  script p_conn (at_daemon d) (sending_to folders dev fp session) (Snd (frame (greeting d false)) :: Rcv (frame h) :: t) (λ _ _, True).
Proof.
  intros Hfp Hm Ho Hf Hfold Hs. unfold sending_to.
  eapply script_seq with (t := [Snd (frame (greeting d false)); Rcv (frame h)]); [by apply hello_exchange_script| |reflexivity].
  apply script_pointwise. intros p0 Hp0. eapply script_zoom; [| |by apply (Hs (p_d p0))|by intros p ->|]; done.
Qed.

(** Around the sessions: what dials, and what a success becomes. *)
Context (lan : bool) (reach : Z → Device → channel + error) (mdns : Z → list (string * string * string))
  (post : Z → string → bytes → (Z * bytes) + error) (took : Z → Z).

(** A network in which a device answers, and a daemon nothing else happens to
    while it dials. *)
Definition reaching (addr : string) (der : bytes) (input : bytes) : surroundings :=
  mkSurroundings (listening addr der input) lan reach mdns post took (λ d, d).
(** The daemon once the connection is there. *)
Definition after_dial (d : Daemon) : Daemon := set_now (d_now d + Z.max 0 (took (d_now d))) d.

Lemma Lookup_trusted st target dev : Config.Lookup st target = Some dev → IsTrusted st (dev_Fingerprint dev) ≠ None.
Proof.
  intros Hl. apply find_some in Hl as [Hin _]. unfold IsTrusted, find_fp.
  destruct (find _ (s_devices st)) eqn:E; [done|]. pose proof (find_none _ _ E _ Hin) as Hn. cbn in Hn.
  by rewrite String.eqb_refl in Hn.
Qed.

Lemma dialPeer_reaches ctx id target folders d dev der input p :
  Config.Lookup (d_store d) target = Some dev → dev_Fingerprint dev = Fingerprint der →
  hello_exchange folders dev (Fingerprint der) (mkPeer (conn_of input) (after_dial d)) = (Ok (), p) →
  dialPeer (reaching (dev_Addr dev) der input) ctx id target folders d = (Ok (p_conn p, dev), p_d p).
Proof.
  intros Hl Hf Hh. unfold dialPeer. rewrite (bind_Ok _ _ d d d) by done. rewrite Hl.
  rewrite (bind_Ok _ _ d (dev, conn_of input, Fingerprint der) (after_dial d)).
  - cbv beta iota. rewrite (bind_Ok _ _ (after_dial d) ((), p_conn p) (p_d p)); [done|]. unfold on_dialled. by rewrite Hh.
  - unfold connect_peer. rewrite (bind_Ok _ _ d d d) by done. cbv zeta.
    rewrite (bind_Ok _ _ d (inl (conn_of input, Fingerprint der)) (after_dial d)); [done|]. apply try_Ok. unfold dial_tcp.
    rewrite (bind_Ok _ _ d () (after_dial d)) by done.
    rewrite (bind_Ok _ _ (after_dial d) (mkRemote (mkTlsPeer [der] []) (conn_of input) (dev_Addr dev), Fingerprint der) (after_dial d)); [done|].
    apply dial_pinned.
    + change (d_store (after_dial d)) with (d_store d). rewrite <-Hf. by eapply Lookup_trusted.
    + intros c. unfold reaching, listening. cbn [env_connect]. by rewrite String.eqb_refl.
Qed.

(** dialPeer and the session after it, when the wire's part succeeds. *)
Lemma dial_and_run_ok ctx id target folders d dev der input (session : Device → M sworld unit) p :
  Config.Lookup (d_store d) target = Some dev → dev_Fingerprint dev = Fingerprint der →
  sending_to folders dev (Fingerprint der) (session dev) (mkPeer (conn_of input) (after_dial d)) = (Ok (), p) →
  ∃ s d', bind (try (dialPeer (reaching (dev_Addr dev) der input) ctx id target folders)) (λ r,
      match r with inr e => ret (not_sent e) | inl (c, dv) => run_session None dv c (session dv) end) d = (Ok s, d') ∧
    sent_err s = None ∧ s_lastPeer (d_store d') = dev_Fingerprint dev.
Proof.
  intros Hl Hf E. unfold sending_to in E. apply bind_Ok_inv in E as ([] & p1 & E1 & E2).
  pose proof (dialPeer_reaches ctx id target folders d dev der input p1 Hl Hf E1) as Ed.
  rewrite (bind_Ok _ _ _ _ _ (try_Ok _ _ _ _ Ed)). cbv beta iota. unfold run_session.
  unfold on_session, zoom in E2. destruct (session dev _) as [[[]| | | |] w]; try discriminate E2.
  set (d2 := with_cs _ _).
  assert (∃ s', SetLastPeer (dev_Fingerprint dev) (d_cs d2) = (Ok (), s') ∧ s_lastPeer (cs_store s') = dev_Fingerprint dev) as (s' & Es & Hlast).
  { unfold SetLastPeer. rewrite (bind_Ok _ _ (d_cs d2) (cs_store (d_cs d2)) (d_cs d2)) by done.
    destruct (String.eqb_spec (s_lastPeer (cs_store (d_cs d2))) (dev_Fingerprint dev)) as [El|_]; [by eexists|].
    set (s2 := mkCstate (with_lastPeer (dev_Fingerprint dev) (cs_store (d_cs d2))) (cs_fs (d_cs d2)) (cs_now (d_cs d2))).
    rewrite (bind_Ok _ _ (d_cs d2) () s2) by done.
    destruct (ignore_returns any_cstate saveDevicesLocked s2 saveDevicesLocked_runs I) as [s' Es]. exists s'.
    split; [exact Es|]. apply ignore_save_store in Es. by rewrite Es. }
  exists (mkSent (sw_progress w) (Some (sw_conn w)) None), (with_cs s' d2).
  rewrite (bind_Ok _ _ d2 () (with_cs s' d2)); [done|]. unfold ignore, bind, try.
  by rewrite (on_store_Ok _ _ _ _ Es).
Qed.
End sender.

(** ** The manifest of plain files *)

(** A regular file that can be sent: not one of the store's own, and with a
    name that is not that of a partial file. *)
Record sendable (d : Daemon) (cwd p : string) (content : bytes) : Prop := {
  sd_file : file_at (d_fs d) (path_abs cwd p) = Some content;
  sd_root : path_abs cwd p ≠ "/";
  sd_size : Z.of_nat (length content) ≤ maxInt64;
  sd_name : shielded (sanitizeName (to_valid (path_base (path_abs cwd p))));
  sd_other : ¬ store_file (d_store d) (path_abs cwd p);
}.
Definition meta_of (cwd : string) (x : string * bytes) : FileMeta :=
  mkFileMeta false (path_base (path_abs cwd x.1)) (Z.of_nat (length x.2)) (hex_encode (sha256 x.2)) "".

Lemma sendable_regular d cwd p c : sendable d cwd p c → regular (meta_of cwd (p, c)) c.
Proof. intros [H1 H2 H3 H4 H5]. by split. Qed.
Lemma manifest_entry_file d cwd p c :
  sendable d cwd p c → manifest_entry cwd p (d_fs d) = (Ok [(meta_of cwd (p, c), path_abs cwd p)], d_fs d).
Proof.
  intros [H1 H2 H3 H4 H5]. unfold manifest_entry. cbv zeta. set (q := path_abs cwd p) in *. set (f := d_fs d) in *.
  assert (fs_nodes f !! q = Some (NFile c)) as Hq by (unfold file_at in H1; destruct (fs_nodes f !! q) as [[]|]; naive_solver).
  rewrite (bind_Ok _ _ f (NFile c) f) by (unfold lstat, stat; by rewrite (proj2 (String.eqb_neq _ _) H2), Hq).
  rewrite (bind_Ok _ _ f (hex_encode (sha256 c)) f).
  - unfold ret, meta_of. cbn [fst snd]. fold q. rewrite int64_id; [done|]. unfold inInt64, minInt64. lia.
  - unfold hashFile. rewrite (bind_Ok _ _ f c f); [done|]. unfold read_file. by rewrite Hq.
Qed.
Lemma buildManifest_files d cwd files :
  files ≠ [] → Forall (λ x, sendable d cwd x.1 x.2) files →
  buildManifest cwd (map fst files) (d_fs d) = (Ok (map (meta_of cwd) files, map (λ x, path_abs cwd x.1) files), d_fs d).
Proof.
  intros Hne Hf. unfold buildManifest. rewrite bool_decide_eq_false_2 by (by destruct files).
  assert (each (manifest_entry cwd) (map fst files) (d_fs d) = (Ok (map (λ x, (meta_of cwd x, path_abs cwd x.1)) files), d_fs d)) as E.
  { clear Hne. induction Hf as [|[p c] l Hx Hf IH]; [done|]. cbn [map each fst].
    rewrite (bind_Ok _ _ _ _ _ (manifest_entry_file _ _ _ _ Hx)), (bind_Ok _ _ _ _ _ IH). done. }
  rewrite (bind_Ok _ _ _ _ _ E), bool_decide_eq_false_2 by (by destruct files). unfold ret. by rewrite !map_map.
Qed.
Lemma needsFolders_files cwd files : needsFolders (map (meta_of cwd) files) = false.
Proof. unfold needsFolders. by induction files. Qed.

(** ** The receiving disk *)
Lemma ready_settled ds P f f' :
  (∀ p, P p → shielded p ∧ p ≠ abs_path ds) → fs_settled P f f' → ready ds f → ready ds f'.
Proof.
  intros HP [Ho Hf] [R1 R2 R3]. split; [by apply Hf| |].
  - unfold is_dir in *. rewrite Ho; [done|]. intros Hp. by destruct (HP _ Hp).
  - intros dest p Hp. rewrite Ho; [by eapply R3|]. intros HPp. apply HP in HPp as [Hs _]. by eapply part_not_shielded.
Qed.

(** A device the listener knows. *)
Lemma handlePeer_trusted `{Reticulum} clipboard_set tap allowPair remote d der name :
  IsTrusted (d_store d) (Fingerprint der) = Some name →
  handlePeer clipboard_set tap (Listen_accept (daemon_IsTrusted d) (s_certDER (d_store d)) allowPair (mkTlsPeer [der] [])) remote =
  servePeer clipboard_set (Fingerprint der) remote true.
Proof.
  intros Ht. rewrite trusted_lets_in by (unfold daemon_IsTrusted; by rewrite Ht).
  unfold handlePeer, PeerFingerprint. cbn [ts_certs ts_proto]. by change ("" =?s PairALPN) with false.
Qed.

Lemma on_daemon_fs_pure {A} (m : M fs A) a d : m (d_fs d) = (Ok a, d_fs d) → on_daemon_fs m d = (Ok a, d).
Proof.
  intros E. unfold on_daemon_fs, on_store, on_store_fs, zoom. change (cs_fs (d_cs d)) with (d_fs d). rewrite E.
  f_equal. unfold d_fs. by destruct d as [? ? ? []].
Qed.

(** ** The two daemons *)

(** The peer of an accepted connection and that of a dialled one, as parties
    of an exchange. *)
Definition listener (d : Daemon) (m : M peer unit) : party unit := party_of p_conn m (λ i, mkPeer (conn_of i) d).

(** Both halves of a hello, then both halves of a session: they come to their
    ends together. *)
Lemma send_completes `{Reticulum} clipboard_set folders dev session t da db fp_a remote name (Q : rworld → Prop) n :
  modest da → modest db → IsTrusted (d_store db) fp_a = Some name →
  (∀ d', minor da d' → script sw_conn (λ w, sw_fs w = d_fs d' ∧ sw_ctx w = None) session t (λ _ _, True)) →
  (∀ d', minor db d' → script w_conn
    (λ w, w_disk w = mkSlots (d_fs d') (d_slots db) ∧ w_events w = [] ∧ w_clips w = d_clipboard db)
    (receiveSession (o_downloadDir (d_set db)) clipboard_set name) (dual t) (λ _ w, Q w)) →
  (length t + 2 < n)%nat →
  let '(sent, heard) := exchange n (listener da (sending_to folders dev (dev_Fingerprint dev) session))
                                   (listener db (servePeer clipboard_set fp_a remote true)) in
  (∃ p, sending_to folders dev (dev_Fingerprint dev) session (mkPeer (conn_of heard) da) = (Ok (), p)) ∧
  ∃ p w, servePeer clipboard_set fp_a remote true (mkPeer (conn_of sent) db) = (Ok (), p) ∧
    Q w ∧ d_fs (p_d p) = wfs w ∧ d_clipboard (p_d p) = w_clips w.
Proof.
  intros Hma Hmb Ht Hsend Hrecv Hn. set (ga := greeting da false). set (gb := greeting db true).
  assert (script p_conn (at_daemon da) (sending_to folders dev (dev_Fingerprint dev) session)
    (Snd (frame ga) :: Rcv (frame gb) :: t) (λ _ _, True)) as Sa.
  { apply sending_to_script; [done|done|apply greeting_ok|by apply greeting_fits|done|done]. }
  assert (script p_conn (at_daemon db) (servePeer clipboard_set fp_a remote true) (dual (Snd (frame ga) :: Rcv (frame gb) :: t))
    (λ _ p, ∃ w, Q w ∧ d_fs (p_d p) = wfs w ∧ d_clipboard (p_d p) = w_clips w)) as Sb.
  { by apply (servePeer_trusted_script clipboard_set db fp_a remote ga name (dual t) Q Hmb (greeting_ok _ _) (greeting_fits _ _ Hma)). }
  destruct (script_plays p_conn _ _ _ _ (λ i, mkPeer (conn_of i) da) () Sa) as [Pa (pa & Ea & _)]; [done|done|by intros []|].
  destruct (script_plays p_conn _ _ _ _ (λ i, mkPeer (conn_of i) db) () Sb) as [Pb (pb & Eb & w & Hw)]; [done|done|by intros []|].
  unfold listener. destruct (exchange_completes _ _ _ () () n Pa Pb) as (-> & _ & _); [cbn; lia|].
  rewrite reads_dual in Eb. split; [by exists pa|]. by exists pb, w.
Qed.



(** A desktop with one file and a phone, paired with each other. *)
Definition demo_sender : Daemon :=
  with_cs (mkCstate (mkStore "/cfg" demo_own [demo_phone] "") (mkFs {["/cfg" := NDir; "/f" := NDir; "/f/a.txt" := NFile (bs "hi")]} []) 0)
    (demo_daemon []).
Definition demo_receiver : Daemon :=
  with_cs (mkCstate (mkStore "/cfg" (bs "phone certificate") [mkDevice "pc" (Fingerprint demo_own) "192.168.1.5:53127" 0 "" ""] "")
             (mkFs {["/cfg" := NDir; "/dl" := NDir]} []) 0) (demo_daemon []).
Definition demo_reaching : bytes → surroundings :=
  reaching false (λ _ _, inr EOF) (λ _, []) (λ _ _ _, inr EOF) (λ _, 1) (dev_Addr demo_phone) (bs "phone certificate").
Lemma demo_modests : @modest toy_reticulum demo_sender ∧ @modest toy_reticulum demo_receiver.
Proof. split; split_and!; by vm_compute. Qed.
Lemma demo_receiver_ready : ready ["dl"] (d_fs demo_receiver).
Proof.
  split; [done|done|]. intros dest p Hp. cbn.
  rewrite lookup_insert_ne, lookup_singleton_ne; [done|..]; intros <-; (eapply part_not_shielded; [exact Hp|]); by vm_compute.
Qed.
Lemma demo_store_apart p : store_file (d_store demo_receiver) p → shielded p ∧ p ≠ abs_path ["dl"].
Proof. intros [-> | ->]; split; by vm_compute. Qed.


