(* ===== verification/HubLink.v ===== *)
(** * Two daemons over the hubs

    Ping and sendClipOverHubs of one daemon against the inbox loop of the
    other: the signals are sealed, carried, checked, handled, answered, and
    the answer ends the wait. *)

From S2P Require Import Prelude GoStrings GoFmt Go Sha256 Json JsonRec JsonSize GoTime Base64 Fs Proto Ipc.
From S2P Require Import Receive Config Transport HubConn Rns Hubs World Peer Signals Clips Dial.
From Stdlib Require Import ZArith Lia String Ascii List Bool Permutation.
From stdpp Require Import base list strings gmap option numbers.

#[local] Open Scope string_scope.
#[local] Open Scope list_scope.
#[local] Open Scope Z_scope.

(** ** What is on the air *)

Definition packet : Type := bytes * bytes.

Definition packets (d : Daemon) : list packet :=
  match r_node (d_rns d) with Some n => n_packets n | None => [] end.
Definition node_key (d : Daemon) : bytes :=
  match r_node (d_rns d) with Some n => n_key n | None => [] end.
(** What [d'] has put on the air since it was [d]. *)
Definition packets_since (d d' : Daemon) : list packet := drop (length (packets d)) (packets d').

(** Every path is found within the 30 s a reply has, and SendPacket works. *)
Definition open_air (x : air) : Prop := air_send x = None ∧ ∃ k, air_path x = Some k ∧ (k ≤ 300)%nat.

(** A daemon whose Reticulum is up, with nothing in its inbox, that trusts
    [dev] by its public key [pub]. *)
Record sees (d : Daemon) (pub : bytes) (dev : Device) : Prop := {
  se_node : ∃ n, r_node (d_rns d) = Some n ∧ n_inbox n = [] ∧ Forall open_air (n_air n);
  se_device : deviceByRNS d pub = Some dev;
  se_lookup : Config.Lookup (d_store d) (dev_Fingerprint dev) = Some dev;
}.

(** [d'] is [d] after it put [ps] on the air. *)
Definition says (d : Daemon) (ps : list packet) (d' : Daemon) : Prop :=
  ∃ n n', r_node (d_rns d) = Some n ∧ d' = with_rns (with_node (Some n') (d_rns d)) d ∧
    n_packets n' = n_packets n ++ ps ∧ n_key n' = n_key n ∧ n_inbox n' = n_inbox n ∧
    (Forall open_air (n_air n) → Forall open_air (n_air n')).

(** The same node, store, disk and clock. *)
Definition in_tune (d d' : Daemon) : Prop := r_node (d_rns d') = r_node (d_rns d) ∧ d_cs d' = d_cs d.
#[export] Instance in_tune_equiv : Equivalence in_tune.
Proof.
  split; [by intros d|by intros d1 d2 []|]. intros d1 d2 d3 [H1 H2] [H3 H4]. split; congruence.
Qed.

Lemma sees_in_tune d d' pub dev : in_tune d d' → sees d pub dev → sees d' pub dev.
Proof.
  intros [Hn Hc] [H1 H2 H3]. split; [by rewrite Hn| |].
  - unfold deviceByRNS, d_store. rewrite Hc. exact H2.
  - unfold d_store. rewrite Hc. exact H3.
Qed.
Lemma sees_says d ps d' pub dev : says d ps d' → sees d pub dev → sees d' pub dev.
Proof.
  intros (n & n' & Hn & -> & _ & _ & Hi & Ha) [(n0 & Hn0 & Hi0 & Ha0) H2 H3]. simplify_eq.
  split; [|done..]. exists n'. split_and!; [done|congruence|auto].
Qed.
Lemma says_packets d ps d' : says d ps d' → packets d' = packets d ++ ps.
Proof. intros (n & n' & Hn & -> & Hp & _). unfold packets. by rewrite Hn. Qed.
Lemma says_since d ps d' : says d ps d' → packets_since d d' = ps.
Proof. intros H%says_packets. unfold packets_since. by rewrite H, drop_app_length. Qed.
Lemma says_key d ps d' : says d ps d' → node_key d' = node_key d.
Proof. intros (n & n' & Hn & -> & _ & Hk & _). unfold node_key. by rewrite Hn. Qed.
Lemma says_trans d ps d' qs d'' : says d ps d' → says d' qs d'' → says d (ps ++ qs) d''.
Proof.
  intros (n & n1 & Hn & -> & Hp & Hk & Hi & Ha) (n1' & n2 & Hn1 & -> & Hp2 & Hk2 & Hi2 & Ha2).
  injection Hn1 as <-. exists n, n2. rewrite Hp2, Hp, app_assoc, Hk2, Hk, Hi2, Hi. split_and!; auto.
Qed.
Lemma says_nil d pub dev : sees d pub dev → says d [] d.
Proof.
  intros [(n & Hn & _) _ _]. exists n, n. split_and!; [done| |by rewrite app_nil_r|done..].
  destruct d as [? ? ? ? ? ? ? ? ? [] ? ? ?]. cbn in *. by subst.
Qed.

(** ** A signal from one to the other *)

Section link.
Context `{ReticulumSeals, !ReticulumLaws}.
Context (clipboard_set : bytes → string → option error) (reach : channel + error).

Definition packet_for (key : bytes) (now : Z) (peer : bytes) (s : signal) : packet :=
  (default [] (id_address peer),
   match id_encrypt peer (envelope key now (marshal_signal s)) with inl c => c | inr _ => [] end).

(** The transport hands over a packet; the inbox loop takes what is there. *)
Definition hear (p : packet) : M Daemon unit :=
  d <- get_state ;;
  on_rns_node (deliver (trustedRNS d) (d_now d) p) ;;;
  rnsInbox clipboard_set 1 reach.
Fixpoint hear_all (l : list packet) : M Daemon unit :=
  match l with
  | [] => ret ()
  | p :: l' => hear p ;;; hear_all l'
  end.

Lemma hear_all_app l1 l2 d : hear_all (l1 ++ l2) d = bind (hear_all l1) (λ _, hear_all l2) d.
Proof.
  revert d. induction l1 as [|p l1 IH]; intros d; [done|]. cbn [app hear_all]. rewrite bind_assoc.
  unfold bind at 1 2. by destruct (hear p d) as [[] d1].
Qed.

Definition signal_fits (s : signal) : Prop := Z.of_nat (length (marshal_signal s)) ≤ MaxMessage.

Lemma envelope_seals key now k s :
  signal_fits s →
  id_encrypt (id_public k) (envelope key now (marshal_signal s)) = inl (packet_for key now (id_public k) s).2.
Proof.
  intros Hs. unfold packet_for. cbn [snd].
  destruct (encrypt_fits k (envelope key now (marshal_signal s))) as [c Hc]; [|by rewrite Hc].
  destruct (envelope_split key now (marshal_signal s)) as [-> _]. unfold signal_fits, MaxMessage, pubLen, sigLen in Hs. lia.
Qed.

Lemma open_head l : Forall open_air l → ∃ k, hd clear_air l = mkAir (Some k) None ∧ (k ≤ 300)%nat.
Proof.
  destruct 1 as [|[p e] l [He (k & Hk & Hle)] _]; [exists O; split; [done|lia]|].
  cbn in *. subst. eauto.
Qed.

Lemma deviceByRNS_key d pub dev : deviceByRNS d pub = Some dev → dev_RNS dev = hex_encode pub.
Proof. unfold deviceByRNS. intros [_ ?]%find_some. by apply String.eqb_eq. Qed.

Lemma sendSignal_says c d kb dev target s :
  (300 ≤ c)%nat → sees d (id_public kb) dev → Config.Lookup (d_store d) target = Some dev → signal_fits s →
  ∃ d', sendSignal (Some c) target s d = (Ok dev, d') ∧
    says d [packet_for (node_key d) (d_now d) (id_public kb) s] d'.
Proof.
  intros Hc [(n & Hn & Hi & Ha) Hdev _] Hl Hs. unfold sendSignal.
  rewrite bind_Ok with (a := d) (s' := d) by done. rewrite Hn, Hl.
  apply deviceByRNS_key in Hdev as Hk. rewrite Hk.
  assert ((hex_encode (id_public kb) =?s "") = false) as ->.
  { apply String.eqb_neq. intros E. apply (f_equal String.length) in E.
    rewrite hex_encode_length, public_length in E. done. }
  rewrite hex_decode_encode. unfold node_key. rewrite Hn.
  destruct (open_head _ Ha) as (k & Hh & Hle). destruct (address_known kb) as [hash Hhash].
  destruct (Send_sends n (Some c) (d_now d) (id_public kb) (marshal_signal s) k hash _ Hh (Nat.le_trans _ _ _ Hle Hc) Hs Hhash
    (envelope_seals (n_key n) (d_now d) kb s Hs)) as [l E].
  unfold bind, on_rns_node. rewrite Hn, E. eexists. split; [reflexivity|].
  exists n. eexists. split_and!; [done|reflexivity| |done|done|].
  - cbn. unfold packet_for. by rewrite Hhash.
  - intros Hall. cbn. destruct Hall; [constructor|done].
Qed.

(** The clock of the one that hears against the stamp of the one that said it. *)
Definition in_time (said heard : Z) : Prop :=
  0 ≤ said / 10 ^ 9 < 2 ^ 63 ∧ Z.abs (heard - said / 10 ^ 9 * 10 ^ 9) ≤ maxAge.

Lemma hear_message d pub dev key now s :
  sees d pub dev → pub = id_public key → in_time now (d_now d) → signal_fits s →
  hear (packet_for key now (id_public (node_key d)) s) d =
    (rns_message clipboard_set reach (mkMessage pub (marshal_signal s)) ;;; ret ()) d.
Proof.
  intros [(n & Hn & Hi & Ha) Hdev _] -> [Hnow Hage] Hs. unfold hear.
  rewrite bind_Ok with (a := d) (s' := d) by done. unfold node_key. rewrite Hn.
  set (m := mkMessage (id_public key) (marshal_signal s)).
  set (d1 := with_rns (with_node (Some (with_inbox [m] n)) (d_rns d)) d).
  assert (on_rns_node (deliver (trustedRNS d) (d_now d) (packet_for key now (id_public (n_key n)) s)) d = (Ok (), d1)) as E.
  { unfold on_rns_node. rewrite Hn. destruct (address_known (n_key n)) as [hash Hhash].
    destruct (address_known key) as [hk Hhk].
    rewrite (surjective_pairing (packet_for _ _ _ _)).
    rewrite (deliver_arrives n key now (d_now d) (marshal_signal s)); try done.
    - by rewrite Hi.
    - unfold packet_for. by rewrite Hhash.
    - by apply envelope_seals.
    - by rewrite Hhk.
    - unfold trustedRNS. by rewrite Hdev.
    - rewrite Hi. cbn. lia. }
  rewrite (bind_Ok _ _ _ _ _ E). cbn [rnsInbox]. unfold pop_inbox. rewrite bind_assoc.
  rewrite bind_Ok with (a := d1) (s' := d1) by done. cbn [d_rns with_rns r_node with_node d1 n_inbox with_inbox].
  rewrite bind_assoc.
  rewrite bind_Ok with (a := ()) (s' := d); [done|].
  subst d1. unfold on_rns, modify. f_equal.
  destruct d as [? ? ? ? ? ? ? ? ? [] ? ? ?], n. cbn in *. by subst.
Qed.

(** *** What the inbox loop does with each *)

Lemma rns_message_kicked d pub dev s :
  deviceByRNS d pub = Some dev → unmarshal_signal (marshal_signal s) = Some s →
  rns_message clipboard_set reach (mkMessage pub (marshal_signal s)) d =
    (if sg_Type s =?s "ping" then send_reply (dev_Fingerprint dev) (simple_signal "pong" (sg_ID s))
     else if sg_Type s =?s "ice-offer" then acceptDirect clipboard_set reach dev s
     else if (sg_Type s =?s "ice-answer") || (sg_Type s =?s "ice-cand") then
       ice_push (sg_ID s) (mkMsg (drop_str 4 (sg_Type s)) (sg_Ufrag s) (sg_Pwd s) (sg_Cand s))
     else if sg_Type s =?s "clip" then receiveClipPart clipboard_set dev s
     else if (sg_Type s =?s "clip-ack") || (sg_Type s =?s "pong") then close_pong (sg_ID s)
     else ret ()) (kicked d).
Proof.
  intros Hdev Hs. unfold rns_message. rewrite bind_Ok with (a := d) (s' := d) by done.
  cbn [msg_From msg_Body]. rewrite Hdev, Hs. by rewrite bind_Ok with (a := ()) (s' := kicked d).
Qed.
Lemma kicked_in_tune d : in_tune d (kicked d).
Proof. by destruct d as [? ? ? ? ? ? ? ? ? [] ? ? ?]. Qed.

Lemma simple_signal_wire typ id :
  utf8 typ → utf8 id → unmarshal_signal (marshal_signal (simple_signal typ id)) = Some (simple_signal typ id).
Proof.
  intros Ht Hi. rewrite signal_roundtrip by by vm_compute.
  unfold valid_signal, simple_signal. cbn [sg_Type sg_ID sg_Ufrag sg_Pwd sg_Cand sg_N sg_Of sg_Data].
  by rewrite Ht, Hi.
Qed.

(** A word and an ID of 16 plain characters fit where the guard of [init]
    lets the program start. *)
Lemma simple_signal_fits typ id :
  queue_init tt = (Ok (), tt) →
  forallb plain_byte (bs typ) = true → (String.length typ ≤ 16)%nat →
  forallb plain_byte (bs id) = true → (String.length id ≤ 16)%nat → signal_fits (simple_signal typ id).
Proof.
  intros Hinit%queue_init_bound Ht Hlt Hid Hli; [|done].
  unfold signal_fits. apply Z.le_trans with (Z.of_nat 242); [|done]. apply inj_le.
  unfold marshal_signal, signal_json. etransitivity; [apply print_obj_size|].
  cbn [simple_signal sg_Type sg_ID sg_Ufrag sg_Pwd sg_Cand sg_N sg_Of sg_Data].
  rewrite !members_size_app. change (members_size (opt_str _ "")) with O. change (members_size (opt_int _ 0)) with O.
  pose proof (members_opt_str "id" id) as Hm. rewrite (json_quote_plain id) in Hm by done.
  unfold members_size at 1. unfold req_str. cbn [sum_list_with]. rewrite member_size_str, (json_quote_plain typ) by done.
  change (length (json_quote "id")) with 4%nat in Hm. change (length (json_quote "t")) with 3%nat. lia.
Qed.

(** A reply from a daemon that sees the other goes out. *)
Lemma send_reply_says d kb dev s :
  sees d (id_public kb) dev → signal_fits s →
  ∃ d', send_reply (dev_Fingerprint dev) s d = (Ok (), d') ∧
    says d [packet_for (node_key d) (d_now d) (id_public kb) s] d'.
Proof.
  intros Hd Hs. destruct (sendSignal_says 300 d kb dev (dev_Fingerprint dev) s) as (d' & E & Hsays);
    [done|done|apply Hd|done|]. exists d'. split; [|done].
  unfold send_reply, ignore. unfold bind. by rewrite (try_Ok _ _ _ _ E).
Qed.

(** The answer an ID waits for. *)
Lemma hear_answer d pub dev key now typ id :
  typ = "pong" ∨ typ = "clip-ack" →
  sees d pub dev → pub = id_public key → in_time now (d_now d) → utf8 id → signal_fits (simple_signal typ id) →
  id ∈ r_pongs (d_rns d) →
  ∃ d', hear (packet_for key now (id_public (node_key d)) (simple_signal typ id)) d = (Ok (), d') ∧
    id ∈ r_answered (d_rns d') ∧ in_tune d d'.
Proof.
  intros Htyp Hd Hpub Ht Hid Hs Hwait. rewrite (hear_message d pub dev) by done. unfold bind.
  rewrite (rns_message_kicked d pub dev); [|apply Hd|apply simple_signal_wire; [by destruct Htyp as [->| ->]|done]].
  cbn [simple_signal sg_Type sg_ID].
  assert (∀ m1 m2 m3 m4 m5, (if typ =?s "ping" then m1 else if typ =?s "ice-offer" then m2
    else if (typ =?s "ice-answer") || (typ =?s "ice-cand") then m3 else if typ =?s "clip" then m4
    else if (typ =?s "clip-ack") || (typ =?s "pong") then close_pong id else m5) = close_pong id) as ->.
  { by destruct Htyp as [->| ->]. }
  eexists. split; [unfold close_pong, on_rns, modify; reflexivity|]. cbn [d_rns with_rns kicked same_kick].
  rewrite bool_decide_eq_true_2 by done. split; [|done]. cbn. set_solver.
Qed.

(** ** Waiting for the answer *)

(** What happens while [a] waits, which was [a] when the call began and is
    [a1] when it waits: its packets reach [b], in the order the hubs bring
    them, and [delay] later what [b] answered reaches it. *)
Definition carried (delay : Z) (shuffle : list packet → list packet) (a b : Daemon) : M Daemon unit := λ a1,
  let b1 := (hear_all (shuffle (packets_since a a1)) b).2 in
  hear_all (packets_since b b1) (set_now (d_now a1 + delay) a1).

(** Two daemons that trust each other, with clocks that agree within the age
    a message may have. *)
Record linked (delay : Z) (a b : Daemon) (deva devb : Device) : Prop := {
  ln_a : sees a (id_public (node_key b)) devb;
  ln_b : sees b (id_public (node_key a)) deva;
  ln_there : in_time (d_now a) (d_now b);
  ln_back : in_time (d_now b) (d_now a + delay);
}.

Definition expecting (id : string) (d : Daemon) : Daemon :=
  with_rns (with_pongs ({[id]} ∪ r_pongs (d_rns d)) (r_answered (d_rns d) ∖ {[id]}) (d_rns d)) d.
Lemma expecting_in_tune id d : in_tune d (expecting id d).
Proof. done. Qed.
Lemma with_pong_Ok {A} id (body : M Daemon A) d x d' :
  body (expecting id d) = (Ok x, d') → ∃ d'', with_pong id body d = (Ok x, d'') ∧ in_tune d' d''.
Proof.
  intros E. unfold with_pong. rewrite bind_Ok with (a := ()) (s' := expecting id d) by done.
  rewrite (bind_Ok _ _ _ _ _ (try_Ok _ _ _ _ E)). eexists. split; [reflexivity|done].
Qed.

Lemma set_now_sees t d pub dev : sees d pub dev → sees (set_now t d) pub dev.
Proof. intros [Hn Hd Hl]. by split. Qed.

(** The answer is among what [b] said, so the wait ends. *)
Lemma carried_answered delay shuffle a b deva devb a1 b1 ps typ id :
  linked delay a b deva devb → typ = "pong" ∨ typ = "clip-ack" →
  utf8 id → signal_fits (simple_signal typ id) →
  says (expecting id a) ps a1 → (hear_all (shuffle ps) b).2 = b1 →
  packets b1 = packets b ++ [packet_for (node_key b) (d_now b) (id_public (node_key a)) (simple_signal typ id)] →
  ∃ a2, carried delay shuffle a b a1 = (Ok (), a2) ∧ id ∈ r_answered (d_rns a2) ∧ d_now a2 = d_now a + delay ∧
    packets a2 = packets a ++ ps.
Proof.
  intros Hl Htyp Hid Hs Ha1 Hb1 Hp. unfold carried.
  pose proof (says_since _ _ _ Ha1) as Hps. unfold packets_since in Hps |- *.
  change (packets (expecting id a)) with (packets a) in Hps. rewrite Hps, Hb1, Hp, drop_app_length.
  pose proof (says_key _ _ _ Ha1) as Hkey. change (node_key (expecting id a)) with (node_key a) in Hkey.
  pose proof (sees_says _ _ _ _ _ Ha1 (sees_in_tune _ _ _ _ (expecting_in_tune id a) (ln_a _ _ _ _ _ Hl))) as Hsee.
  pose proof (says_packets _ _ _ Ha1) as Hp1. destruct Ha1 as (n & n' & Hn & -> & _).
  set (a1 := with_rns _ _) in *. set (a1' := set_now _ a1).
  destruct (hear_answer a1' (id_public (node_key b)) devb (node_key b) (d_now b) typ id) as (a2 & E & Hin & Hnode & Hcs);
    [done|by apply set_now_sees|done|apply Hl|done|done|cbn; set_solver|].
  exists a2. cbn [hear_all]. change (node_key a1') with (node_key a1) in E. rewrite Hkey in E.
  rewrite (bind_Ok _ _ _ _ _ E). split_and!; [done|done| |].
  - unfold d_now. by rewrite Hcs.
  - unfold packets at 1. by rewrite Hnode.
Qed.


(** ** A clipboard in parts *)

Lemma send_all_says c d kb dev l :
  (300 ≤ c)%nat → sees d (id_public kb) dev → Forall signal_fits l →
  ∃ d', send_all (Some c) (dev_Fingerprint dev) l d = (Ok (), d') ∧
    says d (map (packet_for (node_key d) (d_now d) (id_public kb)) l) d'.
Proof.
  intros Hc Hd Hl. revert d Hd. induction Hl as [|s l Hs _ IH]; intros d Hd.
  { exists d. split; [done|]. by eapply says_nil. }
  destruct (sendSignal_says c d kb dev (dev_Fingerprint dev) s) as (d1 & E1 & Hs1); [done|done|apply Hd|done|].
  destruct (IH d1) as (d2 & E2 & Hs2); [by eapply sees_says|].
  exists d2. cbn [send_all map]. rewrite (bind_Ok _ _ _ _ _ E1). split; [done|].
  rewrite (says_key _ _ _ Hs1) in Hs2.
  assert (d_now d1 = d_now d) as Hnow by (by destruct Hs1 as (n & n' & _ & -> & _)).
  rewrite Hnow in Hs2. exact (says_trans _ _ _ _ _ Hs1 Hs2).
Qed.

Section clipboard.
Variables (dev : Device) (key : bytes) (now : Z) (id : string) (data : bytes).
Hypothesis (Hmax : 242 ≤ MaxMessage).
Hypothesis (Hid : forallb plain_byte (bs id) = true) (Hlen : (String.length id ≤ 16)%nat).
Hypothesis (Hdata : Z.of_nat (length data) ≤ hubClipMax).

Lemma part_fits i : (i < parts_number data)%nat → signal_fits (part_signal id data i).
Proof.
  intros Hi. unfold parts_number in Hi. pose proof (clip_count_range data Hdata).
  unfold signal_fits, part_signal. apply clip_part_fits; [done..|]. lia.
Qed.

Lemma hear_part i d :
  (i < parts_number data)%nat → sees d (id_public key) dev → in_time now (d_now d) →
  hear (packet_for key now (id_public (node_key d)) (part_signal id data i)) d =
    (receiveClipPart clipboard_set dev (part_signal id data i) ;;; ret ()) (kicked d).
Proof.
  intros Hi Hd Ht. rewrite (hear_message d (id_public key) dev); [|done|done|done|by apply part_fits].
  unfold bind. rewrite (rns_message_kicked d _ dev); [done|apply Hd|].
  apply part_signal_wire; [done|by apply plain_ascii|done].
Qed.

(** While a part is missing, hearing the others only collects them. *)
Lemma hear_parts js S d :
  Forall (λ i, i < parts_number data)%nat js → S ⊆ part_set (parts_number data) →
  (size (list_to_set js ∪ S) < parts_number data)%nat →
  sees d (id_public key) dev → in_time now (d_now d) → collecting dev id data S d →
  ∃ d', hear_all (map (λ i, packet_for key now (id_public (node_key d)) (part_signal id data i)) js) d = (Ok (), d') ∧
    in_tune d d' ∧ collecting dev id data (list_to_set js ∪ S) d' ∧ d_clipboard d' = d_clipboard d.
Proof.
  intros His. revert S d. induction His as [|i js Hi _ IH]; intros S d HS Hsz Hd Ht Hcol.
  { exists d. cbn [list_to_set foldr]. rewrite (left_id_L ∅ (∪)). done. }
  change (list_to_set (i :: js)) with ({[i]} ∪ list_to_set js : gset nat) in Hsz |- *.
  assert (list_to_set js ∪ ({[i]} ∪ S) = {[i]} ∪ list_to_set js ∪ S) as Hun by set_solver.
  assert (size S < parts_number data ∧ size ({[i]} ∪ S) < parts_number data)%nat as [HszS HszS'].
  { split; (eapply Nat.le_lt_trans; [|exact Hsz]; apply subseteq_size; set_solver). }
  set (d1 := put_clips (<[text_key dev id := collected data (parts_number data) ({[i]} ∪ S)]>
                          (r_clips (d_rns (kicked d)))) (kicked d)).
  destruct (IH ({[i]} ∪ S) d1) as (d' & E & Htune & Hcol' & Hc).
  - by apply insert_part.
  - by rewrite Hun.
  - apply (sees_in_tune d); [by destruct (kicked_in_tune d)|done].
  - done.
  - unfold collecting. rewrite decide_False by set_solver. cbn. apply lookup_insert_eq.
  - exists d'. rewrite Hun in Hcol'. split_and!; [|by destruct Htune|done|done].
    cbn [map hear_all]. rewrite (bind_Ok _ _ _ () d1); [exact E|].
    rewrite hear_part by done. rewrite (bind_Ok _ _ _ () d1); [done|].
    rewrite (receiveClipPart_step clipboard_set dev id data Hdata i S) by done.
    by rewrite decide_False by lia.
Qed.

(** The last part sets the clipboard and is acknowledged. *)
Lemma hear_last i S d :
  queue_init tt = (Ok (), tt) →
  (i < parts_number data)%nat → S ⊆ part_set (parts_number data) → (size S < parts_number data)%nat →
  size ({[i]} ∪ S) = parts_number data → clipboard_set data "text/plain" = None →
  sees d (id_public key) dev → in_time now (d_now d) → collecting dev id data S d →
  ∃ d', hear (packet_for key now (id_public (node_key d)) (part_signal id data i)) d = (Ok (), d') ∧
    d_clipboard d' = d_clipboard d ++ [(data, "text/plain")] ∧
    packets d' = packets d ++ [packet_for (node_key d) (d_now d) (id_public key) (simple_signal "clip-ack" id)].
Proof.
  intros Hinit Hi HS Hsz Hfull Hset Hd Ht Hcol. rewrite hear_part by done. unfold bind.
  rewrite (receiveClipPart_step clipboard_set dev id data Hdata i S) by done. rewrite decide_True by done.
  set (d1 := put_clips _ _). unfold clip_complete. rewrite Hset.
  set (d2 := add_clipboard data "text/plain" d1).
  set (ev := mkEvent _ _ _ _ _ _ _ _ _ _). set (d3 := (daemon_broadcast ev d2).2).
  set (d4 := (notify ("Clipboard from " +:+ dev_Name dev) "Received through the Reticulum hubs." d3).2).
  rewrite bind_Ok with (a := ()) (s' := d2) by done. rewrite bind_Ok with (a := ()) (s' := d3) by done.
  rewrite bind_Ok with (a := ()) (s' := d4) by done. cbn [part_signal clip_signal sg_ID].
  destruct (send_reply_says d4 key dev (simple_signal "clip-ack" id)) as (d' & E & Hsays).
  - by apply (sees_in_tune d).
  - apply simple_signal_fits; [done|done|by apply Nat.leb_le|done..].
  - rewrite E. exists d'. split_and!; [done| |exact (says_packets _ _ _ Hsays)].
    by destruct Hsays as (n & n' & _ & -> & _).
Qed.
End clipboard.

End link.

(** ** Two daemons *)

(** The hubs turn the order of the packets around. *)
Definition demo_rns_pc : Device :=
  mkDevice "pc" (Fingerprint (bs "pc certificate")) "" 0 "" (hex_encode (toy_public (bs "pc"))).
Definition demo_on_hubs (key : bytes) (other : Device) : Daemon :=
  let d := demo_daemon [other] in with_rns (with_node (Some (node_of key)) (d_rns d)) d.
Definition demo_pc : Daemon := demo_on_hubs (bs "pc") demo_rns_phone.
Definition demo_phone_on_hubs : Daemon := demo_on_hubs (bs "phone") demo_rns_pc.

Lemma demo_sees key other pub :
  dev_RNS other = hex_encode pub → matches (dev_Fingerprint other) other = true → @sees (demo_on_hubs key other) pub other.
Proof.
  intros Hpub Hm. split.
  - exists (node_of key). done.
  - unfold deviceByRNS. cbn. by rewrite Hpub, String.eqb_refl.
  - change (find (matches (dev_Fingerprint other)) [other] = Some other). cbn [find].
    by rewrite Hm.
Qed.
Lemma demo_linked : @linked toy_reticulum nsec demo_pc demo_phone_on_hubs demo_rns_pc demo_rns_phone.
Proof.
  split; [apply demo_sees; by vm_compute|apply demo_sees; by vm_compute|..]; unfold in_time, maxAge, nsec; vm_compute; split; try split; congruence.
Qed.


