(* ===== verification/Queue.v ===== *)
(** * internal/daemon/queue.go: sends that wait for a channel

    The queue lives in queue.json; every operation loads it, changes it and
    saves it under queueMu. Here: its JSON form, the operations, the retry of
    every item, and the two senders that queue what could not be sent. *)

From S2P Require Import Prelude GoStrings GoFmt GoPath Go GoTime Json JsonRec Base64 Fs Proto Ipc.
From S2P Require Import Receive Config Send Transport Rns Hubs World Peer Signals Clips Dial.
From Stdlib Require Import ZArith Lia String Ascii List Bool.
From stdpp Require Import base list strings gmap option numbers.

#[local] Open Scope string_scope.
#[local] Open Scope list_scope.
#[local] Open Scope Z_scope.

(** ** One queued send *)

(** [Clip] is nil for files. *)
Record queued := mkQueued {
  q_ID : string;
  q_Peer : string;
  q_Name : string;
  q_Paths : list string;
  q_Clip : option bytes;
  q_Added : Z;
  q_Reason : string;
  q_Tries : Z;
}.
#[export] Instance queued_eq_dec : EqDecision queued.
Proof. solve_decision. Defined.
Definition zero_queued : queued := mkQueued "" "" "" [] None zeroTime "" 0.

Definition set_q_ID x q := mkQueued x (q_Peer q) (q_Name q) (q_Paths q) (q_Clip q) (q_Added q) (q_Reason q) (q_Tries q).
Definition set_q_Peer x q := mkQueued (q_ID q) x (q_Name q) (q_Paths q) (q_Clip q) (q_Added q) (q_Reason q) (q_Tries q).
Definition set_q_Name x q := mkQueued (q_ID q) (q_Peer q) x (q_Paths q) (q_Clip q) (q_Added q) (q_Reason q) (q_Tries q).
Definition set_q_Paths x q := mkQueued (q_ID q) (q_Peer q) (q_Name q) x (q_Clip q) (q_Added q) (q_Reason q) (q_Tries q).
Definition set_q_Clip x q := mkQueued (q_ID q) (q_Peer q) (q_Name q) (q_Paths q) x (q_Added q) (q_Reason q) (q_Tries q).
Definition set_q_Added x q := mkQueued (q_ID q) (q_Peer q) (q_Name q) (q_Paths q) (q_Clip q) x (q_Reason q) (q_Tries q).
Definition set_q_Reason x q := mkQueued (q_ID q) (q_Peer q) (q_Name q) (q_Paths q) (q_Clip q) (q_Added q) x (q_Tries q).
Definition set_q_Tries x q := mkQueued (q_ID q) (q_Peer q) (q_Name q) (q_Paths q) (q_Clip q) (q_Added q) (q_Reason q) x.

(** A []byte field is base64 text; empty, it is left out. *)
Definition opt_bytes (k : string) (b : option bytes) : list (string * json) :=
  match b with
  | Some (x :: l) => [(k, JStr (Std_encode (x :: l)))]
  | _ => []
  end.
Definition queued_json (q : queued) : json :=
  JObj (req_str "id" (q_ID q) ++ req_str "peer" (q_Peer q) ++ req_str "name" (q_Name q) ++
        opt_strs "paths" (q_Paths q) ++ opt_bytes "clip" (q_Clip q) ++ req_time "added" (q_Added q) ++
        req_str "reason" (q_Reason q) ++ req_int "tries" (q_Tries q)).

Definition bytes_field {A} (set : option bytes → A → A) : field A := λ v a,
  match v with
  | JNull => Some (set None a)
  | JStr s => (λ b, set (Some b) a) <$> Std_decode (bs s)
  | _ => None
  end.
Definition queued_fields : list (string * field queued) :=
  [("id", str_field set_q_ID); ("peer", str_field set_q_Peer); ("name", str_field set_q_Name);
   ("paths", strs_field set_q_Paths); ("clip", bytes_field set_q_Clip); ("added", time_field set_q_Added);
   ("reason", str_field set_q_Reason); ("tries", int_field set_q_Tries)].
Definition queued_of_json (v : json) : option queued := decode_object queued_fields zero_queued v.

(** A Go slice of items: nil is not the empty slice, only its JSON tells. *)
Definition qslice := option (list queued).
Definition items (q : qslice) : list queued := default [] q.
Definition queue_json (q : qslice) : json :=
  match q with Some l => JArr (map queued_json l) | None => JNull end.
(** A queue.json of another shape than saveQueueLocked writes loads as empty. *)
Definition queue_of_json (v : json) : qslice :=
  match v with JArr l => mapM queued_of_json l | _ => None end.

(** ** queue.json *)

Definition queueFile : string := "queue.json".
Definition queueRetry : Z := 2 * 60 * second.
Definition queuePath (st : Store) : string := Path st queueFile.
Definition marshal_queue (q : qslice) : bytes := print_indent (queue_json q).

Definition loadQueue : M Daemon qslice :=
  d <- get_state ;;
  raw <- try (on_daemon_fs (read_file (queuePath (d_store d)))) ;;
  ret (match raw with
       | inl b => match parse b with Some v => queue_of_json v | None => None end
       | inr _ => None
       end).

Definition saveQueueLocked (q : qslice) : M Daemon unit :=
  d <- get_state ;;
  let tmp := Path (d_store d) (queueFile +:+ ".tmp") in
  w <- try (on_daemon_fs (write_file tmp (marshal_queue q))) ;;
  match w with
  | inl _ => ignore (on_daemon_fs (rename tmp (queuePath (d_store d))))
  | inr _ => ret ()
  end.

(** [id] is what rand.Read yields, in hex. *)
Definition enqueue (id : string) (item : queued) : M Daemon queued :=
  now <- asks d_now ;;
  let item := set_q_Added now (set_q_ID id item) in
  q <- loadQueue ;;
  saveQueueLocked (Some (items q ++ [item])) ;;;
  ret item.

Definition what_of (q : queued) : string :=
  match q_Clip q with
  | Some c => "clipboard (" +:+ itoa (Z.of_nat (length c)) +:+ " bytes)"
  | None => itoa (Z.of_nat (length (q_Paths q))) +:+ " file(s)"
  end.
(** [Format(time.RFC3339)]: no fraction of a second. *)
Definition format_seconds (t : Z) : string := str (format_rfc3339 (t / nsec * nsec)).
Definition queue_item (q : queued) : QueueItem :=
  mkQueueItem (q_ID q) (q_Name q) (what_of q) (q_Paths q) (format_seconds (q_Added q)) (q_Reason q) (q_Tries q).
Definition Queue : M Daemon (list QueueItem) := q <- loadQueue ;; ret (map queue_item (items q)).

(** The position of the first item with an ID. *)
Fixpoint find_id (id : string) (l : list queued) : option nat :=
  match l with
  | [] => None
  | q :: l' => if q_ID q =?s id then Some O else S <$> find_id id l'
  end.
(** [append(q[:i], q[i+1:]...)] *)
Definition remove_at {A} (i : nat) (l : list A) : list A := take i l ++ drop (S i) l.

Definition Unqueue (id : string) : M Daemon unit :=
  q <- loadQueue ;;
  match find_id id (items q) with
  | Some i => saveQueueLocked (Some (remove_at i (items q)))
  | None => throw (Errorf ("nothing queued with id " +:+ quote id))
  end.

(** ** Why it waits, and whether it may *)

Definition waitReason (d : Daemon) (dev : Device) (err : error) : string :=
  let name := dev_Name dev in
  if bool_decide (r_node (d_rns d) = None) || (dev_RNS dev =?s "") then
    name +:+ " cannot be reached now; it goes when " +:+ name +:+
      " is back on this network. Last error: " +:+ error_text err
  else
    name +:+ " is outside this network and no direct channel came up " +:+
      "(both sides are probably behind strict NATs, e.g. two phones on mobile data); " +:+
      "it goes as soon as one of them is reachable, for example on Wi-Fi. Last error: " +:+ error_text err.

Definition queueable (d : Daemon) (err : option error) : option Device :=
  e ← err;
  dev ← as_unreachable e;
  if o_queueAll (d_set d) || (bool_decide (r_node (d_rns d) ≠ None) && negb (dev_RNS dev =?s ""))
  then Some dev else None.

(** ** Retrying *)
Section retry.
Context `{Reticulum} (env : surroundings).
(** rand.Read, and the working directory. *)
Context (random_id : Daemon → string) (cwd : string).

Definition send_queued (ctx : context) (it : queued) : M Daemon (option error) :=
  d <- get_state ;;
  s <- (match q_Clip it with
        | Some c => SendClipboard env ctx (random_id d) (q_Peer it) c "text/plain"
        | None => SendFiles env ctx None (random_id d) cwd (q_Peer it) (q_Paths it) true
        end) ;;
  ret (sent_err s).

(** What becomes of the item at position [i] of the queue as it is now. *)
Definition settle (it : queued) (err : option error) (cur : list queued) (i : nat)
    : M Daemon (list queued) :=
  match err with
  | None =>
      daemon_broadcast (mkEvent "queue-sent" (q_Name it) "" 0 (Z.of_nat (length (q_Paths it))) 0 0 "" None "") ;;;
      notify ("Sent to " +:+ q_Name it) "A queued send went through." ;;;
      ret (remove_at i cur)
  | Some e =>
      match as_unreachable e with
      | Some dev =>
          d <- get_state ;;
          ret (alter (λ q, set_q_Reason (waitReason d dev e) (set_q_Tries (int64 (q_Tries q + 1)) q)) i cur)
      | None =>
          daemon_broadcast (mkEvent "queue-error" (q_Name it) "" 0 0 0 0 (error_text e) None "") ;;;
          ret (remove_at i cur)
      end
  end.

Definition retry_item (ctx : context) (it : queued) : M Daemon unit :=
  err <- send_queued ctx it ;;
  cur <- loadQueue ;;
  match find_id (q_ID it) (items cur) with
  | Some i => l <- settle it err (items cur) i ;; saveQueueLocked (Some l)
  | None => saveQueueLocked cur
  end.

Fixpoint retry_items (ctx : context) (l : list queued) : M Daemon unit :=
  match l with
  | [] => ret ()
  | it :: l' =>
      now <- asks d_now ;;
      match ctx_err ctx now with
      | Some _ => ret ()
      | None => retry_item ctx it ;;; retry_items ctx l'
      end
  end.
Definition retryQueue (ctx : context) : M Daemon unit :=
  q <- loadQueue ;; retry_items ctx (items q).

(** One round of runQueue: the ticker or a kick starts a retry; [None] when
    there is neither. *)
Definition queue_round (ctx : context) (tick : bool) : M Daemon unit :=
  d <- get_state ;;
  if tick || r_kick (d_rns d) then
    (if tick then ret () else modify (λ d, with_rns (same_kick false (d_rns d)) d)) ;;;
    retryQueue ctx
  else ret ().

(** ** Sending or queueing *)

Definition SendFilesOrQueue (ctx : context) (checks : option nat) (target : string) (paths : list string)
    (progress : bool) : M Daemon (list string * (string + error)) :=
  d <- get_state ;;
  s <- SendFiles env ctx checks (random_id d) cwd target paths progress ;;
  d <- get_state ;;
  match queueable d (sent_err s), sent_err s with
  | Some dev, Some err =>
      let reason := waitReason d dev err in
      it <- enqueue (random_id d)
              (mkQueued "" (dev_Fingerprint dev) (dev_Name dev) paths None 0 reason 0) ;;
      ret (sent_lines s, inl (q_Reason it))
  | _, Some err => ret (sent_lines s, inr err)
  | _, None => ret (sent_lines s, inl "")
  end.

Context (meanwhile : M Daemon unit).

Definition SendClipboardAnywhere (ctx : context) (target : string) (data : bytes) (mime : string)
    : M Daemon (string + error) :=
  d <- get_state ;;
  s <- SendClipboard env ctx (random_id d) target data mime ;;
  match sent_err s with
  | None => ret (inl "clipboard sent")
  | Some err =>
      d <- get_state ;;
      match queueable d (Some err) with
      | None => ret (inr err)
      | Some dev =>
          hub <- (if (Z.of_nat (length data) <=? hubClipMax) && ((mime =?s "") || (mime =?s "text/plain"))
                  then try (sendClipOverHubs meanwhile (random_id d) dev data)
                  else ret (inr EOF)) ;;
          match hub with
          | inl _ =>
              ignore (on_store (SetLastPeer (dev_Fingerprint dev))) ;;;
              ret (inl "clipboard sent through reticulum hubs")
          | inr _ =>
              d <- get_state ;;
              it <- enqueue (random_id d)
                      (mkQueued "" (dev_Fingerprint dev) (dev_Name dev) [] (Some data) 0
                         (waitReason d dev err) 0) ;;
              ret (inl ("queued: " +:+ q_Reason it))
          end
      end
  end.
End retry.

(** ** What is saved is what loads *)

Definition valid_clip (b : option bytes) : option bytes := match b with Some [] => None | _ => b end.
Definition valid_queued (q : queued) : queued :=
  mkQueued (to_valid (q_ID q)) (to_valid (q_Peer q)) (to_valid (q_Name q)) (map to_valid (q_Paths q))
    (valid_clip (q_Clip q)) (q_Added q) (to_valid (q_Reason q)) (q_Tries q).
(** The times and counters JSON can hold. *)
Definition queued_ok (q : queued) : Prop := year_ok (q_Added q) = true ∧ inInt64 (q_Tries q).

Lemma wf_opt_bytes k b : wf_members (opt_bytes k b).
Proof. destruct b as [[|x l]|]; repeat constructor. Qed.
#[export] Hint Resolve wf_opt_bytes : wire.
Lemma queued_json_wf q : json_wf (queued_json q).
Proof. unfold queued_json. constructor. wire_wf. Qed.
Lemma queue_json_wf q : json_wf (queue_json q).
Proof. destruct q as [l|]; [|constructor]. constructor. apply json_wf_map, queued_json_wf. Qed.

Section segments.
Context {A : Type} (fs : list (string * field A)).
Lemma seg_opt_bytes k b upd ms a :
  find_field fs (to_valid k) = Some (bytes_field upd) → upd None a = a →
  decode_members fs (map norm_member (opt_bytes k b) ++ ms) a =
  decode_members fs ms (upd (valid_clip b) a).
Proof.
  intros Hf Hz. destruct b as [[|x l]|]; [cbn [opt_bytes map app valid_clip]; by rewrite Hz| |
    cbn [opt_bytes map app valid_clip]; by rewrite Hz].
  apply (decode_members_cons _ _ _ _ _ _ _ Hf). unfold bytes_field. cbn [norm].
  rewrite (plain_ascii (Std_encode _)) by apply Std_encode_plain.
  unfold Std_encode, Std_decode. rewrite bs_str, no_breaks_id; [by rewrite b64_decode_encode|].
  eapply Forall_impl; [|apply b64_encode_chars]. by intros y [? _].
Qed.
End segments.

Ltac norm_queued :=
  cbn [set_q_ID set_q_Peer set_q_Name set_q_Paths set_q_Clip set_q_Added set_q_Reason set_q_Tries
       q_ID q_Peer q_Name q_Paths q_Clip q_Added q_Reason q_Tries].

Lemma queued_roundtrip q : queued_ok q → queued_of_json (norm (queued_json q)) = Some (valid_queued q).
Proof.
  intros [Hz Ht]. destruct q as [i p n ps c a r t]. cbn in Hz, Ht.
  unfold queued_json, queued_of_json, decode_object. cbn [norm]. fold norm_member.
  rewrite decode_members_nil, !map_app. unfold zero_queued. norm_queued.
  do 3 (decode_step; norm_queued).
  rewrite <-?app_assoc. erewrite seg_opt_strs; [|find_segment|reflexivity]. norm_queued.
  rewrite <-?app_assoc. erewrite seg_opt_bytes; [|find_segment|reflexivity]. norm_queued.
  rewrite <-?app_assoc. erewrite seg_req_time; [|find_segment|done]. norm_queued.
  do 2 (decode_step; norm_queued). reflexivity.
Qed.

Lemma queue_roundtrip l :
  Forall queued_ok l →
  (v ← parse (marshal_queue (Some l)); queue_of_json v) = Some (map valid_queued l).
Proof.
  intros Hl. unfold marshal_queue. rewrite parse_print_indent by apply queue_json_wf.
  cbn [mbind option_bind queue_json norm queue_of_json].
  induction Hl as [|q l Hq _ IH]; [done|]. cbn [map mapM]. rewrite queued_roundtrip by done.
  simpl. by rewrite IH.
Qed.

(** *** Loading and saving *)

Definition queue_file (d : Daemon) : option bytes := file_at (d_fs d) (queuePath (d_store d)).
(** The queue as the next operation finds it. *)
Definition parse_queue (b : option bytes) : qslice := raw ← b; v ← parse raw; queue_of_json v.
Definition queue_of (d : Daemon) : list queued := items (parse_queue (queue_file d)).

Lemma loadQueue_spec d : loadQueue d = (Ok (parse_queue (queue_file d)), d).
Proof.
  unfold loadQueue. rewrite bind_Ok with (a := d) (s' := d) by done.
  unfold queue_file, file_at, bind, try, on_daemon_fs, on_store, on_store_fs, zoom, read_file.
  change (cs_fs (d_cs d)) with (d_fs d).
  destruct (fs_nodes (d_fs d) !! queuePath (d_store d)) as [[| |]|]; cbn; by destruct d as [? ? ? []].
Qed.

Definition queueTmp (st : Store) : string := Path st (queueFile +:+ ".tmp").
(** A store whose directory is a clean absolute path. *)
Definition clean_store (st : Store) : Prop := ∃ l, s_dir st = abs_path l ∧ l ≠ [] ∧ Forall plain l.

Lemma plain_name s : plain s → Forall plain [s].
Proof. by constructor. Qed.
Lemma store_path_inj st a b :
  clean_store st → plain a → plain b → Path st a = Path st b → a = b.
Proof.
  intros (l & Hd & Hne & Hl) Ha Hb. unfold Path. rewrite Hd.
  change a with (rel_path [a]) at 1. change b with (rel_path [b]) at 1.
  rewrite !path_join_abs by (done || by apply plain_name). intros E%abs_path_inj.
  - by apply app_inv_head in E as [= ->].
  - by apply Forall_app_2, plain_name.
  - by apply Forall_app_2, plain_name.
Qed.

Definition with_fs (f : fs) (d : Daemon) : Daemon := with_cs (mkCstate (d_store d) f (d_now d)) d.
Lemma on_daemon_fs_inv {A} (m : M fs A) d r d' :
  on_daemon_fs m d = (r, d') → ∃ f, m (d_fs d) = (r, f) ∧ d' = with_fs f d.
Proof. by intros (cs & (f & E & ->)%zoom_inv & ->)%zoom_inv; exists f. Qed.

Lemma queue_paths_differ st : clean_store st → queuePath st ≠ queueTmp st.
Proof.
  intros Hc E. unfold queuePath, queueTmp in E. change (queueFile +:+ ".tmp") with "queue.json.tmp" in E.
  change queueFile with "queue.json" in E.
  apply store_path_inj in E; [discriminate E|done|..]; (split_and!; [done..|by apply no_byte_test]).
Qed.

(** saveQueueLocked never fails: the queue stays as it was, or becomes the new
    one. *)
Definition saved_queue (q : qslice) (d d' : Daemon) : Prop :=
  d_store d' = d_store d ∧ d_now d' = d_now d ∧
  only (λ p, p = queuePath (d_store d) ∨ p = queueTmp (d_store d)) (d_fs d) (d_fs d') ∧
  (queue_file d' = queue_file d ∨ queue_file d' = Some (marshal_queue q)).
Lemma saveQueueLocked_spec q d r d' :
  clean_store (d_store d) → saveQueueLocked q d = (r, d') → r = Ok () ∧ saved_queue q d d'.
Proof.
  intros Hc. unfold saveQueueLocked. rewrite bind_Ok with (a := d) (s' := d) by done. cbv zeta.
  fold (queueTmp (d_store d)). pose proof (queue_paths_differ _ Hc) as Hne.
  set (tmp := queueTmp (d_store d)) in *. set (p := queuePath (d_store d)) in *.
  set (P := λ q, q = p ∨ q = tmp). intros E. unfold bind, try in E.
  destruct (on_daemon_fs (write_file tmp _) d) as [r1 d1] eqn:E1.
  apply on_daemon_fs_inv in E1 as (f1 & E1 & ->).
  pose proof (write_file_runs tmp (marshal_queue q) (d_fs d) I) as [Hf _]. rewrite E1 in Hf.
  pose proof (write_file_touches (λ q, q = tmp) tmp _ eq_refl _ _ _ E1) as Ht.
  assert (file_at f1 p = file_at (d_fs d) p) as Hp by (unfold file_at; by rewrite Ht).
  assert (only P (d_fs d) f1) as Ho1 by (eapply only_weaken; [|exact Ht]; intros ? ->; by right).
  destruct r1 as [[]|e| | |]; try done.
  2: { injection E as <- <-. split; [done|]. split_and!; [done|done|exact Ho1|by left]. }
  unfold ignore, bind, try in E. destruct (on_daemon_fs (rename tmp p) _) as [r2 d2] eqn:E2.
  apply on_daemon_fs_inv in E2 as (f2 & E2 & ->). change (d_fs (with_fs f1 d)) with f1 in E2.
  pose proof (rename_runs tmp p f1 I) as [Hf2 _]. rewrite E2 in Hf2.
  assert (r = Ok () ∧ d' = with_fs f2 (with_fs f1 d)) as [-> ->].
  { by destruct r2; try done; injection E as <- <-. }
  assert (only P f1 f2) as Ho2.
  { eapply (rename_touches P tmp p); [by right|by left|exact E2]. }
  split; [done|]. split_and!; [done|done|by etransitivity|].
  change (file_at f2 p = file_at (d_fs d) p ∨ file_at f2 p = Some (marshal_queue q)).
  destruct r2 as [[]|e| | |]; try done.
  - right. apply rename_Ok in E2 as (b & Hb & Hd & _); [|done]. apply write_file_Ok in E1. congruence.
  - left. apply rename_failed in E2; [|done].
    transitivity (file_at f1 p); [unfold file_at; by rewrite E2|done].
Qed.

(** Loading what was saved. *)
Lemma saved_queue_load l d d' :
  Forall queued_ok l → saved_queue (Some l) d d' →
  queue_of d' = queue_of d ∨ queue_of d' = map valid_queued l.
Proof.
  intros Hl (_ & _ & _ & [H|H]); unfold queue_of; rewrite H; [by left|right].
  unfold parse_queue. cbn [mbind option_bind]. by rewrite queue_roundtrip.
Qed.


Definition demo_queued : queued :=
  mkQueued "0a" (dev_Fingerprint demo_phone) "phone" ["/home/u/a.txt"] None 0 "waiting" 0.
Lemma clean_store_demo devices : clean_store (d_store (demo_daemon devices)).
Proof. exists ["cfg"]. split; [done|]. split; [done|]. apply plain_name. split_and!; [done..|by apply no_byte_test]. Qed.


(** *** Taking one item out *)
Lemma find_id_Some id l i :
  find_id id l = Some i →
  ∃ a q b, l = a ++ q :: b ∧ length a = i ∧ q_ID q = id ∧ Forall (λ q, q_ID q ≠ id) a.
Proof.
  revert i. induction l as [|q l IH]; intros i; [done|]. cbn [find_id].
  destruct (String.eqb_spec (q_ID q) id) as [Hq|Hq].
  - intros [= <-]. by exists [], q, l.
  - destruct (find_id id l) as [j|]; [|done]. intros [= <-].
    destruct (IH j eq_refl) as (a & q' & b & -> & <- & Hid & Ha). exists (q :: a), q', b.
    split_and!; [done..|]. by constructor.
Qed.
Lemma find_id_None id l : find_id id l = None → Forall (λ q, q_ID q ≠ id) l.
Proof.
  induction l as [|q l IH]; [constructor|]. cbn [find_id].
  destruct (String.eqb_spec (q_ID q) id); [done|]. destruct (find_id id l); [done|]. constructor; auto.
Qed.
Lemma remove_at_middle {A} (a b : list A) x : remove_at (length a) (a ++ x :: b) = a ++ b.
Proof.
  unfold remove_at. rewrite take_app_length. f_equal.
  change (a ++ x :: b) with (a ++ [x] ++ b). rewrite app_assoc.
  replace (S (length a)) with (length (a ++ [x])) by (rewrite length_app; cbn; lia). apply drop_app_length.
Qed.

(** Unqueue drops exactly the first waiting send with the given ID and
    leaves the others, in order; without such a send it fails and changes
    nothing. *)
Theorem Unqueue_one id d :
  clean_store (d_store d) → Forall queued_ok (queue_of d) →
  (Forall (λ q, q_ID q ≠ id) (queue_of d) ∧
   Unqueue id d = (Err (Errorf ("nothing queued with id " +:+ quote id)), d)) ∨
  ∃ a q b d', queue_of d = a ++ q :: b ∧ q_ID q = id ∧ Forall (λ q, q_ID q ≠ id) a ∧
    Unqueue id d = (Ok (), d') ∧
    (queue_of d' = queue_of d ∨ queue_of d' = map valid_queued (a ++ b)).
Proof.
  intros Hc Hl. unfold Unqueue. rewrite (bind_Ok _ _ _ _ _ (loadQueue_spec d)). fold (queue_of d).
  destruct (find_id id (queue_of d)) as [i|] eqn:Ei.
  2: { left. split; [by apply find_id_None|done]. }
  right. apply find_id_Some in Ei as (a & q & b & Eq & <- & Hid & Ha). rewrite Eq, remove_at_middle.
  destruct (saveQueueLocked (Some (a ++ b)) d) as [r d'] eqn:Es.
  apply saveQueueLocked_spec in Es as [-> Hs]; [|done]. exists a, q, b, d'. split_and!; [done..|].
  rewrite <-Eq. apply (saved_queue_load _ _ _) in Hs; [done|].
  rewrite Eq in Hl. apply Forall_app in Hl as [? [_ ?]%Forall_cons_1]. by apply Forall_app_2.
Qed.

Definition demo_waiting : Daemon :=
  (saveQueueLocked (Some [demo_queued; set_q_ID "0b" demo_queued; set_q_ID "0c" demo_queued])
     (demo_daemon [demo_phone])).2.
Lemma Unqueue_one_witness :
  let d := demo_waiting in
  map q_ID (queue_of (Unqueue "0b" d).2) = ["0a"; "0c"] ∧
  ((Forall (λ q, q_ID q ≠ "0b") (queue_of d) ∧
    Unqueue "0b" d = (Err (Errorf ("nothing queued with id " +:+ quote "0b")), d)) ∨
   ∃ a q b d', queue_of d = a ++ q :: b ∧ q_ID q = "0b" ∧ Forall (λ q, q_ID q ≠ "0b") a ∧
     Unqueue "0b" d = (Ok (), d') ∧
     (queue_of d' = queue_of d ∨ queue_of d' = map valid_queued (a ++ b))).
Proof.
  cbv zeta. split; [by vm_compute|]. apply Unqueue_one.
  - exists ["cfg"]. split; [by vm_compute|]. split; [done|]. apply plain_name.
    split_and!; [done..|by apply no_byte_test].
  - assert (queue_of demo_waiting = [demo_queued; set_q_ID "0b" demo_queued; set_q_ID "0c" demo_queued]) as ->
      by by vm_compute.
    repeat constructor; unfold inInt64, minInt64, maxInt64; cbn; lia.
Defined.

(** A queued clipboard text that is empty loses its kind on the disk: it comes
    back as a send of no files, which fails for good at the next retry. *)
Example empty_clipboard_lost :
  let d := (enqueue "0a" (mkQueued "" (dev_Fingerprint demo_phone) "phone" [] (Some []) 0 "waiting" 0)
              (demo_daemon [demo_phone])).2 in
  map q_Clip (queue_of d) = [None] ∧
  map qi_What (match (Queue d).1 with Ok l => l | _ => [] end) = ["0 file(s)"] ∧
  queue_of (@retryQueue toy_reticulum (demo_network 0 "192.168.1.7:53127" demo_phone_hello)
              (λ _, "id") "/" None d).2 = [].
Proof. vm_compute. auto. Qed.

(** The queue file is JSON, which holds text only: the path of a file whose
    name is not UTF-8 comes back as that of another file. *)
Example path_not_text :
  let path := "/home/u/" +:+ String "255" EmptyString in
  let d := (enqueue "0a" (mkQueued "" (dev_Fingerprint demo_phone) "phone" [path] None 0 "waiting" 0)
              (demo_daemon [demo_phone])).2 in
  map q_Paths (queue_of d) = [[to_valid path]] ∧ to_valid path ≠ path.
Proof. split; [by vm_compute|by vm_compute]. Qed.

(** ** What a retry does to the queue *)

(** The entries that the outcome of a try leaves of one waiting send. *)
Definition left_waiting (d : Daemon) (err : option error) (q : queued) : list queued :=
  match err with
  | Some e =>
      match as_unreachable e with
      | Some dev => [set_q_Reason (waitReason d dev e) (set_q_Tries (int64 (q_Tries q + 1)) q)]
      | None => []
      end
  | None => []
  end.

Lemma daemon_broadcast_cs e d : ∃ d', daemon_broadcast e d = (Ok (), d') ∧ d_cs d' = d_cs d.
Proof. by eexists. Qed.

Lemma alter_middle {A} (f : A → A) a q b : alter f (length a) (a ++ q :: b) = a ++ f q :: b.
Proof. induction a as [|x a IH]; [done|]. cbn. by rewrite <-IH. Qed.

Lemma settle_spec it err a q b d :
  ∃ d', settle it err (a ++ q :: b) (length a) d = (Ok (a ++ left_waiting d err q ++ b), d') ∧ d_cs d' = d_cs d.
Proof.
  unfold settle, left_waiting. destruct err as [e|]; [destruct (as_unreachable e) as [dev|]|].
  - exists d. split; [|done]. unfold bind, get_state, ret. by rewrite alter_middle.
  - destruct (daemon_broadcast_cs (mkEvent "queue-error" (q_Name it) "" 0 0 0 0 (error_text e) None "") d) as (d' & E & H1).
    exists d'. split; [|done]. unfold bind. rewrite E. unfold ret. by rewrite remove_at_middle.
  - destruct (daemon_broadcast_cs (mkEvent "queue-sent" (q_Name it) "" 0 (Z.of_nat (length (q_Paths it))) 0 0 "" None "") d)
      as (d' & E & H1).
    eexists. split; [unfold bind; rewrite E; unfold notify, modify, ret; by rewrite remove_at_middle|exact H1].
Qed.

Lemma left_waiting_ok d err q : queued_ok q → Forall queued_ok (left_waiting d err q).
Proof.
  intros [H1 H2]. unfold left_waiting. destruct err as [e|]; [|constructor]. case_match; [|constructor].
  constructor; [|constructor]. split; [done|]. cbn. apply int64_range.
Qed.

Lemma queue_of_cs d d' : d_cs d' = d_cs d → queue_of d' = queue_of d.
Proof. intros E. unfold queue_of, queue_file, d_fs, d_store. by rewrite E. Qed.

Lemma saved_none_load d d' :
  saved_queue None d d' → queue_of d = [] → queue_of d' = [].
Proof.
  intros (_ & _ & _ & [H|H]) Hq; unfold queue_of; rewrite H; [done|]. by vm_compute.
Qed.


(** Three clipboard texts waiting for the phone. *)
Definition demo_text (id : string) : queued :=
  mkQueued id (dev_Fingerprint demo_phone) "phone" [] (Some (bs "hi")) 0 "waiting" 0.
Definition demo_texts : Daemon :=
  (saveQueueLocked (Some [demo_text "0a"; demo_text "0b"; demo_text "0c"]) (demo_daemon [demo_phone])).2.

(** A send that finds the phone keeps nothing; one that does not keeps the
    entry with a try more. *)
Definition demo_retry (net : surroundings) : Daemon :=
  (@retry_item toy_reticulum net (λ _, "id") "/" None (demo_text "0b") demo_texts).2.
Definition no_network : surroundings := demo_network (10 ^ 18) "192.168.1.99:1" [].

Definition demo_try (net : surroundings) : res (option error) * Daemon :=
  @send_queued toy_reticulum net (λ _, "id") "/" None (demo_text "0b") demo_texts.
Example retry_keeps_unreached :
  map (λ q, (q_ID q, q_Tries q)) (queue_of (demo_retry no_network)) = [("0a", 0); ("0b", 1); ("0c", 0)].
Proof. by vm_compute. Qed.
