(* ===== verification/TapPair.v ===== *)
(** * internal/daemon/tappair.go: tap pairing

    Two devices on an unpinned connection show the same code, and each user
    answers on their own device. A select over channels is a list of picks:
    which ready branch runs next; the daemon's other goroutines run before
    each. The decide and done channels of a pairing are fields of
    [pendingPair] (World.v). *)

From S2P Require Import Prelude GoStrings GoFmt Go GoNet Fs Proto Ipc Paths Receive Config Pairing.
From S2P Require Import Transport Rns World Peer.
From Stdlib Require Import ZArith Lia String Ascii List Bool.
From stdpp Require Import base list strings gmap option numbers.

#[local] Open Scope string_scope.
#[local] Open Scope list_scope.
#[local] Open Scope Z_scope.

Definition tapPairTimeout : Z := 2 * 60 * 10 ^ 9.
Definition errPairDeclined : error := Errorf "pairing declined on this device".
Definition errPeerDeclined : error := Errorf "pairing declined on the other device".
Definition errPairTimeout : error := Errorf "pairing timed out waiting for an answer".
Definition errNoPendingPairing : error := Errorf "no such pairing is waiting for an answer".

(** ** The registry of pairings *)

Definition allowTapPair (d : Daemon) : bool := o_tapPair (d_set d).

(** Go walks the map in any order; here it is that of the keys. *)
Definition PendingPairs (d : Daemon) : list PairInfo :=
  omap (λ p, if bool_decide (p.1 ∈ pg_tapPairs (d_pair d)) then Some (pp_info p.2) else None)
    (map_to_list (pg_pending (d_pair d))).

Definition set_pending (m : gmap string pendingPair) (tap : gset string) (d : Daemon) : Daemon :=
  with_pair (mkPairing (pg_sessions (d_pair d)) (pg_window (d_pair d)) m tap) d.
Definition alter_pending (id : string) (f : pendingPair → pendingPair) (d : Daemon) : Daemon :=
  set_pending (alter f id (pg_pending (d_pair d))) (pg_tapPairs (d_pair d)) d.

Definition set_decide (x : option bool) (p : pendingPair) : pendingPair :=
  mkPendingPair (pp_info p) (pp_rns p) x (pp_done p).
Definition set_done (x : option error) (p : pendingPair) : pendingPair :=
  mkPendingPair (pp_info p) (pp_rns p) (pp_decide p) (Some x).

(** The buffered channel takes one answer; a second one is dropped. *)
Definition put_answer (ok : bool) (p : pendingPair) : pendingPair :=
  match pp_decide p with None => set_decide (Some ok) p | Some _ => p end.

(** ConfirmPair: leave the answer, then wait for the outcome while
    [meanwhile] runs; [ctxErr] is what the context says if it ends first. *)
Definition ConfirmPair (meanwhile : M Daemon unit) (ctxErr : error) (id : string) (ok : bool)
    : M Daemon PairInfo :=
  d <- get_state ;;
  if negb (bool_decide (id ∈ pg_tapPairs (d_pair d))) then throw errNoPendingPairing
  else
    modify (alter_pending id (put_answer ok)) ;;;
    meanwhile ;;;
    d <- get_state ;;
    match pg_pending (d_pair d) !! id with
    | Some p =>
        match pp_done p with
        | Some None => ret (pp_info p)
        | Some (Some e) => throw e
        | None => throw ctxErr
        end
    | None => throw ctxErr
    end.

(** ** The exchange of requests *)
Section tap.
Context `{Reticulum}.

Definition request_header (d : Daemon) (addr : string) : Header :=
  set_hdr_Version ProtocolVersion (set_hdr_RNS (rnsKey d) (set_hdr_Name (o_name (d_set d))
    (set_hdr_Addr addr (set_hdr_Type TypePairRequest zero_Header)))).
Definition sendPairRequest : M peer unit :=
  addr <- on_d advertiseAddr ;;
  d <- gets p_d ;;
  on_c (WriteControl (request_header d addr)).

(** The read deadline of 30 s is one of the ways the stream ends. *)
Definition readPairRequest : M peer Header :=
  r <- try (on_c ReadHeader) ;;
  match r with
  | inr e => throw (Wrapf "read pair request" e)
  | inl h =>
      if negb (hdr_Type h =?s TypePairRequest) || (hdr_Name h =?s "") then
        throw (Errorf ("expected a pair request, got " +:+ quote (hdr_Type h)))
      else ret h
  end.

(** ** Waiting for both answers *)

(** Which branch of the select runs: the local answer, the peer's, the timer,
    the context. A branch that is not ready is passed over. *)
Inductive pick := PickLocal | PickRemote | PickTimer | PickCtx (e : error).

Context (others : Daemon → Daemon).

Definition local_answer (id : string) (d : Daemon) : option bool :=
  p ← pg_pending (d_pair d) !! id; pp_decide p.

(** The goroutine that reads the peer's answer has it: [None] while it waits. *)
Definition remote_answer (c : conn) : option (bool * conn) :=
  match ReadHeader c with
  | (Ok h, c') => Some ((hdr_Type h =?s TypePairConfirm) && hdr_OK h, c')
  | (Err _, c') => Some (false, c')
  | _ => None
  end.

Definition confirm_header (ok : bool) : Header :=
  set_hdr_OK ok (set_hdr_Type TypePairConfirm zero_Header).

(** The loop of awaitAnswers. [decided]: the decide channel was set to nil;
    [heard]: the remote goroutine has delivered its one answer. *)
Fixpoint await_loop (picks : list pick) (id : string) (decided heard localYes remoteYes : bool)
    : M peer unit :=
  if localYes && remoteYes then ret ()
  else
    match picks with
    | [] => λ p, (Block, p)
    | k :: picks =>
        on_d (modify others) ;;;
        p <- get_state ;;
        match k with
        | PickTimer => throw errPairTimeout
        | PickCtx e => throw e
        | PickLocal =>
            match (if decided then None else local_answer id (p_d p)) with
            | None => await_loop picks id decided heard localYes remoteYes
            | Some ok =>
                on_d (modify (alter_pending id (set_decide None))) ;;;
                on_c (WriteControl (confirm_header ok)) ;;;
                if negb ok then throw errPairDeclined
                else await_loop picks id true heard true remoteYes
            end
        | PickRemote =>
            match (if heard then None else remote_answer (p_conn p)) with
            | None => await_loop picks id decided heard localYes remoteYes
            | Some (ok, c) =>
                modify (λ p, mkPeer c (p_d p)) ;;;
                if negb ok then throw errPeerDeclined
                else await_loop picks id decided true localYes true
            end
        end
    end.

Definition awaitAnswers (picks : list pick) (info : PairInfo) (rns peerAddr remote : string)
    : M peer Device :=
  await_loop picks (pi_ID info) false false false false ;;;
  d <- gets p_d ;;
  let dev := mkDevice (pi_Name info) (pi_Fingerprint info)
               (resolvePeerAddr (o_port (d_set d)) peerAddr remote) (d_now d) "" rns in
  r <- try (on_d (on_store (AddDevice dev))) ;;
  match r with
  | inr e => throw (Wrapf "save device" e)
  | inl _ => ret dev
  end.

(** ** The session both roles share *)

Definition pair_event (kind : string) (info : PairInfo) (err : string) : Event :=
  mkEvent kind (pi_Name info) "" 0 0 0 0 err (Some info) "".

Definition tapPairSession (picks : list pick) (id : string) (remote : string) (peer_hello : Header)
    (fp : string) (onCode : PairInfo → M peer unit) : M peer Device :=
  d <- gets p_d ;;
  let info := mkPairInfo id (sanitizeName (hdr_Name peer_hello)) fp (Code (store_Fingerprint (d_store d)) fp) in
  on_d (modify (λ d, set_pending (<[id := mkPendingPair info (hdr_RNS peer_hello) None None]> (pg_pending (d_pair d)))
                       ({[id]} ∪ pg_tapPairs (d_pair d)) d)) ;;;
  on_d (daemon_broadcast (pair_event "pair-request" info "")) ;;;
  onCode info ;;;
  r <- try (awaitAnswers picks info (hdr_RNS peer_hello) (hdr_Addr peer_hello) remote) ;;
  let err := match r with inl _ => None | inr e => Some e end in
  on_d (modify (λ d, set_pending (alter (set_done err) id (pg_pending (d_pair d)))
                       (pg_tapPairs (d_pair d) ∖ {[id]}) d)) ;;;
  on_d (daemon_broadcast
          (match err with
           | Some e => pair_event "pair-error" info (error_text e)
           | None => pair_event "pair-done" info ""
           end)) ;;;
  of_res r.

Definition handleTapPair (picks : list pick) (id remote fp : string) : M peer unit :=
  ignore (
    peer_hello <- readPairRequest ;;
    sendPairRequest ;;;
    tapPairSession picks id remote peer_hello fp (λ info,
      on_d (notify ("Pairing request from " +:+ pi_Name info)
        ("Code " +:+ pi_Code info +:+
         ". Compare it with the other screen; answer with `adrop pair accept`.")))).

(** ** Starting one *)
Context (connect : Z → bool → string → remote_peer + error) (lanControl : bool).

(** PairWith on the connection, with its remote address. *)
Definition pair_on (picks : list pick) (id remote fp : string) (onCode : PairInfo → M peer unit)
    : M peer Device :=
  sendPairRequest ;;;
  peer_hello <- readPairRequest ;;
  tapPairSession picks id remote peer_hello fp onCode.

Definition PairWith (picks : list pick) (id addr : string) (onCode : PairInfo → M peer unit)
    : M Daemon Device :=
  d <- get_state ;;
  if negb (o_tapPair (d_set d)) then
    throw (Errorf "tap pairing is off on this device (ADROP_TAP_PAIR=1 turns it on)")
  else
    c <- of_res (DialPair (daemon_IsTrusted d) rm_tls (connect (d_now d)) lanControl
                   (s_certDER (d_store d)) addr) ;;
    let '(rm, fp) := c in
    if fp =?s store_Fingerprint (d_store d) then throw (Errorf "that is this device")
    else
      r <- on_dialled (rm_conn rm) (pair_on picks id (rm_addr rm) fp onCode) ;;
      ret r.1.
End tap.

(** ** What each side writes and reads *)

(** The bytes start with a PairConfirm that says yes. *)
Definition yes_frame (input : bytes) : Prop :=
  ∃ e h c', ReadHeader (mkConn input e [] None) = (Ok h, c') ∧
    hdr_Type h = TypePairConfirm ∧ hdr_OK h = true.

(** Reading looks at the input and at the end of the stream only. *)
Lemma read_full_view n c o w r c' :
  read_full n c = (r, c') →
  read_full n (mkConn (c_in c) (c_end c) o w) = (r, mkConn (c_in c') (c_end c') o w).
Proof.
  unfold read_full. cbn. destruct c as [i e o0 w0]. cbn. intros E.
  destruct (decide _); [by injection E as <- <-|]. by destruct e as [[]|]; injection E as <- <-.
Qed.
Lemma ReadHeader_view c o w r c' :
  ReadHeader c = (r, c') →
  ReadHeader (mkConn (c_in c) (c_end c) o w) = (r, mkConn (c_in c') (c_end c') o w).
Proof.
  unfold ReadHeader. intros [(lb & c1 & E1 & E2)|(r0 & E1 & Hr & ->)]%bind_inv.
  - rewrite (bind_Ok _ _ _ _ _ (read_full_view _ _ o w _ _ E1)). cbv zeta in *.
    destruct (_ || _); [by injection E2 as <- <-|].
    apply bind_inv in E2 as [(raw & c2 & E2 & E3)|(r0 & E2 & Hr & ->)].
    + rewrite (bind_Ok _ _ _ _ _ (read_full_view _ _ o w _ _ E2)).
      by destruct (unmarshal_Header raw); injection E3 as <- <-.
    + apply (read_full_view _ _ o w) in E2. unfold bind. rewrite E2. by destruct r0; try destruct (Hr a).
  - apply (read_full_view _ _ o w) in E1. unfold bind. rewrite E1. by destruct r0; try destruct (Hr a).
Qed.

Lemma remote_answer_view c o w :
  remote_answer (mkConn (c_in c) (c_end c) o w) =
  (λ r : bool * conn, (r.1, mkConn (c_in r.2) (c_end r.2) o w)) <$> remote_answer c.
Proof.
  unfold remote_answer. destruct (ReadHeader c) as [r c'] eqn:E.
  rewrite (ReadHeader_view _ o w _ _ E). by destruct r.
Qed.

Lemma remote_answer_yes c c' : remote_answer c = Some (true, c') → yes_frame (c_in c).
Proof.
  unfold remote_answer. destruct (ReadHeader c) as [[h| | | |] c1] eqn:E; try done.
  intros [= Hy <-]. apply andb_true_iff in Hy as [Ht Hok]. apply String.eqb_eq in Ht.
  exists (c_end c), h. eexists. split; [exact (ReadHeader_view _ [] None _ _ E)|done].
Qed.

Section tap_proofs.
Context (others : Daemon → Daemon).

(** The daemon's other goroutines do not touch the store meanwhile. *)
Hypothesis (Hothers : ∀ d, d_cs (others d) = d_cs d).

(** What the loop leaves behind. [said] are the bytes of the local answer. *)
Record awaited (localYes remoteYes : bool) (p : peer) (r : res unit) (p' : peer) : Prop := {
  aw_cs : d_cs (p_d p') = d_cs (p_d p);
  aw_out : ∃ b, c_out (p_conn p') = c_out (p_conn p) ++ b ∧
    (r = Ok () → b = if localYes then [] else frame (confirm_header true));
  aw_yes : r = Ok () → remoteYes = true ∨ yes_frame (c_in (p_conn p));
}.

Lemma await_loop_sound picks id localYes remoteYes p r p' :
  await_loop others picks id localYes remoteYes localYes remoteYes p = (r, p') →
  awaited localYes remoteYes p r p'.
Proof.
  revert localYes remoteYes p. induction picks as [|k picks IH]; intros lY rY p; cbn [await_loop].
  all: destruct (lY && rY) eqn:Eb.
  1,3: apply andb_true_iff in Eb as [-> ->]; intros [= <- <-]; split; [done| |by left];
    exists []; by rewrite app_nil_r.
  { intros [= <- <-]. split; [done| |done]. exists []. by rewrite app_nil_r. }
  set (p1 := mkPeer (p_conn p) (others (p_d p))).
  rewrite bind_Ok with (a := ()) (s' := p1) by done. rewrite bind_Ok with (a := p1) (s' := p1) by done.
  assert (∀ r0 p0, awaited lY rY p1 r0 p0 → awaited lY rY p r0 p0) as Hp1.
  { intros r0 p0 [H1 H2 H3]. split; [|exact H2|exact H3]. by rewrite H1, <-(Hothers (p_d p)). }
  assert (∀ e, awaited lY rY p1 (Err e) p1) as Herr.
  { intros e. split; [done| |done]. exists []. by rewrite app_nil_r. }
  destruct k; [| |by intros [= <- <-]; apply Hp1, Herr|by intros [= <- <-]; apply Hp1, Herr].
  - (* the local answer *)
    destruct lY; [by intros E%IH; apply Hp1|]. destruct (local_answer id (p_d p1)) as [ok|]; [|by intros E%IH; apply Hp1].
    set (p2 := mkPeer (p_conn p) (alter_pending id (set_decide None) (p_d p1))).
    rewrite bind_Ok with (a := ()) (s' := p2) by done. intros E. apply Hp1.
    apply bind_inv in E as [([] & p3 & E1 & E2)|(r0 & E1 & Hr & ->)];
      apply zoom_inv in E1 as (c3 & E1 & ->);
      apply WriteControl_out in E1 as (Hin & Hend & b & Hout & Hb); try done.
    2: { split; [done|exists b; split; [exact Hout|by destruct r0 as [[]| | | |]]|].
         by destruct r0 as [[]| | | |]. }
    destruct ok; cbn [negb] in E2.
    + apply IH in E2 as [H1 (b' & H2 & H2') H3]. split; [done| |].
      * exists (b ++ b'). cbn in H2. rewrite H2, Hout, app_assoc. split; [done|].
        intros Hr. rewrite (H2' Hr), app_nil_r. by apply Hb.
      * intros Hr. destruct (H3 Hr) as [|Hy]; [by left|]. right. cbn in Hy. by rewrite Hin in Hy.
    + injection E2 as <- <-. split; [done| |done]. by exists b.
  - (* the remote answer *)
    destruct rY; [by intros E%IH; apply Hp1|]. destruct (remote_answer (p_conn p1)) as [[ok c]|] eqn:Er;
      [|by intros E%IH; apply Hp1].
    set (p2 := mkPeer c (p_d p1)). rewrite bind_Ok with (a := ()) (s' := p2) by done.
    assert (c_out c = c_out (p_conn p1)) as Hout.
    { unfold remote_answer in Er. destruct (ReadHeader (p_conn p1)) as [r0 c0] eqn:E0.
      apply ReadHeader_frame_rule in E0 as (Ho & _). by destruct r0; simplify_eq. }
    destruct ok; cbn [negb]; intros E; apply Hp1.
    + apply IH in E as [H1 (b' & H2 & H2') H3]. split; [done| |].
      * exists b'. cbn in H2. by rewrite H2, Hout.
      * intros _. right. by apply remote_answer_yes in Er.
    + injection E as <- <-. split; [done| |done]. exists []. rewrite app_nil_r. done.
Qed.

(** The screens that show the code do nothing else. *)
Definition only_shows (onCode : PairInfo → M peer unit) : Prop :=
  ∀ info p r p', onCode info p = (r, p') →
    p_conn p' = p_conn p ∧ d_cs (p_d p') = d_cs (p_d p) ∧ d_pair (p_d p') = d_pair (p_d p).

(** The store stays, or both users said yes and the peer's certificate, and
    nothing else, became trusted. *)
Definition agreed_or_unchanged (fp : string) (p p' : peer) : Prop :=
  d_store (p_d p') = d_store (p_d p) ∨
  yes_frame (c_in (p_conn p)) ∧
  c_out (p_conn p') = c_out (p_conn p) ++ frame (confirm_header true) ∧
  ∃ name, ∀ fp', Config.IsTrusted (d_store (p_d p')) fp' =
    if fp =?s fp' then Some name else Config.IsTrusted (d_store (p_d p)) fp'.

Lemma awaitAnswers_sound picks info rns addr remote p r p' :
  awaitAnswers others picks info rns addr remote p = (r, p') →
  agreed_or_unchanged (pi_Fingerprint info) p p' ∧
  ∃ b, c_out (p_conn p') = c_out (p_conn p) ++ b.
Proof.
  unfold awaitAnswers. intros [([] & p1 & E1 & E2)|(r0 & E1 & _)]%bind_inv.
  2: { apply await_loop_sound in E1 as [H1 (b & H2 & _) _]. split; [|by exists b].
       left. unfold d_store. by rewrite H1. }
  apply await_loop_sound in E1 as [H1 (b & H2 & Hb) Hy].
  rewrite bind_Ok with (a := p_d p1) (s' := p1) in E2 by done. cbv zeta in E2.
  set (dev := mkDevice _ _ _ _ _ _) in E2.
  apply bind_inv in E2 as [(r1 & p2 & E2 & E3)|(r0 & E2 & Hne & _)].
  - apply try_inv in E2 as (r2 & E2 & _). apply zoom_inv in E2 as (d2 & E2 & ->).
    apply zoom_inv in E2 as (cs & E2 & ->). apply AddDevice_store in E2.
    assert (p' = mkPeer (p_conn p1) (with_cs cs (p_d p1))) as ->.
    { destruct r1; cbn in E3; injection E3; intros <- _; reflexivity. }
    split; [|by exists b]. right. destruct (Hy eq_refl) as [|Hyes]; [done|].
    split_and!; [done|cbn; by rewrite H2, (Hb eq_refl)|]. exists (pi_Name info). intros fp'.
    change (d_store (p_d (mkPeer (p_conn p1) (with_cs cs (p_d p1))))) with (cs_store cs).
    rewrite E2, add_store_trust. unfold d_store. by rewrite <-H1.
  - apply try_inv in E2 as (r2 & E2 & Hr). apply zoom_inv in E2 as (d2 & E2 & ->).
    apply zoom_inv in E2 as (cs & E2 & ->).
    pose proof (AddDevice_runs dev (d_cs (p_d p1)) I) as [Hf _]. rewrite E2 in Hf.
    destruct r2; subst r0; try discriminate Hf; by edestruct Hne.
Qed.

Lemma tapPairSession_sound picks id remote hello fp onCode p r p' :
  only_shows onCode → tapPairSession others picks id remote hello fp onCode p = (r, p') →
  agreed_or_unchanged fp p p' ∧ ∃ b, c_out (p_conn p') = c_out (p_conn p) ++ b.
Proof.
  intros Hshow. unfold tapPairSession. rewrite bind_Ok with (a := p_d p) (s' := p) by done. cbv zeta.
  set (info := mkPairInfo _ _ _ _).
  match goal with |- (bind (on_d (modify ?f)) _) _ = _ → _ => set (p1 := mkPeer (p_conn p) (f (p_d p))) end.
  rewrite bind_Ok with (a := ()) (s' := p1) by done.
  set (p2 := (on_d (daemon_broadcast (pair_event "pair-request" info "")) p1).2).
  rewrite bind_Ok with (a := ()) (s' := p2) by done.
  assert (∀ q, p_conn q = p_conn p2 → d_cs (p_d q) = d_cs (p_d p2) → ∀ q', agreed_or_unchanged fp q q' ∧
    (∃ b, c_out (p_conn q') = c_out (p_conn q) ++ b) → agreed_or_unchanged fp p q' ∧
    ∃ b, c_out (p_conn q') = c_out (p_conn p) ++ b) as Hback.
  { intros q Hc Hd q' [Ha (b & Hb)]. rewrite Hc in Hb. split; [|by exists b].
    unfold agreed_or_unchanged, d_store in *. rewrite Hc, Hd in Ha. exact Ha. }
  intros [([] & p3 & E1 & E2)|(r0 & E1 & _)]%bind_inv; apply Hshow in E1 as (Hc & Hd & _).
  2: { apply (Hback p' Hc Hd p'). split; [by left|]. exists []. by rewrite app_nil_r. }
  apply (Hback p3 Hc Hd p').
  apply bind_inv in E2 as [(r1 & p4 & E2 & E3)|(r0 & E2 & _)];
    apply try_inv in E2 as (r2 & E2 & _); apply awaitAnswers_sound in E2 as [Ha Hb]; [|done].
  assert (p_conn p' = p_conn p4 ∧ d_cs (p_d p') = d_cs (p_d p4)) as [Hc4 Hd4].
  { destruct r1; by injection E3 as _ <-. }
  unfold agreed_or_unchanged, d_store in *. rewrite Hc4, Hd4. done.
Qed.
End tap_proofs.


(** The user at this machine answers while the peer's yes is on its way. *)
Definition demo_request : bytes :=
  frame (set_hdr_Addr "192.168.1.9:53127" (set_hdr_Name "tablet" (set_hdr_Type TypePairRequest zero_Header))).
Definition demo_tablet : string := Fingerprint (bs "tablet certificate").
(** What the other goroutines do: the user answers [ok] to pairing [id]. *)
Definition user_says (id : string) (ok : bool) : Daemon → Daemon := alter_pending id (put_answer ok).
Definition demo_tap (answer : bool) : peer :=
  mkPeer (conn_closed (demo_request ++ frame (confirm_header answer))) (demo_daemon [demo_phone]).


(** ** Two devices

    Both roles of a tap pairing, and what a side whose user never says yes can
    have written. *)
Inductive role := Starts | Answers.
Definition tap_side `{Reticulum} (ro : role) (others : Daemon → Daemon) (picks : list pick)
    (id remote fp : string) (onCode : PairInfo → M peer unit) : M peer unit :=
  match ro with
  | Starts => ignore (pair_on others picks id remote fp onCode)
  | Answers => handleTapPair others picks id remote fp
  end.

Definition no_yes (id : string) (d : Daemon) : Prop := local_answer id d ≠ Some true.
Definition never_yes (others : Daemon → Daemon) (id : string) : Prop :=
  ∀ d, no_yes id d → no_yes id (others d).

Definition wrote (p p' : peer) (b : bytes) : Prop := c_out (p_conn p') = c_out (p_conn p) ++ b.
Lemma wrote_nil p : wrote p p [].
Proof. unfold wrote. by rewrite app_nil_r. Qed.
Lemma wrote_trans p1 p2 p3 a b : wrote p1 p2 a → wrote p2 p3 b → wrote p1 p3 (a ++ b).
Proof. unfold wrote. intros H1 H2. by rewrite H2, H1, app_assoc. Qed.

Lemma wrote_nil_trans p1 p2 p3 : wrote p1 p2 [] → wrote p2 p3 [] → wrote p1 p3 [].
Proof. intros H1 H2. exact (wrote_trans _ _ _ [] [] H1 H2). Qed.

Lemma confirm_fits ok : fits (confirm_header ok).
Proof. unfold fits. destruct ok; vm_compute; discriminate. Qed.
Lemma confirm_ok ok : Header_ok (confirm_header ok).
Proof. destruct ok; (split_and!; [done..|constructor]). Qed.

Lemma await_loop_quiet others picks id rY p r p' :
  never_yes others id → no_yes id (p_d p) → await_loop others picks id false rY false rY p = (r, p') →
  ∃ b, wrote p p' b ∧ b `prefix_of` frame (confirm_header false).
Proof.
  intros Hq. revert rY p. induction picks as [|k picks IH]; intros rY p Hno; cbn [await_loop andb].
  { intros [= <- <-]. exists []. split; [apply wrote_nil|apply prefix_nil]. }
  set (p1 := mkPeer (p_conn p) (others (p_d p))).
  rewrite bind_Ok with (a := ()) (s' := p1) by done. rewrite bind_Ok with (a := p1) (s' := p1) by done.
  assert (no_yes id (p_d p1)) as Hno1 by by apply Hq.
  assert (∃ b, wrote p p1 b ∧ b `prefix_of` frame (confirm_header false)) as Hend.
  { exists []. split; [by unfold wrote; rewrite app_nil_r|apply prefix_nil]. }
  destruct k; [| |by intros [= <- <-]|by intros [= <- <-]].
  - destruct (local_answer id (p_d p1)) as [ok|] eqn:El; [|by intros E%(IH _ _ Hno1)].
    destruct ok; [by destruct Hno1|].
    set (p2 := mkPeer (p_conn p) (alter_pending id (set_decide None) (p_d p1))).
    rewrite bind_Ok with (a := ()) (s' := p2) by done.
    intros [([] & p3 & E1 & E2)|(r0 & E1 & _)]%bind_inv; apply zoom_inv in E1 as (c3 & E1 & ->);
      apply WriteControl_out in E1 as (_ & _ & b & Hout & Hb & _); try done.
    + injection E2 as <- <-. by exists b.
    + by exists b.
  - destruct rY; [by intros E%(IH _ _ Hno1)|].
    destruct (remote_answer (p_conn p1)) as [[ok c]|] eqn:Er; [|by intros E%(IH _ _ Hno1)].
    set (p2 := mkPeer c (p_d p1)). rewrite bind_Ok with (a := ()) (s' := p2) by done.
    assert (wrote p p2 []) as Hw.
    { unfold wrote. rewrite app_nil_r. unfold remote_answer in Er.
      destruct (ReadHeader (p_conn p1)) as [r0 c0] eqn:E0.
      apply ReadHeader_frame_rule in E0 as (Ho & _). by destruct r0; simplify_eq. }
    destruct ok; cbn [negb].
    + intros (b & Hb & Hp)%(IH true p2 Hno1). exists b. split; [exact (wrote_trans _ _ _ _ _ Hw Hb)|done].
    + intros [= <- <-]. exists []. split; [done|apply prefix_nil].
Qed.

(** A computation that writes nothing. *)
Definition silent {A} (m : M peer A) : Prop := keeps (λ p p', wrote p p' []) m.
#[export] Instance wrote_nil_preorder : PreOrder (λ p p', wrote p p' []).
Proof.
  split; [intros p; apply wrote_nil|]. intros p1 p2 p3 H1 H2. exact (wrote_trans _ _ _ _ _ H1 H2).
Qed.
Lemma on_d_silent {A} (m : M Daemon A) : silent (on_d m).
Proof. intros p r p' (d & _ & ->)%zoom_inv. unfold wrote. cbn. by rewrite app_nil_r. Qed.
Lemma only_shows_silent onCode info : only_shows onCode → silent (onCode info).
Proof. intros Hs p r p' E. apply Hs in E as [Hc _]. unfold wrote. by rewrite Hc, app_nil_r. Qed.
Lemma read_silent : silent (on_c ReadHeader).
Proof.
  intros p r p' (c & E & ->)%zoom_inv. apply ReadHeader_frame_rule in E as (Ho & _).
  unfold wrote. cbn. by rewrite Ho, app_nil_r.
Qed.
Lemma readPairRequest_silent : silent readPairRequest.
Proof.
  unfold readPairRequest. apply keeps_bind; [apply _|apply keeps_try, read_silent|].
  intros [h|e]; [case_match|]; auto with keeps.
Qed.

Lemma tapPairSession_quiet others picks id remote hello fp onCode p r p' :
  never_yes others id → only_shows onCode →
  tapPairSession others picks id remote hello fp onCode p = (r, p') →
  ∃ b, wrote p p' b ∧ b `prefix_of` frame (confirm_header false).
Proof.
  intros Hq Hs. unfold tapPairSession. rewrite bind_Ok with (a := p_d p) (s' := p) by done. cbv zeta.
  set (info := mkPairInfo _ _ _ _).
  assert (∀ q, wrote p q [] → ∃ b, wrote p q b ∧ b `prefix_of` frame (confirm_header false)) as Hnil.
  { intros q Hw. exists []. split; [done|apply prefix_nil]. }
  match goal with |- (bind (on_d (modify ?f)) _) _ = _ → _ => set (p1 := mkPeer (p_conn p) (f (p_d p))) end.
  rewrite bind_Ok with (a := ()) (s' := p1) by done.
  set (p2 := (on_d (daemon_broadcast (pair_event "pair-request" info "")) p1).2).
  rewrite bind_Ok with (a := ()) (s' := p2) by done. intros E3.
  assert (wrote p p2 []) as E1 by by unfold wrote; rewrite app_nil_r.
  assert (no_yes id (p_d p2)) as Hno.
  { unfold no_yes, local_answer. cbn. by rewrite lookup_insert_eq. }
  apply bind_inv in E3 as [([] & p3 & E3 & E4)|(r0 & E3%only_shows_silent & _)];
    [|eauto using wrote_nil_trans|done].
  assert (no_yes id (p_d p3)) as Hno3.
  { apply Hs in E3 as (_ & _ & Hp). unfold no_yes, local_answer in *. by rewrite Hp. }
  apply only_shows_silent in E3; [|done].
  assert (wrote p p3 []) as H3 by eauto using wrote_nil_trans.
  assert (∀ rr q, try (awaitAnswers others picks info (hdr_RNS hello) (hdr_Addr hello) remote) p3 = (rr, q) →
    ∃ b, wrote p q b ∧ b `prefix_of` frame (confirm_header false)) as Ha.
  { intros rr q (r0 & E & _)%try_inv. unfold awaitAnswers in E.
    apply bind_inv in E as [([] & p4 & E5 & E6)|(r1 & E5 & _)]; apply await_loop_quiet in E5 as (b & Hb & Hp); try done.
    - exists b. split; [|done]. pose proof (wrote_trans _ _ _ _ _ H3 Hb) as Hw.
      rewrite bind_Ok with (a := p_d p4) (s' := p4) in E6 by done. cbv zeta in E6.
      apply bind_inv in E6 as [(r2 & p5 & E6 & E7)|(r2 & E6 & _)];
        apply try_inv in E6 as (r3 & E6%on_d_silent & _); pose proof (wrote_trans _ _ _ _ _ Hw E6) as Hw5;
        rewrite app_nil_r in Hw5; [|done].
      assert (q = p5) as -> by (destruct r2; cbn in E7; injection E7; by intros <- _). done.
    - exists b. split; [|done]. exact (wrote_trans _ _ _ _ _ H3 Hb). }
  apply bind_inv in E4 as [(rr & p5 & E5 & E6)|(r0 & E5 & _)]; apply Ha in E5 as (b & Hb & Hp); [|by exists b].
  exists b. split; [|done]. assert (wrote p5 p' []) as Hw.
  { revert E6. match goal with |- ?m p5 = _ → _ => assert (silent m) as Hk end; [|apply Hk].
    repeat (apply keeps_bind; [apply _|apply on_d_silent|intros _]). unfold of_res. destruct rr; auto with keeps. }
  pose proof (wrote_trans _ _ _ _ _ Hb Hw) as Hw5. by rewrite app_nil_r in Hw5.
Qed.

(** What a side that never says yes can have put on the wire. *)
Definition quiet_output (b : bytes) : Prop :=
  b = [] ∨ ∃ h, Header_ok h ∧ fits h ∧ hdr_Length h = 0 ∧ b `prefix_of` frame h ++ frame (confirm_header false).

Definition frame_start (b : bytes) (r : res unit) : Prop :=
  b = [] ∨ ∃ h, Header_ok h ∧ fits h ∧ hdr_Length h = 0 ∧ b `prefix_of` frame h ∧ (r = Ok () → b = frame h).
Lemma write_frame_start h p r p' :
  Header_ok h → hdr_Length h = 0 → on_c (WriteControl h) p = (r, p') →
  ∃ b, wrote p p' b ∧ frame_start b r.
Proof.
  intros Hok Hl (c & E & ->)%zoom_inv.
  apply WriteControl_out in E as (_ & _ & b & Hout & Hb & Hr & Hf); [|exact Hl]. exists b.
  split; [exact Hout|]. destruct Hf as [->|Hf]; [by left|right]. exists h.
  split; [exact Hok|]. split; [exact Hf|]. split; [exact Hl|]. split; [exact Hb|]. intros Hr'. apply (Hr Hr').
Qed.

Lemma sendPairRequest_wrote `{Reticulum} p r p' :
  sendPairRequest p = (r, p') → ∃ b, wrote p p' b ∧ frame_start b r.
Proof.
  unfold sendPairRequest. intros [(addr & p1 & E1%on_d_silent & E2)|(r0 & E1%on_d_silent & _)]%bind_inv.
  2: { exists []. split; [done|by left]. }
  rewrite bind_Ok with (a := p_d p1) (s' := p1) in E2 by done.
  apply write_frame_start in E2 as (b & Hb & Hf).
  - exists b. split; [exact (wrote_trans _ _ _ _ _ E1 Hb)|exact Hf].
  - split_and!; [done..|constructor].
  - reflexivity.
Qed.

(** A request, then what a quiet session writes. *)
Lemma quiet_after_request b b' h :
  Header_ok h → fits h → hdr_Length h = 0 → b = frame h → b' `prefix_of` frame (confirm_header false) →
  quiet_output (b ++ b').
Proof.
  intros H1 H2 H3 -> Hp. right. exists h. split; [exact H1|]. split; [exact H2|]. split; [exact H3|].
  by apply prefix_app.
Qed.
Lemma quiet_request b h :
  Header_ok h → fits h → hdr_Length h = 0 → b `prefix_of` frame h → quiet_output b.
Proof.
  intros H1 H2 H3 Hp. right. exists h. split; [exact H1|]. split; [exact H2|]. split; [exact H3|].
  by apply prefix_app_r.
Qed.

Lemma notify_shows (title body : PairInfo → string) : only_shows (λ info, on_d (notify (title info) (body info))).
Proof. intros info p r p' (d & E & ->)%zoom_inv. by injection E as _ <-. Qed.

Lemma tap_side_quiet `{Reticulum} ro others picks id remote fp onCode p r p' :
  never_yes others id → only_shows onCode → c_out (p_conn p) = [] →
  tap_side ro others picks id remote fp onCode p = (r, p') → quiet_output (c_out (p_conn p')).
Proof.
  intros Hq Hs Ho. assert (∀ q b, wrote p q b → c_out (p_conn q) = b) as Hw.
  { intros q b Hb. unfold wrote in Hb. by rewrite Ho in Hb. }
  destruct ro; cbn [tap_side]; [|unfold handleTapPair]; intros (r0 & E)%ignore_inv.
  - unfold pair_on in E. apply bind_inv in E as [([] & p1 & E1 & E2)|(r1 & E1 & Hr & _)];
      apply sendPairRequest_wrote in E1 as (b & Hb & Hf).
    2: { rewrite (Hw _ _ Hb). destruct Hf as [->|(h & H1 & H2 & H3 & H4 & _)]; [by left|by eapply quiet_request]. }
    apply bind_inv in E2 as [(hello & p2 & E2%readPairRequest_silent & E3)|(r1 & E2%readPairRequest_silent & _)].
    + apply tapPairSession_quiet in E3 as (b' & Hb' & Hp'); [|done..].
      pose proof (wrote_trans _ _ _ _ _ (wrote_trans _ _ _ _ _ Hb E2) Hb') as Hall.
      rewrite app_nil_r in Hall. rewrite (Hw _ _ Hall). destruct Hf as [->|(h & H1 & H2 & H3 & _ & H4)].
      * by apply quiet_request with (h := confirm_header false); [apply confirm_ok|apply confirm_fits|..].
      * exact (quiet_after_request _ _ _ H1 H2 H3 (H4 eq_refl) Hp').
    + pose proof (wrote_trans _ _ _ _ _ Hb E2) as Hall. rewrite app_nil_r in Hall. rewrite (Hw _ _ Hall).
      destruct Hf as [->|(h & H1 & H2 & H3 & H4 & _)]; [by left|by eapply quiet_request].
  - apply bind_inv in E as [(hello & p1 & E1%readPairRequest_silent & E2)|(r1 & E1%readPairRequest_silent & _)].
    2: { left. by apply Hw. }
    apply bind_inv in E2 as [([] & p2 & E2 & E3)|(r1 & E2 & Hr & _)];
      apply sendPairRequest_wrote in E2 as (b & Hb & Hf); pose proof (wrote_trans _ _ _ _ _ E1 Hb) as Hb2; cbn [app] in Hb2.
    2: { rewrite (Hw _ _ Hb2). destruct Hf as [->|(h & H1 & H2 & H3 & H4 & _)]; [by left|by eapply quiet_request]. }
    apply tapPairSession_quiet in E3 as (b' & Hb' & Hp').
    + rewrite (Hw _ _ (wrote_trans _ _ _ _ _ Hb2 Hb')). destruct Hf as [->|(h & H1 & H2 & H3 & _ & H4)].
      * by apply quiet_request with (h := confirm_header false); [apply confirm_ok|apply confirm_fits|..].
      * exact (quiet_after_request _ _ _ H1 H2 H3 (H4 eq_refl) Hp').
    + done.
    + apply (notify_shows (λ i, "Pairing request from " +:+ pi_Name i)
               (λ i, "Code " +:+ pi_Code i +:+ ". Compare it with the other screen; answer with `adrop pair accept`.")).
Qed.

(** Once the peer's request is read, no yes is left in such bytes. *)
Lemma quiet_no_yes p hello p1 :
  (∃ out, quiet_output out ∧ c_in (p_conn p) `prefix_of` out) →
  readPairRequest p = (Ok hello, p1) → ¬ yes_frame (c_in (p_conn p1)).
Proof.
  intros (out & Hq & Hp) E. unfold readPairRequest in E. apply bind_Ok_inv in E as ([h|e] & p2 & E1 & E2); [|done].
  apply try_inv in E1 as (r0 & E1 & Hr). destruct r0 as [a|e0| | |]; simplify_eq. apply zoom_inv in E1 as (c & E1 & ->).
  assert (p1 = mkPeer c (p_d p)) as ->.
  { case_match; [done|]. by injection E2 as _ <-. }
  destruct Hq as [->|(h0 & H1 & H2 & H3 & H4)].
  { apply prefix_nil_inv in Hp. apply ReadHeader_Ok in E1 as [Hl _]. rewrite Hp in Hl. cbn in Hl. lia. }
  pose proof (ReadHeader_prefix h0 (frame (confirm_header false)) (p_conn p) a c H1 H2
    ltac:(by etransitivity) E1) as [_ Hin].
  intros (e & h' & c' & E3 & _ & Hyes). cbn [p_conn] in E3.
  apply (ReadHeader_prefix (confirm_header false) []) in E3 as [-> _].
  - discriminate Hyes.
  - apply confirm_ok.
  - apply confirm_fits.
  - cbn [c_in]. by rewrite app_nil_r.
Qed.

Definition calm (p p' : peer) : Prop := c_in (p_conn p') = c_in (p_conn p) ∧ d_cs (p_d p') = d_cs (p_d p).
#[export] Instance calm_preorder : PreOrder calm.
Proof. split; [by intros p|]. intros p1 p2 p3 [H1 H2] [H3 H4]. split; congruence. Qed.
Lemma advertiseAddr_calm : keeps calm (on_d advertiseAddr).
Proof. intros q rr q' (d & E & ->)%zoom_inv. apply advertiseAddr_keeps in E as [x ->]. done. Qed.
Lemma write_calm h : hdr_Length h = 0 → keeps calm (on_c (WriteControl h)).
Proof.
  intros Hl p r p' (c & E & ->)%zoom_inv. apply WriteControl_out in E as (Hin & _); [|exact Hl]. by split.
Qed.
Lemma sendPairRequest_calm `{Reticulum} : keeps calm sendPairRequest.
Proof.
  unfold sendPairRequest. apply keeps_bind; [apply _|apply advertiseAddr_calm|]. intros addr.
  apply keeps_bind; [apply _|auto with keeps|]. intros d. apply write_calm. reflexivity.
Qed.
Lemma readPairRequest_store p r p' : readPairRequest p = (r, p') → p_d p' = p_d p.
Proof.
  unfold readPairRequest. intros E.
  apply bind_inv in E as [(x & p1 & E1 & E2)|(r0 & E1 & _)];
    apply try_inv in E1 as (r1 & E1 & _); apply zoom_inv in E1 as (c & _ & ->); [|done].
  destruct x; [case_match|]; by injection E2 as _ <-.
Qed.

(** C30: a device saves another one in a tap pairing only if the user of the
    other device said yes there: if nobody answers yes at B, whatever else
    happens to B's session, then A, reading what B wrote or any beginning of
    it, trusts nobody new, in either role and whatever A's user says. *)
Theorem tap_pair_agreement `{Reticulum} roA roB othersA othersB picksA picksB idA idB
    remA remB fpA fpB codeA codeB pA pB rA rB pA' pB' :
  never_yes othersB idB → only_shows codeB → c_out (p_conn pB) = [] →
  tap_side roB othersB picksB idB remB fpB codeB pB = (rB, pB') →
  (∀ d, d_cs (othersA d) = d_cs d) → only_shows codeA →
  c_in (p_conn pA) `prefix_of` c_out (p_conn pB') →
  tap_side roA othersA picksA idA remA fpA codeA pA = (rA, pA') →
  d_store (p_d pA') = d_store (p_d pA).
Proof.
  intros HqB HsB HoB EB HoA HsA Hin EA.
  assert (quiet_output (c_out (p_conn pB'))) as Hout by exact (tap_side_quiet _ _ _ _ _ _ _ _ _ _ HqB HsB HoB EB).
  assert (∀ q q1 q2 hello rr code, c_in (p_conn q) = c_in (p_conn pA) → readPairRequest q = (Ok hello, q1) →
    c_in (p_conn q2) = c_in (p_conn q1) → only_shows code →
    tapPairSession othersA picksA idA remA hello fpA code q2 = (rr, pA') → d_store (p_d pA') = d_store (p_d q2)) as Hsess.
  { intros q q1 q2 hello rr code Hq E1 Hq2 Hcode E2. apply quiet_no_yes in E1; [|exists (c_out (p_conn pB')); by rewrite Hq].
    apply (tapPairSession_sound othersA HoA) in E2 as [[Hs|(Hy & _)] _]; [done| |done].
    rewrite Hq2 in Hy. by destruct (E1 Hy). }
  destruct roA; cbn [tap_side] in EA; [|unfold handleTapPair in EA]; apply ignore_inv in EA as (r0 & E).
  - unfold pair_on in E. apply bind_inv in E as [([] & p1 & E1 & E2)|(r1 & E1 & _)];
      apply sendPairRequest_calm in E1 as [Hc1 Hd1]. 2: { unfold d_store. by rewrite Hd1. }
    apply bind_inv in E2 as [(hello & p2 & E2 & E3)|(r1 & E2%readPairRequest_store & _)].
    2: { unfold d_store. by rewrite E2, Hd1. }
    rewrite (Hsess _ _ _ _ _ _ Hc1 E2 eq_refl HsA E3). unfold d_store.
    by rewrite (readPairRequest_store _ _ _ E2), Hd1.
  - apply bind_inv in E as [(hello & p1 & E1 & E2)|(r1 & E1%readPairRequest_store & _)]; [|by rewrite E1].
    apply bind_inv in E2 as [([] & p2 & E2 & E3)|(r1 & E2 & _)];
      apply sendPairRequest_calm in E2 as [Hc2 Hd2].
    2: { unfold d_store. by rewrite Hd2, (readPairRequest_store _ _ _ E1). }
    rewrite (Hsess pA p1 p2 hello _ _ eq_refl E1 Hc2 (notify_shows (λ i, "Pairing request from " +:+ pi_Name i) (λ i, "Code " +:+ pi_Code i +:+ ". Compare it with the other screen; answer with `adrop pair accept`.")) E3).
    unfold d_store. by rewrite Hd2, (readPairRequest_store _ _ _ E1).
Qed.

(** A's user says yes at once; B's user declines after A's yes arrived. *)
Lemma tap_pair_agreement_witness :
  let side := @tap_side toy_reticulum in
  let code := (λ _, ret ()) : PairInfo → M peer unit in
  let pB' := (side Answers (user_says "b" false) [PickRemote; PickLocal] "b" "192.168.1.9:4000" demo_tablet code (demo_tap true)).2 in
  let pA := mkPeer (conn_closed (c_out (p_conn pB'))) (demo_daemon [demo_phone]) in
  let pA' := (side Starts (user_says "a" true) [PickLocal; PickRemote] "a" "192.168.1.5:53127" demo_tablet code pA).2 in
  map ev_Kind (default [] (d_subs (p_d pA') !! O)) = [] ∧ d_store (p_d pA') = d_store (p_d pA).
Proof.
  cbv zeta. split; [by vm_compute|].
  eapply (@tap_pair_agreement toy_reticulum Starts Answers (user_says "a" true) (user_says "b" false)
           [PickLocal; PickRemote] [PickRemote; PickLocal] "a" "b" "192.168.1.5:53127" "192.168.1.9:4000"
           demo_tablet demo_tablet (λ _, ret ()) (λ _, ret ()) _ (demo_tap true)).
  - intros d. unfold no_yes, local_answer, user_says, alter_pending, put_answer. cbn.
    rewrite lookup_alter_eq. destruct (pg_pending (d_pair d) !! "b") as [p|]; [|done]. cbn.
    destruct (pp_decide p) as [[]|] eqn:E; cbn; rewrite ?E; done.
  - by intros info q r q' [= <- <-].
  - reflexivity.
  - apply surjective_pairing.
  - done.
  - by intros info q r q' [= <- <-].
  - reflexivity.
  - apply surjective_pairing.
Defined.
