(* ===== verification/TapMutual.v ===== *)
(** * Tap pairing, both users say yes

    PairWith of daemon/tappair.go on one device against handleTapPair on the
    other: afterwards each trusts the other. The select over the two answers
    takes them in any order. *)

From S2P Require Import Prelude GoStrings Go GoNet GoFmt GoTime Sha256 Json JsonRec JsonSize Fs Proto Ipc Paths Receive Config Pairing Transport Rns World Peer Transfer Exchange Completion QrPair TapPair.
From Stdlib Require Import ZArith Lia String Ascii List Bool.
From stdpp Require Import base list strings gmap option numbers.

#[local] Open Scope string_scope.
#[local] Open Scope list_scope.
#[local] Open Scope Z_scope.

(** ** Both answers arrive *)

(** A select that is entered again until both channels were ready: no timer
    and no context ends it. *)
Definition attentive (picks : list pick) : Prop :=
  Forall (λ k, k = PickLocal ∨ k = PickRemote) picks ∧ PickLocal ∈ picks ∧ PickRemote ∈ picks.

(** The question is on the screen and was not refused. *)
Definition asked (id : string) (d : Daemon) : Prop :=
  ∃ p, pg_pending (d_pair d) !! id = Some p ∧ pp_decide p ≠ Some false.
(** What the other goroutines do: the user has answered yes. *)
Definition says_yes (others : Daemon → Daemon) (id : string) : Prop :=
  ∀ d, asked id d → local_answer id (others d) = Some true.

Lemma user_says_yes id : says_yes (user_says id true) id.
Proof.
  intros d (p & Hp & Hd). unfold local_answer, user_says, alter_pending, put_answer. cbn.
  rewrite lookup_alter_eq, Hp. cbn. destruct (pp_decide p) as [[]|] eqn:E; [by rewrite E|done|done].
Qed.
Lemma says_yes_asked others id d : says_yes others id → asked id d → asked id (others d).
Proof.
  intros Hy Ha. specialize (Hy d Ha). unfold local_answer in Hy.
  destruct (pg_pending (d_pair (others d)) !! id) as [p|] eqn:E; [|done]. cbn in Hy. exists p. split; [done|]. by rewrite Hy.
Qed.

Definition yes : bytes := frame (confirm_header true).
(** What the loop still writes and reads. *)
Definition saying (localYes : bool) : bytes := if localYes then [] else yes.

Lemma second_read a b c t1 t2 : [Snd a; Rcv b] = t1 ++ Rcv c :: t2 → t1 = [Snd a].
Proof. destruct t1 as [|e1 [|e2 [|]]]; naive_solver. Qed.

Section await.
Context (others : Daemon → Daemon) (id : string).
Hypothesis (Hcs : ∀ d, d_cs (others d) = d_cs d) (Hyes : says_yes others id).

(** The state the loop keeps: an open connection, the store of the start. *)
Record waiting (cs : cstate) (out : bytes) (p : peer) : Prop := {
  wt_cs : d_cs (p_d p) = cs;
  wt_live : live p_conn p;
  wt_out : c_out (p_conn p) = out;
}.

Lemma alter_asked d : asked id d → asked id (alter_pending id (set_decide None) d).
Proof.
  intros (p & Hp & Hd). exists (set_decide None p). cbn. by rewrite lookup_alter_eq, Hp.
Qed.

Lemma waiting_wrote cs out b p d :
  waiting cs out p → d_cs d = cs → waiting cs (out ++ b) (mkPeer (out_of b (p_conn p)) d).
Proof. intros [_ [He Hw] Ho] Hd. split; [done|done|]. cbn. by rewrite Ho. Qed.

(** One step of the loop that takes the local answer. *)
Lemma take_local cs out p :
  waiting cs out p → asked id (p_d p) →
  ∃ p', (on_d (modify (alter_pending id (set_decide None))) ;;; on_c (WriteControl (confirm_header true))) p = (Ok (), p') ∧
    waiting cs (out ++ yes) p' ∧ asked id (p_d p') ∧ c_in (p_conn p') = c_in (p_conn p).
Proof.
  intros Hp Ha. set (d := alter_pending id (set_decide None) (p_d p)).
  rewrite (bind_Ok _ _ p () (mkPeer (p_conn p) d)) by done.
  exists (mkPeer (out_of yes (p_conn p)) d). destruct Hp as [Hc [He Hw] Ho] eqn:Hp'. split.
  { unfold on_c, zoom. cbn [p_conn p_d]. rewrite (WriteControl_ok (confirm_header true) _ eq_refl (confirm_fits true) Hw). reflexivity. }
  split; [by apply waiting_wrote|]. split; [by apply alter_asked|reflexivity].
Qed.

(** What reading the peer's yes gives, and what reading nothing does. *)
Lemma yes_is_yes : (hdr_Type (valid_Header (confirm_header true)) =?s TypePairConfirm) && hdr_OK (valid_Header (confirm_header true)) = true.
Proof. by vm_compute. Qed.
Lemma remote_yes c rest : c_in c = yes ++ rest → remote_answer c = Some (true, set_c_in rest c).
Proof.
  intros Hin. unfold remote_answer. rewrite (ReadHeader_frame _ _ _ (confirm_ok true) (confirm_fits true) Hin).
  by rewrite yes_is_yes.
Qed.
Lemma remote_waits c : c_in c = [] → c_end c = None → remote_answer c = None.
Proof.
  intros Hin He. unfold remote_answer, ReadHeader, bind, read_full. rewrite Hin, decide_False by (cbn; lia). by rewrite He.
Qed.

Lemma await_step picks k lY rY p :
  lY && rY = false →
  await_loop others (k :: picks) id lY rY lY rY p =
  (let p1 := mkPeer (p_conn p) (others (p_d p)) in
   match k with
   | PickTimer => (Err errPairTimeout, p1)
   | PickCtx e => (Err e, p1)
   | PickLocal =>
       match (if lY then None else local_answer id (p_d p1)) with
       | None => await_loop others picks id lY rY lY rY p1
       | Some ok =>
           (on_d (modify (alter_pending id (set_decide None))) ;;; on_c (WriteControl (confirm_header ok)) ;;;
            if negb ok then throw errPairDeclined else await_loop others picks id true rY true rY) p1
       end
   | PickRemote =>
       match (if rY then None else remote_answer (p_conn p1)) with
       | None => await_loop others picks id lY rY lY rY p1
       | Some (ok, c) =>
           (if negb ok then throw errPeerDeclined else await_loop others picks id lY true lY true) (mkPeer c (p_d p1))
       end
   end).
Proof.
  intros E. cbn [await_loop]. rewrite E. cbv zeta.
  set (p1 := mkPeer (p_conn p) (others (p_d p))).
  rewrite (bind_Ok _ _ p () p1), (bind_Ok _ _ p1 p1 p1) by done.
  destruct k; try done; cbn [p_conn p_d].
  - by destruct (if lY then None else _) as [ok|].
  - by destruct (if rY then None else _) as [[ok c]|].
Qed.

Lemma waiting_others cs out p : waiting cs out p → waiting cs out (mkPeer (p_conn p) (others (p_d p))).
Proof. intros [Hc Hl Ho]. split; [|done..]. cbn. by rewrite Hcs. Qed.
Lemma waiting_read cs out rest p :
  waiting cs out p → waiting cs out (mkPeer (set_c_in rest (p_conn p)) (p_d p)).
Proof. by intros [Hc [He Hw] Ho]. Qed.

Lemma bind_assoc_Ok {S A B} (m : M S A) (k : A → M S unit) (f : M S B) s s' :
  bind m k s = (Ok (), s') → bind m (λ x, bind (k x) (λ _, f)) s = f s'.
Proof. unfold bind. destruct (m s) as [[a| | | |] s1]; try done. intros E. by rewrite E. Qed.

(** Both answers are there: the loop takes them, in either order. *)
Lemma await_both picks lY rY cs out rest p :
  Forall (λ k, k = PickLocal ∨ k = PickRemote) picks →
  (lY = false → PickLocal ∈ picks) → (rY = false → PickRemote ∈ picks) →
  waiting cs out p → (lY = false → asked id (p_d p)) → c_in (p_conn p) = saying rY ++ rest →
  ∃ p', await_loop others picks id lY rY lY rY p = (Ok (), p') ∧ waiting cs (out ++ saying lY) p' ∧
    c_in (p_conn p') = rest.
Proof.
  intros Hpk. revert lY rY out p.
  induction Hpk as [|k picks Hk Hpk IH]; intros lY rY out p Hl Hr Hp Ha Hin; destruct (lY && rY) eqn:Eb.
  1,3: apply andb_true_iff in Eb as [-> ->]; exists p; cbn [saying await_loop andb]; by rewrite app_nil_r.
  { destruct lY; [destruct rY; [done|]; by destruct (not_elem_of_nil _ (Hr eq_refl))|by destruct (not_elem_of_nil _ (Hl eq_refl))]. }
  rewrite await_step by done. cbv zeta. apply waiting_others in Hp as Hp1. set (p1 := mkPeer (p_conn p) (others (p_d p))) in *.
  assert (lY = false → asked id (p_d p1)) as Ha1 by (intros E; by apply says_yes_asked, Ha).
  destruct Hk as [-> | ->].
  - destruct lY.
    + apply IH; [done|intros E; specialize (Hr E); by apply elem_of_cons in Hr as [|]|done..].
    + change (p_d p1) with (others (p_d p)) at 1. rewrite (Hyes _ (Ha eq_refl)). destruct (take_local cs out p1 Hp1 (Ha1 eq_refl)) as (p2 & E & Hp2 & _ & Hin2).
      rewrite (bind_assoc_Ok _ _ _ _ _ E). cbn [negb].
      destruct (IH true rY (out ++ yes) p2) as (p' & E' & Hp' & Hin'); [done|intros E0; specialize (Hr E0); by apply elem_of_cons in Hr as [|]|done|done|by rewrite Hin2|].
      exists p'. split; [done|]. split; [|done]. cbn [saying] in Hp'. by rewrite app_nil_r in Hp'.
  - destruct rY.
    + apply IH; [intros E; specialize (Hl E); by apply elem_of_cons in Hl as [|]|done..].
    + rewrite (remote_yes (p_conn p1) rest Hin). cbn [negb].
      apply IH; [intros E; specialize (Hl E); by apply elem_of_cons in Hl as [|]|done|by apply waiting_read|exact Ha1|done].
Qed.

(** The peer has not answered: this side says its yes and waits. *)
Lemma await_alone picks lY cs out p :
  Forall (λ k, k = PickLocal ∨ k = PickRemote) picks → (lY = false → PickLocal ∈ picks) →
  waiting cs out p → (lY = false → asked id (p_d p)) → c_in (p_conn p) = [] →
  ∃ p', await_loop others picks id lY false lY false p = (Block, p') ∧ c_out (p_conn p') = out ++ saying lY.
Proof.
  intros Hpk. revert lY out p.
  induction Hpk as [|k picks Hk Hpk IH]; intros lY out p Hl Hp Ha Hin.
  { exists p. destruct lY; [|by destruct (not_elem_of_nil _ (Hl eq_refl))]. split; [done|]. cbn [saying]. rewrite app_nil_r. apply Hp. }
  rewrite await_step by apply andb_false_r. cbv zeta. apply waiting_others in Hp as Hp1.
  set (p1 := mkPeer (p_conn p) (others (p_d p))) in *.
  assert (lY = false → asked id (p_d p1)) as Ha1 by (intros E; by apply says_yes_asked, Ha).
  destruct Hk as [-> | ->].
  - destruct lY; [by apply IH|].
    change (p_d p1) with (others (p_d p)) at 1. rewrite (Hyes _ (Ha eq_refl)). destruct (take_local cs out p1 Hp1 (Ha1 eq_refl)) as (p2 & E & Hp2 & _ & Hin2).
    rewrite (bind_assoc_Ok _ _ _ _ _ E). cbn [negb].
    destruct (IH true (out ++ yes) p2) as (p' & E' & Ho'); [done|done|done|by rewrite Hin2|].
    exists p'. split; [done|]. rewrite Ho'. cbn [saying]. by rewrite app_nil_r.
  - rewrite (remote_waits (p_conn p1) Hin) by apply Hp1. apply IH; [|done..].
    intros E. specialize (Hl E). by apply elem_of_cons in Hl as [|].
Qed.

Lemma await_script picks cs :
  attentive picks →
  script p_conn (λ p, d_cs (p_d p) = cs ∧ asked id (p_d p)) (await_loop others picks id false false false false)
    [Snd yes; Rcv yes] (λ _ p, d_cs (p_d p) = cs).
Proof.
  intros (Hpk & Hl & Hr) p [Hp Ha] Hlive. assert (waiting cs (c_out (p_conn p)) p) as Hw by by split.
  split.
  - intros rest Hin. destruct (await_both picks false false cs (c_out (p_conn p)) rest p Hpk (λ _, Hl) (λ _, Hr) Hw (λ _, Ha)) as (p' & E & Hp' & Hin').
    { rewrite Hin. cbn [reads read map concat saying]. by rewrite app_nil_r. }
   
    exists (), p'. destruct Hp' as [H1 H2 H3]. split_and!; [done|done|exact H2|done|].
    rewrite H3. cbn [writes written map concat saying]. by rewrite app_nil_r.
  - intros t1 b t2 Ht Hin. assert (t1 = [Snd yes]) as ->.
    { by eapply second_read. }
    destruct (await_alone picks false cs (c_out (p_conn p)) p Hpk (λ _, Hl) Hw (λ _, Ha)) as (p' & E & Ho'); [exact Hin|].
    exists p'. split; [done|]. rewrite Ho'. cbn [writes written map concat saying]. by rewrite app_nil_r.
Qed.
End await.

(** ** The session *)

(** Exactly one more certificate is trusted, under this name. *)
Definition trusts_also (fp name : string) (before after : Daemon) : Prop :=
  ∀ fp', IsTrusted (d_store after) fp' = if fp =?s fp' then Some name else IsTrusted (d_store before) fp'.
(** The code is shown, and that is all. *)
Definition shows (onCode : PairInfo → M peer unit) : Prop :=
  ∀ info p, ∃ p', onCode info p = (Ok (), p') ∧ p_conn p' = p_conn p ∧
    d_cs (p_d p') = d_cs (p_d p) ∧ d_pair (p_d p') = d_pair (p_d p).

Section session.
Context (others : Daemon → Daemon) (id : string) (picks : list pick) (d0 : Daemon).
Hypothesis (Hcs : ∀ d, d_cs (others d) = d_cs d) (Hyes : says_yes others id)
  (Hpk : attentive picks) (Hcan : can_pair d0).

Lemma awaitAnswers_script info rns addr remote :
  pi_ID info = id →
  script p_conn (λ p, d_cs (p_d p) = d_cs d0 ∧ asked id (p_d p)) (awaitAnswers others picks info rns addr remote)
    [Snd yes; Rcv yes]
    (λ dev p, dev_Fingerprint dev = pi_Fingerprint info ∧ dev_Name dev = pi_Name info ∧
      trusts_also (pi_Fingerprint info) (pi_Name info) d0 (p_d p)).
Proof.
  intros Hid. unfold awaitAnswers. rewrite Hid.
  eapply script_bind'; [by apply await_script| |by rewrite app_nil_r]. intros u. apply script_quiet. intros p Hp.
  set (dev := mkDevice (pi_Name info) (pi_Fingerprint info) (resolvePeerAddr (o_port (d_set (p_d p))) addr remote)
    (d_now (p_d p)) "" rns).
  destruct Hcan as [Hs Hy]. destruct (AddDevice_ok dev (d_cs (p_d p))) as (s' & E & Hst);
    [by rewrite Hp|by rewrite Hp|done|].
  exists dev, (mkPeer (p_conn p) (with_cs s' (p_d p))). split; [|split; [split; [done|split; [done|]]|done]].
  - rewrite (bind_Ok _ _ p (p_d p) p) by done. cbv zeta. fold dev.
    rewrite (bind_Ok _ _ p (inl ()) (mkPeer (p_conn p) (with_cs s' (p_d p)))); [done|].
    apply try_Ok. unfold on_d at 1, zoom at 1. by rewrite (on_store_Ok _ _ _ _ E).
  - intros fp'. change (IsTrusted (cs_store s') fp' = (if pi_Fingerprint info =?s fp' then Some (pi_Name info) else IsTrusted (d_store d0) fp')).
    rewrite Hst, Hp. apply add_store_trust.
Qed.

Lemma tapPairSession_script hello fp remote onCode :
  shows onCode →
  script p_conn (λ p, d_cs (p_d p) = d_cs d0) (tapPairSession others picks id remote hello fp onCode)
    [Snd yes; Rcv yes]
    (λ dev p, dev_Fingerprint dev = fp ∧ dev_Name dev = sanitizeName (hdr_Name hello) ∧
      trusts_also fp (sanitizeName (hdr_Name hello)) d0 (p_d p)).
Proof.
  intros Hsh. unfold tapPairSession.
  eapply script_bind' with (t := []); [apply (script_gets p_conn (λ p, d_cs (p_d p) = d_cs d0))| |reflexivity].
  intros d. cbv zeta. set (info := mkPairInfo id _ fp _).
  apply script_conseq with (P := λ p, d_cs (p_d p) = d_cs d0) (2 := λ p Hp, proj2 Hp) (Q := λ dev p, dev_Fingerprint dev = pi_Fingerprint info ∧
    dev_Name dev = pi_Name info ∧ trusts_also (pi_Fingerprint info) (pi_Name info) d0 (p_d p)); [|done].
  set (F := λ p : peer, d_cs (p_d p) = d_cs d0 ∧ asked id (p_d p)).
  eapply (script_seq p_conn _ F _ []); [| |reflexivity].
  { apply script_quiet. intros p Hp. eexists (), _. split; [reflexivity|]. split; [|done]. split; [done|].
    eexists. split; [apply lookup_insert_eq|done]. }
  eapply (script_seq p_conn _ F _ []); [| |reflexivity].
  { apply script_quiet. intros p Hp. eexists (), _. split; [reflexivity|]. by split. }
  eapply (script_seq p_conn _ F _ []); [| |reflexivity].
  { apply script_quiet. intros p [Hp (q & Hq)]. destruct (Hsh info p) as (p' & E & Hc & Hd & Hpr). exists (), p'.
    split; [done|]. split; [|done]. split; [by rewrite Hd|]. exists q. by rewrite Hpr. }
  eapply (script_bind' p_conn _ _ [Snd yes; Rcv yes]); [apply script_try, awaitAnswers_script; reflexivity| |by rewrite app_nil_r].
  intros [dev|e]; [|by apply script_false]. cbv beta iota zeta.
  apply script_quiet. intros p Hp. eexists dev, _. split; [reflexivity|]. by split.
Qed.
End session.

(** ** Both roles *)
Section sides.
Context `{Reticulum}.

Definition request (d : Daemon) : Header := request_header (greeted d) (advertised d).
Lemma request_ok d : Header_ok (request d).
Proof. unfold Header_ok. cbn. by split_and!. Qed.
Lemma request_fits d : modest d → fits (request d).
Proof.
  intros (Hn & Ha & Hr)%modest_greeted.
  change (request d) with (introduction TypePairRequest "" (o_name (d_set (greeted d))) (advertised d) (rnsKey (greeted d)) false).
  apply introduction_fits; [apply Nat.leb_le; by vm_compute|cbn; lia|exact Hn|exact Ha|exact Hr].
Qed.
Lemma request_name d : hdr_Name (request d) = o_name (d_set d).
Proof. unfold request. by destruct (greeted_only d) as [x ->]. Qed.

Lemma sendPairRequest_script d :
  modest d → script p_conn (at_daemon d) sendPairRequest [Snd (frame (request d))] (λ x p, x = () ∧ at_daemon (greeted d) p).
Proof.
  intros Hm. unfold sendPairRequest.
  eapply (script_bind_eq _ _ _ [] (advertised d) (at_daemon (greeted d))); [apply on_d_script, advertiseAddr_eq| |reflexivity].
  eapply (script_bind_eq _ _ _ [] (greeted d) (at_daemon (greeted d)));
    [eapply script_conseq; [apply script_gets|done|by intros a p [-> Hp]]| |reflexivity].
  eapply on_c_script; [apply WriteControl_script; [done|by apply request_fits]|]. by intros p [] c Hp _.
Qed.
Lemma readPairRequest_script d h :
  Header_ok h → fits h → hdr_Type h = TypePairRequest → to_valid (hdr_Name h) ≠ "" →
  script p_conn (at_daemon d) readPairRequest [Rcv (frame h)] (λ x p, x = valid_Header h ∧ at_daemon d p).
Proof.
  intros Ho Hf Hty Hn. unfold readPairRequest.
  eapply (script_bind_eq _ _ _ [Rcv (frame h)]); [apply script_try_eq, read_hello_script; done| |reflexivity].
  cbv beta iota. rewrite (valid_type h TypePairRequest Hty) by done. change (hdr_Name (valid_Header h)) with (to_valid (hdr_Name h)).
  rewrite (proj2 (String.eqb_neq _ _) Hn). apply script_ret.
Qed.

Context (others : Daemon → Daemon) (id : string) (picks : list pick) (d peer : Daemon).
Hypothesis (Hcs : ∀ d, d_cs (others d) = d_cs d) (Hyes : says_yes others id)
  (Hpk : attentive picks) (Hcan : can_pair d) (Hm : modest d) (Hm' : modest peer)
  (Hn : to_valid (o_name (d_set peer)) ≠ "").

(** What a side ends with: the other is trusted under its name. *)
Definition paired_as (fp : string) (dev : Device) (p : World.peer) : Prop :=
  dev_Fingerprint dev = fp ∧ dev_Name dev = sanitizeName (to_valid (o_name (d_set peer))) ∧
  trusts_also fp (sanitizeName (to_valid (o_name (d_set peer)))) d (p_d p).

Lemma session_script fp remote onCode d1 :
  d_cs d1 = d_cs d → shows onCode →
  script p_conn (at_daemon d1) (tapPairSession others picks id remote (valid_Header (request peer)) fp onCode)
    [Snd yes; Rcv yes] (paired_as fp).
Proof.
  intros Hd Hsh. eapply script_conseq; [by apply (tapPairSession_script others id picks d)| |].
  - intros p Hp. cbv beta. by rewrite (Hp : p_d p = d1).
  - intros dev p. unfold paired_as. change (hdr_Name (valid_Header (request peer))) with (to_valid (hdr_Name (request peer))).
    by rewrite request_name.
Qed.

Lemma pair_on_script fp remote onCode :
  shows onCode →
  script p_conn (at_daemon d) (pair_on others picks id remote fp onCode)
    [Snd (frame (request d)); Rcv (frame (request peer)); Snd yes; Rcv yes] (paired_as fp).
Proof.
  intros Hsh. unfold pair_on.
  eapply (script_bind_eq _ _ _ [Snd (frame (request d))]); [by apply sendPairRequest_script| |reflexivity].
  eapply (script_bind_eq _ _ _ [Rcv (frame (request peer))]);
    [apply readPairRequest_script; [apply request_ok|by apply request_fits|done|by rewrite request_name]| |reflexivity].
  apply session_script; [|done]. by destruct (greeted_only d) as [x ->].
Qed.
Lemma handleTapPair_script fp remote :
  script p_conn (at_daemon d) (handleTapPair others picks id remote fp)
    [Rcv (frame (request peer)); Snd (frame (request d)); Snd yes; Rcv yes] (λ _ p, ∃ dev, paired_as fp dev p).
Proof.
  unfold handleTapPair. apply script_ignore.
  eapply (script_bind_eq _ _ _ [Rcv (frame (request peer))]);
    [apply readPairRequest_script; [apply request_ok|by apply request_fits|done|by rewrite request_name]| |reflexivity].
  eapply (script_bind_eq _ _ _ [Snd (frame (request d))]); [by apply sendPairRequest_script| |reflexivity].
  apply session_script; [by destruct (greeted_only d) as [x ->]|]. intros info p. eexists. by split; [reflexivity|].
Qed.
End sides.

(** ** The meeting *)

(** Two sides that greet in turn and then both speak before they listen. *)
Lemma exchange_crossing {A B} (p : party A) (q : party B) ra rb ya yb a b n :
  plays p [Snd ra; Rcv rb; Snd ya; Rcv yb] a → plays q [Rcv ra; Snd rb; Snd yb; Rcv ya] b → (3 ≤ n)%nat →
  exchange n p q = (ra ++ ya, rb ++ yb) ∧
  p (rb ++ yb) = (Ok a, ra ++ ya) ∧ q (ra ++ ya) = (Ok b, rb ++ yb).
Proof.
  intros [P1 P2] [Q1 Q2] Hn.
  pose proof (P2 [Snd ra] rb [Snd ya; Rcv yb] eq_refl) as P3.
  pose proof (Q2 [] ra [Snd rb; Snd yb; Rcv ya] eq_refl) as Q3.
  pose proof (Q2 [Rcv ra; Snd rb; Snd yb] ya [] eq_refl) as Q4. clear P2 Q2.
  unfold reads, writes in *. cbn [map concat read written app] in *. rewrite !app_nil_r in *.
  split; [|done]. assert (∃ k, n = 3 + k)%nat as [k ->] by (exists (n - 3)%nat; lia).
  induction k as [|k IH].
  - cbn [exchange Nat.add]. by rewrite P3, Q3; cbn [snd]; rewrite P3, Q4; cbn [snd]; rewrite P1, Q4.
  - rewrite Nat.add_succ_r. transitivity (let '(x, y) := exchange (3 + k) p q in ((p y).2, (q x).2)); [done|].
    rewrite IH by lia. by rewrite P1, Q1.
Qed.

Lemma crossing_reads ra rb ya yb : reads [Rcv ra; Snd rb; Snd yb; Rcv ya] = ra ++ ya.
Proof. unfold reads. cbn. by rewrite app_nil_r. Qed.
Lemma starting_reads ra rb ya yb : reads [Snd ra; Rcv rb; Snd ya; Rcv yb] = rb ++ yb.
Proof. unfold reads. cbn. by rewrite app_nil_r. Qed.

(** The handshake of tap pairing, where nobody is known yet. *)
Definition tap_client (der : bytes) : tls_peer := mkTlsPeer [der] [PairALPN].
Lemma tap_lets_in (trusted : string → option string) cert der :
  Listen_accept trusted cert (Some true) (tap_client der) = inl (mkTlsState [der] PairALPN).
Proof. unfold Listen_accept, listen_config, tap_client, handshake. cbn. by rewrite ?String.eqb_refl. Qed.
(** A network in which the device with certificate [der] takes tap pairings
    at [addr], over a connection that will deliver [input]. *)
Definition tap_listening (addr : string) (der : bytes) (input : bytes) : Z → bool → string → remote_peer + error :=
  λ _ _ a, if a =?s addr then inl (mkRemote (tap_client der) (conn_of input) addr) else inr (Errno ECONNREFUSED).
Lemma tap_dials (trusted : string → option string) now lan cert addr der input :
  DialPair trusted rm_tls (tap_listening addr der input now) lan cert addr =
  inl (mkRemote (tap_client der) (conn_of input) addr, Fingerprint der).
Proof.
  unfold DialPair, dialTLS, dial_with, tap_listening. rewrite String.eqb_refl. by destruct lan.
Qed.

(** A side that can pair and whose user says yes. *)
Record willing (others : Daemon → Daemon) (id : string) (picks : list pick) (d : Daemon) : Prop := {
  wl_store : ∀ d, d_cs (others d) = d_cs d;
  wl_yes : says_yes others id;
  wl_picks : attentive picks;
  wl_disk : can_pair d;
  wl_named : to_valid (o_name (d_set d)) ≠ "";
  wl_on : allowTapPair d = true;
}.

(** C31: tap pairing is mutual. Two devices that have it turned on meet over a
    connection where nobody is trusted yet, one with PairWith, the other with
    its listener and handleTapPair. When both users say yes, in whatever order
    each side gets to see the two answers, both sides come to their end
    without waiting for each other, PairWith returns the other device, and
    each trusts exactly one more certificate: the one the other showed in the
    handshake, under the name it gave. *)
Theorem tap_pair_mutual `{Reticulum} clipboard_set others_a others_b id_a id_b picks_a picks_b
    addr remote lan onCode da db n :
  willing others_a id_a picks_a da → willing others_b id_b picks_b db → modest da → modest db →
  shows onCode → (3 ≤ n)%nat →
  let cert_a := s_certDER (d_store da) in let cert_b := s_certDER (d_store db) in
  Fingerprint cert_b ≠ Fingerprint cert_a →
  let st := Listen_accept (daemon_IsTrusted db) cert_b (Some (allowTapPair db)) (tap_client cert_a) in
  let starts := pair_on others_a picks_a id_a addr (Fingerprint cert_b) onCode in
  let answers := handlePeer clipboard_set (handleTapPair others_b picks_b id_b remote) st remote in
  let '(sent, heard) := exchange n (party_of p_conn (ignore starts) (λ i, mkPeer (conn_of i) da))
                                   (party_of p_conn answers (λ i, mkPeer (conn_of i) db)) in
  let a := PairWith others_a (tap_listening addr cert_b heard) lan picks_a id_a addr onCode da in
  let b := answers (mkPeer (conn_of sent) db) in
  b.1 = Ok () ∧
  (∃ dev, a.1 = Ok dev ∧ dev_Fingerprint dev = Fingerprint cert_b) ∧
  trusts_also (Fingerprint cert_b) (sanitizeName (to_valid (o_name (d_set db)))) da a.2 ∧
  trusts_also (Fingerprint cert_a) (sanitizeName (to_valid (o_name (d_set da)))) db (p_d b.2).
Proof.
  intros [Ha1 Ha2 Ha3 Ha4 Ha5 Ha6] [Hb1 Hb2 Hb3 Hb4 Hb5 Hb6] Hma Hmb Hsh Hn cert_a cert_b Hne st starts answers.
  assert (answers = handleTapPair others_b picks_b id_b remote (Fingerprint cert_a)) as Ean.
  { unfold answers, st. rewrite Hb6, tap_lets_in. unfold handlePeer, PeerFingerprint. cbn [ts_certs ts_proto]. by rewrite String.eqb_refl. }
  pose proof (pair_on_script others_a id_a picks_a da db Ha1 Ha2 Ha3 Ha4 Hma Hmb Hb5 (Fingerprint cert_b) addr onCode Hsh) as Sa.
  pose proof (handleTapPair_script others_b id_b picks_b db da Hb1 Hb2 Hb3 Hb4 Hmb Hma Ha5 (Fingerprint cert_a) remote) as Sb.
  destruct (script_plays p_conn _ _ _ _ (λ i, mkPeer (conn_of i) da) () (script_ignore _ _ _ _ _ Sa)) as [Pa (pa & Ea & _)];
    [done|done|by intros []|].
  destruct (script_plays p_conn _ _ _ _ (λ i, mkPeer (conn_of i) db) () Sb) as [Pb (pb & Eb & dev_b & Hb)];
    [done|done|by intros []|].
  rewrite Ean. unfold starts. destruct (exchange_crossing _ _ _ _ _ _ _ _ n Pa Pb Hn) as (-> & _ & _).
  rewrite crossing_reads in Eb. rewrite Eb.
  destruct (Sa (mkPeer (conn_of (frame (request db) ++ yes)) da) eq_refl (conj eq_refl eq_refl)) as [Hrun _].
  destruct (Hrun []) as (dev & qa & Era & Hpa & _).
  { by rewrite starting_reads, app_nil_r. }
  cbv zeta. unfold PairWith. rewrite (bind_Ok _ _ da da da) by done. unfold allowTapPair in Ha6. rewrite Ha6. cbn [negb].
  rewrite (bind_Ok _ _ da (mkRemote (tap_client cert_b) (conn_of (frame (request db) ++ yes)) addr, Fingerprint cert_b) da).
  2: { unfold of_res. by rewrite tap_dials. }
  cbv beta iota. change (store_Fingerprint (d_store da)) with (Fingerprint cert_a). rewrite (proj2 (String.eqb_neq _ _) Hne).
  unfold bind, on_dialled. cbn [rm_conn rm_addr]. rewrite Era. cbn [fst snd].
  destruct Hpa as (Hf & _ & Ht), Hb as (_ & _ & Htb). split; [done|]. split; [by exists dev|]. done.
Qed.

(** Two fresh devices. One sees its own user's answer first, the other the
    peer's. *)
Lemma demo_willing id picks d :
  attentive picks → can_pair d → to_valid (o_name (d_set d)) ≠ "" → allowTapPair d = true →
  willing (user_says id true) id picks d.
Proof. intros. split; try done. apply user_says_yes. Qed.
Lemma demo_attentive : attentive [PickLocal; PickRemote] ∧ attentive [PickRemote; PickLocal].
Proof. split; (split; [by repeat constructor; auto|split; repeat constructor]). Qed.

Lemma tap_pair_mutual_witness :
  let da := demo_daemon [] in
  let starts := @pair_on toy_reticulum (user_says "a" true) [PickLocal; PickRemote] "a" "192.168.1.9:53127"
    (Fingerprint (bs "guest certificate")) (λ _, ret ()) in
  let st := Listen_accept (daemon_IsTrusted demo_guest) (bs "guest certificate") (Some true) (tap_client demo_own) in
  let answers := @handlePeer toy_reticulum (λ _ _, None)
    (@handleTapPair toy_reticulum (user_says "b" true) [PickRemote; PickLocal] "b" "192.168.1.5:4000") st "192.168.1.5:4000" in
  let '(sent, heard) := exchange 3 (party_of p_conn (ignore starts) (λ i, mkPeer (conn_of i) da))
                                   (party_of p_conn answers (λ i, mkPeer (conn_of i) demo_guest)) in
  ∃ dev, (@PairWith toy_reticulum (user_says "a" true)
    (tap_listening "192.168.1.9:53127" (bs "guest certificate") heard) false [PickLocal; PickRemote] "a"
    "192.168.1.9:53127" (λ _, ret ()) da).1 = Ok dev.
Proof.
  cbv zeta. destruct demo_attentive as [H1 H2], demo_modest as [Hm1 Hm2].
  pose proof (@tap_pair_mutual toy_reticulum (λ _ _, None) (user_says "a" true) (user_says "b" true) "a" "b"
    [PickLocal; PickRemote] [PickRemote; PickLocal] "192.168.1.9:53127" "192.168.1.5:4000" false (λ _, ret ())
    (demo_daemon []) demo_guest 3) as H. cbv zeta in H.
  change (s_certDER (d_store (demo_daemon []))) with demo_own in H.
  change (s_certDER (d_store demo_guest)) with (bs "guest certificate") in H.
  change (allowTapPair demo_guest) with true in H.
  destruct (exchange 3 _ _) as [sent heard].
  destruct H as (_ & (dev & E & _) & _).
  - apply demo_willing; [exact H1|split; [apply demo_saves|]|..]; by vm_compute.
  - apply demo_willing; [exact H2|split; [apply demo_saves|]|..]; by vm_compute.
  - split_and!; by vm_compute.
  - split_and!; by vm_compute.
  - intros info p. exists p. by split_and!.
  - apply le_n.
  - by vm_compute.
  - by exists dev.
Defined.
