(* ===== verification/IpcHandler.v ===== *)
(** * internal/daemon/ipc_handler.go: serving one CLI connection

    A handler reads a request and streams responses. [served] is the daemon
    and what was written to the client so far; a write to a client that left
    is an error nobody looks at. *)

From S2P Require Import Prelude GoStrings GoTime Go GoNet Qr Fs Proto Ipc Paths Receive Config Pairing.
From S2P Require Import Transport Rns Hubs World Peer Signals Dial Queue TapPair.
From Stdlib Require Import ZArith Lia String Ascii List Bool.
From stdpp Require Import base list strings gmap option numbers.

#[local] Open Scope string_scope.
#[local] Open Scope list_scope.
#[local] Open Scope Z_scope.

(** ** The connection *)

Record served := mkServed { sv_d : Daemon; sv_out : list Response }.
Definition on_daemon {A} (m : M Daemon A) : M served A := zoom sv_d (λ d s, mkServed d (sv_out s)) m.
Definition send (r : Response) : M served unit := modify (λ s, mkServed (sv_d s) (sv_out s ++ [r])).

Definition line (l : string) : Response := mkResponse l "" [] None None None [] [] [] false "".
Definition done_line (l : string) : Response := mkResponse l "" [] None None None [] [] [] true "".
Definition fail (e : error) : Response := mkResponse "" "" [] None None None [] [] [] true (error_text e).
Definition failed (msg : string) : Response := fail (Errorf msg).

(** [if err != nil { send(Response{Err: …, Done: true}); return }] *)
Definition or_fail {A} (m : M Daemon A) (k : A → M served unit) : M served unit :=
  r <- try (on_daemon m) ;;
  match r with inr e => send (fail e) | inl a => k a end.

(** [s[:16]] *)
Definition first16 (s : string) : M served string :=
  if (16 <=? String.length s)%nat then ret (str (take 16 (bs s))) else panic.
Definition paired_with (name fp : string) : M served unit :=
  p <- first16 fp ;; send (done_line ("paired with " +:+ name +:+ " (" +:+ p +:+ ")")).

(** ** What the handler meets outside *)

Inductive wait_end := WaitDone | WaitClosed | WaitCtx.
(** One turn of the select of streamEvents, after what the other goroutines
    did to the daemon. *)
Inductive stream_pick := StreamEvent | StreamGone | StreamCtx.

Record ipc_env := mkIpcEnv {
  ie_env : surroundings;                       (* the network *)
  ie_random_id : Daemon → string;              (* rand.Read, in hex *)
  ie_cwd : string;
  ie_qr : string → qr_code + error;            (* qr.Encode *)
  ie_clipboard : string → bytes + error;       (* Daemon.clipboardGet *)
  ie_ctx : context;                            (* ended by a client that leaves *)
  ie_checks : option nat;                      (* calls of ctx.Err() still nil *)
  ie_polls : option nat;                       (* path polls before a ping's 60 s end *)
  ie_ctxErr : error;
  ie_working : list string;                    (* HubManager.Working *)
  ie_meanwhile : M Daemon unit;                (* other goroutines during one wait *)
  ie_others : Daemon → Daemon;                 (* and between two selects *)
  ie_picks : list pick;
  ie_wait : wait_end;
  ie_stream : list stream_pick;
}.

Section ipc.
Context `{Reticulum} (env : ipc_env).

(** ** The longer arms *)

Definition resolveTarget (target : string) (d : Daemon) : string + error :=
  if negb (target =?s "") then inl target
  else
    let fp := LastPeer (d_store d) in
    if fp =?s "" then
      inr (Errorf "no target specified and no previous send on record; use: adrop send <peer> ...")
    else
      match Config.Lookup (d_store d) fp with
      | None => inr (Errorf "last-used device is no longer paired; use: adrop send <peer> ...")
      | Some dev => inl (dev_Name dev)
      end.

Definition lastPeerName (d : Daemon) : string :=
  let fp := LastPeer (d_store d) in
  if fp =?s "" then ""
  else match Config.Lookup (d_store d) fp with Some dev => dev_Name dev | None => "" end.
Definition serve_status : M served unit :=
  d0 <- gets sv_d ;;
  addr <- on_daemon advertiseAddr ;;
  d <- gets sv_d ;;
  let '(rnsAddr, rnsHubs) := RNSStatus (ie_working env) d in
  send (mkResponse "" "" []
    (Some (mkStatusInfo (o_name (d_set d)) (store_Fingerprint (d_store d)) addr
             (Z.of_nat (length (s_devices (d_store d)))) (lastPeerName d0) rnsAddr rnsHubs))
    None None [] [] [] true "").

(** Wait for the pairing window's end, with the object the window is. *)
Definition waitPairOrDisconnect : M served unit :=
  d <- gets sv_d ;;
  match pairWindowDone d with
  | None => send (done_line "")
  | Some (i, _) =>
      on_daemon (ie_meanwhile env) ;;;
      match ie_wait env with
      | WaitDone =>
          d <- gets sv_d ;;
          match pg_sessions (d_pair d) !! i with
          | Some ps =>
              if ps_done ps then
                send (done_line (if ps_paired ps =?s "" then "pairing complete"
                                 else "paired with " +:+ ps_paired ps))
              else λ s, (Block, s)
          | None => λ s, (Block, s)
          end
      | WaitClosed => ret ()
      | WaitCtx => send (done_line "daemon shutting down")
      end
  end.
Definition serve_pair_show : M served unit :=
  or_fail PairingURI (λ uri,
  or_fail (of_res (RenderTerminal (ie_qr env) uri)) (λ art,
    i <- on_daemon (OpenPairWindow "" "") ;;
    send (mkResponse uri art [] None None None [] [] [] false "") ;;;
    send (line ("Scan with the phone (or run `adrop pair add <uri>` on a peer). Waiting" +:+ str ellipsis)) ;;;
    waitPairOrDisconnect ;;;
    on_daemon (closePairWindow i))).

Definition device_info (dev : Device) : DeviceInfo :=
  mkDeviceInfo (dev_Name dev) (dev_Fingerprint dev) (dev_Addr dev) (format_seconds (dev_PairedAt dev)).

Definition serve_send_files (req : Request) : M served unit :=
  d <- gets sv_d ;;
  match resolveTarget (rq_Target req) d with
  | inr e => send (fail e)
  | inl target =>
      r <- on_daemon (SendFilesOrQueue (ie_env env) (ie_random_id env) (ie_cwd env) (ie_ctx env)
                        (ie_checks env) target (rq_Files req) true) ;;
      let '(lines, r) := r in
      modify (λ s, mkServed (sv_d s) (sv_out s ++ map line lines)) ;;;
      match r with
      | inr e => send (fail e)
      | inl reason => send (done_line (if reason =?s "" then "" else "queued: " +:+ reason))
      end
  end.

Definition serve_send_clip (req : Request) : M served unit :=
  d <- gets sv_d ;;
  match resolveTarget (rq_Target req) d with
  | inr e => send (fail e)
  | inl target =>
      let mime := if rq_MIME req =?s "" then "text/plain" else rq_MIME req in
      match (if rq_Text req =?s "" then ie_clipboard env mime else inl (bs (rq_Text req))) with
      | inr e => send (failed ("read clipboard: " +:+ error_text e))
      | inl data =>
          r <- on_daemon (SendClipboardAnywhere (ie_env env) (ie_random_id env)
                            (ie_meanwhile env) (ie_ctx env) target data mime) ;;
          match r with inr e => send (fail e) | inl how => send (done_line how) end
      end
  end.

(** The address of the last nearby device with the name, else the text itself. *)
Definition pair_address (d : Daemon) (target : string) : string :=
  foldl (λ addr n, if ni_Name n =?s target then ni_Addr n else addr) target (Nearby d).
Definition code_line (p : PairInfo) : Response :=
  mkResponse ("code " +:+ pi_Code p +:+ " (" +:+ pi_Name p +:+ ")") "" [] None None (Some p) [] [] [] false "".
(** The responses for the codes shown since there were [n] of them. *)
Definition show_since (n : nat) : M served unit :=
  modify (λ s, mkServed (sv_d s) (sv_out s ++ map code_line (drop n (d_shown (sv_d s))))).
Definition serve_pair_with (req : Request) : M served unit :=
  d <- gets sv_d ;;
  r <- try (on_daemon (PairWith (ie_others env) (env_connect (ie_env env)) (env_lanControl (ie_env env))
              (ie_picks env) (ie_random_id env d) (pair_address d (rq_Target req))
              (λ p, on_d (modify (show_code p))))) ;;
  show_since (length (d_shown d)) ;;;
  match r with
  | inr e => send (fail e)
  | inl dev => paired_with (dev_Name dev) (dev_Fingerprint dev)
  end.

(** *** streamEvents: turns of the select, until one of them returns *)
Definition event_response (e : Event) : Response :=
  mkResponse "" "" [] None (Some e) None [] [] [] false "".
Fixpoint stream_loop (picks : list stream_pick) (ch : nat) : M served unit :=
  match picks with
  | [] => λ s, (Block, s)
  | k :: picks =>
      on_daemon (modify (ie_others env)) ;;;
      match k with
      | StreamEvent =>
          e <- on_daemon (next_event ch) ;;
          match e with Some e => send (event_response e) | None => ret () end ;;;
          stream_loop picks ch
      | StreamGone => ret ()
      | StreamCtx => send (done_line "")
      end
  end.
Definition streamEvents : M served unit :=
  ch <- on_daemon subscribe ;;
  stream_loop (ie_stream env) ch ;;;
  on_daemon (unsubscribe ch).

Definition serve_pair_confirm (req : Request) : M served unit :=
  or_fail (ConfirmPair (ie_meanwhile env) (ie_ctxErr env) (rq_ID req) (rq_OK req)) (λ p,
    paired_with (pi_Name p) (pi_Fingerprint p)).
Definition serve_ping (req : Request) : M served unit :=
  d <- gets sv_d ;;
  or_fail (Ping (ie_meanwhile env) (ie_polls env) (ie_random_id env d) (rq_Target req)) (λ rtt,
    send (done_line ("pong from " +:+ rq_Target req +:+ " over reticulum in " +:+
                     duration_text (round_ms rtt)))).
Definition serve_unqueue (req : Request) : M served unit :=
  or_fail (Unqueue (rq_ID req)) (λ _, send (done_line "dropped")).

(** ** handleIPC on the decoded request *)

Definition handleIPC (req : Request + error) : M served unit :=
  match req with
  | inr e => send (failed ("decode request: " +:+ error_text e))
  | inl req =>
      let cmd := rq_Cmd req in
      if cmd =?s CmdStatus then serve_status
      else if cmd =?s CmdPairShow then serve_pair_show
      else if cmd =?s CmdPairAdd then
        or_fail (AddPeer (env_connect (ie_env env)) (env_lanControl (ie_env env)) (rq_PairURI req)) (λ dev,
          paired_with (dev_Name dev) (dev_Fingerprint dev))
      else if cmd =?s CmdDevices then
        d <- gets sv_d ;;
        send (mkResponse "" "" (map device_info (s_devices (d_store d))) None None None [] [] [] true "")
      else if cmd =?s CmdRevoke then
        or_fail (on_store (RemoveDevice (rq_Target req))) (λ r,
          match r with
          | (_, Some e) => send (fail e)
          | (n, None) => if n =? 0 then send (failed ("no device matched " +:+ rq_Target req))
                         else send (done_line "revoked")
          end)
      else if cmd =?s CmdRename then
        or_fail (on_store (RenameDevice (rq_Target req) (rq_Name req))) (λ _, send (done_line "renamed"))
      else if cmd =?s CmdSendFiles then serve_send_files req
      else if cmd =?s CmdSendClip then serve_send_clip req
      else if cmd =?s CmdNearby then
        d <- gets sv_d ;; send (mkResponse "" "" [] None None None [] [] (Nearby d) true "")
      else if cmd =?s CmdPairWith then serve_pair_with req
      else if cmd =?s CmdPairPending then
        d <- gets sv_d ;; send (mkResponse "" "" [] None None None (PendingPairs d) [] [] true "")
      else if cmd =?s CmdPairConfirm then
        serve_pair_confirm req
      else if cmd =?s CmdPing then
        serve_ping req
      else if cmd =?s CmdQueue then
        q <- on_daemon Queue ;; send (mkResponse "" "" [] None None None [] q [] true "")
      else if cmd =?s CmdUnqueue then
        serve_unqueue req
      else if cmd =?s CmdSubscribe then streamEvents
      else send (failed ("unknown command: " +:+ cmd))
  end.
End ipc.

(** ** What a client reads

    [partial]: a response that does not end the command. *)
Definition partial (r : Response) : Prop := rs_Done r = false ∧ rs_Err r = "".
(** Partial responses, then one that ends the command; only a client that
    went away misses the last. *)
Definition answered (left : Prop) (l : list Response) : Prop :=
  (∃ pre last, l = pre ++ [last] ∧ Forall partial pre ∧ rs_Done last = true) ∨ (left ∧ Forall partial l).

Definition never_fails {S A} (m : M S A) : Prop := errs (λ _, True) (λ _, False) m.
(** What a computation adds to the responses when it returns. *)
Definition tells {A} (P : list Response → Prop) (m : M served A) : Prop :=
  ∀ s r s', m s = (r, s') →
    match r with
    | Ok _ => ∃ l, sv_out s' = sv_out s ++ l ∧ P l
    | Err _ => False
    | _ => True
    end.

Lemma tells_bind {A B} (P : list Response → Prop) (m : M served A) (k : A → M served B) :
  tells (Forall partial) m → (∀ a, tells P (k a)) → (∀ l l', Forall partial l → P l' → P (l ++ l')) →
  tells P (bind m k).
Proof.
  intros Hm Hk HP s r s' [(a & s1 & E1%Hm & E2%Hk)|(r0 & E1%Hm & Hr & ->)]%bind_inv.
  - destruct E1 as (l & Hl & Hp), r; try done. destruct E2 as (l' & Hl' & Hp').
    exists (l ++ l'). rewrite Hl', Hl, app_assoc. eauto.
  - by destruct r0; try done; destruct (Hr a).
Qed.
Lemma answered_app left l l' : Forall partial l → answered left l' → answered left (l ++ l').
Proof.
  intros Hl [(pre & last & -> & Hp & Hd)|[Hg Hp]].
  - left. exists (l ++ pre), last. rewrite app_assoc. auto using Forall_app_2.
  - right. auto using Forall_app_2.
Qed.
Lemma tells_answer {A B} left (m : M served A) (k : A → M served B) :
  tells (Forall partial) m → (∀ a, tells (answered left) (k a)) → tells (answered left) (bind m k).
Proof. intros Hm Hk. apply tells_bind; auto using answered_app. Qed.
Lemma tells_partial {A B} (m : M served A) (k : A → M served B) :
  tells (Forall partial) m → (∀ a, tells (Forall partial) (k a)) → tells (Forall partial) (bind m k).
Proof. intros Hm Hk. apply tells_bind; auto using Forall_app_2. Qed.
(** What comes after the last response adds nothing. *)
Lemma tells_then {A B} left (m : M served A) (k : A → M served B) :
  tells (answered left) m → (∀ a, tells (eq []) (k a)) → tells (answered left) (bind m k).
Proof.
  intros Hm Hk s r s' [(a & s1 & E1%Hm & E2%Hk)|(r0 & E1%Hm & Hr & ->)]%bind_inv.
  - destruct E1 as (l & Hl & Hp), r; try done. destruct E2 as (l' & Hl' & <-).
    rewrite app_nil_r in Hl'. rewrite Hl'. eauto.
  - by destruct r0; try done; destruct (Hr a).
Qed.

Lemma tells_nothing {A} (P : list Response → Prop) (m : M served A) : P [] → tells (eq []) m → tells P m.
Proof.
  intros HP Hm s r s' E%Hm. destruct r; try done. destruct E as (l & Hl & <-). eauto.
Qed.
Lemma tells_gets {A} P (f : served → A) : P [] → tells P (gets f).
Proof. intros HP s r s' [= <- <-]. exists []. by rewrite app_nil_r. Qed.
Lemma tells_panic {A} P : tells P (@panic served A).
Proof. by intros s r s' [= <- <-]. Qed.
Lemma tells_block {A} P : tells P ((λ s, (Block, s)) : M served A).
Proof. by intros s r s' [= <- <-]. Qed.
Lemma tells_ret {A} (P : list Response → Prop) (a : A) : P [] → tells P (ret a).
Proof. intros HP s r s' [= <- <-]. exists []. by rewrite app_nil_r. Qed.
Lemma tells_says P (f : served → list Response) :
  (∀ s, P (f s)) → tells P (modify (λ s, mkServed (sv_d s) (sv_out s ++ f s))).
Proof. intros HP s r s' [= <- <-]. cbn. eauto. Qed.
Lemma tells_on_daemon {A} P (m : M Daemon A) : P [] → never_fails m → tells P (on_daemon m).
Proof.
  intros HP Hm s r s' (d & E & ->)%zoom_inv. destruct (Hm _ _ _ I E) as [_ He].
  destruct r; try done; [exists []; cbn; by rewrite app_nil_r|by destruct (He _ eq_refl)].
Qed.
Lemma tells_try_daemon {A} P (m : M Daemon A) : P [] → tells P (try (on_daemon m)).
Proof.
  intros HP s r s' (r0 & (d & E & ->)%zoom_inv & Hr)%try_inv.
  destruct r0; subst r; try done; exists []; cbn; by rewrite app_nil_r.
Qed.
Create HintDb tells.
#[export] Hint Resolve tells_gets tells_panic tells_block tells_ret tells_on_daemon tells_try_daemon
  tells_answer tells_partial Forall_nil_2 : tells.

Lemma tells_last left r : rs_Done r = true → tells (answered left) (send r).
Proof. intros Hd. apply tells_says. intros _. left. by exists [], r. Qed.
Lemma tells_line r : partial r → tells (Forall partial) (send r).
Proof. intros Hp. apply tells_says. intros _. by apply Forall_singleton. Qed.
#[export] Hint Extern 1 (tells (answered _) (send _)) => apply tells_last; reflexivity : tells.
#[export] Hint Extern 1 (tells (Forall partial) (send _)) => apply tells_line; split; reflexivity : tells.
Lemma tells_or_fail {A} left (m : M Daemon A) k :
  (∀ a, tells (answered left) (k a)) → tells (answered left) (or_fail m k).
Proof.
  intros Hk. apply tells_answer; [auto with tells|]. intros [a|e]; [apply Hk|auto with tells].
Qed.
Lemma tells_paired_with left name fp : tells (answered left) (paired_with name fp).
Proof. apply tells_answer; [unfold first16; case_match; auto with tells|auto with tells]. Qed.
#[export] Hint Resolve tells_or_fail tells_paired_with : tells.

(** *** Operations that never fail *)
Lemma never_fails_modify {S} (f : S → S) : never_fails (modify f).
Proof. by apply errs_modify. Qed.
Lemma never_fails_try {S A} (m : M S A) : never_fails (try m).
Proof. by apply errs_try. Qed.
Lemma never_fails_ignore {S A} (m : M S A) : never_fails (ignore m).
Proof. by apply errs_ignore. Qed.
Lemma never_fails_bind {S A B} (m : M S A) (k : A → M S B) :
  never_fails m → (∀ a, never_fails (k a)) → never_fails (bind m k).
Proof. apply errs_bind. Qed.
Lemma never_fails_ret {S A} (a : A) : never_fails (S:=S) (ret a).
Proof. apply errs_ret. Qed.
Lemma never_fails_gets {S A} (f : S → A) : never_fails (gets f).
Proof. apply errs_gets. Qed.
Lemma never_fails_get_state {S} : never_fails (S:=S) get_state.
Proof. apply errs_get_state. Qed.
Create HintDb calm.
#[export] Hint Resolve never_fails_modify never_fails_try never_fails_ignore never_fails_bind
  never_fails_ret never_fails_gets never_fails_get_state : calm.

Lemma refreshAdvertiseAddr_calm : never_fails refreshAdvertiseAddr.
Proof. unfold refreshAdvertiseAddr. apply never_fails_bind; [auto with calm|]. intros d. cbv zeta.
  repeat case_match; auto with calm. Qed.
Lemma advertise_calm : never_fails advertiseAddr.
Proof.
  unfold advertiseAddr, asks. apply never_fails_bind; [auto with calm|]. intros d.
  apply never_fails_bind; [|auto with calm].
  repeat case_match; auto using refreshAdvertiseAddr_calm with calm.
Qed.
Lemma subscribe_calm : never_fails subscribe.
Proof. unfold subscribe. auto with calm. Qed.
Lemma next_event_calm ch : never_fails (next_event ch).
Proof. unfold next_event. apply never_fails_bind; [auto with calm|]. intros d. repeat case_match; auto with calm. Qed.
Lemma OpenPairWindow_calm fp name : never_fails (OpenPairWindow fp name).
Proof. unfold OpenPairWindow. auto with calm. Qed.
Lemma loadQueue_calm : never_fails loadQueue.
Proof. unfold loadQueue. auto 10 with calm. Qed.
Lemma saveQueue_calm q : never_fails (saveQueueLocked q).
Proof.
  unfold saveQueueLocked. apply never_fails_bind; [auto with calm|]. intros d. cbv zeta.
  apply never_fails_bind; [auto with calm|]. intros [a|e]; auto with calm.
Qed.
Lemma enqueue_calm id it : never_fails (enqueue id it).
Proof.
  unfold enqueue, asks. apply never_fails_bind; [auto with calm|]. intros now. cbv zeta.
  auto using loadQueue_calm, saveQueue_calm with calm.
Qed.
Lemma run_session_calm checks dev c session : never_fails (run_session checks dev c session).
Proof.
  intros d r d' _ E. split; [done|]. intros e ->. unfold run_session in E.
  destruct (session _) as [r w]. destruct r; try done. revert E.
  match goal with |- ?m _ = _ → _ => assert (never_fails m) as Hm by auto with calm end.
  intros E. destruct (Hm _ _ _ I E) as [_ He]. by apply (He e).
Qed.

Section calm.
Context `{Reticulum} (env : surroundings) (random_id : Daemon → string).
Lemma SendFilesOrQueue_calm cwd ctx checks target paths progress :
  never_fails (SendFilesOrQueue env random_id cwd ctx checks target paths progress).
Proof.
  assert (∀ id, never_fails (SendFiles env ctx checks id cwd target paths progress)) as Hs.
  { intros id. unfold SendFiles. apply never_fails_bind; [auto with calm|]. intros [[m ps]|e]; [|auto with calm].
    apply never_fails_bind; [auto with calm|]. intros [[c dev]|e]; auto using run_session_calm with calm. }
  unfold SendFilesOrQueue. apply never_fails_bind; [auto with calm|]. intros d.
  apply never_fails_bind; [apply Hs|]. intros s. apply never_fails_bind; [auto with calm|]. intros d'.
  repeat case_match; auto using enqueue_calm with calm.
Qed.
Lemma SendClipboardAnywhere_calm meanwhile ctx target data mime :
  never_fails (SendClipboardAnywhere env random_id meanwhile ctx target data mime).
Proof.
  assert (∀ id, never_fails (SendClipboard env ctx id target data mime)) as Hs.
  { intros id. unfold SendClipboard. case_match; [auto with calm|].
    apply never_fails_bind; [auto with calm|]. intros [[c dev]|e]; auto using run_session_calm with calm. }
  unfold SendClipboardAnywhere. apply never_fails_bind; [auto with calm|]. intros d.
  apply never_fails_bind; [apply Hs|]. intros s. destruct (sent_err s); [|auto with calm].
  apply never_fails_bind; [auto with calm|]. intros d'. case_match; [|auto with calm].
  apply never_fails_bind; [case_match; auto with calm|]. intros [x|e']; [auto with calm|].
  auto using enqueue_calm with calm.
Qed.
End calm.
#[export] Hint Resolve advertise_calm subscribe_calm next_event_calm OpenPairWindow_calm loadQueue_calm
  SendFilesOrQueue_calm SendClipboardAnywhere_calm : calm.

(** *** Every arm *)
Section arms.
Context `{Reticulum} (env : ipc_env).
Hypothesis meanwhile_calm : never_fails (ie_meanwhile env).
#[local] Hint Resolve meanwhile_calm : calm.

(** The client may leave a command that waits for something to happen. *)
Definition may_leave (req : Request + error) : Prop :=
  match req with
  | inl req => (rq_Cmd req = CmdPairShow ∧ ie_wait env = WaitClosed) ∨
               (rq_Cmd req = CmdSubscribe ∧ StreamGone ∈ ie_stream env)
  | inr _ => False
  end.

Lemma wait_answers left : (ie_wait env = WaitClosed → left) → tells (answered left) (waitPairOrDisconnect env).
Proof.
  intros Hl. unfold waitPairOrDisconnect. apply tells_answer; [auto with tells|]. intros d.
  case_match; [|auto with tells]. case_match. apply tells_answer; [auto with tells calm|]. intros _.
  destruct (ie_wait env); [|apply tells_ret; right; auto|auto with tells].
  apply tells_answer; [auto with tells|]. intros d'. repeat case_match; auto with tells.
Qed.
Lemma closePairWindow_silent i : tells (eq []) (on_daemon (closePairWindow i)).
Proof. apply tells_on_daemon; [done|]. apply never_fails_modify. Qed.
Lemma pair_show_answers left :
  (ie_wait env = WaitClosed → left) → tells (answered left) (serve_pair_show env).
Proof.
  intros Hl. apply tells_or_fail. intros uri. apply tells_or_fail. intros art.
  apply tells_answer; [auto with tells calm|]. intros i.
  do 2 (apply tells_answer; [auto with tells|intros _]).
  apply tells_then; [by apply wait_answers|]. intros _. apply closePairWindow_silent.
Qed.
Lemma status_answers left : tells (answered left) (serve_status env).
Proof.
  unfold serve_status. apply tells_answer; [auto with tells|]. intros d0.
  apply tells_answer; [auto with tells calm|]. intros addr. apply tells_answer; [auto with tells|]. intros d.
  case_match. auto with tells.
Qed.
Lemma send_files_answers left req : tells (answered left) (serve_send_files env req).
Proof.
  unfold serve_send_files. apply tells_answer; [auto with tells|]. intros d. case_match; [|auto with tells].
  apply tells_answer; [auto with tells calm|]. intros [lines r]. apply tells_answer.
  - apply tells_says. intros _. apply Forall_map, list.Forall_forall. by intros l _.
  - intros _. destruct r; auto with tells.
Qed.
Lemma send_clip_answers left req : tells (answered left) (serve_send_clip env req).
Proof.
  unfold serve_send_clip. apply tells_answer; [auto with tells|]. intros d. case_match; [|auto with tells].
  cbv zeta. case_match; [|auto with tells]. apply tells_answer; [auto with tells calm|].
  intros [how|e]; auto with tells.
Qed.
Lemma pair_with_answers left req : tells (answered left) (serve_pair_with env req).
Proof.
  unfold serve_pair_with. apply tells_answer; [auto with tells|]. intros d.
  apply tells_answer; [auto with tells|]. intros r. apply tells_answer.
  - apply tells_says. intros s. apply Forall_map, list.Forall_forall. by intros l _.
  - intros _. destruct r; auto with tells.
Qed.
Lemma stream_answers left picks ch :
  (StreamGone ∈ picks → left) → tells (answered left) (stream_loop env picks ch).
Proof.
  induction picks as [|k picks IH]; intros Hl; cbn [stream_loop]; [apply tells_block|].
  apply tells_answer; [apply tells_on_daemon; auto with calm|]. intros _. destruct k.
  - apply tells_answer; [auto with tells calm|]. intros e.
    apply tells_answer; [destruct e; auto with tells|]. intros _. apply IH. intros Hin. apply Hl. by right.
  - apply tells_ret. right. split; [apply Hl; by left|done].
  - auto with tells.
Qed.
Lemma streamEvents_answers left :
  (StreamGone ∈ ie_stream env → left) → tells (answered left) (streamEvents env).
Proof.
  intros Hl. unfold streamEvents. apply tells_answer; [auto with tells calm|]. intros ch.
  apply tells_then; [by apply stream_answers|]. intros _.
  apply tells_on_daemon; [done|]. apply never_fails_modify.
Qed.

Lemma handleIPC_tells req : tells (answered (may_leave req)) (handleIPC env req).
Proof.
  unfold handleIPC, serve_pair_confirm, serve_ping, serve_unqueue. destruct req as [req|e]; [|auto with tells]. cbv zeta. unfold may_leave.
  destruct (String.eqb_spec (rq_Cmd req) CmdStatus); [apply status_answers|].
  destruct (String.eqb_spec (rq_Cmd req) CmdPairShow); [apply pair_show_answers; auto|].
  destruct (rq_Cmd req =?s CmdPairAdd); [auto with tells|].
  destruct (rq_Cmd req =?s CmdDevices); [auto with tells|].
  destruct (rq_Cmd req =?s CmdRevoke).
  { apply tells_or_fail. intros [k [e|]]; [|case_match]; auto with tells. }
  destruct (rq_Cmd req =?s CmdRename); [auto with tells|].
  destruct (rq_Cmd req =?s CmdSendFiles); [apply send_files_answers|].
  destruct (rq_Cmd req =?s CmdSendClip); [apply send_clip_answers|].
  destruct (rq_Cmd req =?s CmdNearby); [auto with tells|].
  destruct (rq_Cmd req =?s CmdPairWith); [apply pair_with_answers|].
  destruct (rq_Cmd req =?s CmdPairPending); [auto with tells|].
  destruct (rq_Cmd req =?s CmdPairConfirm); [auto with tells|].
  destruct (rq_Cmd req =?s CmdPing); [auto with tells|].
  destruct (rq_Cmd req =?s CmdQueue).
  { apply tells_answer; [apply tells_on_daemon; [done|]|auto with tells]. unfold Queue. auto with calm. }
  destruct (rq_Cmd req =?s CmdUnqueue); [auto with tells|].
  destruct (String.eqb_spec (rq_Cmd req) CmdSubscribe); [apply streamEvents_answers; auto|].
  auto with tells.
Qed.
End arms.

(** C32: whatever a client asks, when the handler is through it has sent any
    number of partial responses and then exactly one that ends the command,
    the last; every error of the daemon has become the text of that response
    and none escapes. Only a client that left while it waited for a pairing
    or for events misses the end. *)
Theorem handleIPC_answers `{Reticulum} env req s r s' :
  never_fails (ie_meanwhile env) → handleIPC env req s = (r, s') → finished r = true →
  r = Ok () ∧ ∃ news, sv_out s' = sv_out s ++ news ∧ answered (may_leave env req) news.
Proof.
  intros Hm E%(handleIPC_tells env Hm) Hr. destruct r as [[]| | | |]; try done.
Qed.

(** What each command that only asks does to the daemon. *)
Definition is_query (req : Request + error) : bool :=
  match req with
  | inr _ => true
  | inl req => existsb (String.eqb (rq_Cmd req))
                 [CmdStatus; CmdDevices; CmdNearby; CmdPairPending]
  end.

Definition sv_only_addr (s s' : served) : Prop := only_addr (sv_d s) (sv_d s').
#[export] Instance sv_only_addr_preorder : PreOrder sv_only_addr.
Proof.
  split; [intros s; unfold sv_only_addr; reflexivity|].
  intros s1 s2 s3. unfold sv_only_addr. apply transitivity.
Qed.
Lemma send_keeps r : keeps sv_only_addr (send r).
Proof. apply keeps_modify. intros s. unfold sv_only_addr. reflexivity. Qed.

(** Asking changes nothing: the status, the devices, the nearby list and
    the pending pairings are answered, and a request that does not parse is
    refused, with the daemon as it was, its detected LAN address aside. *)
Theorem queries_change_nothing `{Reticulum} env req s r s' :
  is_query req = true → handleIPC env req s = (r, s') → only_addr (sv_d s) (sv_d s').
Proof.
  intros Hq. cut (keeps sv_only_addr (handleIPC env req)); [intros Hk; apply Hk|].
  unfold handleIPC, serve_pair_confirm, serve_ping, serve_unqueue. destruct req as [req|e]; [|apply send_keeps]. cbv zeta.
  assert (∀ (f : served → Daemon) (k : Daemon → Response), keeps sv_only_addr (d <- gets f ;; send (k d))) as Hg.
  { intros f k. apply keeps_bind; [apply _|auto with keeps|]. intros d. apply send_keeps. }
  destruct (String.eqb_spec (rq_Cmd req) CmdStatus) as [|H0].
  { unfold serve_status. apply keeps_bind; [apply _|auto with keeps|]. intros d0.
    apply keeps_bind; [apply _| |].
    - apply (keeps_zoom sv_only_addr only_addr); [apply advertiseAddr_keeps|]. by intros s0 d.
    - intros addr. apply keeps_bind; [apply _|auto with keeps|]. intros d. case_match. apply send_keeps. }
  cbn [is_query existsb] in Hq.
  destruct (String.eqb_spec (rq_Cmd req) CmdPairShow) as [Ec|]; [by rewrite Ec in Hq|].
  destruct (String.eqb_spec (rq_Cmd req) CmdPairAdd) as [Ec|]; [by rewrite Ec in Hq|].
  destruct (String.eqb_spec (rq_Cmd req) CmdDevices); [apply Hg|].
  destruct (String.eqb_spec (rq_Cmd req) CmdRevoke) as [Ec|]; [by rewrite Ec in Hq|].
  destruct (String.eqb_spec (rq_Cmd req) CmdRename) as [Ec|]; [by rewrite Ec in Hq|].
  destruct (String.eqb_spec (rq_Cmd req) CmdSendFiles) as [Ec|]; [by rewrite Ec in Hq|].
  destruct (String.eqb_spec (rq_Cmd req) CmdSendClip) as [Ec|]; [by rewrite Ec in Hq|].
  destruct (String.eqb_spec (rq_Cmd req) CmdNearby); [apply Hg|].
  destruct (String.eqb_spec (rq_Cmd req) CmdPairWith) as [Ec|]; [by rewrite Ec in Hq|].
  destruct (String.eqb_spec (rq_Cmd req) CmdPairPending); [apply Hg|].
  apply String.eqb_neq in H0. by rewrite H0 in Hq.
Qed.

(** A client that waits for events until the daemon stops. *)
Definition demo_request_of (cmd : string) : Request := mkRequest cmd "" "" "" [] "" "" "" false.
Definition demo_others (d : Daemon) : Daemon := (daemon_broadcast (event "recv-start" "phone") d).2.
Definition demo_ipc : ipc_env :=
  mkIpcEnv (demo_network 0 "" []) (λ _, "id") "/" (λ _, inl demo_code) (λ _, inl []) None None None Canceled []
    (ret ()) demo_others [] WaitCtx [StreamEvent; StreamEvent; StreamCtx].
Definition demo_served : served := mkServed (demo_daemon [demo_phone]) [].

Lemma handleIPC_answers_witness :
  let run := @handleIPC toy_reticulum demo_ipc (inl (demo_request_of CmdSubscribe)) demo_served in
  map rs_Done (sv_out run.2) = [false; false; true] ∧
  (run.1 = Ok () ∧ ∃ news, sv_out run.2 = [] ++ news ∧
    answered (may_leave demo_ipc (inl (demo_request_of CmdSubscribe))) news).
Proof.
  cbv zeta. split; [by vm_compute|].
  apply (@handleIPC_answers toy_reticulum demo_ipc (inl (demo_request_of CmdSubscribe)) demo_served).
  - apply never_fails_ret.
  - apply surjective_pairing.
  - by vm_compute.
Defined.

Lemma queries_change_nothing_witness :
  let run := @handleIPC toy_reticulum demo_ipc (inl (demo_request_of CmdDevices)) demo_served in
  map (map di_Name) (map rs_Devices (sv_out run.2)) = [["phone"]] ∧ only_addr (sv_d demo_served) (sv_d run.2).
Proof.
  cbv zeta. split; [by vm_compute|].
  eapply (@queries_change_nothing toy_reticulum demo_ipc (inl (demo_request_of CmdDevices)) demo_served).
  - reflexivity.
  - apply surjective_pairing.
Defined.
