(* ===== verification/Mdns.v ===== *)
(** * internal/mdns: discovery on the local network

    The two builds of the package: the text avahi-browse prints, and the
    entries of the zeroconf library. Both end in the callbacks of
    daemon.go's startMDNS. *)

From S2P Require Import Prelude GoStrings Go GoNet Json Fs Proto Ipc Paths Receive Config Rns World.
From Stdlib Require Import ZArith Lia String Ascii List Bool.
From stdpp Require Import base list strings gmap option numbers.

#[local] Open Scope string_scope.
#[local] Open Scope list_scope.
#[local] Open Scope Z_scope.

(** ** mdns.go: avahi-browse *)

Definition quotes : string := String dq "'".
Fixpoint first_fp (parts : list string) : string :=
  match parts with
  | [] => ""
  | part :: parts =>
      match cut_prefix (trim_cut part quotes) "fp=" with
      | Some fp => fp
      | None => first_fp parts
      end
  end.
Definition extractFP (txt : string) : string := first_fp (fields txt).

Definition parseBrowseLine (line : string) : option (string * string * string) :=
  if negb (has_prefix line "=") then None
  else
    match splitn_on 10 ";" line with
    | [_; _; _; recName; _; _; _; address; portStr; txtField] =>
        if (recName =?s "") || (address =?s "") || (portStr =?s "") then None
        else
          port ← parse_int portStr;
          let fp := extractFP txtField in
          if fp =?s "" then None else Some (recName, address +:+ ":" +:+ itoa port, fp)
    | _ => None
    end.

Definition parseRemoveLine (line : string) : option string :=
  match split_on ";" line with
  | ev :: _ :: _ :: name :: _ :: _ :: _ =>
      if negb (ev =?s "-") || (name =?s "") then None else Some name
  | _ => None
  end.

(** What a callback is told. *)
Inductive mdns_event := Found (name addr fp : string) | Gone (name : string).
#[export] Instance mdns_event_eq_dec : EqDecision mdns_event.
Proof. solve_decision. Defined.

Definition line_event (line : string) : option mdns_event :=
  match parseBrowseLine line with
  | Some (name, addr, fp) => Some (Found name addr fp)
  | None => Gone <$> parseRemoveLine line
  end.

(** [bufio.Scanner] over lines: a carriage return before the newline goes too,
    and a line that does not fit 64 KiB ends the scan. *)
Definition MaxScanTokenSize : Z := 64 * 1024.
Definition drop_cr (l : bytes) : bytes :=
  match rev l with a :: r => if Ascii.eqb a "013" then rev r else l | [] => l end.
Fixpoint scan_lines (fuel : nat) (b : bytes) : list string :=
  match fuel with
  | O => []
  | S fuel =>
      match index_byte lf b with
      | Some i =>
          if Z.of_nat i <? MaxScanTokenSize then str (drop_cr (take i b)) :: scan_lines fuel (drop (S i) b) else []
      | None =>
          if bool_decide (b = []) || (MaxScanTokenSize <=? Z.of_nat (length b)) then [] else [str (drop_cr b)]
      end
  end.
(** runBrowse on what the process prints until it ends. *)
Definition runBrowse (stdout : bytes) : list mdns_event :=
  omap line_event (scan_lines (S (length stdout)) stdout).
(** ResolveOnce has no callback for removals. *)
Definition ResolveOnce (stdout : bytes) : list (string * string * string) :=
  omap (λ e, match e with Found n a f => Some (n, a, f) | Gone _ => None end) (runBrowse stdout).

(** ** mdns_zeroconf.go *)

Record zc_entry := mkZcEntry {
  zc_Instance : string; zc_TTL : Z; zc_Text : list string; zc_AddrIPv4 : list string; zc_Port : Z }.
(** The last [fp=] of the text records. *)
Definition text_fp (text : list string) : string :=
  fold_left (λ fp t, match cut_prefix t "fp=" with Some v => v | None => fp end) text "".
Definition zc_event (e : zc_entry) : option mdns_event :=
  if zc_TTL e =? 0 then Some (Gone (zc_Instance e))
  else
    match text_fp (zc_Text e), zc_AddrIPv4 e with
    | "", _ | _, [] => None
    | fp, a :: _ => Some (Found (zc_Instance e) (JoinHostPort a (itoa (zc_Port e))) fp)
    end.
Definition zc_browse (entries : list zc_entry) : list mdns_event := omap zc_event entries.

(** ** The daemon's callbacks *)

Definition on_mdns (e : mdns_event) : M Daemon unit :=
  match e with
  | Found name addr fp => mdns_record name addr fp
  | Gone name => RemoveNearby name
  end.
Fixpoint startMDNS (events : list mdns_event) : M Daemon unit :=
  match events with
  | [] => ret ()
  | e :: l => on_mdns e ;;; startMDNS l
  end.

(** ** The loops around the browsers

    A round is one run of the external program, or one window of the library:
    what it reported, whether the context was over when it ended, and whether
    it ended during the pause that follows. Without another round the loop is
    still waiting for the running one. *)
Record round (A : Type) := mkRound { rd_out : A; rd_failed : bool; rd_stop : bool; rd_stop_wait : bool }.
Arguments mkRound {A}.
Arguments rd_out {A}.
Arguments rd_failed {A}.
Arguments rd_stop {A}.
Arguments rd_stop_wait {A}.

Definition still_running {S} : M S unit := λ s, (Block, s).

(** mdns.go: avahi-browse exits only by accident, so every exit is followed by
    the pause. *)
Fixpoint browse_rounds (rounds : list (round bytes)) : M Daemon unit :=
  match rounds with
  | [] => still_running
  | r :: rounds =>
      startMDNS (runBrowse (rd_out r)) ;;;
      (if rd_stop r || rd_stop_wait r then ret () else browse_rounds rounds)
  end.
Definition Browse (found : bool) (rounds : list (round bytes)) : M Daemon unit :=
  if negb found then ret () else browse_rounds rounds.

(** mdns_zeroconf.go: a new window every minute; the pause only after an
    error. *)
Fixpoint zc_Browse (rounds : list (round (list zc_entry))) : M Daemon unit :=
  match rounds with
  | [] => still_running
  | r :: rounds =>
      startMDNS (zc_browse (rd_out r)) ;;;
      (if rd_stop r || (rd_failed r && rd_stop_wait r) then ret () else zc_Browse rounds)
  end.
(** Its ResolveOnce: one short window, removals left out. *)
Definition zc_ResolveOnce (entries : list zc_entry) : list (string * string * string) :=
  omap (λ e, match e with Found n a f => Some (n, a, f) | Gone _ => None end) (zc_browse entries).

(** Advertise of mdns.go: the commands that are run, newest last. *)
Definition publish_command (name : string) (port : Z) (fingerprint : string) : list string :=
  ["avahi-publish-service"; name; "_adrop._tcp"; itoa port; "fp=" +:+ fingerprint].
Fixpoint publish_rounds (cmd : list string) (rounds : list (round unit)) : M (list (list string)) unit :=
  match rounds with
  | [] => modify (λ l, l ++ [cmd]) ;;; still_running
  | r :: rounds =>
      modify (λ l, l ++ [cmd]) ;;;
      (if rd_failed r && (rd_stop r || rd_stop_wait r) then ret ()
       else if rd_stop r then ret ()
       else publish_rounds cmd rounds)
  end.
Definition Advertise (found : bool) (name : string) (port : Z) (fingerprint : string) (rounds : list (round unit))
  : M (list (list string)) unit :=
  if negb found then ret () else publish_rounds (publish_command name port fingerprint) rounds.
(** Advertise of mdns_zeroconf.go: what is registered until the context ends. *)
Record zc_service := mkZcService { zs_name : string; zs_service : string; zs_domain : string; zs_port : Z; zs_text : list string }.
Definition zc_Advertise (register : zc_service → option error) (name : string) (port : Z) (fingerprint : string)
  : M (list zc_service) unit :=
  let srv := mkZcService name "_adrop._tcp" "local." port ["fp=" +:+ fingerprint] in
  match register srv with
  | Some e => throw (Wrapf "mdns: register" e)
  | None => modify (λ l, l ++ [srv])
  end.

Example parse_examples :
  parseBrowseLine ("=;eth0;IPv4;thinkpad;_adrop._tcp;local;thinkpad.local;192.168.1.5;53127;" +:+
                   String dq "fp=abc123" +:+ String dq "") = Some ("thinkpad", "192.168.1.5:53127", "abc123") ∧
  parseBrowseLine "+;eth0;IPv4;thinkpad;_adrop._tcp;local" = None ∧
  parseRemoveLine "-;wlan0;IPv4;pixel;_adrop._tcp;local" = Some "pixel" ∧
  runBrowse (bs "-;w;IPv4;pixel;t;local" ++ [lf] ++ bs "junk" ++ [lf]) = [Gone "pixel"].
Proof. by vm_compute. Qed.

(** Over IPv6 the address is joined to the port without brackets, so that the
    stored text cannot be split into host and port again. *)
Example ipv6_address_breaks :
  match parseBrowseLine "=;eth0;IPv6;thinkpad;_adrop._tcp;local;thinkpad.local;fe80::1;53127;fp=abc" with
  | Some (_, addr, _) => addr = "fe80::1:53127" ∧ SplitHostPort addr = inr (addr_error addr "too many colons in address")
  | None => False
  end.
Proof. by vm_compute. Qed.

(** ** What discovery can change *)

Definition same_device (d d' : Device) : Prop := set_dev_Addr "" d = set_dev_Addr "" d'.
(** The devices are the same but for addresses; the last peer and the
    identity stay. *)
Definition same_trust (st st' : Store) : Prop :=
  map (set_dev_Addr "") (s_devices st) = map (set_dev_Addr "") (s_devices st') ∧
  s_lastPeer st = s_lastPeer st' ∧ s_certDER st = s_certDER st' ∧ s_dir st = s_dir st'.
Definition only_discovery (d d' : Daemon) : Prop :=
  same_trust (d_store d) (d_store d') ∧
  d' = with_nearby (d_nearby d') (with_cs (d_cs d') d).
#[export] Instance only_discovery_preorder : PreOrder only_discovery.
Proof.
  split.
  - intros d. split; [done|]. by destruct d.
  - intros d1 d2 d3 [(H1 & H2 & H3 & H4) E1] [(H5 & H6 & H7 & H8) E2]. split.
    + unfold same_trust. split_and!; congruence.
    + by rewrite E2, E1.
Qed.

#[local] Hint Extern 1 (PreOrder _) => apply _ : keeps.

Lemma update_first_addr fp a l :
  map (set_dev_Addr "") (update_first fp (set_dev_Addr a) l) = map (set_dev_Addr "") l.
Proof. induction l as [|d l IH]; [done|]. cbn. case_match; cbn; [done|]. by rewrite IH. Qed.
Lemma UpdateAddr_same fp a s r s' : UpdateAddr fp a s = (r, s') → same_trust (cs_store s) (cs_store s').
Proof.
  intros E. apply UpdateAddr_store in E. rewrite E. unfold same_trust. cbn.
  split_and!; try done. symmetry. apply update_first_addr.
Qed.

Lemma mdns_record_keeps name addr fp : keeps only_discovery (mdns_record name addr fp).
Proof.
  assert (keeps only_discovery (add_nearby name addr fp)) as Ha.
  { apply keeps_modify. intros d. split; [done|]. by destruct d. }
  unfold mdns_record, asks. apply keeps_bind; [apply _|auto with keeps|]. intros own.
  case_match; [auto with keeps|]. apply keeps_bind; [apply _|exact Ha|]. intros _.
  apply keeps_bind; [apply _|auto with keeps|]. intros st. case_match; [|auto with keeps].
  apply keeps_ignore. intros d r d' (c & E & ->)%zoom_inv. apply UpdateAddr_same in E. split; [exact E|].
  by destruct d.
Qed.

Lemma startMDNS_keeps events : keeps only_discovery (startMDNS events).
Proof.
  induction events as [|e events IH]; cbn [startMDNS]; [auto with keeps|].
  apply keeps_bind; [apply _| |auto]. destruct e; cbn [on_mdns]; [apply mdns_record_keeps|].
  apply keeps_modify. intros d0. split; [done|]. by destruct d0.
Qed.
Lemma startMDNS_Ok events d : ∃ d', startMDNS events d = (Ok (), d').
Proof.
  assert (∀ e d, ∃ d', on_mdns e d = (Ok (), d')) as He.
  { intros [n a f|n] d0; cbn [on_mdns]; [|by eexists]. unfold mdns_record, asks, bind, gets. case_match; [by eexists|].
    unfold add_nearby, modify. case_match; [|by eexists].
    apply (ignore_returns (λ _, True)); [|done]. eapply runs_zoom; [apply UpdateAddr_runs|done|done]. }
  revert d. induction events as [|e events IH]; intros d; cbn [startMDNS]; [by eexists|].
  unfold bind. destruct (He e d) as [d1 ->]. apply IH.
Qed.

(** A loop that only reports and goes on or ends. *)
Definition harmless {A} (r : res A) (d d' : Daemon) : Prop := (r = Block ∨ ∃ a, r = Ok a) ∧ only_discovery d d'.
Lemma reporting_loop {A} (report : A → list mdns_event) (ends : round A → bool) loop :
  loop [] = still_running →
  (∀ r rounds, loop (r :: rounds) = (startMDNS (report (rd_out r)) ;;; (if ends r then ret () else loop rounds))) →
  ∀ rounds d, harmless (loop rounds d).1 d (loop rounds d).2.
Proof.
  intros Hn Hc. induction rounds as [|r rounds IH]; intros d.
  - rewrite Hn. split; [by left|done].
  - rewrite Hc. destruct (startMDNS_Ok (report (rd_out r)) d) as [d1 E]. unfold bind. rewrite E.
    apply startMDNS_keeps in E. destruct (ends r); [split; [right; by eexists|done]|].
    destruct (IH d1) as [Hr Hd]. split; [done|by etransitivity].
Qed.


(** What is reported does move addresses. *)
Example discovery_moves_address :
  let d := demo_daemon [demo_phone] in
  let line := "=;w;IPv4;phone;_adrop._tcp;local;phone.local;10.0.0.7;53127;fp=" +:+ dev_Fingerprint demo_phone in
  map dev_Addr (s_devices (d_store (Browse true [mkRound (bs line) true true false] d).2)) = ["10.0.0.7:53127"].
Proof. by vm_compute. Qed.

(** Advertising goes on with the same command until the context ends. *)
Lemma Advertise_publishes name port fp rounds log :
  let '(r, log') := Advertise true name port fp rounds log in
  (r = Block ∨ r = Ok ()) ∧ ∃ n, log' = log ++ repeat (publish_command name port fp) (S n) ∧ (n ≤ length rounds)%nat.
Proof.
  unfold Advertise. cbn [negb]. generalize (publish_command name port fp) as cmd. intros cmd. revert log.
  induction rounds as [|r rounds IH]; intros log; cbn [publish_rounds].
  { cbn. split; [by left|]. by exists 0%nat. }
  unfold bind, modify. cbn [fst snd]. assert (∃ n, log ++ [cmd] = log ++ repeat cmd (S n) ∧ (n ≤ length (r :: rounds))%nat) as Hone.
  { exists 0%nat. split; [done|cbn; lia]. }
  destruct (rd_failed r && (rd_stop r || rd_stop_wait r)); [by split; [right|]|].
  destruct (rd_stop r); [by split; [right|]|].
  specialize (IH (log ++ [cmd])). destruct (publish_rounds cmd rounds (log ++ [cmd])) as [res log'].
  destruct IH as [Hr (n & -> & Hn)]. split; [done|]. exists (S n). split; [by rewrite <-app_assoc|cbn; lia].
Qed.
