(* ===== verification/Relay.v ===== *)
(** * internal/fcm, cmd/adrop-relay: waking a phone

    The relay turns the daemon's wake request into one push. PKCS #8 parsing,
    RSA signatures and HTTP are parameters; what is sent and when the access
    token is renewed is the code's. *)

From S2P Require Import Prelude GoStrings Go Json JsonRec Base64 Sha256 GoTime Dial.
From Stdlib Require Import ZArith Lia String Ascii List Bool.
From stdpp Require Import base list strings gmap option numbers.

#[local] Open Scope string_scope.
#[local] Open Scope list_scope.
#[local] Open Scope Z_scope.

(** ** fcm.go *)

Definition fcmSendURL (project : string) : string :=
  "https://fcm.googleapis.com/v1/projects/" +:+ project +:+ "/messages:send".
Definition tokenURL : string := "https://oauth2.googleapis.com/token".
Definition fcmScope : string := "https://www.googleapis.com/auth/firebase.messaging".

Record ServiceAccount := mkServiceAccount { sa_ProjectID : string; sa_ClientEmail : string; sa_PrivateKey : string }.
Definition zero_sa : ServiceAccount := mkServiceAccount "" "" "".
Definition sa_fields : list (string * field ServiceAccount) :=
  [("project_id", str_field (λ x s, mkServiceAccount x (sa_ClientEmail s) (sa_PrivateKey s)));
   ("client_email", str_field (λ x s, mkServiceAccount (sa_ProjectID s) x (sa_PrivateKey s)));
   ("private_key", str_field (λ x s, mkServiceAccount (sa_ProjectID s) (sa_ClientEmail s) x))].

Record http_request := mkHttp { hr_url : string; hr_bearer : option string; hr_type : string; hr_body : bytes }.

(** What the process has: the clock and every request it made. *)
Record fcm_world := mkFcm { f_token : string; f_expires : Z; f_now : Z; f_requests : list http_request }.

Definition unmarshal {A} (fs : list (string * field A)) (zero : A) (raw : bytes) : option A :=
  v ← parse raw; decode_object fs zero v.
(** [json.NewDecoder(r).Decode]: the first value of the stream. *)
Definition decode_first {A} (fs : list (string * field A)) (zero : A) (raw : bytes) : option A :=
  '(v, _) ← parse_val (S (length raw)) raw; decode_object fs zero v.

Definition b64url (b : bytes) : string := RawURL_encode b.
Definition mustJSON (v : json) : bytes := print v.
Definition str_member (k v : string) : string * json := (k, JStr v).

Section fcm.
Context {rsa_key : Type}.
(** x509.ParsePKCS8PrivateKey, with [None] for a key that is not RSA, and
    rsa.SignPKCS1v15 of a SHA-256 digest. *)
Context (parse_pkcs8 : bytes → option rsa_key + error) (sign : rsa_key → bytes → bytes + error).
(** The HTTP client: status and body, or an error; and how long it takes. *)
Context (http_do : Z → http_request → (Z * bytes) + error) (took : Z → Z).

Record Client := mkClient { cl_sa : ServiceAccount; cl_key : rsa_key }.

Definition parseRSAKey (pemStr : string) : rsa_key + error :=
  match pem_decode (bs pemStr) with
  | None => inr (Errorf "no PEM block found")
  | Some (_, der, _) =>
      match parse_pkcs8 der with
      | inr e => inr e
      | inl None => inr (Errorf "not an RSA key")
      | inl (Some k) => inl k
      end
  end.

Definition NewClientFromJSON (raw : bytes) : Client + error :=
  match unmarshal sa_fields zero_sa raw with
  | None => inr (Wrapf "fcm: parse service account" Config.json_error)
  | Some sa =>
      if (sa_ProjectID sa =?s "") || (sa_ClientEmail sa =?s "") || (sa_PrivateKey sa =?s "") then
        inr (Errorf "fcm: service account missing required fields")
      else
        match parseRSAKey (sa_PrivateKey sa) with
        | inr e => inr (Wrapf "fcm: parse private key" e)
        | inl k => inl (mkClient sa k)
        end
  end.

Definition do_http (req : http_request) : M fcm_world ((Z * bytes) + error) := λ w,
  (Ok (http_do (f_now w) req),
   mkFcm (f_token w) (f_expires w) (f_now w + Z.max 0 (took (f_now w))) (f_requests w ++ [req])).

(** Maps are written with their keys sorted. *)
Definition jwt_header : json := JObj [str_member "alg" "RS256"; str_member "typ" "JWT"].
Definition jwt_claims (email : string) (now : Z) : json :=
  JObj [str_member "aud" tokenURL; ("exp", JInt (now + 3600)); ("iat", JInt now);
        str_member "iss" email; str_member "scope" fcmScope].
Definition signedJWT (c : Client) : M fcm_world string :=
  now <- gets (λ w, f_now w / nsec) ;;
  let sigInput := b64url (mustJSON jwt_header) +:+ "." +:+ b64url (mustJSON (jwt_claims (sa_ClientEmail (cl_sa c)) now)) in
  match sign (cl_key c) (sha256 (bs sigInput)) with
  | inr e => throw (Wrapf "fcm: sign JWT" e)
  | inl sig => ret (sigInput +:+ "." +:+ b64url sig)
  end.

Record token_reply := mkTokenReply { tr_AccessToken : string; tr_ExpiresIn : Z }.
Definition token_fields : list (string * field token_reply) :=
  [("access_token", str_field (λ x r, mkTokenReply x (tr_ExpiresIn r)));
   ("expires_in", int_field (λ x r, mkTokenReply (tr_AccessToken r) x))].
Definition grant : string := "grant_type=urn%3Aietf%3Aparams%3Aoauth%3Agrant-type%3Ajwt-bearer&assertion=".

(** A cached token serves until 30 s before it expires. *)
Definition token_fresh (w : fcm_world) : bool := f_now w <? f_expires w - 30 * nsec.
Definition accessToken (c : Client) : M fcm_world string :=
  w <- get_state ;;
  if token_fresh w then ret (f_token w)
  else
    jwt <- signedJWT c ;;
    r <- do_http (mkHttp tokenURL None "application/x-www-form-urlencoded" (bs (grant +:+ jwt))) ;;
    match r with
    | inr e => throw (Wrapf "fcm: token fetch" e)
    | inl (status, body) =>
        if negb (status =? 200) then
          throw (Errorf ("fcm: token fetch: status " +:+ itoa status +:+ ": " +:+ str body))
        else
          match decode_first token_fields (mkTokenReply "" 0) body with
          | None => throw (Wrapf "fcm: token decode" Config.json_error)
          | Some tok =>
              modify (λ w, mkFcm (tr_AccessToken tok) (f_now w + int64 (tr_ExpiresIn tok * nsec)) (f_now w) (f_requests w)) ;;;
              ret (tr_AccessToken tok)
          end
    end.

(** The request body; [data] is given with its keys sorted. *)
Definition fcm_body (token : string) (data : list (string * string)) : json :=
  JObj [("message", JObj [str_member "token" token;
                          ("data", JObj (map (λ kv, str_member kv.1 kv.2) data));
                          ("android", JObj [str_member "priority" "high"])])].
Definition fcm_Send (c : Client) (registrationToken : string) (data : list (string * string)) : M fcm_world unit :=
  token <- accessToken c ;;
  r <- do_http (mkHttp (fcmSendURL (sa_ProjectID (cl_sa c))) (Some token) "application/json"
                  (print (fcm_body registrationToken data))) ;;
  match r with
  | inr e => throw (Wrapf "fcm: send" e)
  | inl (status, body) =>
      if status =? 200 then ret ()
      else throw (Errorf ("fcm: send: status " +:+ itoa status +:+ ": " +:+ str body))
  end.

(** ** adrop-relay *)

Record wakeRequest := mkWake { wk_Fingerprint : string; wk_Sender : string; wk_FCMToken : string }.
Definition wake_fields : list (string * field wakeRequest) :=
  [("fingerprint", str_field (λ x w, mkWake x (wk_Sender w) (wk_FCMToken w)));
   ("sender", str_field (λ x w, mkWake (wk_Fingerprint w) x (wk_FCMToken w)));
   ("fcm_token", str_field (λ x w, mkWake (wk_Fingerprint w) (wk_Sender w) x))].

Definition wake_data (sender fingerprint : string) : list (string * string) :=
  [("fingerprint", fingerprint); ("sender", sender); ("type", "wake")].

(** [http.Error]: the text and a newline. *)
Definition http_error (status : Z) (text : string) : Z * bytes := (status, bs text ++ [lf]).
Definition handleWake (c : Client) (method : string) (raw : bytes) : M fcm_world (Z * bytes) :=
  if negb (method =?s "POST") then ret (http_error 405 "method not allowed")
  else
    match decode_first wake_fields (mkWake "" "" "") raw with
    | None => ret (http_error 400 ("bad request: " +:+ error_text Config.json_error))
    | Some body =>
        if wk_FCMToken body =?s "" then ret (http_error 400 "fcm_token is required")
        else
          r <- try (fcm_Send c (wk_FCMToken body) (wake_data (wk_Sender body) (wk_Fingerprint body))) ;;
          match r with
          | inr e => ret (http_error 502 ("fcm send failed: " +:+ error_text e))
          | inl _ => ret (200, [])
          end
    end.

(** One request, its path as the mux sees it: paths that are not clean are
    redirected by net/http before. *)
Record relay_request := mkRelayRequest { rq_Path : string; rq_Method : string; rq_Body : bytes }.
Definition mux_serve (c : Client) (r : relay_request) : M fcm_world (Z * bytes) :=
  if rq_Path r =?s "/wake" then handleWake c (rq_Method r) (rq_Body r)
  else ret (http_error 404 "404 page not found").
Fixpoint serve_requests (c : Client) (l : list relay_request) : M fcm_world (list (Z * bytes)) :=
  match l with
  | [] => ret []
  | r :: l' => a <- mux_serve c r ;; rest <- serve_requests c l' ;; ret (a :: rest)
  end.

(** The flags as flag.Parse leaves them. The status of the process and what it
    wrote to the standard error without the time stamp of package log, and the
    answers it gave before ListenAndServe returned its error. *)
Record relay_end := mkRelayEnd { re_Status : Z; re_Stderr : string; re_Answers : list (Z * bytes) }.
Definition log_Fatalf (what : string) (e : error) (answers : list (Z * bytes)) : M fcm_world relay_end :=
  ret (mkRelayEnd 1 (error_text (Wrapf what e)) answers).
Definition relay_main (keyFile : string) (ReadFile : string → bytes + error)
    (requests : list relay_request) (listen_error : error) : M fcm_world relay_end :=
  if keyFile =?s "" then ret (mkRelayEnd 1 "adrop-relay: -key is required" [])
  else
    match ReadFile keyFile with
    | inr e => log_Fatalf "read key file" e []
    | inl keyJSON =>
        match NewClientFromJSON keyJSON with
        | inr e => log_Fatalf "init FCM client" e []
        | inl client =>
            answers <- serve_requests client requests ;;
            log_Fatalf "listen" listen_error answers
        end
    end.

(** ** The daemon's request becomes the push *)

Lemma parse_decode_first {A} (fs : list (string * field A)) zero raw v :
  parse raw = Some v → decode_first fs zero raw = decode_object fs zero v.
Proof.
  unfold parse, decode_first. destruct (parse_val _ raw) as [[v' r]|]; [|done].
  case_match; [|done]. by intros [= ->].
Qed.
Lemma wake_decodes fp sender token :
  decode_first wake_fields (mkWake "" "" "") (print (wake_json fp sender token)) =
  Some (mkWake (to_valid fp) (to_valid sender) (to_valid token)).
Proof.
  erewrite parse_decode_first; [|apply parse_print; unfold wake_json; constructor; wire_wf].
  unfold wake_json, decode_object. cbn [norm]. fold norm_member. rewrite decode_members_nil, !map_app.
  do 3 (decode_step; cbn [wk_Fingerprint wk_Sender wk_FCMToken]). reflexivity.
Qed.

(** What a call adds to the requests made. *)
Lemma do_http_inv req w r w' :
  do_http req w = (r, w') →
  r = Ok (http_do (f_now w) req) ∧ f_requests w' = f_requests w ++ [req] ∧ f_now w ≤ f_now w' ∧
  f_token w' = f_token w ∧ f_expires w' = f_expires w.
Proof. unfold do_http. intros E. injection E as <- <-. cbn. split_and!; try done. lia. Qed.
Lemma signedJWT_state c w r w' : signedJWT c w = (r, w') → w' = w.
Proof.
  unfold signedJWT. rewrite bind_Ok with (a := f_now w / nsec) (s' := w) by done. cbv zeta.
  destruct (sign _ _); by intros [= <- <-].
Qed.
(** At most one request for a token, none while the cached one is fresh. *)
Lemma accessToken_requests c w r w' :
  accessToken c w = (r, w') →
  ∃ l, f_requests w' = f_requests w ++ l ∧ Forall (λ q, hr_url q = tokenURL) l ∧ (length l ≤ 1)%nat ∧
    (token_fresh w = true → l = [] ∧ r = Ok (f_token w)).
Proof.
  unfold accessToken. rewrite bind_Ok with (a := w) (s' := w) by done.
  destruct (token_fresh w) eqn:Hf.
  { intros [= <- <-]. exists []. rewrite app_nil_r. split_and!; [done|done|cbn; lia|done]. }
  assert (∀ q, f_requests w = f_requests q → ∃ l, f_requests q = f_requests w ++ l ∧
    Forall (λ q, hr_url q = tokenURL) l ∧ (length l ≤ 1)%nat ∧ (false = true → l = [] ∧ r = Ok (f_token w))) as Hnil.
  { intros q ->. exists []. rewrite app_nil_r. split_and!; [done|done|cbn; lia|done]. }
  intros [(jwt & w1 & E1%signedJWT_state & E)|(r0 & E%signedJWT_state & _)]%bind_inv; subst; [|by apply Hnil].
  set (req := mkHttp tokenURL _ _ _) in E.
  assert (∀ q, f_requests q = f_requests w ++ [req] → ∃ l, f_requests q = f_requests w ++ l ∧
    Forall (λ q, hr_url q = tokenURL) l ∧ (length l ≤ 1)%nat ∧ (false = true → l = [] ∧ r = Ok (f_token w))) as Hone.
  { intros q ->. exists [req]. split_and!; [done|by repeat constructor|cbn; lia|done]. }
  apply bind_inv in E as [(x & w2 & (_ & Hq & _)%do_http_inv & E)|(r0 & (_ & Hq & _)%do_http_inv & _)]; [|by apply Hone].
  apply Hone. destruct x as [[status body]|e]; [|by injection E as _ <-].
  destruct (negb _); [by injection E as _ <-|]. destruct (decode_first _ _ _); [|by injection E as _ <-].
  apply bind_inv in E as [(u & w3 & E1 & E2)|(r0 & E1 & _)]; injection E1 as _ <-; [|done]. by injection E2 as _ <-.
Qed.

(** The push for a wake request. *)
Definition push_request (c : Client) (tok fp sender token : string) : http_request :=
  mkHttp (fcmSendURL (sa_ProjectID (cl_sa c))) (Some tok) "application/json"
    (print (fcm_body (to_valid token) (wake_data (to_valid sender) (to_valid fp)))).
Record woken (c : Client) (fp sender token : string) (w : fcm_world) (status : Z) (w' : fcm_world) : Prop := {
  wn_status : status = 200 ∨ status = 502;
  wn_requests : ∃ pre push, f_requests w' = f_requests w ++ pre ++ push ∧
    Forall (λ q, hr_url q = tokenURL) pre ∧ (length pre ≤ 1)%nat ∧ (token_fresh w = true → pre = []) ∧
    ((push = [] ∧ status = 502) ∨
     ∃ tok t, push = [push_request c tok fp sender token] ∧ (token_fresh w = true → tok = f_token w) ∧
       f_now w ≤ t ∧ (status = 200 ↔ ∃ body, http_do t (push_request c tok fp sender token) = inl (200, body)));
}.

Lemma accessToken_finished c w r w' : accessToken c w = (r, w') → finished r = true ∧ f_now w ≤ f_now w'.
Proof.
  unfold accessToken. rewrite bind_Ok with (a := w) (s' := w) by done.
  destruct (token_fresh w); [intros [= <- <-]; split; [done|lia]|].
  assert (∀ r w', signedJWT c w = (r, w') → finished r = true) as Hj.
  { intros r1 w1. unfold signedJWT. rewrite bind_Ok with (a := f_now w / nsec) (s' := w) by done. cbv zeta.
    destruct (sign _ _); by intros [= <- <-]. }
  intros [(jwt & w1 & E1 & E)|(r0 & E & Hr & ->)]%bind_inv.
  2: { rewrite <-(signedJWT_state _ _ _ _ E). split; [|lia]. apply Hj in E. destruct r0; try done. by destruct (Hr a). }
  apply signedJWT_state in E1 as ->.
  apply bind_inv in E as [(x & w2 & (_ & _ & Ht & _)%do_http_inv & E)|(r0 & (-> & _)%do_http_inv & Hr & _)];
    [|by destruct (Hr _ eq_refl)].
  destruct x as [[status body]|e]; [|by injection E as <- <-].
  destruct (negb _); [by injection E as <- <-|]. destruct (decode_first _ _ _); [|by injection E as <- <-].
  apply bind_inv in E as [(u & w3 & E1 & E2)|(r0 & E1 & Hr & _)];
    [|injection E1 as <- _; by destruct (Hr () eq_refl)].
  injection E1 as _ <-. by injection E2 as <- <-.
Qed.

Lemma Send_woken c fp sender token w r w' :
  fcm_Send c (to_valid token) (wake_data (to_valid sender) (to_valid fp)) w = (r, w') →
  (r = Ok () ∧ woken c fp sender token w 200 w') ∨ (∃ e, r = Err e ∧ woken c fp sender token w 502 w').
Proof.
  unfold fcm_Send. intros E.
  apply bind_inv in E as [(tok & w1 & E1 & E2)|(r1 & E1 & Hr & ->)];
    pose proof (accessToken_finished _ _ _ _ E1) as [Hfin Ht];
    apply accessToken_requests in E1 as (pre & Hq & Hurl & Hlen & Hf).
  - apply bind_inv in E2 as [(x & w2 & E2 & E3)|(r1 & (-> & _)%do_http_inv & Hr & _)];
      [|by destruct (Hr _ eq_refl)].
    fold (push_request c tok fp sender token) in E2.
    apply do_http_inv in E2 as (Ex & Hq2 & _). injection Ex as Ex.
    assert (∀ status w3, f_requests w3 = f_requests w2 → (status = 200 ∨ status = 502) →
      (status = 200 ↔ ∃ body, x = inl (200, body)) → woken c fp sender token w status w3) as Hw.
    { intros status w3 H3 Hs Hx. split; [done|].
      exists pre, [push_request c tok fp sender token]. rewrite H3, Hq2, Hq, app_assoc.
      split_and!; [done|done|done|by intros [? _]%Hf|]. right. exists tok, (f_now w1). split; [done|].
      split; [|split; [done|by rewrite <-Ex]]. intros [_ Hfr]%Hf. by injection Hfr. }
    destruct x as [[status body]|e].
    + destruct (Z.eqb_spec status 200) as [->|Hs]; injection E3 as <- <-; [left|right; eexists]; split; try done;
        apply Hw; auto; split; eauto; try done. by intros [b [= ? _]].
    + injection E3 as <- <-. right. eexists. split; [done|]. apply Hw; auto. split; [done|]. by intros [b ?].
  - assert (∃ e, r1 = Err e) as [e ->] by (destruct r1; try done; [by destruct (Hr a)|by eexists]).
    right. eexists. split; [done|]. split; [by right|].
    exists pre, []. rewrite app_nil_r. split_and!; [done|done|done|by intros [? _]%Hf|]. by left.
Qed.

Lemma handleWake_woken c fp sender token w r w' :
  to_valid token ≠ "" →
  handleWake c "POST" (print (wake_json fp sender token)) w = (r, w') →
  ∃ status body, r = Ok (status, body) ∧ woken c fp sender token w status w'.
Proof.
  intros Hne. unfold handleWake. change (negb ("POST" =?s "POST")) with false. cbv iota.
  rewrite wake_decodes. cbn [wk_FCMToken wk_Sender wk_Fingerprint]. apply String.eqb_neq in Hne as ->.
  intros E. apply bind_inv in E as [(x & w1 & (r1 & E1%Send_woken & Hx)%try_inv & E)|(x & (r1 & E1%Send_woken & Hx)%try_inv & Hr & _)].
  - destruct E1 as [[-> Hw]|(e & -> & Hw)]; injection Hx as ->; injection E as <- <-; eauto.
  - destruct E1 as [[-> Hw]|(e & -> & Hw)]; subst x; by destruct (Hr _ eq_refl).
Qed.

(** *** The whole relay: never more pushes than wake requests *)

Definition is_push (q : http_request) : bool := negb (hr_url q =?s tokenURL).
Definition pushes (w : fcm_world) : nat := length (List.filter is_push (f_requests w)).
Definition asks_push (r : relay_request) : bool := (rq_Path r =?s "/wake") && (rq_Method r =?s "POST").

(** A call that adds at most [n] pushes and ends. *)
Definition pushes_at_most {A} (n : nat) (m : M fcm_world A) : Prop :=
  ∀ w r w', m w = (r, w') → finished r = true ∧ (pushes w' ≤ pushes w + n)%nat.

Lemma pushes_app w w' l :
  f_requests w' = f_requests w ++ l →
  pushes w' = (pushes w + length (List.filter is_push l))%nat.
Proof. intros E. unfold pushes. by rewrite E, List.filter_app, length_app. Qed.
Lemma no_pushes l : Forall (λ q, hr_url q = tokenURL) l → List.filter is_push l = [].
Proof.
  induction 1 as [|q l Hq _ IH]; [done|]. cbn [List.filter].
  assert (is_push q = false) as -> by (unfold is_push; by rewrite Hq, String.eqb_refl). done.
Qed.

Lemma pushes_ret {A} n (a : A) : pushes_at_most n (ret a).
Proof. intros w r w' E. injection E as <- <-. split; [done|lia]. Qed.
Lemma pushes_throw {A} n e : pushes_at_most n (@throw fcm_world A e).
Proof. intros w r w' E. injection E as <- <-. split; [done|lia]. Qed.
Lemma pushes_bind {A B} n k (m : M fcm_world A) (f : A → M fcm_world B) :
  pushes_at_most n m → (∀ a, pushes_at_most k (f a)) → pushes_at_most (n + k) (bind m f).
Proof.
  intros Hm Hf w r w' [(a & w1 & [_ H1]%Hm & [Hr H2]%Hf)|(r0 & [Hr H1]%Hm & Hno & ->)]%bind_inv;
    (split; [|lia]); [done|]. destruct r0; try done. by destruct (Hno a).
Qed.
Lemma pushes_try {A} n (m : M fcm_world A) : pushes_at_most n m → pushes_at_most n (try m).
Proof. intros Hm w r w' (r0 & [Hr H]%Hm & E)%try_inv. split; [|done]. by destruct r0; subst. Qed.

Lemma accessToken_pushes c : pushes_at_most 0 (accessToken c).
Proof.
  intros w r w' E. split; [by apply accessToken_finished in E as []|].
  apply accessToken_requests in E as (l & Hl & Hu & _). rewrite (pushes_app _ _ _ Hl), no_pushes by done. cbn. lia.
Qed.
Lemma do_http_pushes req : pushes_at_most 1 (do_http req).
Proof.
  intros w r w' (-> & Hl & _)%do_http_inv. split; [done|]. rewrite (pushes_app _ _ _ Hl).
  cbn [List.filter]. destruct (is_push req); cbn; lia.
Qed.
Lemma fcm_Send_pushes c token data : pushes_at_most 1 (fcm_Send c token data).
Proof.
  apply (pushes_bind 0 1); [apply accessToken_pushes|intros tok].
  apply (pushes_bind 1 0); [apply do_http_pushes|intros [[status body]|e]; [|apply pushes_throw]].
  case_match; [apply pushes_ret|apply pushes_throw].
Qed.
Lemma mux_serve_pushes c r : pushes_at_most (if asks_push r then 1 else 0) (mux_serve c r).
Proof.
  unfold mux_serve, asks_push, handleWake. destruct (rq_Path r =?s "/wake"); [|apply pushes_ret].
  destruct (rq_Method r =?s "POST"); [|apply pushes_ret]. cbn [andb negb].
  destruct (decode_first _ _ _) as [body|]; [|apply pushes_ret].
  destruct (wk_FCMToken body =?s ""); [apply pushes_ret|].
  apply (pushes_bind 1 0); [apply pushes_try, fcm_Send_pushes|intros []; apply pushes_ret].
Qed.
Lemma serve_requests_pushes c l : pushes_at_most (length (List.filter asks_push l)) (serve_requests c l).
Proof.
  induction l as [|r l IH]; [apply pushes_ret|]. cbn [serve_requests].
  intros w x w' E. eapply (pushes_bind (if asks_push r then 1 else 0) (length (List.filter asks_push l) + 0)) in E.
  - destruct E as [Hx Hp]. split; [done|]. cbn [List.filter].
    destruct (asks_push r); cbn [length]; lia.
  - apply mux_serve_pushes.
  - intros a. apply pushes_bind; [apply IH|]. intros rest. apply pushes_ret.
Qed.

(** Every request is answered. *)
Lemma mux_serve_Ok c q w r w' : mux_serve c q w = (r, w') → ∃ a, r = Ok a.
Proof.
  unfold mux_serve, handleWake. destruct (_ =?s _); [|intros [= <- _]; eauto].
  destruct (negb _); [intros [= <- _]; eauto|].
  destruct (decode_first _ _ _) as [body|]; [|intros [= <- _]; eauto].
  destruct (_ =?s _); [intros [= <- _]; eauto|].
  intros [(x & w1 & _ & E)|(r0 & (r1 & [Hf _]%fcm_Send_pushes & Er)%try_inv & Hno & _)]%bind_inv.
  - destruct x; injection E as <- _; eauto.
  - destruct r1; try done; subst r0; by destruct (Hno _ eq_refl).
Qed.
Lemma serve_requests_Ok c l w r w' : serve_requests c l w = (r, w') → ∃ a, r = Ok a ∧ length a = length l.
Proof.
  revert w r w'. induction l as [|q l IH]; intros w r w'; [intros [= <- _]; by exists []|]. cbn [serve_requests].
  intros [(a & w1 & _ & E)|(r0 & [a ->]%mux_serve_Ok & Hno & _)]%bind_inv; [|by destruct (Hno a)].
  apply bind_inv in E as [(rest & w2 & (rest' & [= <-] & Hl)%IH & E)|(r0 & (rest & -> & _)%IH & Hno & _)];
    [|by destruct (Hno rest)].
  injection E as <- _. exists (a :: rest). cbn [length]. auto.
Qed.

(** Whatever is posted to it, the relay sends no more messages than it was
    asked for over POST /wake, none without a key file that names a service
    account, and ends with status 1 only. *)
Lemma relay_main_pushes keyFile ReadFile requests e w r w' :
  relay_main keyFile ReadFile requests e w = (r, w') →
  (∃ o, r = Ok o ∧ re_Status o = 1) ∧
  (pushes w' ≤ pushes w + length (List.filter asks_push requests))%nat ∧
  ((∀ raw c, keyFile ≠ "" → ReadFile keyFile = inl raw → NewClientFromJSON raw ≠ inl c) → w' = w).
Proof.
  unfold relay_main, log_Fatalf. intros E.
  assert (∀ text, (ret (mkRelayEnd 1 text []) : M fcm_world relay_end) w = (r, w') →
    (∃ o, r = Ok o ∧ re_Status o = 1) ∧ w' = w) as Hret.
  { intros text Eo. injection Eo as <- <-. eauto. }
  destruct (String.eqb_spec keyFile ""); [apply Hret in E as [? ->]; split_and!; auto; lia|].
  destruct (ReadFile keyFile) as [raw|]; [|apply Hret in E as [? ->]; split_and!; auto; lia].
  destruct (NewClientFromJSON raw) as [c|] eqn:Hc; [|apply Hret in E as [? ->]; split_and!; auto; lia].
  assert (∀ P : Prop, (∀ raw' c, keyFile ≠ "" → (inl raw : bytes + error) = inl raw' → NewClientFromJSON raw' ≠ inl c) → P) as Hno.
  { intros P H. by destruct (H raw c). }
  apply bind_inv in E as [(a & w1 & [_ Hp]%serve_requests_pushes & E)|(r0 & (a & -> & _)%serve_requests_Ok & Hr & _)];
    [|by destruct (Hr a)].
  injection E as <- <-. split_and!; [by eexists|done|apply Hno].
Qed.
End fcm.

(** C35: what the daemon posts to wake a phone becomes the push. The relay
    answers 200 or 502; it sends at most one message, after at most one
    request for an access token and none while the cached token has more than
    30 s to live; the message carries the phone's token and the sender's name
    and fingerprint as posted, and 200 means exactly that FCM took it. *)
Theorem wake_becomes_push {rsa_key} (sign : rsa_key → bytes → bytes + error) http_do took c fp sender token w r w' :
  to_valid token ≠ "" →
  handleWake sign http_do took c "POST" (print (wake_json fp sender token)) w = (r, w') →
  ∃ status body, r = Ok (status, body) ∧ woken http_do c fp sender token w status w'.
Proof. apply handleWake_woken. Qed.

(** A relay that has to fetch a token first. *)
Definition demo_google (now : Z) (req : http_request) : (Z * bytes) + error :=
  if hr_url req =?s tokenURL then
    inl (200, print (JObj [str_member "access_token" "secret"; ("expires_in", JInt 3600)]))
  else inl (200, []).
Definition demo_client : @Client () := mkClient (mkServiceAccount "proj" "relay@proj" "key") ().
Lemma wake_becomes_push_witness :
  let run := handleWake (λ _ _, inl (bs "sig")) demo_google (λ _, 0) demo_client "POST"
               (print (wake_json "ab12" "laptop" "phone-token")) (mkFcm "" zeroTime 0 []) in
  map hr_bearer (f_requests run.2) = [None; Some "secret"] ∧
  ∃ status body, run.1 = Ok (status, body) ∧
    woken demo_google demo_client "ab12" "laptop" "phone-token" (mkFcm "" zeroTime 0 []) status run.2.
Proof.
  cbv zeta. split; [by vm_compute|].
  apply (wake_becomes_push (λ _ _, inl (bs "sig")) demo_google (λ _, 0) demo_client).
  - by vm_compute.
  - apply surjective_pairing.
Defined.
