(* ===== verification/Cli.v ===== *)
(** * cmd/adrop/client.go, main.go: the command line client

    A command sends one request to the daemon and shows what comes back. The
    state is the terminal; the daemon is what answers each request in turn. *)

From S2P Require Import Prelude GoStrings GoFmt Go Json Fs Ipc Send.
From Stdlib Require Import ZArith Lia String Ascii List Bool.
From stdpp Require Import base list strings gmap option numbers.

#[local] Open Scope string_scope.
#[local] Open Scope list_scope.
#[local] Open Scope Z_scope.

(** ** text/tabwriter, as [NewWriter(out, 0, 2, 2, ' ', 0)] lays text out

    A column is a run of lines that have a cell there followed by a tab; it is
    as wide as its widest cell and two spaces. *)
Definition tab : ascii := "009".
Definition rune_count (s : string) : nat := length (runes (bs s)).
Fixpoint spaces (n : nat) : string := match n with O => "" | S n => String " " (spaces n) end.
Fixpoint tab_line (widths : list nat) (cells : list string) : string :=
  match cells, widths with
  | [], _ => ""
  | c :: cells, w :: widths => c +:+ spaces (w - rune_count c) +:+ tab_line widths cells
  | c :: cells, [] => c +:+ tab_line [] cells
  end.
(** The leading lines with a cell in [column], and the rest. *)
Fixpoint take_block (column : nat) (lines : list (list string)) : list (list string) * list (list string) :=
  match lines with
  | l :: lines' =>
      if (column <? length l - 1)%nat
      then let '(a, b) := take_block column lines' in (l :: a, b) else ([], lines)
  | [] => ([], [])
  end.
Definition column_width (column : nat) (block : list (list string)) : nat :=
  max_list (map (λ l, match l !! column with Some c => rune_count c + 2 | None => 0 end)%nat block).
Fixpoint tab_format (fuel : nat) (widths : list nat) (lines : list (list string)) : list string :=
  match fuel with
  | O => []
  | S fuel =>
      match lines with
      | [] => []
      | l :: lines' =>
          let column := length widths in
          let '(block, rest) := take_block column lines in
          match block with
          | [] => tab_line widths l :: tab_format fuel widths lines'
          | _ => tab_format fuel (widths ++ [column_width column block]) block ++ tab_format fuel widths rest
          end
      end
  end.
Definition newline : string := String lf "".
(** Each call looks at one more line or one more column. *)
Definition tab_text (text : string) : string :=
  let lines := map (split_on tab) (split_on lf text) in
  join_with newline (tab_format (S (2 * (String.length text + length lines))) [] lines).

(** ** The terminal *)

Record term := mkTerm {
  t_out : string;       (* standard output *)
  t_err : string;       (* standard error *)
  t_inline : bool;      (* progressPrinter *)
  t_lastLen : Z;
  t_input : list string;   (* lines the user will type *)
  t_asked : list Request;  (* requests sent to the daemon *)
}.
Definition Print (s : string) : M term unit :=
  modify (λ t, mkTerm (t_out t +:+ s) (t_err t) (t_inline t) (t_lastLen t) (t_input t) (t_asked t)).
Definition Println (s : string) : M term unit := Print (s +:+ newline).
Definition Eprint (s : string) : M term unit :=
  modify (λ t, mkTerm (t_out t) (t_err t +:+ s) (t_inline t) (t_lastLen t) (t_input t) (t_asked t)).
Definition set_inline (b : bool) (n : Z) : M term unit :=
  modify (λ t, mkTerm (t_out t) (t_err t) b n (t_input t) (t_asked t)).
Definition asked (req : Request) : M term unit :=
  modify (λ t, mkTerm (t_out t) (t_err t) (t_inline t) (t_lastLen t) (t_input t) (t_asked t ++ [req])).
(** [ReadString('\n')]; nothing typed is the empty answer. *)
Definition read_line : M term string := λ t,
  match t_input t with
  | [] => (Ok "", t)
  | l :: ls => (Ok l, mkTerm (t_out t) (t_err t) (t_inline t) (t_lastLen t) ls (t_asked t))
  end.

Section cli.
(** The daemon's answer to the n-th request: the responses, and how the
    stream ends after them; or why it cannot be reached. *)
Context (daemon : nat → Request → (list Response * error) + error).
(** The disk, the working directory, whether stdout is a terminal. *)
Context (disk : fs) (cwd : string) (is_tty : bool).

(** ** roundtrip *)

Fixpoint on_responses (l : list Response) (eof : error) (onResp : Response → M term unit) : M term unit :=
  match l with
  | [] => throw (Wrapf "daemon closed connection" eof)
  | r :: l =>
      if negb (rs_Err r =?s "") then throw (Errorf (rs_Err r))
      else onResp r ;;; (if rs_Done r then ret () else on_responses l eof onResp)
  end.
Definition roundtrip (req : Request) (onResp : Response → M term unit) : M term unit :=
  n <- gets (λ t, length (t_asked t)) ;;
  match daemon n req with
  | inr e => throw e
  | inl (l, eof) => asked req ;;; on_responses l eof onResp
  end.

Definition request (cmd : string) : Request := mkRequest cmd "" "" "" [] "" "" "" false.
Definition request_to (cmd target : string) : Request := mkRequest cmd target "" "" [] "" "" "" false.

(** ** progressPrinter *)

Definition isProgressLine (line : string) : bool := has_suffix line "%".
Definition carriage_return : string := String "013" "".
Definition finish_line : M term unit :=
  t <- get_state ;;
  if t_inline t then Println "" ;;; set_inline false 0 else ret ().
Definition print_line (r : Response) : M term unit :=
  let line := rs_Line r in
  if line =?s "" then ret ()
  else if isProgressLine line && is_tty then
    t <- get_state ;;
    let len := Z.of_nat (String.length line) in
    Print (carriage_return +:+ line +:+ spaces (Z.to_nat (t_lastLen t - len))) ;;;
    set_inline true len
  else finish_line ;;; Println line.
Definition printLines (r : Response) : M term unit :=
  print_line r ;;; (if rs_Done r then finish_line else ret ()).

(** ** The commands *)

Definition runStatus : M term unit :=
  roundtrip (request CmdStatus) (λ r,
    match rs_Status r with
    | None => ret ()
    | Some s =>
        Println ("device:      " +:+ st_Name s) ;;;
        Println ("fingerprint: " +:+ st_Fingerprint s) ;;;
        Println ("listen addr: " +:+ st_ListenAddr s) ;;;
        Println ("devices:     " +:+ itoa (st_NumDevices s) +:+ " trusted") ;;;
        (if st_LastPeer s =?s "" then ret () else Println ("last peer:   " +:+ st_LastPeer s)) ;;;
        (if st_RNSAddr s =?s "" then ret ()
         else Println ("reticulum:   " +:+ st_RNSAddr s) ;;;
              Println ("hubs:        " +:+ join_with ", " (st_RNSHubs s)))
    end ;;;
    (if rs_Line r =?s "" then ret () else Println (rs_Line r))).

Definition row (cells : list string) : string := join_with (String tab "") cells +:+ newline.
Definition table_header : string := row ["NAME"; "FINGERPRINT"; "ADDR"; "PAIRED"].
Definition runDevices : M term unit :=
  roundtrip (request CmdDevices) (λ r,
    match rs_Devices r with
    | [] => Println "no trusted devices"
    | l => Print (tab_text (table_header +:+ String.concat "" (map (λ d,
             row [di_Name d; str (take 16 (bs (di_Fingerprint d))); di_Addr d; di_PairedAt d]) l)))
    end).
(** [%.16s]: at most sixteen runes. *)
Definition runes16 (s : string) : string :=
  str (concat (map rune_bytes (take 16 (runes (bs s))))).
Definition runNearby : M term unit :=
  roundtrip (request CmdNearby) (λ r,
    match rs_Nearby r with
    | [] => Println "no adrop devices seen on the LAN"
    | l => Print (tab_text (table_header +:+ String.concat "" (map (λ n,
             row [ni_Name n; runes16 (ni_Fingerprint n); ni_Addr n; if ni_Paired n then "yes" else ""]) l)))
    end).

Definition runRevoke (args : list string) : M term unit :=
  match args with
  | [] => throw (Errorf "usage: adrop revoke <name|fingerprint-prefix>")
  | target :: _ => roundtrip (request_to CmdRevoke target) printLines
  end.
Definition runPing (args : list string) : M term unit :=
  match args with
  | [] => throw (Errorf "usage: adrop ping <peer>")
  | target :: _ => roundtrip (request_to CmdPing target) printLines
  end.

Definition send_usage : error := Errorf "usage: adrop send [<peer>] <file> [file...]".
Definition stat_error (p : string) : option error :=
  match (stat p disk).1 with Ok _ => None | Err e => Some e | _ => Some EOF end.
Fixpoint abs_paths (files : list string) : list string + error :=
  match files with
  | [] => inl []
  | p :: files =>
      let a := path_abs cwd p in
      match stat_error a with
      | Some e => inr (Wrapf p e)
      | None => match abs_paths files with inl l => inl (a :: l) | inr e => inr e end
      end
  end.
Definition runSend (args : list string) : M term unit :=
  match args with
  | [] => throw send_usage
  | a :: rest =>
      let found := bool_decide (stat_error (path_abs cwd a) = None) in
      if negb found && bool_decide (rest = []) then throw send_usage
      else
        let '(peer, files) := if found then ("", args) else (a, rest) in
        match abs_paths files with
        | inr e => throw e
        | inl paths => roundtrip (mkRequest CmdSendFiles peer "" "" paths "" "" "" false) printLines
        end
  end.

(** The MIME type and what is left of the arguments. *)
Fixpoint strip_mime (args : list string) (mime : string) : string * list string :=
  match args with
  | [] => (mime, [])
  | a :: args' =>
      let other :=
        match cut_prefix a "--mime=" with
        | Some v => strip_mime args' v
        | None => let '(m, l) := strip_mime args' mime in (m, a :: l)
        end in
      match args' with
      | v :: args'' => if a =?s "--mime" then strip_mime args'' v else other
      | [] => other
      end
  end.
Definition clip_request (args : list string) : Request :=
  let '(mime, remaining) := strip_mime args "text/plain" in
  let m := if mime =?s "text/plain" then "" else mime in
  match remaining with
  | [] => mkRequest CmdSendClip "" "" "" [] "" m "" false
  | [peer] => mkRequest CmdSendClip peer "" "" [] "" m "" false
  | peer :: text :: _ => mkRequest CmdSendClip peer "" "" [] text m "" false
  end.
Definition runClip (args : list string) : M term unit := roundtrip (clip_request args) printLines.

Definition runQueue (args : list string) : M term unit :=
  match args with
  | ["rm"; id] => roundtrip (mkRequest CmdUnqueue "" "" "" [] "" "" id false) printLines
  | _ =>
      roundtrip (request CmdQueue) (λ r,
        match rs_Queue r with
        | [] => Println "nothing is waiting"
        | l => Print (String.concat "" (map (λ q,
                 qi_ID q +:+ "  " +:+ qi_What q +:+ " to " +:+ qi_Peer q +:+ ", queued " +:+ qi_Added q +:+
                 ", " +:+ itoa (qi_Tries q) +:+ " tries" +:+ newline +:+ "  " +:+ qi_Reason q +:+ newline) l))
        end)
  end.

(** *** Pairing *)

Definition confirmPair (p : PairInfo) : M term unit :=
  (if (16 <=? String.length (pi_Fingerprint p))%nat then ret () else panic) ;;;
  Print ("Pairing with " +:+ pi_Name p +:+ " (" +:+ str (take 16 (bs (pi_Fingerprint p))) +:+ ")" +:+ newline +:+
         "  code: " +:+ pi_Code p +:+ newline +:+ "Does the other screen show the same code? [y/N] ") ;;;
  answer <- read_line ;;
  let ok := equal_fold (trim_space answer) "y" in
  roundtrip (mkRequest CmdPairConfirm "" "" "" [] "" "" (pi_ID p) ok) printLines.

(** The answer of the goroutine counts if it is there when the pairing's own
    stream has ended ([in_time]). *)
Definition runPairWith (in_time : bool) (target : string) : M term unit :=
  n <- gets (λ t, length (t_asked t)) ;;
  match daemon n (request_to CmdPairWith target) with
  | inr e => throw e
  | inl (l, eof) =>
      asked (request_to CmdPairWith target) ;;;
      let pairs := omap rs_Pair l in
      answered <- (match pairs with
                   | p :: _ => if in_time then try (confirmPair p) else ret (inl ())
                   | [] => ret (inl ())
                   end) ;;
      on_responses l eof (λ r, match rs_Pair r with None => printLines r | Some _ => ret () end) ;;;
      of_res answered
  end.

(** [polls] bounds the rounds of 300 ms. *)
Fixpoint pair_accept (polls : nat) : M term unit :=
  match polls with
  | O => out_of_fuel
  | S polls =>
      n <- gets (λ t, length (t_asked t)) ;;
      let pending := match daemon n (request CmdPairPending) with
                     | inl (l, _) => head (rev (map rs_Pending l))
                     | inr _ => None
                     end in
      roundtrip (request CmdPairPending) (λ _, ret ()) ;;;
      match pending with
      | Some (p :: _) => confirmPair p
      | _ => pair_accept polls
      end
  end.
Definition runPairAccept (polls : nat) : M term unit :=
  Println ("Waiting for a pairing request (tap this device on the other one)" +:+ str [Zbyte 226; Zbyte 128; Zbyte 166]) ;;;
  pair_accept polls.

Definition runPair (in_time : bool) (polls : nat) (args : list string) : M term unit :=
  match args with
  | [] => throw (Errorf "usage: adrop pair show | add <uri> | with <device> | accept")
  | sub :: rest =>
      if sub =?s "show" then
        roundtrip (request CmdPairShow) (λ r,
          (if rs_QR r =?s "" then ret () else Print (rs_QR r)) ;;;
          (if rs_Line r =?s "" then ret () else Println (rs_Line r)))
      else if sub =?s "add" then
        match rest with
        | [] => throw (Errorf "usage: adrop pair add <adrop://pair?d=...>")
        | uri :: _ => roundtrip (mkRequest CmdPairAdd "" uri "" [] "" "" "" false) printLines
        end
      else if sub =?s "with" then
        match rest with
        | [] => throw (Errorf "usage: adrop pair with <nearby name|host:port>")
        | target :: _ => runPairWith in_time target
        end
      else if sub =?s "accept" then runPairAccept polls
      else throw (Errorf ("unknown pair subcommand " +:+ quote sub))
  end.

(** ** main.go *)

Context (getenv : string → string) (windows : bool).
(** os.Executable, exec.LookPath and exec(2) or starting the process. *)
Context (self : option string) (look_path : string → option string) (exec : string → option error).

Definition fileExists (p : string) : bool := bool_decide (stat_error p = None).
Definition openWindow : option error :=
  if negb windows && (getenv "WAYLAND_DISPLAY" =?s "") && (getenv "DISPLAY" =?s "") then
    Some (Errorf "no display (DISPLAY/WAYLAND_DISPLAY unset), no window to open")
  else
    let name := if windows then "adrop-gui.exe" else "adrop-gui" in
    let beside := match self with
                  | Some s => let p := path_join (path_dir s) name in if fileExists p then p else ""
                  | None => ""
                  end in
    if negb (beside =?s "") then exec beside
    else
      match look_path name with
      | None => Some (Errorf "the window is not installed (make app-install)")
      | Some p => exec p
      end.

(** *** usage: three pieces written to the standard error *)

Definition dquote : string := String "034"%char EmptyString.
Definition unlines (l : list string) : string := foldr (λ x t, x +:+ newline +:+ t) "" l.
Definition usage_intro : string := unlines ["adrop — files and clipboard between your own devices over pinned TLS"; ""; "Usage:"].
Definition usage_window : string := unlines ["  adrop                         open the window (adrop-gui)"].
Definition usage_commands : string := unlines
  ["  adrop daemon                  run the resident daemon";
   "  adrop status                  show daemon status & this device's identity";
   "  adrop pair show               display this device's pairing QR (waits to pair)";
   ("  adrop pair add <uri>          trust a scanned " +:+ dquote +:+ "adrop://pair?d=..." +:+ dquote +:+ " URI");
   "  adrop pair with <device>      pair with a nearby device by comparing a code";
   "  adrop pair accept             answer a pairing started on another device";
   "  adrop nearby                  list adrop devices seen on the LAN";
   "  adrop ping <peer>             ping a paired device over Reticulum hubs (outside the LAN)";
   "  adrop queue [rm <id>]         list (or drop) sends waiting for a channel to their device";
   "  adrop autostart on|off        start the daemon at login (Windows; Linux uses systemd)";
   "  adrop devices                 list trusted devices";
   "  adrop revoke <name|fp-prefix> revoke (untrust) a device";
   "  adrop send [<peer>] <file...>  send files to a peer (peer optional after first send)";
   "  adrop clip [<peer>] [text]    push clipboard to a peer (peer optional after first send)";
   "";
   "Environment:";
   "  ADROP_CONFIG_DIR   override config dir (keys, devices)";
   "  ADROP_SOCKET       override IPC socket path";
   "  ADROP_PORT         override peer TLS port (daemon, default 53127)";
   "  ADROP_NAME         this device's advertised name (daemon, default hostname)";
   "  ADROP_ADVERTISE_IP LAN IP to put in the pairing QR (daemon, auto-detected)";
   "  ADROP_DOWNLOAD_DIR where received files land (daemon, default ~/Downloads)";
   "  ADROP_TAP_PAIR     1 = accept pairing by code from nearby devices (daemon, default off)";
   "  ADROP_RNS          1 = connect to public Reticulum hubs for use outside the LAN (daemon, default off)";
   "  ADROP_RNS_HUBS     comma-separated host:port hubs instead of the built-in list and catalog"].
Definition usage : M term unit := Eprint usage_intro ;;; Eprint usage_window ;;; Eprint usage_commands.

(** runDaemon and runAutostart are given: Startup.v has them. *)
Context (runDaemon runAutostart : list string → M term unit).

(** The exit status of a command that returned. *)
Definition exit_with (m : M term unit) : M term Z :=
  r <- try m ;;
  match r with
  | inl _ => ret 0
  | inr e => Eprint ("adrop: " +:+ error_text e +:+ newline) ;;; ret 1
  end.
Definition main (in_time : bool) (polls : nat) (argv : list string) : M term Z :=
  match argv with
  | [] | [_] =>
      match openWindow with
      | None => ret 0
      | Some e => Eprint ("adrop: " +:+ error_text e +:+ newline +:+ newline) ;;; usage ;;; ret 2
      end
  | _ :: cmd :: args =>
      if cmd =?s "daemon" then exit_with (runDaemon args)
      else if cmd =?s "status" then exit_with runStatus
      else if cmd =?s "pair" then exit_with (runPair in_time polls args)
      else if cmd =?s "devices" then exit_with runDevices
      else if cmd =?s "nearby" then exit_with runNearby
      else if cmd =?s "ping" then exit_with (runPing args)
      else if cmd =?s "queue" then exit_with (runQueue args)
      else if cmd =?s "autostart" then exit_with (runAutostart args)
      else if cmd =?s "revoke" then exit_with (runRevoke args)
      else if cmd =?s "send" then exit_with (runSend args)
      else if (cmd =?s "clip") || (cmd =?s "clipboard") then exit_with (runClip args)
      else if (cmd =?s "-h") || (cmd =?s "--help") || (cmd =?s "help") then usage ;;; ret 0
      else
        Eprint ("adrop: unknown command " +:+ quote cmd +:+ newline +:+ newline) ;;; usage ;;; ret 2
  end.
End cli.

Example demo_table :
  tab_text (table_header +:+ row ["phone"; "ab12"; "10.0.0.2:53127"; "2024"]) =
  "NAME   FINGERPRINT  ADDR            PAIRED" +:+ newline +:+
  "phone  ab12         10.0.0.2:53127  2024" +:+ newline.
Proof. by vm_compute. Qed.

Example demo_clip_args :
  let r := clip_request ["--mime"; "image/png"; "phone"] in
  (rq_MIME r, rq_Target r, rq_Text r) = ("image/png", "phone", "") ∧
  rq_MIME (clip_request ["--mime=text/html"; "phone"; "hi"]) = "text/html".
Proof. by vm_compute. Qed.
