(* ===== verification/Client.v ===== *)
(** * The command line against the daemon

    roundtrip of client.go reading what handleIPC of ipc_handler.go wrote. *)

From S2P Require Import Prelude GoStrings Go Fs Ipc Rns World Peer IpcHandler Cli.
From Stdlib Require Import ZArith Lia String Ascii List Bool.
From stdpp Require Import base list strings gmap option numbers.

#[local] Open Scope string_scope.
#[local] Open Scope list_scope.
#[local] Open Scope Z_scope.

Section client.
Context `{Reticulum} (env : ipc_env) (s : served).

Definition responses_to (req : Request) : list Response :=
  drop (length (sv_out s)) (sv_out (handleIPC env (inl req) s).2).
(** A daemon that answers from the state [s]; then it closes the stream. *)
Definition daemon_at (n : nat) (req : Request) : (list Response * error) + error := inl (responses_to req, EOF).

(** The terminal after the callback saw some responses. *)
Definition shown (onResp : Response → M term unit) (l : list Response) (t : term) : term :=
  fold_left (λ t r, (onResp r t).2) l t.

Lemma on_responses_answer pre last eof onResp t :
  (∀ r t, (onResp r t).1 = Ok ()) → Forall partial pre → rs_Done last = true →
  on_responses (pre ++ [last]) eof onResp t =
  (if rs_Err last =?s "" then (Ok (), shown onResp (pre ++ [last]) t)
   else (Err (Errorf (rs_Err last)), shown onResp pre t)).
Proof.
  intros Hr Hp Hd. revert t. induction Hp as [|p pre [Hpd Hpe] _ IH]; intros t; cbn [app on_responses].
  - destruct (rs_Err last =?s ""); cbn [negb]; [|done].
    unfold bind. specialize (Hr last t). destruct (onResp last t) as [r t1] eqn:E. cbn in Hr. subst r.
    rewrite Hd. cbn. by rewrite E.
  - apply String.eqb_eq in Hpe as ->. cbn [negb]. unfold bind.
    pose proof (Hr p t) as Hpt. destruct (onResp p t) as [r t1] eqn:E. cbn in Hpt. subst r.
    rewrite Hpd, IH. unfold shown. cbn. by rewrite E.
Qed.
End client.

(** C36: a command ends as the daemon said. When its handler is through and
    the user did not leave, the client has shown every partial response in
    order, and then it either shows the last one and succeeds or fails with
    the daemon's error text; it never reports a cut connection instead. *)
Theorem command_outcome `{Reticulum} env s req onResp t :
  never_fails (ie_meanwhile env) → finished (handleIPC env (inl req) s).1 = true → ¬ may_leave env (inl req) →
  (∀ r t, (onResp r t).1 = Ok ()) →
  ∃ pre last, responses_to env s req = pre ++ [last] ∧ Forall partial pre ∧ rs_Done last = true ∧
    let t0 := (asked req t).2 in
    roundtrip (daemon_at env s) req onResp t =
    (if rs_Err last =?s "" then (Ok (), shown onResp (pre ++ [last]) t0)
     else (Err (Errorf (rs_Err last)), shown onResp pre t0)).
Proof.
  intros Hm Hf Hl Hr. destruct (handleIPC env (inl req) s) as [r s'] eqn:E. cbn in Hf.
  pose proof (handleIPC_tells env Hm (inl req) s r s' E) as Ht. destruct r as [[]| | | |]; try done.
  destruct Ht as (news & Hn & Ha). destruct Ha as [(pre & last & -> & Hp & Hd)|[? _]]; [|done].
  exists pre, last. assert (responses_to env s req = pre ++ [last]) as Hresp.
  { unfold responses_to. rewrite E. cbn. by rewrite Hn, drop_app_length. }
  split_and!; [done..|]. cbv zeta. unfold roundtrip.
  rewrite bind_Ok with (a := length (t_asked t)) (s' := t) by done. unfold daemon_at. rewrite Hresp.
  rewrite bind_Ok with (a := ()) (s' := (asked req t).2) by done. by apply on_responses_answer.
Qed.

Lemma command_outcome_witness :
  let t := mkTerm "" "" false 0 [] [] in
  let req := mkRequest CmdRevoke "tablet" "" "" [] "" "" "" false in
  ∃ pre last, @responses_to toy_reticulum demo_ipc demo_served req = pre ++ [last] ∧ Forall partial pre ∧
    rs_Done last = true ∧
    let t0 := (asked req t).2 in
    roundtrip (@daemon_at toy_reticulum demo_ipc demo_served) req (printLines false) t =
    (if rs_Err last =?s "" then (Ok (), shown (printLines false) (pre ++ [last]) t0)
     else (Err (Errorf (rs_Err last)), shown (printLines false) pre t0)).
Proof.
  apply (@command_outcome toy_reticulum demo_ipc demo_served).
  - apply never_fails_ret.
  - by vm_compute.
  - by intros [[? _]|[? _]].
  - intros r [o e i n l q]. unfold printLines, print_line, finish_line. rewrite andb_false_r.
    unfold bind. by destruct i, (rs_Line r =?s ""), (rs_Done r).
Defined.
