(* ===== verification/Core.v ===== *)
(** * core/core.go: the core embedded in the phone app

    The operations the app calls. A [node] is the daemon with what the
    platform was given: the events as JSON, newest last. Lists cross the
    boundary as JSON text. *)

From S2P Require Import Prelude GoStrings GoFmt GoTime Go GoNet Json JsonRec Base64 Ipc IpcJson Fs Proto Paths Receive.
From S2P Require Import Config Pairing Transport Rns Hubs World Peer Signals Dial Queue TapPair IpcHandler.
From Stdlib Require Import ZArith Lia String Ascii List Bool.
From stdpp Require Import base list strings gmap option numbers.

#[local] Open Scope string_scope.
#[local] Open Scope list_scope.
#[local] Open Scope Z_scope.

Record core_Options := mkCoreOptions {
  co_DataDir : string; co_DownloadDir : string; co_Name : string; co_Port : Z; co_TapPair : bool; co_Reticulum : bool }.

Record node := mkNode { nd_d : Daemon; nd_events : list string; nd_sub : nat }.
Definition on_node {A} (m : M Daemon A) : M node A := zoom nd_d (λ d n, mkNode d (nd_events n) (nd_sub n)) m.

Definition asJSON (v : json) : string := str (print v).
(** A nil slice is null; a slice made by [make] is an array. *)
Definition json_slice {A} (members : A → list (string * json)) (l : list A) : json :=
  match l with [] => JNull | _ => JArr (map (λ a, JObj (members a)) l) end.

(** emit *)
Definition emit (e : Event) : M node unit :=
  modify (λ n, mkNode (nd_d n) (nd_events n ++ [asJSON (JObj (Event_members e))]) (nd_sub n)).

(** Start, up to the goroutines; [platform] says whether there is one. The key
    pair and its parsing are those of config.Open. *)
Definition Start (X509KeyPair : bytes → bytes → bytes + error) (fresh : bytes * bytes) (env : host_env) (opt : option core_Options) (platform : bool) (disk : fs) (now : Z) : node + error :=
  match opt with
  | None => inr (Errorf "core: no data dir")
  | Some opt =>
      if co_DataDir opt =?s "" then inr (Errorf "core: no data dir")
      else if negb platform then inr (Errorf "core: no platform")
      else
        match Open X509KeyPair fresh (co_DataDir opt) (mkCstate (mkStore "" [] [] "") disk now) with
        | (Err e, _) => inr e
        | (Ok _, cs) =>
            match New env (mkOptions (Some cs) (co_Name opt) (co_Port opt) "" "" (co_DownloadDir opt) ""
                             (co_TapPair opt) (co_Reticulum opt) [] true) with
            | inr e => inr e
            | inl d => let '(r, d') := subscribe d in
                       inl (mkNode d' [] (match r with Ok ch => ch | _ => O end))
            end
        | _ => inr Go.EOF
        end
  end.

(** One turn of the goroutine that hands events to the platform. *)
Definition pump : M node bool :=
  n <- get_state ;;
  e <- on_node (next_event (nd_sub n)) ;;
  match e with Some e => emit e ;;; ret true | None => ret false end.
(** The Serve goroutine ended with an error while the node runs. *)
Definition serve_failed (e : error) : M node unit :=
  emit (mkEvent "core-error" "" "" 0 0 0 0 (error_text e) None "").

Section core.
Context `{Reticulum} (env : ipc_env).
Let net : surroundings := ie_env env.

(** A context that ends [n] ns from now. *)
Definition timeout (n : Z) : M node context := now <- gets (λ n, d_now (nd_d n)) ;; ret (Some (now + n, DeadlineExceeded)).
Definition callTimeout : Z := 2 * 60 * second.

Definition core_Fingerprint (n : node) : string := store_Fingerprint (d_store (nd_d n)).
Definition core_Name (n : node) : string := o_name (d_set (nd_d n)).
Definition core_Status (n : node) : string :=
  let '(addr, hubs) := RNSStatus (ie_working env) (nd_d n) in
  asJSON (JObj (StatusInfo_members (mkStatusInfo (core_Name n) (core_Fingerprint n) ""
    (Z.of_nat (length (s_devices (d_store (nd_d n))))) "" addr hubs))).
Definition core_PairingURI : M node string := on_node PairingURI.
(** The window's timer is closePairWindow, run when [ttlSeconds] are over. *)
Definition core_OpenPairWindow : M node unit := on_node (OpenPairWindow "" "") ;;; ret ().

(** Pair: AddPeer, then a Hello must pass, or the peer is dropped again. *)
Definition core_Pair (uri : string) : M node string :=
  dev <- on_node (AddPeer (env_connect net) (env_lanControl net) (trim_space uri)) ;;
  ctx <- timeout (20 * second) ;;
  d <- gets nd_d ;;
  r <- try (on_node (daemon_Hello net ctx (ie_random_id env d) (dev_Fingerprint dev))) ;;
  match r with
  | inl _ => ret (dev_Name dev)
  | inr e =>
      on_node (on_store (RemoveDevice (dev_Fingerprint dev))) ;;;
      throw (Wrapf (dev_Name dev +:+ " did not accept this device (is its pairing QR still open?)") e)
  end.

Definition core_Devices (n : node) : string :=
  asJSON (json_slice DeviceInfo_members (map device_info (s_devices (d_store (nd_d n))))).
Definition core_Revoke (target : string) : M node unit :=
  r <- on_node (on_store (RemoveDevice target)) ;;
  match r with
  | (_, Some e) => throw e
  | (k, None) => if k =? 0 then throw (Errorf ("no device matched " +:+ quote target)) else ret ()
  end.
Definition core_Rename (target name : string) : M node unit := on_node (on_store (RenameDevice target name)).
Definition core_Nearby (n : node) : string :=
  asJSON (JArr (map (λ x, JObj (NearbyInfo_members x)) (Nearby (nd_d n)))).
Definition core_AddNearby (name host : string) (port : Z) (fp : string) : M node unit :=
  on_node (AddNearby name (JoinHostPort host (itoa port)) fp).
Definition core_RemoveNearby (name : string) : M node unit := on_node (RemoveNearby name).

Definition core_PairWith (target : string) : M node string :=
  d <- gets nd_d ;;
  dev <- on_node (PairWith (ie_others env) (env_connect net) (env_lanControl net) (ie_picks env)
                    (ie_random_id env d) (pair_address d target) (λ _, ret ())) ;;
  ret (dev_Name dev).
Definition core_PendingPairs (n : node) : string :=
  asJSON (json_slice PairInfo_members (PendingPairs (nd_d n))).
Definition core_ConfirmPair (id : string) (ok : bool) : M node unit :=
  on_node (ConfirmPair (ie_meanwhile env) (ie_ctxErr env) id ok) ;;; ret ().

(** The paths are a JSON array of strings. *)
Definition paths_of_json (raw : string) : option (list string) :=
  v ← parse (bs raw);
  match v with JNull => Some [] | JArr l => mapM str_of_json l | _ => None end.
Fixpoint emit_all (l : list Event) : M node unit :=
  match l with [] => ret () | e :: l => emit e ;;; emit_all l end.
Definition progress_event (target line : string) : Event := mkEvent "send-progress" target line 0 0 0 0 "" None "".
Definition core_SendFiles (target pathsJSON : string) : M node string :=
  match paths_of_json pathsJSON with
  | None => throw (Wrapf "core: paths" json_error)
  | Some paths =>
      ctx <- timeout (6 * 3600 * second) ;;
      r <- on_node (SendFilesOrQueue net (ie_random_id env) (ie_cwd env) ctx (ie_checks env) target paths true) ;;
      emit_all (map (progress_event target) r.1) ;;;
      of_res r.2
  end.
Definition core_SendText (target text : string) : M node string :=
  ctx <- timeout callTimeout ;;
  r <- on_node (SendClipboardAnywhere net (ie_random_id env) (ie_meanwhile env) ctx target (bs text) "text/plain") ;;
  of_res r.

Definition core_Queue : M node string :=
  q <- on_node Queue ;; ret (asJSON (json_slice QueueItem_members q)).
Definition core_Unqueue (id : string) : M node unit := on_node (Unqueue id).
Definition core_Ping (target : string) : M node string :=
  d <- gets nd_d ;;
  rtt <- on_node (Ping (ie_meanwhile env) (ie_polls env) (ie_random_id env d) target) ;;
  ret (duration_text (round_ms rtt)).
Definition core_Hello (peer : string) : M node string :=
  ctx <- timeout (20 * second) ;;
  d <- gets nd_d ;;
  dev <- on_node (daemon_Hello net ctx (ie_random_id env d) peer) ;;
  ret (dev_Name dev +:+ " " +:+ dev_Fingerprint dev).
End core.

(** Scanning the code of a device that is paired already, while it cannot be
    reached, forgets it: the device that AddPeer updated is removed, not only
    one it added. *)
Definition demo_node (devices : list Device) : node := mkNode (demo_daemon devices) [] O.
Definition demo_phone_uri : string :=
  match Pairing.Encode (mkPayload 2 "phone" (dev_Fingerprint demo_phone)
          (str (pem_encode cert_type (bs "phone certificate"))) "10.0.0.9:53127" "") with
  | inl uri => uri | inr _ => "" end.
Example pair_again_forgets :
  let run := @core_Pair toy_reticulum demo_ipc demo_phone_uri (demo_node [demo_phone]) in
  map dev_Name (s_devices (d_store (nd_d (demo_node [demo_phone])))) = ["phone"] ∧
  finished run.1 = true ∧ s_devices (d_store (nd_d run.2)) = [].
Proof. by vm_compute. Qed.
