(* ===== verification/IpcConn.v ===== *)
(** * internal/ipc/conn_unix.go, conn_tcp.go: the control socket

    Where the socket is, and on the TCP build the token that a client must
    send first. *)

From S2P Require Import Prelude GoStrings Go Json JsonRec Fs Config.
From Stdlib Require Import ZArith Lia String Ascii List Bool.
From stdpp Require Import base list strings gmap option numbers.

#[local] Open Scope string_scope.
#[local] Open Scope list_scope.
#[local] Open Scope Z_scope.

(** ** conn_unix.go *)

Definition or_string (a b : string) : string := if a =?s "" then b else a.
Definition SocketPath (getenv : string → string) (tmp : string) : string :=
  let p := getenv "ADROP_SOCKET" in
  if negb (p =?s "") then p
  else
    let r := getenv "XDG_RUNTIME_DIR" in
    path_join (if r =?s "" then tmp else r) "adrop.sock".

(** Listen on a path: the stale socket goes, the new one is bound and closed
    to other users. [bind] and [chmod] are the system's; the path is what the
    cleanup removes. *)
Definition unix_Listen (bind chmod : string → option error) (path : string) : M fs string :=
  ignore (remove_file path) ;;;
  match bind path with
  | Some e => throw e
  | None =>
      match chmod path with
      | Some e => throw (Wrapf "chmod socket" e)
      | None => ret path
      end
  end.
Definition unix_Dial {A} (connect : string → A + error) (path : string) : A + error :=
  match connect path with
  | inl c => inl c
  | inr e => inr (Wrapf ("cannot reach daemon at " +:+ path +:+ " (is `adrop daemon` running?)") e)
  end.

(** ** conn_tcp.go *)

Record endpoint := mkEndpoint { ep_Addr : string; ep_Token : string }.
Definition endpoint_json (e : endpoint) : json := JObj (req_str "addr" (ep_Addr e) ++ req_str "token" (ep_Token e)).
Definition endpoint_fields : list (string * field endpoint) :=
  [("addr", str_field (λ x e, mkEndpoint x (ep_Token e))); ("token", str_field (λ x e, mkEndpoint (ep_Addr e) x))].

Definition EndpointFile (getenv : string → string) (config : option string) (tmp : string) : string :=
  let p := getenv "ADROP_IPC_FILE" in
  if negb (p =?s "") then p
  else path_join (path_join (default tmp config) "adrop") "ipc.json".

(** readLine: one byte at a time, at most 256. *)
Fixpoint read_line (fuel : nat) (acc : bytes) : M conn string :=
  match fuel with
  | O => throw (Errorf "token line too long")
  | S fuel =>
      one <- read_full 1 ;;
      match one with
      | [a] => if Ascii.eqb a lf then ret (str acc) else read_line fuel (acc ++ [a])
      | _ => throw EOF
      end
  end.
Definition readLine : M conn string := read_line 256 [].

(** What tokenListener.Accept makes of one connection: [c_end] is how reading
    ends, the five seconds' deadline included; a connection without the token
    is closed. *)
Definition token_accept (token : string) (c : conn) : option conn :=
  match readLine c with
  | (Ok line, c') => if line =?s token then Some c' else None
  | _ => None
  end.
(** The loop of Accept over the connections that arrive. *)
Fixpoint tokenListener_Accept (token : string) (l : list (conn + error)) : (conn + error) * list (conn + error) :=
  match l with
  | [] => (inr EOF, [])
  | inr e :: l => (inr e, l)
  | inl c :: l =>
      match token_accept token c with
      | Some c' => (inl c', l)
      | None => tokenListener_Accept token l
      end
  end.

(** Listen: [addr] is where net.Listen bound, [token] 24 random bytes in hex. *)
Definition tcp_Listen (addr : string + error) (random : bytes) (file : string) : M fs (string * string) :=
  match addr with
  | inr e => throw e
  | inl addr =>
      let token := hex_encode random in
      mkdir_all "/" (List.filter (λ p, negb (p =?s "")) (split_on "/" (path_dir file))) ;;;
      write_file file (print (endpoint_json (mkEndpoint addr token))) ;;;
      ret (token, addr)
  end.
Definition tcp_Dial (connect : string → conn + error) (file : string) : M fs conn :=
  r <- try (read_file file) ;;
  match r with
  | inr e => throw (Wrapf "cannot reach daemon (is `adrop daemon` running?)" e)
  | inl raw =>
      match v ← parse raw; decode_object endpoint_fields (mkEndpoint "" "") v with
      | None => throw json_error
      | Some ep =>
          match connect (ep_Addr ep) with
          | inr e => throw (Wrapf ("cannot reach daemon at " +:+ ep_Addr ep +:+ " (is `adrop daemon` running?)") e)
          | inl c =>
              match conn_write (bs (ep_Token ep) ++ [lf]) c with
              | (Ok _, c') => ret c'
              | (Err e, _) => throw e
              | _ => out_of_fuel
              end
          end
      end
  end.

(** ** The token admits, and nothing else does *)

Lemma read_line_spec fuel acc line rest c :
  no_byte lf line → (String.length line < fuel)%nat → c_in c = bs line ++ lf :: rest →
  read_line fuel acc c = (Ok (str acc +:+ line), set_c_in rest c).
Proof.
  revert acc line c. induction fuel as [|fuel IH]; intros acc line c Hn Hl Hc; [lia|]. cbn [read_line].
  destruct line as [|a line].
  - rewrite (bind_Ok _ _ _ [lf] (set_c_in rest c)) by by apply read_full_app.
    rewrite Ascii.eqb_refl. unfold ret. f_equal. f_equal. apply bs_inj. rewrite bs_app. by rewrite app_nil_r.
  - rewrite (bind_Ok _ _ _ [a] (set_c_in (bs line ++ lf :: rest) c)) by by apply read_full_app.
    assert (a ≠ lf) as Ha by (intros ->; apply Hn; by left).
    apply Ascii.eqb_neq in Ha as ->. rewrite (IH _ line).
    + f_equal. f_equal. apply bs_inj. rewrite !bs_app, !bs_str. cbn. by rewrite <-app_assoc.
    + intros Hin. apply Hn. by right.
    + cbn in Hl. lia.
    + done.
Qed.
Lemma read_line_inv fuel acc c r c' :
  read_line fuel acc c = (Ok r, c') →
  ∃ line, r = str acc +:+ line ∧ c_in c = bs line ++ lf :: c_in c' ∧ c_out c' = c_out c.
Proof.
  revert acc c. induction fuel as [|fuel IH]; intros acc c; cbn [read_line]; [done|].
  intros (one & c1 & E1 & E2)%bind_Ok_inv. apply read_full_ok in E1 as (Hl & Hin & Hout & _).
  destruct one as [|a [|? ?]]; try done. destruct (Ascii.eqb_spec a lf) as [->|Ha].
  - injection E2 as <- <-. exists "". rewrite Hin. split_and!; [|done|done].
    apply bs_inj. rewrite bs_app. by rewrite app_nil_r.
  - apply IH in E2 as (line & -> & Hin' & Hout'). exists (String a line). rewrite Hin, Hin'. split_and!; [|done|congruence].
    apply bs_inj. rewrite !bs_app, !bs_str. cbn. by rewrite <-app_assoc.
Qed.

Lemma hex_no_lf b : no_byte lf (hex_encode b).
Proof.
  unfold no_byte, hex_encode. rewrite bs_str. intros Hin%list_elem_of_In%in_flat_map. destruct Hin as (a & _ & Hin).
  assert (∀ n, 0 ≤ n < 16 → hex_digit n ≠ lf) as Hd.
  { intros n Hn He. apply (f_equal byteZ) in He. unfold hex_digit in He. change (byteZ lf) with 10 in He.
    destruct (n <? 10); rewrite byteZ_Zbyte, Z.mod_small in He; lia. }
  pose proof (byteZ_range a). cbn in Hin. destruct Hin as [Hin|[Hin|[]]]; apply Hd in Hin; try done.
  - split; [apply Z.div_pos; lia|apply Z.div_lt_upper_bound; lia].
  - apply Z.mod_pos_bound. lia.
Qed.

(** On the TCP build a connection is served exactly when the first line
    it sends is the daemon's token, whatever else it sends; the token is all
    that is read of it, so the handler sees the request from its first byte. *)
Theorem token_admits random c c' :
  length random = 24%nat →
  token_accept (hex_encode random) c = Some c' ↔
  c_in c = bs (hex_encode random) ++ lf :: c_in c' ∧ c' = set_c_in (c_in c') c.
Proof.
  intros Hlen. unfold token_accept. split.
  - destruct (readLine c) as [[line| | | |] c1] eqn:E; try done.
    destruct (String.eqb_spec line (hex_encode random)) as [->|]; [|done]. intros [= ->].
    pose proof (read_line_inv _ _ _ _ _ E) as (line & Hl & Hin & _). change (str [] +:+ line) with line in Hl. rewrite <-Hl in Hin.
    split; [done|]. assert (readLine c = (Ok (str [] +:+ hex_encode random), set_c_in (c_in c') c)) as E'.
    { apply read_line_spec; [apply hex_no_lf| |done]. rewrite hex_encode_length. lia. }
    rewrite E' in E. by injection E.
  - intros [Hin Hc]. assert (readLine c = (Ok (str [] +:+ hex_encode random), set_c_in (c_in c') c)) as E'.
    { apply read_line_spec; [apply hex_no_lf| |done]. rewrite hex_encode_length. lia. }
    rewrite E'. change (str [] +:+ hex_encode random) with (hex_encode random). rewrite String.eqb_refl. by rewrite <-Hc.
Qed.

Lemma token_admits_witness :
  let token := hex_encode (repeat "k"%char 24) in
  let c := conn_of (bs token ++ lf :: bs "{}") in
  token_accept token c = Some (set_c_in (bs "{}") c) ∧ token_accept token (conn_closed (bs "guess")) = None.
Proof.
  cbv zeta. split; [|by vm_compute].
  apply (token_admits (repeat "k"%char 24)); [reflexivity|]. split; reflexivity.
Defined.
