(* ===== verification/Serve.v ===== *)
(** * internal/daemon/daemon.go, rns.go: starting the daemon

    Run, Serve and what they start. Each goroutine is a [task]; what it does
    is its own file's. *)

From S2P Require Import Prelude GoStrings Go GoNet Fs Ipc Paths Receive Config Rns Hubs World Signals.
From Stdlib Require Import ZArith Lia String Ascii List Bool.
From stdpp Require Import base list strings gmap option numbers.

#[local] Open Scope string_scope.
#[local] Open Scope list_scope.
#[local] Open Scope Z_scope.

Inductive task := PeerListener | IpcListener | MdnsAdvertise | MdnsBrowse | HubRounds | HubCatalog | RnsInbox | SendQueue.
#[export] Instance task_eq_dec : EqDecision task.
Proof. solve_decision. Defined.

(** acceptLoop: what it dispatches, given the results of Accept in turn. *)
Fixpoint acceptLoop {A} (accepts : list (A + error)) : list A :=
  match accepts with
  | inl c :: l => c :: acceptLoop l
  | inr _ :: _ | [] => []
  end.

Section serve.
Context `{Reticulum}.
Context (id_of_file : bytes → bytes + error) (id_to_file : bytes → bytes) (fresh : bytes).

(** startRNS: the node, the hub manager, and the goroutines of both. *)
Definition startRNS : M Daemon (list task * option HubManager) :=
  d <- get_state ;;
  r <- try (on_daemon_fs (rns_Open id_of_file id_to_file fresh (Path (d_store d) "rns"))) ;;
  match r with
  | inr _ => ret ([], None)
  | inl n =>
      let own := o_rnsHubs (d_set d) in
      let m := NewHubManager n (if bool_decide (own = []) then BuiltinHubs else own) (mkHubPolicy 0 0 0 0 0 0) in
      on_rns (with_node (Some n)) ;;;
      ret ((if bool_decide (own = []) then [HubCatalog] else []) ++ [HubRounds; RnsInbox; SendQueue], Some m)
  end.

(** net.Listen on an address, and ipc.Listen: the socket's path. *)
Context (listen : string → option error) (ipc_listen : string + error).

Definition mkdir_downloads : M Daemon unit :=
  d <- get_state ;;
  r <- try (on_daemon_fs (mkdir_all "/" (List.filter (λ p, negb (p =?s "")) (split_on "/" (o_downloadDir (d_set d)))))) ;;
  match r with inr e => throw (Wrapf "create download dir" e) | inl _ => ret () end.
Definition listen_peers : M Daemon unit :=
  d <- get_state ;;
  match listen (JoinHostPort (o_listenIP (d_set d)) (itoa (o_port (d_set d)))) with
  | Some e => throw (Wrapf "tls listen" e)
  | None => ret ()
  end.

Definition runPeerListener : M Daemon (list task) := mkdir_downloads ;;; listen_peers ;;; ret [PeerListener].

Definition Serve : M Daemon (list task) :=
  d <- get_state ;;
  started <- (if o_rnsEnabled (d_set d) then r <- startRNS ;; ret r.1
              else ret (if o_queueAll (d_set d) then [SendQueue] else [])) ;;
  l <- runPeerListener ;;
  ret (started ++ l).

Definition Run : M Daemon (list task) :=
  mkdir_downloads ;;;
  listen_peers ;;;
  match ipc_listen with
  | inr e => throw (Wrapf "ipc listen" e)
  | inl _ =>
      d <- get_state ;;
      started <- (if o_rnsEnabled (d_set d) then r <- startRNS ;; ret r.1 else ret []) ;;
      ret ([MdnsAdvertise; MdnsBrowse] ++ started ++ [PeerListener; IpcListener])
  end.
End serve.

(** Every error of Accept ends the loop, also one that would pass: after it
    the daemon runs on and answers nobody. *)
Example accept_error_deafens :
  acceptLoop [inl "first"; inr (Errorf "accept4: too many open files"); inl "second"] = ["first"].
Proof. reflexivity. Qed.
