(* ===== verification/Desktop.v ===== *)
(** * internal/clipboard, internal/notify: the desktop

    Both packages do their work in other programs: wl-copy, wl-paste and
    notify-send on Linux, PowerShell on Windows. A program is a function of
    its command line, its input and the state of the host. *)

From S2P Require Import Prelude GoStrings Go Json JsonRec.
From Stdlib Require Import ZArith Lia String Ascii List Bool.
From stdpp Require Import base list strings gmap option numbers.

#[local] Open Scope string_scope.
#[local] Open Scope list_scope.
#[local] Open Scope Z_scope.

(** ** os/exec *)

(** [cmd_Captured]: standard output or standard error is a buffer, which the
    command fills through a pipe. *)
Record command := mkCommand {
  cmd_Name : string; cmd_Args : list string; cmd_Stdin : bytes; cmd_Captured : bool }.
(** [x_detached]: a child stays behind with the program's outputs open. *)
Record exec_result := mkExecResult { x_out : bytes; x_err : bytes; x_failed : option error; x_detached : bool }.

Section desktop.
Context {H : Type} (run : command → H → exec_result * H).

(** cmd.Run returns when the program has ended and, if its output is copied
    to a buffer, everyone else who holds the pipe has closed it. *)
Definition Cmd_Run (c : command) : M H exec_result := λ h,
  let '(x, h') := run c h in
  (if cmd_Captured c && x_detached x then Block else Ok x, h').

(** ** clipboard_wayland.go *)

Definition text_mime (mime : string) : string := if mime =?s "" then "text/plain" else mime.
Definition paste_args (mime : string) : list string :=
  (if mime =?s "text/plain" then ["-n"] else []) ++ ["-t"; mime].
(** The text of the error is the program's own message too; nobody looks at
    what it wraps. *)
Definition wl_Get (mime : string) : M H bytes :=
  x <- Cmd_Run (mkCommand "wl-paste" (paste_args (text_mime mime)) [] true) ;;
  match x_failed x with
  | Some e => throw (Errorf ("wl-paste: " +:+ error_text e +:+ ": " +:+ str (x_err x)))
  | None => ret (x_out x)
  end.
Definition wl_Paste : M H bytes := wl_Get "text/plain".
Definition wl_Copy (data : bytes) (mime : string) : M H unit :=
  x <- Cmd_Run (mkCommand "wl-copy" ["-t"; text_mime mime] data false) ;;
  match x_failed x with Some e => throw (Wrapf "wl-copy" e) | None => ret () end.

(** ** clipboard_windows.go *)

Definition psPrelude : string := "[Console]::InputEncoding=[Console]::OutputEncoding=[Text.Encoding]::UTF8;".
Definition ps_command (script : string) (stdin : bytes) (captured : bool) : command :=
  mkCommand "powershell" ["-NoProfile"; "-NonInteractive"; "-Command"; script] stdin captured.
Definition powershell (script : string) (stdin : bytes) : M H bytes :=
  x <- Cmd_Run (ps_command (psPrelude +:+ script) stdin true) ;;
  match x_failed x with
  | Some e => throw (Errorf ("powershell: " +:+ error_text e +:+ ": " +:+ trim_space (str (x_err x))))
  | None => ret (x_out x)
  end.
Definition get_script : string := "Get-Clipboard -Raw | Write-Output -NoEnumerate".
Definition set_script : string := "$t=[Console]::In.ReadToEnd(); Set-Clipboard -Value $t".
Definition not_text (mime : string) : option error :=
  if negb (mime =?s "") && negb (mime =?s "text/plain")
  then Some (Errorf ("clipboard: " +:+ mime +:+ " is not supported on Windows")) else None.
Definition trim_byte (b : bytes) (c : ascii) : bytes :=
  match rev b with a :: r => if Ascii.eqb a c then rev r else b | [] => b end.
Definition win_Get (mime : string) : M H bytes :=
  match not_text mime with
  | Some e => throw e
  | None => out <- powershell get_script [] ;; ret (trim_byte (trim_byte out lf) "013")
  end.
Definition win_Paste : M H bytes := win_Get "text/plain".
Definition win_Copy (data : bytes) (mime : string) : M H unit :=
  match not_text mime with
  | Some e => throw e
  | None => powershell set_script data ;;; ret ()
  end.

(** ** notify_linux.go *)

Context (look_path : string → option error).
Definition linux_Send (summary body : string) : M H unit :=
  match look_path "notify-send" with
  | Some e => throw e
  | None =>
      x <- Cmd_Run (mkCommand "notify-send" ["--app-name=adrop"; "--icon=phone"; summary; body] [] false) ;;
      match x_failed x with Some e => throw e | None => ret () end
  end.

(** ** notify_windows.go *)

(** strings.NewReplacer with four one-byte texts to replace. *)
Definition esc_byte (a : ascii) : bytes :=
  if Ascii.eqb a "&" then bs "&amp;"
  else if Ascii.eqb a "<" then bs "&lt;"
  else if Ascii.eqb a ">" then bs "&gt;"
  else if Ascii.eqb a "'" then bs "''"
  else [a].
Definition esc (s : string) : string := str (flat_map esc_byte (bs s)).

Definition quoted (s : string) : string := String dq (s +:+ String dq "").
Definition toast_before : string :=
  "[Windows.UI.Notifications.ToastNotificationManager, Windows.UI.Notifications, ContentType = WindowsRuntime] > $null;" +:+
  "[Windows.Data.Xml.Dom.XmlDocument, Windows.Data.Xml.Dom.XmlDocument, ContentType = WindowsRuntime] > $null;" +:+
  "$x = New-Object Windows.Data.Xml.Dom.XmlDocument;" +:+
  "$x.LoadXml(".
Definition toast_open : string := "<toast><visual><binding template=" +:+ quoted "ToastGeneric" +:+ "><text>".
Definition toast_mid : string := "</text><text>".
Definition toast_close : string := "</text></binding></visual></toast>".
Definition toast_after : string :=
  ");" +:+
  "$id = '{1AC14E77-02E7-4E5D-B744-2EB1AE5198B7}\WindowsPowerShell\v1.0\powershell.exe';" +:+
  "[Windows.UI.Notifications.ToastNotificationManager]::CreateToastNotifier($id).Show([Windows.UI.Notifications.ToastNotification]::new($x))".
Definition toast_script (summary body : string) : string :=
  toast_before +:+ "'" +:+ toast_open +:+ esc summary +:+ toast_mid +:+ esc body +:+ toast_close +:+ "'" +:+ toast_after.
Definition win_Send (summary body : string) : M H unit :=
  x <- Cmd_Run (ps_command (toast_script summary body) [] false) ;;
  match x_failed x with Some e => throw e | None => ret () end.

(** ** What PowerShell and the XML reader make of the text

    [sq] says which characters the shell takes for a single quote. In a
    single-quoted string two of them stand for the first. *)
Context (sq : option bytes → bool).
Fixpoint read_literal (l : list (option bytes)) : option (list (option bytes) * list (option bytes)) :=
  match l with
  | [] => None
  | r :: l' =>
      if sq r then
        match l' with
        | r' :: l'' =>
            if sq r' then
              match read_literal l'' with Some (t, rest) => Some (r :: t, rest) | None => None end
            else Some ([], l')
        | [] => Some ([], [])
        end
      else match read_literal l' with Some (t, rest) => Some (r :: t, rest) | None => None end
  end.
End desktop.

(** The character data of an XML text, as it must be written. *)
Definition xml_byte (a : ascii) : bytes :=
  if Ascii.eqb a "&" then bs "&amp;"
  else if Ascii.eqb a "<" then bs "&lt;"
  else if Ascii.eqb a ">" then bs "&gt;"
  else [a].
Definition xml_text (s : string) : string := str (flat_map xml_byte (bs s)).
Definition toast_xml (summary body : string) : string :=
  toast_open +:+ xml_text summary +:+ toast_mid +:+ xml_text body +:+ toast_close.

(** The inverse: character data up to the next tag. *)
Definition entity (s : bytes) : option (ascii * bytes) :=
  if bool_decide (take 5 s = bs "&amp;") then Some ("&"%char, drop 5 s)
  else if bool_decide (take 4 s = bs "&lt;") then Some ("<"%char, drop 4 s)
  else if bool_decide (take 4 s = bs "&gt;") then Some (">"%char, drop 4 s)
  else None.
Fixpoint xml_chars (fuel : nat) (s : bytes) : option (bytes * bytes) :=
  match fuel, s with
  | S fuel, a :: s' =>
      if Ascii.eqb a "<" then Some ([], s)
      else
        '(c, rest) ← (if Ascii.eqb a "&" then entity s else Some (a, s'));
        '(t, rest) ← xml_chars fuel rest;
        Some (c :: t, rest)
  | _, _ => None
  end.
Definition after_prefix (p s : bytes) : option bytes :=
  if bool_decide (take (length p) s = p) then Some (drop (length p) s) else None.
(** The two texts of the document given to LoadXml. *)
Definition toast_texts (xml : bytes) : option (bytes * bytes) :=
  s ← after_prefix (bs toast_open) xml;
  '(summary, s) ← xml_chars (S (length s)) s;
  s ← after_prefix (bs toast_mid) s;
  '(body, s) ← xml_chars (S (length s)) s;
  if bool_decide (s = bs toast_close) then Some (summary, body) else None.

(** ** Reading back *)

Lemma xml_chars_text b fuel rest :
  (length b < fuel)%nat →
  xml_chars fuel (flat_map xml_byte b ++ "<"%char :: rest) = Some (b, "<"%char :: rest).
Proof.
  revert fuel. induction b as [|a b IH]; intros [|fuel] Hf; cbn [length] in Hf; try lia; [done|].
  cbn [flat_map]. unfold xml_byte at 1.
  assert (∀ name c tl, In (name, c) [("&amp;", "&"%char); ("&lt;", "<"%char); ("&gt;", ">"%char)] →
    xml_chars (S fuel) (bs name ++ tl) = ('(t, rest) ← xml_chars fuel tl; Some (c :: t, rest))) as Hent.
  { intros name c tl Hin. destruct Hin as [[= <- <-]|[[= <- <-]|[[= <- <-]|[]]]]; reflexivity. }
  destruct (Ascii.eqb_spec a "&") as [->|N1]; [|destruct (Ascii.eqb_spec a "<") as [->|N2];
    [|destruct (Ascii.eqb_spec a ">") as [->|N3]]].
  1-3: rewrite <-app_assoc; erewrite Hent by (cbn; eauto); rewrite IH by lia; done.
  apply Ascii.eqb_neq in N1, N2. cbn. rewrite N1, N2. cbn. by rewrite IH by lia.
Qed.
Lemma xml_chars_tag b fuel rest :
  (∃ k, rest = "<"%char :: k) → (length b < fuel)%nat →
  xml_chars fuel (flat_map xml_byte b ++ rest) = Some (b, rest).
Proof. intros [k ->]. apply xml_chars_text. Qed.
Lemma after_prefix_app p s : after_prefix p (p ++ s) = Some s.
Proof. unfold after_prefix. by rewrite take_app_exact, bool_decide_eq_true_2, drop_app_exact by done. Qed.

Lemma length_xml b : (length b ≤ length (flat_map xml_byte b))%nat.
Proof.
  induction b as [|a b IH]; [done|]. cbn [flat_map length]. rewrite length_app. unfold xml_byte at 1.
  repeat case_match; cbn; lia.
Qed.
Lemma toast_texts_xml summary body :
  toast_texts (bs (toast_xml summary body)) = Some (bs summary, bs body).
Proof.
  unfold toast_texts, toast_xml, xml_text. rewrite !bs_app, !bs_str, after_prefix_app. cbn [mbind option_bind].
  rewrite xml_chars_tag; [|by eexists|rewrite length_app; pose proof (length_xml (bs summary)); lia].
  cbn [mbind option_bind]. rewrite after_prefix_app. cbn [mbind option_bind].
  rewrite xml_chars_tag; [|by eexists|rewrite length_app; pose proof (length_xml (bs body)); lia].
  cbn [mbind option_bind]. by rewrite bool_decide_eq_true_2.
Qed.

(** *** Text as a list of characters *)

Lemma runes_cons r tl : rune_ok r → runes (r ++ tl) = Some r :: runes tl.
Proof.
  intros Hr. pose proof (rune_len_app r tl Hr) as Hl. destruct Hr as [Hne Hr].
  assert (∀ f, (length (r ++ tl) ≤ f)%nat → runes_fuel f (r ++ tl) = Some r :: runes_fuel (pred f) tl) as Hf.
  { intros f Hf. destruct r as [|a r]; [done|]. destruct f as [|f]; [cbn in Hf; lia|]. cbn [app runes_fuel].
    change (a :: r ++ tl) with ((a :: r) ++ tl). rewrite Hl. cbn [length].
    change (S (length r)) with (length (a :: r)). by rewrite take_app_length, drop_app_length. }
  unfold runes. rewrite Hf by lia. f_equal.
  assert (∀ f g s, (length s ≤ f)%nat → (length s ≤ g)%nat → runes_fuel f s = runes_fuel g s) as Hfuel.
  { clear. intros f. induction f as [|f IH]; intros [|g] [|a s] H1 H2; cbn [length] in *; try lia; try done.
    cbn [runes_fuel]. destruct (rune_len (a :: s)) as [|k]; f_equal; apply IH; rewrite ?length_drop; cbn [length]; lia. }
  apply Hfuel; [|lia]. rewrite length_app. destruct r; [done|]. cbn. lia.
Qed.
Lemma runes_text rs tl : Forall rune_ok rs → runes (concat rs ++ tl) = map Some rs ++ runes tl.
Proof. induction 1 as [|r rs Hr _ IH]; [done|]. cbn [concat map app]. by rewrite <-app_assoc, runes_cons, IH. Qed.

(** [s] is the text of the characters [rs]. *)
Definition text_of (s : string) (rs : list bytes) : Prop := Forall rune_ok rs ∧ bs s = concat rs.
Definition chars (b : bytes) : list bytes := map (λ a, [a]) b.
Definition on_char (f : ascii → bytes) (r : bytes) : list bytes := match r with [a] => chars (f a) | _ => [r] end.

Lemma concat_chars b : concat (chars b) = b.
Proof. induction b as [|a b IH]; [done|]. change (a :: concat (chars b) = a :: b). by rewrite IH. Qed.
Lemma chars_ok b : Forall (λ a, byteZ a < 128) b → Forall rune_ok (chars b).
Proof.
  induction 1 as [|a b Ha _ IH]; constructor; [|done]. split; [done|]. cbn. by replace (byteZ a <? 128) with true by lia.
Qed.

(** The bytes of a character of more than one byte are not ASCII. *)
Lemma rune_high r : rune_ok r → (1 < length r)%nat → Forall (λ a, 128 ≤ byteZ a) r.
Proof.
  unfold rune_ok, rune_len, in_range, second3, second4, is_cont, in_range. intros [_ H] Hl.
  destruct r as [|a [|b [|c [|d [|e r]]]]]; cbn [length] in *; try lia;
    repeat (case_match; cbn [length] in *; try lia);
    rewrite ?andb_true_iff in *; destruct_and?; repeat constructor; lia.
Qed.

Lemma esc_text f rs :
  (∀ a, 128 ≤ byteZ a → f a = [a]) → Forall rune_ok rs →
  flat_map f (concat rs) = concat (flat_map (on_char f) rs).
Proof.
  intros Hf. assert (∀ r, rune_ok r → flat_map f r = concat (on_char f r)) as Hr.
  { intros r Hok. destruct (rune_ok_inv r Hok) as [(a & -> & Ha)|(a & b & l & -> & Ha)].
    - cbn [flat_map on_char]. by rewrite concat_chars, app_nil_r.
    - cbn [on_char concat]. rewrite app_nil_r. apply rune_high in Hok; [|cbn; lia].
      induction Hok as [|x l' Hx _ IH]; [done|]. cbn [flat_map]. by rewrite IH, Hf. }
  induction 1 as [|r rs Hok _ IH]; [done|]. cbn [concat flat_map]. by rewrite flat_map_app, concat_app, IH, Hr.
Qed.

Lemma map_ok f rs :
  (∀ a, byteZ a < 128 → Forall (λ c, byteZ c < 128) (f a)) → Forall rune_ok rs → Forall rune_ok (flat_map (on_char f) rs).
Proof.
  intros Hf. induction 1 as [|r rs Hok _ IH]; [constructor|]. cbn [flat_map]. apply Forall_app. split; [|done].
  destruct (rune_ok_inv r Hok) as [(a & -> & Ha)|(a & b & l & -> & Ha)]; [by apply chars_ok, Hf|by constructor].
Qed.
Lemma esc_byte_cases a (P : bytes → Prop) :
  (a = "&"%char → P (bs "&amp;")) → (a = "<"%char → P (bs "&lt;")) → (a = ">"%char → P (bs "&gt;")) →
  (a = "'"%char → P (bs "''")) → (a ≠ "'"%char → P [a]) → P (esc_byte a).
Proof.
  intros H1 H2 H3 H4 H5. unfold esc_byte.
  repeat match goal with |- P (if Ascii.eqb a ?c then _ else _) => destruct (Ascii.eqb_spec a c); [by auto|] end.
  auto.
Qed.
Lemma esc_byte_high a : 128 ≤ byteZ a → esc_byte a = [a].
Proof. intros Ha. apply esc_byte_cases; try done; intros ->; by vm_compute in Ha. Qed.
Lemma esc_byte_ascii a : byteZ a < 128 → Forall (λ c, byteZ c < 128) (esc_byte a).
Proof. intros Ha. apply esc_byte_cases; intros; repeat constructor; try done; by vm_compute. Qed.
Lemma xml_byte_esc a : a ≠ "'"%char → xml_byte a = esc_byte a.
Proof. intros Ha. unfold xml_byte, esc_byte. apply Ascii.eqb_neq in Ha. by rewrite Ha. Qed.
Lemma xml_byte_high a : 128 ≤ byteZ a → xml_byte a = [a].
Proof.
  intros Ha. rewrite xml_byte_esc; [by apply esc_byte_high|]. intros ->. by vm_compute in Ha.
Qed.
Lemma xml_byte_ascii a : byteZ a < 128 → Forall (λ c, byteZ c < 128) (xml_byte a).
Proof.
  intros Ha. destruct (decide (a = "'"%char)) as [->|]; [by repeat constructor|].
  rewrite xml_byte_esc by done. by apply esc_byte_ascii.
Qed.

(** ** The literal *)
Section literal.
Context (sq : option bytes → bool).

(** What a shell does at the least: the ASCII apostrophe is a quote and no
    other ASCII character is. *)
Class quotes_ascii : Prop := {
  apostrophe_quotes : sq (Some ["'"%char]) = true;
  ascii_plain a : byteZ a < 128 → a ≠ "'"%char → sq (Some [a]) = false;
}.
Context `{!quotes_ascii}.

(** No character of the text is a quote but the apostrophe. *)
Definition no_other_quote (rs : list bytes) : Prop := Forall (λ r, r = ["'"%char] ∨ sq (Some r) = false) rs.

Definition prepend_chars (t : list (option bytes)) (r : option (list (option bytes) * list (option bytes))) :=
  match r with Some (t', rest) => Some (t ++ t', rest) | None => None end.

Lemma read_plain rs rest :
  Forall (λ r, sq (Some r) = false) rs →
  read_literal sq (map Some rs ++ rest) = prepend_chars (map Some rs) (read_literal sq rest).
Proof.
  induction 1 as [|r rs Hr _ IH]; cbn; [by destruct (read_literal sq rest) as [[]|]|].
  rewrite Hr, IH. by destruct (read_literal sq rest) as [[]|].
Qed.
Lemma chars_plain b : Forall (λ a, byteZ a < 128 ∧ a ≠ "'"%char) b → Forall (λ r, sq (Some r) = false) (chars b).
Proof. induction 1 as [|a b [] _ IH]; constructor; [by apply ascii_plain|done]. Qed.

(** The shell undoes the escaping of a character. *)
Lemma read_char r rest :
  rune_ok r → r = ["'"%char] ∨ sq (Some r) = false →
  read_literal sq (map Some (on_char esc_byte r) ++ rest) =
  prepend_chars (map Some (on_char xml_byte r)) (read_literal sq rest).
Proof.
  intros Hok Hq. destruct (decide (r = ["'"%char])) as [->|Hne].
  { change (read_literal sq (Some ["'"%char] :: Some ["'"%char] :: rest) =
      prepend_chars [Some ["'"%char]] (read_literal sq rest)).
    cbn [read_literal]. by rewrite apostrophe_quotes. }
  destruct Hq as [|Hq]; [done|].
  assert (on_char xml_byte r = on_char esc_byte r) as ->.
  { destruct r as [|a [|]]; [done| |done]. cbn. rewrite xml_byte_esc; [done|]. congruence. }
  apply read_plain. destruct (rune_ok_inv r Hok) as [(a & -> & Ha)|(a & b & l & -> & Ha)]; [|by constructor].
  cbn [on_char]. apply esc_byte_cases; [..|intros ->; done|intros _; by constructor].
  all: intros _; apply chars_plain; repeat constructor; by vm_compute.
Qed.
Lemma read_text rs rest :
  Forall rune_ok rs → no_other_quote rs →
  read_literal sq (map Some (flat_map (on_char esc_byte) rs) ++ rest) =
  prepend_chars (map Some (flat_map (on_char xml_byte) rs)) (read_literal sq rest).
Proof.
  unfold no_other_quote. induction 1 as [|r rs Hok _ IH]; intros Hq; inversion_clear Hq.
  { cbn. by destruct (read_literal sq rest) as [[]|]. }
  cbn [flat_map]. rewrite !map_app, <-app_assoc, read_char, IH by done.
  destruct (read_literal sq rest) as [[]|]; cbn; by rewrite <-?app_assoc.
Qed.
(** Text of the program itself. *)
Lemma read_constant b rest :
  Forall (λ a, byteZ a < 128 ∧ a ≠ "'"%char) b →
  read_literal sq (runes b ++ rest) = prepend_chars (runes b) (read_literal sq rest).
Proof.
  intros Hb. assert (runes b = map Some (chars b)) as ->; [|by apply read_plain, chars_plain].
  rewrite <-(concat_chars b) at 1. rewrite <-(app_nil_r (concat _)), runes_text; [by rewrite app_nil_r|].
  apply chars_ok. eapply Forall_impl; [|exact Hb]. by intros a [].
Qed.
End literal.

(** ** Properties *)

Lemma bs_escaped f s rs :
  (∀ a, 128 ≤ byteZ a → f a = [a]) → text_of s rs →
  bs (str (flat_map f (bs s))) = concat (flat_map (on_char f) rs).
Proof. intros Hf [Hok E]. rewrite bs_str, E. by apply esc_text. Qed.

Lemma read_end sq : quotes_ascii sq →
  read_literal sq (runes (bs ("'" +:+ toast_after))) = Some ([], runes (bs toast_after)).
Proof.
  intros Hq. change (runes (bs ("'" +:+ toast_after))) with (Some ["'"%char] :: runes (bs toast_after)).
  assert (∃ l, runes (bs toast_after) = Some [")"%char] :: l) as [l ->] by (by eexists).
  cbn [read_literal]. rewrite apostrophe_quotes by done. rewrite ascii_plain; done.
Qed.

Definition fixed (b : bytes) : Prop := Forall (λ a, byteZ a < 128 ∧ a ≠ "'"%char) b.
Lemma fixed_dec b : forallb (λ a, (byteZ a <? 128) && negb (Ascii.eqb a "'")) b = true → fixed b.
Proof.
  intros H. rewrite forallb_forall in H. unfold fixed. rewrite List.Forall_forall.
  intros a Ha%H. apply andb_true_iff in Ha as [H1 H2]. split; [lia|].
  by apply negb_true_iff, Ascii.eqb_neq in H2.
Qed.

(** A part of the script between constants. *)
Lemma runes_fixed b tl : fixed b → runes (b ++ tl) = runes b ++ runes tl.
Proof.
  intros Hb. assert (Forall rune_ok (chars b)) as Hok by (apply chars_ok; eapply Forall_impl; [|exact Hb]; by intros a []).
  rewrite <-(concat_chars b). rewrite runes_text by done. f_equal.
  rewrite <-(app_nil_r (concat _)), runes_text by done. by rewrite app_nil_r.
Qed.

Lemma prepend_prepend t u r : prepend_chars t (prepend_chars u r) = prepend_chars (t ++ u) r.
Proof. destruct r as [[]|]; cbn; [by rewrite app_assoc|done]. Qed.
(** Texts between constants are read back one after the other. *)
Lemma read_document sq o m c tail rs rb :
  quotes_ascii sq → fixed o → fixed m → fixed c →
  Forall rune_ok rs → Forall rune_ok rb → no_other_quote sq rs → no_other_quote sq rb →
  let doc f := o ++ concat (flat_map (on_char f) rs) ++ m ++ concat (flat_map (on_char f) rb) ++ c in
  read_literal sq (runes (doc esc_byte ++ tail)) = prepend_chars (runes (doc xml_byte)) (read_literal sq (runes tail)).
Proof.
  intros Hq F1 F2 F3 Os Ob Qs Qb doc. unfold doc.
  pose proof (map_ok esc_byte rs esc_byte_ascii Os) as E1. pose proof (map_ok esc_byte rb esc_byte_ascii Ob) as E2.
  pose proof (map_ok xml_byte rs xml_byte_ascii Os) as E3. pose proof (map_ok xml_byte rb xml_byte_ascii Ob) as E4.
  rewrite <-!app_assoc. rewrite !(runes_fixed o _ F1), !(runes_text _ _ E1), !(runes_text _ _ E3).
  rewrite !(runes_fixed m _ F2), !(runes_text _ _ E2), !(runes_text _ _ E4), (runes_fixed c _ F3).
  rewrite read_constant, read_text, read_constant, read_text, read_constant by done.
  rewrite !prepend_prepend, <-?app_assoc. done.
Qed.


(** A shell for which only the apostrophe quotes. *)
Definition plain_shell (r : option bytes) : bool := bool_decide (r = Some ["'"%char]).
Lemma plain_shell_ascii : quotes_ascii plain_shell.
Proof.
  split; [by apply bool_decide_eq_true_2|]. intros a _ Ha. apply bool_decide_eq_false_2. congruence.
Qed.
Definition all_chars (s : string) : list bytes := omap id (runes (bs s)).
Lemma ascii_text s : forallb (λ a, byteZ a <? 128) (bs s) = true → text_of s (chars (bs s)).
Proof.
  intros Hs. rewrite forallb_forall in Hs. split; [|by rewrite concat_chars].
  apply chars_ok. rewrite List.Forall_forall. intros a Ha%Hs. lia.
Qed.
Lemma plain_shell_text rs : no_other_quote plain_shell rs.
Proof.
  unfold no_other_quote. rewrite List.Forall_forall. intros r _. unfold plain_shell.
  case_bool_decide; naive_solver.
Qed.

(** PowerShell also takes the typographic quotes U+2018 to U+201B for single
    quotes. For such a shell the name of a stranger who asks to pair can end
    the string and go on with commands of its own. *)
Definition curly (last : Z) : bytes := [Zbyte 226; Zbyte 128; Zbyte last].
Definition curly_shell (r : option bytes) : bool :=
  existsb (λ q, bool_decide (r = Some q)) [["'"%char]; curly 152; curly 153; curly 154; curly 155].
Example curly_quote_ends_the_string :
  let name := str (curly 153) +:+ ");calc;#" in
  let rest := toast_open +:+ esc ("Pairing request from " +:+ name) +:+ toast_mid +:+ esc "Code" +:+ toast_close +:+ "'" +:+ toast_after in
  toast_script ("Pairing request from " +:+ name) "Code" = toast_before +:+ "'" +:+ rest ∧
  (snd <$> read_literal curly_shell (runes (bs rest))) =
    Some (runes (bs (");calc;#" +:+ toast_mid +:+ "Code" +:+ toast_close +:+ "'" +:+ toast_after))).
Proof. by vm_compute. Qed.

(** ** The clipboard *)

Section windows.
Context {H : Type} (run : command → H → exec_result * H) (clip : H → bytes).

(** What the two cmdlets do to text: Set-Clipboard keeps it, Get-Clipboard
    prints it and Write-Output ends the line; neither leaves a process. *)
Class clipboard_cmdlets : Prop := {
  set_keeps data h : data ≠ [] → utf8 (str data) →
    let '(x, h') := run (ps_command (psPrelude +:+ set_script) data true) h in
    x_failed x = None ∧ x_detached x = false ∧ clip h' = data;
  get_prints h :
    let '(x, h') := run (ps_command (psPrelude +:+ get_script) [] true) h in
    x_failed x = None ∧ x_detached x = false ∧ x_out x = clip h ++ ["013"%char; lf] ∧ clip h' = clip h;
}.
End windows.

Lemma trim_byte_last b c : trim_byte (b ++ [c]) c = b.
Proof. unfold trim_byte. by rewrite rev_unit, Ascii.eqb_refl, rev_involutive. Qed.

(** C99: on Windows the clipboard keeps what it is given. Text that was copied
    is pasted byte for byte, line ends at its end included; and no command
    runs for a type that is not text. *)
Theorem windows_clipboard_roundtrip {H} (run : command → H → exec_result * H) clip data mime mime' h :
  clipboard_cmdlets run clip → data ≠ [] → utf8 (str data) →
  not_text mime = None → not_text mime' = None →
  let '(r, h') := win_Copy run data mime h in
  r = Ok () ∧ clip h' = data ∧ (win_Get run mime' h').1 = Ok data ∧
  ∀ image, not_text image ≠ None →
    ∃ e, win_Copy run data image h = (Err e, h) ∧ win_Get run image h = (Err e, h).
Proof.
  intros [Hset Hget] Hne Hu Hm Hm'. unfold win_Copy, win_Get, powershell, Cmd_Run. rewrite Hm, Hm'.
  specialize (Hset data h Hne Hu). unfold bind, ret, throw. cbn [cmd_Captured ps_command andb].
  destruct (run _ h) as [x h'] eqn:E. destruct Hset as (Ef & Ed & Ec). rewrite Ed, Ef.
  split_and!; [done|done| |].
  - specialize (Hget h'). destruct (run _ h') as [y h'']. destruct Hget as (Ef' & Ed' & Eo & _).
    rewrite Ed', Ef', Eo, Ec. cbn [fst]. change ["013"%char; lf] with (["013"%char] ++ [lf]).
    by rewrite app_assoc, !trim_byte_last.
  - intros image Hi. destruct (not_text image) as [e|]; [|done]. by exists e.
Qed.

(** A host whose state is the clipboard. *)
Definition demo_clip_run (c : command) (h : bytes) : exec_result * bytes :=
  match cmd_Args c with
  | [_; _; _; script] =>
      if script =?s psPrelude +:+ set_script then (mkExecResult [] [] None false, cmd_Stdin c)
      else (mkExecResult (h ++ ["013"%char; lf]) [] None false, h)
  | _ => (mkExecResult [] [] (Some (Errno ENOENT)) false, h)
  end.
Lemma demo_cmdlets : clipboard_cmdlets demo_clip_run id.
Proof. split; [by intros data h _ _|by intros h]. Qed.
Lemma windows_clipboard_roundtrip_witness :
  let '(r, h') := win_Copy demo_clip_run (bs "two lines" ++ [lf]) "text/plain" [] in
  r = Ok () ∧ h' = bs "two lines" ++ [lf] ∧ (win_Get demo_clip_run "" h').1 = Ok (bs "two lines" ++ [lf]) ∧
  ∀ image, not_text image ≠ None →
    ∃ e, win_Copy demo_clip_run (bs "two lines" ++ [lf]) image [] = (Err e, []) ∧ win_Get demo_clip_run image [] = (Err e, []).
Proof.
  apply (windows_clipboard_roundtrip demo_clip_run id); [exact demo_cmdlets|done|by vm_compute|reflexivity|reflexivity].
Defined.

(** ** No tool holds a transfer up

    wl-copy leaves a process behind that serves the selection until it is
    overwritten. Copy captures nothing, so it returns all the same; wl-paste
    is captured and would not. *)
Lemma Cmd_Run_returns {H} (run : command → H → exec_result * H) c h :
  cmd_Captured c = false → finished (Cmd_Run run c h).1 = true.
Proof. intros Hc. unfold Cmd_Run. destruct (run c h). by rewrite Hc. Qed.
Lemma tools_return {H} (run : command → H → exec_result * H) look_path data mime summary body h :
  finished (wl_Copy run data mime h).1 = true ∧ finished (linux_Send run look_path summary body h).1 = true ∧
  finished (win_Send run summary body h).1 = true.
Proof.
  assert (∀ c (k : exec_result → M H unit), cmd_Captured c = false → (∀ x h, finished (k x h).1 = true) →
    finished ((x <- Cmd_Run run c ;; k x) h).1 = true) as Hk.
  { intros c k Hc Hk. pose proof (Cmd_Run_returns run c h Hc) as Hf. unfold bind.
    destruct (Cmd_Run run c h) as [[] h']; try done; apply Hk. }
  split_and!.
  - apply Hk; [done|]. intros x h'. by destruct (x_failed x).
  - unfold linux_Send. destruct (look_path _); [done|]. apply Hk; [done|]. intros x h'. by destruct (x_failed x).
  - apply Hk; [done|]. intros x h'. by destruct (x_failed x).
Qed.
Example captured_copy_hangs :
  let lingering (_ : command) (h : unit) := (mkExecResult [] [] None true, h) in
  wl_Copy lingering (bs "text") "" () = (Ok (), ()) ∧
  Cmd_Run lingering (mkCommand "wl-copy" ["-t"; "text/plain"] (bs "text") true) () = (Block, ()).
Proof. done. Qed.

(** notify-send reads a text that begins with a hyphen as an option: it is
    passed as it is. *)
Example hyphen_is_passed_on :
  (linux_Send (λ c (_ : list string), (mkExecResult [] [] None false, cmd_Args c)) (λ _, None) "Clipboard from pc" "--version" []).2 =
  ["--app-name=adrop"; "--icon=phone"; "Clipboard from pc"; "--version"].
Proof. done. Qed.
