(* ===== verification/Startup.v ===== *)
(** * cmd/adrop: starting the daemon, and starting it at login

    runDaemon of daemon.go: the environment becomes the daemon's options, the
    store is opened, the daemon built and run. autostart_windows.go and
    autostart_other.go: the value under the Run key. *)

From S2P Require Import Prelude GoStrings GoFmt Go GoNet Fs Proto Ipc Paths Receive Config Rns Hubs World Signals Cli Serve Desktop.
From Stdlib Require Import ZArith Lia String Ascii List Bool.
From stdpp Require Import base list strings gmap option numbers.

#[local] Open Scope string_scope.
#[local] Open Scope list_scope.
#[local] Open Scope Z_scope.

(** ** daemon.go *)

Definition splitList (s : string) : list string :=
  List.filter (λ f, negb (f =?s "")) (map trim_space (split_on "," s)).

(** The port: ADROP_PORT where it is a number. *)
Definition env_port (p : string) : Z :=
  if p =?s "" then DefaultPort else default DefaultPort (parse_int p).

Definition env_options (getenv : string → string) (cs : cstate) : Options :=
  mkOptions (Some cs) (getenv "ADROP_NAME") (env_port (getenv "ADROP_PORT")) (getenv "ADROP_ADVERTISE_IP") ""
    (getenv "ADROP_DOWNLOAD_DIR") (getenv "ADROP_RELAY") (getenv "ADROP_TAP_PAIR" =?s "1")
    (getenv "ADROP_RNS" =?s "1") (splitList (getenv "ADROP_RNS_HUBS")) false.

(** Where the log goes, kept from earlier runs: [None] is standard error. *)
Definition log_file (dir : string) : string := path_join dir "daemon.log".
(** os.OpenFile with O_CREATE and O_APPEND. *)
Definition open_create_append (p : string) : M fs unit :=
  can_create p ;;;
  faulty (modify (λ s, match fs_nodes s !! p with Some _ => s | None => fs_set p (NFile []) s end)).
Definition logOutput (windows : bool) (dir : string) : M fs (option string) :=
  if negb windows then ret None
  else
    let path := log_file dir in
    ignore (mkdir_all "/" (List.filter (λ p, negb (p =?s "")) (split_on "/" (path_dir path)))) ;;;
    r <- try (open_create_append path) ;;
    match r with inr _ => ret None | inl _ => ret (Some path) end.

Section startup.
Context (X509KeyPair : bytes → bytes → bytes + error) (fresh : bytes * bytes).
Context (id_of_file : bytes → bytes + error) (id_to_file : bytes → bytes) (fresh_id : bytes).
Context (listen : string → option error) (ipc_listen : string + error).
Context (getenv : string → string) (windows : bool) (home : string) (config : option string).
Context (hostname : string) (netw : netview).

Definition host : host_env := mkHostEnv hostname home (getenv "ADROP_RELAY") netw.
Definition config_dir : string := Dir getenv windows home config.

(** A daemon that came up runs until a signal ends it: [inl] is its tasks and
    its state at that point, and runDaemon then returns no error. *)
Definition runDaemon (disk : fs) (now : Z) : (list task * Daemon) + error :=
  match Open X509KeyPair fresh config_dir (mkCstate (mkStore "" [] [] "") disk now) with
  | (Ok _, cs) =>
      match on_store_fs (logOutput windows config_dir) cs with
      | (Ok _, cs) =>
          match New host (env_options getenv cs) with
          | inr e => inr e
          | inl d =>
              match Run id_of_file id_to_file fresh_id listen ipc_listen d with
              | (Ok tasks, d') => inl (tasks, d')
              | (Err e, _) => inr e
              | _ => inr Go.EOF
              end
          end
      | _ => inr Go.EOF
      end
  | (Err e, _) => inr e
  | _ => inr Go.EOF
  end.
End startup.

(** ** autostart_windows.go, autostart_other.go *)

(** The Run key of the current user, as far as the value "adrop" goes, with
    the errors of the operations to come. *)
Record registry := mkRegistry { rg_value : option string; rg_faults : list (option error) }.
Definition rg_op (upd : registry → res unit * registry) : M registry unit := λ r,
  match rg_faults r with
  | Some e :: l => (Err e, mkRegistry (rg_value r) l)
  | None :: l => upd (mkRegistry (rg_value r) l)
  | [] => upd r
  end.
Definition ErrNotExist : error := Errno ENOENT.
Definition CreateKey : M registry unit := rg_op (λ r, (Ok (), r)).
Definition DeleteValue : M registry unit := rg_op (λ r,
  match rg_value r with
  | Some _ => (Ok (), mkRegistry None (rg_faults r))
  | None => (Err ErrNotExist, r)
  end).
Definition SetStringValue (v : string) : M registry unit := rg_op (λ r, (Ok (), mkRegistry (Some v) (rg_faults r))).

Section autostart.
(** os.Executable; the Windows path functions; which files there are. *)
Context (self : string + error) (Dir_of : string → string) (Join : string → string → string) (exists_file : string → bool).

Definition autostart_usage : error := Errorf "usage: adrop autostart on|off".
Definition daemon_exe (self : string) : string :=
  let d := Join (Dir_of self) "adrop-daemon.exe" in if exists_file d then d else self.
Definition run_value (exe : string) : string := quote exe +:+ " daemon".

(** The result is the line that is printed. *)
Definition autostart_off : M registry string :=
  r <- try DeleteValue ;;
  match r with
  | inr e => if bool_decide (e = ErrNotExist) then ret "adrop no longer starts at login" else throw e
  | inl _ => ret "adrop no longer starts at login"
  end.
Definition autostart_on : M registry string :=
  match self with
  | inr e => throw e
  | inl self =>
      let exe := daemon_exe self in
      SetStringValue (run_value exe) ;;;
      ret ("adrop starts at login: " +:+ exe +:+ " daemon")
  end.
Definition win_runAutostart (args : list string) : M registry string :=
  match args with
  | [a] =>
      if negb (a =?s "on") && negb (a =?s "off") then throw autostart_usage
      else CreateKey ;;; (if a =?s "off" then autostart_off else autostart_on)
  | _ => throw autostart_usage
  end.
End autostart.

Definition other_runAutostart (args : list string) : M registry string :=
  throw (Errorf "on Linux the daemon starts with systemd: systemctl --user enable --now adrop").

(** ** Lists in the environment *)

(** A list written with commas is read back, spaces around its items or not. *)
Lemma splitList_join l :
  Forall (λ f, trim_space f = f ∧ f ≠ "" ∧ no_byte "," f) l → splitList (join_with "," l) = l.
Proof.
  intros Hl. destruct l as [|x l]; [done|]. unfold splitList.
  change "," with (String "," ""). rewrite split_on_join; [|done|].
  2: { eapply Forall_impl; [|exact Hl]. naive_solver. }
  induction Hl as [|f l' (Ht & Hne & _) _ IH]; [done|]. cbn [map List.filter].
  apply String.eqb_neq in Hne. by rewrite Ht, Hne, IH.
Qed.
Example split_spaces : splitList " a:1, b:2 ,,c:3 " = ["a:1"; "b:2"; "c:3"] ∧ splitList "" = [].
Proof. by vm_compute. Qed.

(** ** The store keeps its directory *)

Definition in_dir (dir : string) (s : cstate) : Prop := s_dir (cs_store s) = dir.

Lemma on_fs_in_dir {A} dir (m : M fs A) : triple (in_dir dir) (on_store_fs m) (λ _, in_dir dir) (in_dir dir).
Proof.
  intros s r s' Hs (_ & E & _)%on_store_fs_inv. unfold in_dir in *. destruct r; by rewrite E.
Qed.
Lemma store_in_dir dir : triple (in_dir dir) store (λ st s, s_dir st = dir ∧ in_dir dir s) (in_dir dir).
Proof. by intros s r s' Hs [= <- <-]. Qed.
Lemma set_in_dir dir st : s_dir st = dir → triple (in_dir dir) (set_store st) (λ _, in_dir dir) (in_dir dir).
Proof. by intros Hd s r s' Hs [= <- <-]. Qed.
Lemma return_in_dir {A} dir (r : A + error) : triple (in_dir dir) (of_res r) (λ _, in_dir dir) (in_dir dir).
Proof. destruct r; by intros s r' s' Hs [= <- <-]. Qed.

Lemma triple_read {A} dir (m : M fs A) {B} (k : A + error → M cstate B) :
  (∀ r, triple (in_dir dir) (k r) (λ _, in_dir dir) (in_dir dir)) →
  triple (in_dir dir) (r <- try (on_store_fs m) ;; k r) (λ _, in_dir dir) (in_dir dir).
Proof.
  intros Hk. eapply triple_bind; [apply triple_try, on_fs_in_dir|]. intros r. eapply triple_pre; [apply Hk|].
  by intros s; destruct r.
Qed.
Lemma triple_store {B} dir (k : Store → M cstate B) :
  (∀ st, s_dir st = dir → triple (in_dir dir) (k st) (λ _, in_dir dir) (in_dir dir)) →
  triple (in_dir dir) (st <- store ;; k st) (λ _, in_dir dir) (in_dir dir).
Proof.
  intros Hk. eapply triple_bind; [apply store_in_dir|]. intros st s r s' [Hst Hs] E. by apply (Hk st Hst s r s').
Qed.
Lemma triple_seq_dir {A B} dir (m : M cstate A) (k : A → M cstate B) :
  triple (in_dir dir) m (λ _, in_dir dir) (in_dir dir) →
  (∀ a, triple (in_dir dir) (k a) (λ _, in_dir dir) (in_dir dir)) →
  triple (in_dir dir) (a <- m ;; k a) (λ _, in_dir dir) (in_dir dir).
Proof. intros Hm Hk. by eapply triple_bind. Qed.
Lemma throw_in_dir {A} dir e : triple (in_dir dir) (throw (A:=A) e) (λ _, in_dir dir) (in_dir dir).
Proof. apply triple_throw. Qed.
Create HintDb dir.
#[local] Hint Resolve on_fs_in_dir set_in_dir return_in_dir triple_read triple_store triple_seq_dir throw_in_dir : dir.
#[local] Hint Extern 1 (s_dir _ = _) => done : dir.

Lemma createIdentity_dir fresh X509 dir :
  triple (in_dir dir) (createIdentity X509 fresh) (λ _, in_dir dir) (in_dir dir).
Proof. unfold createIdentity. apply triple_store. intros st Hst. destruct fresh. auto 10 with dir. Qed.
#[local] Hint Resolve createIdentity_dir : dir.
Lemma loadOrCreateIdentity_dir fresh X509 dir :
  triple (in_dir dir) (loadOrCreateIdentity X509 fresh) (λ _, in_dir dir) (in_dir dir).
Proof.
  unfold loadOrCreateIdentity. apply triple_store. intros st Hst. apply triple_read. intros key.
  apply triple_read. intros crt. repeat case_match; auto with dir.
Qed.
Lemma loadDevices_dir dir : triple (in_dir dir) loadDevices (λ _, in_dir dir) (in_dir dir).
Proof.
  unfold loadDevices. apply triple_store. intros st Hst. apply triple_read. intros r.
  repeat case_match; auto with dir.
Qed.

Lemma Open_dir X509 fresh dir s a s' :
  Open X509 fresh dir s = (Ok a, s') → in_dir dir s'.
Proof.
  unfold Open. intros (r & s1 & _ & E)%bind_Ok_inv. destruct r as [u|e]; [|done].
  apply bind_Ok_inv in E as ([] & s2 & [= <-] & E).
  assert (triple (in_dir dir) (loadOrCreateIdentity X509 fresh ;;; loadDevices) (λ _, in_dir dir) (in_dir dir)) as Ht.
  { apply triple_seq_dir; [apply loadOrCreateIdentity_dir|]. intros _. apply loadDevices_dir. }
  refine (Ht _ _ _ _ E). reflexivity.
Qed.

(** ** Run keeps what New set *)

Definition same_setup (d d' : Daemon) : Prop :=
  d_set d = d_set d' ∧ d_store d = d_store d' ∧ d_tcpAddr d = d_tcpAddr d'.
#[export] Instance same_setup_preorder : PreOrder same_setup.
Proof. split; [by intros d|]. intros d1 d2 d3 (?&?&?) (?&?&?). unfold same_setup. split_and!; congruence. Qed.
#[local] Hint Extern 1 (PreOrder _) => apply _ : keeps.

Lemma on_daemon_fs_setup {A} (m : M fs A) : keeps same_setup (on_daemon_fs m).
Proof.
  intros d r d' (c & (_ & E & _)%on_store_fs_inv & ->)%zoom_inv. split; [done|]. split; [|done].
  unfold d_store. cbn. congruence.
Qed.
Lemma on_rns_setup f : keeps same_setup (on_rns f).
Proof. apply keeps_modify. done. Qed.
#[local] Hint Resolve on_daemon_fs_setup on_rns_setup : keeps.

Section running.
Context (id_of_file : bytes → bytes + error) (id_to_file : bytes → bytes) (fresh_id : bytes).
Context (listen : string → option error) (ipc_listen : string + error).

Lemma startRNS_setup : keeps same_setup (startRNS id_of_file id_to_file fresh_id).
Proof. unfold startRNS. apply keeps_bind; [apply _|auto with keeps|]. intros d. apply keeps_bind; [apply _|auto with keeps|].
  intros [n|e]; auto with keeps. Qed.
#[local] Hint Resolve startRNS_setup : keeps.
Lemma mkdir_downloads_setup : keeps same_setup mkdir_downloads.
Proof.
  unfold mkdir_downloads. apply keeps_bind; [apply _|auto with keeps|]. intros d.
  apply keeps_bind; [apply _|auto with keeps|]. intros []; auto with keeps.
Qed.
Lemma listen_peers_setup : keeps same_setup (listen_peers listen).
Proof. unfold listen_peers. apply keeps_bind; [apply _|auto with keeps|]. intros d. case_match; auto with keeps. Qed.
#[local] Hint Resolve mkdir_downloads_setup listen_peers_setup : keeps.
Lemma Run_setup : keeps same_setup (Run id_of_file id_to_file fresh_id listen ipc_listen).
Proof.
  unfold Run. do 2 (apply keeps_bind; [apply _|auto with keeps|intros _]).
  destruct ipc_listen; [|auto with keeps]. apply keeps_bind; [apply _|auto with keeps|]. intros d.
  apply keeps_bind; [apply _| |auto with keeps]. destruct (o_rnsEnabled _); [|auto with keeps].
  apply keeps_bind; auto with keeps.
Qed.

(** What runs after Run came up. *)
Definition rns_tasks : list task := [HubRounds; HubCatalog; RnsInbox; SendQueue].
Lemma startRNS_tasks d l m d' :
  startRNS id_of_file id_to_file fresh_id d = (Ok (l, m), d') →
  (∀ t, t ∈ l → t ∈ rns_tasks) ∧ (HubCatalog ∈ l → o_rnsHubs (d_set d) = []).
Proof.
  intros E. unfold startRNS in E. apply bind_Ok_inv in E as (x & d1 & [= <- <-] & E).
  apply bind_Ok_inv in E as (r & d2 & _ & E). destruct r as [n|e].
  - apply bind_Ok_inv in E as (u & d3 & _ & [= <- _ _]). case_bool_decide as Hh; cbn; unfold rns_tasks.
    + split; [|done]. intros t. rewrite !elem_of_cons. naive_solver.
    + split; [intros t|]; rewrite !elem_of_cons, elem_of_nil; naive_solver.
  - injection E as <- _ _. split; [intros t|]; intros Ht; by apply elem_of_nil in Ht.
Qed.
Lemma Run_tasks d l d' :
  Run id_of_file id_to_file fresh_id listen ipc_listen d = (Ok l, d') →
  listen (JoinHostPort (o_listenIP (d_set d)) (itoa (o_port (d_set d)))) = None ∧
  (∀ t, t ∈ [PeerListener; IpcListener; MdnsAdvertise; MdnsBrowse] → t ∈ l) ∧
  (∀ t, t ∈ l → t ∈ rns_tasks → o_rnsEnabled (d_set d) = true) ∧
  (HubCatalog ∈ l → o_rnsHubs (d_set d) = []).
Proof.
  intros E. unfold Run in E. apply bind_Ok_inv in E as ([] & d1 & Ed & E). apply mkdir_downloads_setup in Ed as (Ed & _ & _).
  apply bind_Ok_inv in E as ([] & d2 & El & E). pose proof (listen_peers_setup _ _ _ El) as (Ed2 & _ & _).
  unfold listen_peers in El. apply bind_Ok_inv in El as (x & d3 & [= <- <-] & El).
  rewrite <-Ed in El, Ed2. destruct (listen _) eqn:Hl in El; [done|]. split; [exact Hl|].
  destruct ipc_listen; [|done]. apply bind_Ok_inv in E as (x & d4 & [= <- <-] & E).
  rewrite <-Ed2 in E. apply bind_Ok_inv in E as (started & d5 & Es & [= <- _]).
  assert ((∀ t, t ∈ started → t ∈ rns_tasks ∧ o_rnsEnabled (d_set d) = true) ∧ (HubCatalog ∈ started → o_rnsHubs (d_set d) = []))
    as [H1 H2].
  { destruct (o_rnsEnabled (d_set d)).
    - apply bind_Ok_inv in Es as ([l' m] & d6 & Er & [= <- _]). apply startRNS_tasks in Er as [Hin Hc].
      rewrite <-Ed2 in Hc. split; [intros t Ht; split; [by apply Hin|done]|done].
    - injection Es as <- _. split; [intros t|]; intros Ht; by apply elem_of_nil in Ht. }
  split_and!.
  - intros t Ht. rewrite !elem_of_cons, elem_of_app, !elem_of_cons in *. naive_solver.
  - intros t Ht Hr. rewrite !elem_of_cons, elem_of_app, !elem_of_cons, elem_of_nil in Ht.
    destruct Ht as [->|[->|[Ht|Ht]]]; [| |by apply (H1 t)|].
    all: unfold rns_tasks in Hr; rewrite !elem_of_cons, elem_of_nil in Hr; naive_solver.
  - rewrite !elem_of_cons, elem_of_app, !elem_of_cons, elem_of_nil. naive_solver.
Qed.
End running.

(** ** Properties *)

Definition or_else (a b : string) : string := if a =?s "" then b else a.


(** A daemon on another port, with tap pairing and without Reticulum. *)
Definition demo_env_vars (k : string) : string :=
  if k =?s "ADROP_CONFIG_DIR" then "/cfg" else if k =?s "ADROP_PORT" then "5000"
  else if k =?s "ADROP_TAP_PAIR" then "1" else if k =?s "ADROP_RNS" then "yes" else "".
Definition demo_start : (list task * Daemon) + error :=
  runDaemon (λ _ _, inl (bs "cert")) (bs "cert", bs "key") (λ _, inr EOF) id [] (λ _, None) (inl "/run/adrop.sock")
    demo_env_vars false "/h" None "pc" (mkNetview (Some "192.168.1.5") []) (mkFs {["/h" := NDir]} []) 0.

(** *** Starting at login *)

Lemma rg_op_spec upd r :
  (∃ e l, rg_faults r = Some e :: l ∧ rg_op upd r = (Err e, mkRegistry (rg_value r) l)) ∨
  (∃ l, rg_op upd r = upd (mkRegistry (rg_value r) l)).
Proof.
  unfold rg_op. destruct r as [v [|[e|] l]]; cbn; [right; by exists []|left; by exists e, l|right; by exists l].
Qed.

(** What the command leaves behind, on every branch: success sets the value or
    removes it, also when there was none; any error leaves it alone. The
    registry says that a value does not exist only when it does not. *)
Lemma win_runAutostart_spec self Dir_of Join exists_file args r :
  Some ErrNotExist ∉ rg_faults r →
  let '(res, r') := win_runAutostart self Dir_of Join exists_file args r in
  match res with
  | Ok _ =>
      (args = ["on"] ∧ ∃ exe, self = inl exe ∧ rg_value r' = Some (run_value (daemon_exe Dir_of Join exists_file exe))) ∨
      (args = ["off"] ∧ rg_value r' = None)
  | Err _ => rg_value r' = rg_value r
  | _ => False
  end.
Proof.
  destruct r as [v faults]. cbn [rg_faults]. intros Hf. unfold win_runAutostart. destruct args as [|a [|]]; try done.
  destruct (String.eqb_spec a "on") as [->|Hon]; [|destruct (String.eqb_spec a "off") as [->|Hoff]]; cbn [negb andb]; [| |done].
  all: unfold CreateKey, rg_op, bind; cbn [rg_faults rg_value].
  - change ("on" =?s "off") with false. cbv iota. unfold autostart_on. destruct self as [exe|e].
    + unfold SetStringValue, rg_op, bind, ret.
      destruct faults as [|[e|] [|[e'|] l]]; cbn; try done; left; (split; [done|]; by exists exe).
    + by destruct faults as [|[e'|] l].
  - change ("off" =?s "off") with true. cbv iota. unfold autostart_off, DeleteValue, rg_op, bind, try, ret, throw.
    destruct faults as [|[e|] [|[e'|] l]]; cbn; try done; try (destruct v; cbn; by right).
    case_bool_decide as He; [|done]. subst e'. set_solver.
Qed.

(** %q doubles the backslashes of a Windows path, so the value is not the
    program's path; on a share it is not even an equivalent one. *)
Example run_value_doubles :
  run_value "\\nas\apps\adrop.exe" = quoted "\\\\nas\\apps\\adrop.exe" +:+ " daemon".
Proof. by vm_compute. Qed.
