(* ===== verification/Direct.v ===== *)
(** * internal/direct: setting up a direct channel

    setup of direct.go: ICE over the signalling messages, QUIC over ICE. The
    ICE agent and QUIC are libraries: what each call answers is given, and the
    model records which calls are made, in their order. *)

From S2P Require Import Prelude GoStrings Go Ipc World.
From Stdlib Require Import ZArith Lia String Ascii List Bool.
From stdpp Require Import base list strings gmap option numbers.

#[local] Open Scope string_scope.
#[local] Open Scope list_scope.
#[local] Open Scope Z_scope.

Definition DefaultSTUN : list string :=
  ["stun:stun.l.google.com:19302"; "stun:stun.cloudflare.com:3478"; "stun:stun.nextcloud.com:443"].
Definition ALPN : string := "adrop/1".

(** [opt_STUN] is [None] for nil, which takes the default. *)
Record direct_Options := mkDirectOptions { opt_STUN : option (list string); opt_Loopback : bool; opt_Timeout : Z }.
Definition second : Z := 10 ^ 9.
Definition setup_timeout (o : direct_Options) : Z := if opt_Timeout o =? 0 then 30 * second else opt_Timeout o.

(** What the agent is made with. *)
Record agent_config := mkAgentConfig { ac_urls : list string; ac_reflexive : bool; ac_loopback : bool }.
#[export] Instance agent_config_eq_dec : EqDecision agent_config.
Proof. solve_decision. Defined.

(** The calls that leave a trace. *)
Inductive call :=
  | NewAgent (c : agent_config)
  | Signalled (m : Msg)
  | Gathered
  | AddedRemote (cand : string)
  | Connected (controlling : bool) (ufrag pwd : string)
  | QuicDial (protos : list string)
  | QuicListen (protos : list string)
  | TransportClose
  | AgentClose.
#[export] Instance call_eq_dec : EqDecision call.
Proof. solve_decision. Defined.

(** The libraries and the peer. [incoming] are the signalling messages that
    arrive before the context ends; [candidates] those the agent finds. *)
Record direct_env := mkDirectEnv {
  de_parse_uri : string → option error;
  de_new_agent : option error;
  de_on_candidate : option error;
  de_credentials : (string * string) + error;
  de_signal : Msg → option error;
  de_gather : option error;
  de_candidates : list string;
  de_incoming : list Msg;
  de_unmarshal : string → bool;
  de_connect : option error;
  de_quic : option error;      (* dialling or listening *)
  de_accept : option error;    (* ln.Accept, on the listening side *)
  de_stream : option error;
}.

Definition log (c : call) : M (list call) unit := modify (λ l, l ++ [c]).
Definition maybe_fail (wrap : error → error) (r : option error) : M (list call) unit :=
  match r with Some e => throw (wrap e) | None => ret () end.

Section setup.
Context (env : direct_env).

Fixpoint parse_uris (l : list string) : option error :=
  match l with
  | [] => None
  | s :: l => match de_parse_uri env s with Some e => Some e | None => parse_uris l end
  end.
Definition newAgent (opt : direct_Options) : M (list call) unit :=
  let servers := default DefaultSTUN (opt_STUN opt) in
  maybe_fail id (parse_uris servers) ;;;
  maybe_fail id (de_new_agent env) ;;;
  log (NewAgent (mkAgentConfig servers (bool_decide (servers ≠ [])) (opt_Loopback opt))).

Fixpoint each_call {A} (f : A → M (list call) unit) (l : list A) : M (list call) unit :=
  match l with [] => ret () | x :: l => f x ;;; each_call f l end.

(** The goroutine over the incoming messages: candidates go to the agent. *)
Definition take_incoming : M (list call) unit :=
  each_call (λ m, if (m_Kind m =?s "cand") && de_unmarshal env (m_Cand m) then log (AddedRemote (m_Cand m)) else ret ())
    (de_incoming env).
(** The first message in the channel of one: the offer, or the answer. *)
Definition remote_credentials (controlling : bool) (offer : Msg) : option Msg :=
  if controlling then find (λ m, m_Kind m =?s "answer") (de_incoming env) else Some offer.

(** From OnCandidate to the stream; the caller closes the agent if it fails. *)
Definition setup_body (controlling : bool) (offer : Msg) : M (list call) unit :=
  maybe_fail id (de_on_candidate env) ;;;
  creds <- of_res (de_credentials env) ;;
  let '(ufrag, pwd) := creds in
  let kind := if controlling then "offer" else "answer" in
  let m := mkMsg kind ufrag pwd "" in
  maybe_fail (Wrapf ("direct: send " +:+ kind)) (de_signal env m) ;;;
  log (Signalled m) ;;;
  maybe_fail id (de_gather env) ;;;
  log Gathered ;;;
  each_call (λ c, log (Signalled (mkMsg "cand" "" "" c))) (de_candidates env) ;;;
  take_incoming ;;;
  match remote_credentials controlling offer with
  | None => throw (Errorf "direct: no answer from the peer")
  | Some creds =>
      maybe_fail (Wrapf "direct: no path through the NATs") (de_connect env) ;;;
      log (Connected controlling (m_Ufrag creds) (m_Pwd creds)) ;;;
      log (if controlling then QuicDial [ALPN] else QuicListen [ALPN]) ;;;
      r <- try (maybe_fail (Wrapf "direct: quic") (de_quic env) ;;;
                (if controlling then ret () else maybe_fail (Wrapf "direct: quic") (de_accept env)) ;;;
                maybe_fail (Wrapf "direct: quic") (de_stream env)) ;;
      match r with
      | inl _ => ret ()
      | inr e => log TransportClose ;;; throw e
      end
  end.

(** setup: Ok is the channel, which the caller closes later. *)
Definition setup (controlling : bool) (offer : Msg) (opt : direct_Options) : M (list call) unit :=
  newAgent opt ;;;
  r <- try (setup_body controlling offer) ;;
  match r with
  | inl _ => ret ()
  | inr e => log AgentClose ;;; throw e
  end.
Definition direct_Dial (opt : direct_Options) : M (list call) unit := setup true (mkMsg "" "" "" "") opt.
Definition direct_Accept (offer : Msg) (opt : direct_Options) : M (list call) unit := setup false offer opt.
End setup.

(** Conn.Close: the stream now; QUIC, its transport and the agent two seconds
    later, so that the peer reads what was written; a second Close does
    nothing. *)
Inductive close_step := CloseStream | QuicCloseWithError | ReleaseTransport | ReleaseAgent.
Definition Conn_Close (closed : bool) : bool * list (Z * close_step) :=
  if closed then (true, [])
  else (true, [(0, CloseStream); (2 * second, QuicCloseWithError); (2 * second, ReleaseTransport); (2 * second, ReleaseAgent)]).
Definition direct_PeerCertificate (certs : list bytes) : option bytes := head certs.

(** ** Nothing leaks, and the messages are in order *)

Definition is_close (c : call) : bool := bool_decide (c = AgentClose).
Definition closes (l : list call) : nat := length (List.filter is_close l).
Definition signals (l : list call) : list Msg := omap (λ c, match c with Signalled m => Some m | _ => None end) l.
Definition created (l : list call) : bool := existsb (λ c, match c with NewAgent _ => true | _ => false end) l.

(** What a computation appends. *)
Definition adds (P : list call → Prop) {A} (m : M (list call) A) : Prop :=
  ∀ l r l', m l = (r, l') → finished r = true ∧ ∃ k, l' = l ++ k ∧ P k.
Lemma adds_nil (P : list call → Prop) {A} (m : M (list call) A) :
  P [] → (∀ l, (m l).2 = l ∧ finished (m l).1 = true) → adds P m.
Proof.
  intros HP Hm l r l' E. destruct (Hm l) as [H1 H2]. rewrite E in H1, H2. cbn in *. subst.
  split; [done|]. exists []. by rewrite app_nil_r.
Qed.
Lemma adds_log (P : list call → Prop) c : P [c] → adds P (log c).
Proof. intros HP l r l' [= <- <-]. split; [done|]. eauto. Qed.
Lemma adds_bind (P : list call → Prop) {A B} (m : M (list call) A) (k : A → M (list call) B) :
  (∀ a b, P a → P b → P (a ++ b)) → adds P m → (∀ a, adds P (k a)) → adds P (bind m k).
Proof.
  intros HP Hm Hk l r l' [(a & l1 & E1%Hm & E2%Hk)|(r0 & E1%Hm & Hr & ->)]%bind_inv.
  - destruct E1 as (_ & k1 & -> & H1), E2 as (Hf & k2 & -> & H2). split; [done|].
    exists (k1 ++ k2). rewrite app_assoc. eauto.
  - destruct E1 as (Hf & k1 & -> & H1). split; [|eauto].
    destruct r0; try done. by destruct (Hr a).
Qed.
Lemma adds_try (P : list call → Prop) {A} (m : M (list call) A) : adds P m → adds P (try m).
Proof.
  intros Hm l r l' (r0 & (Hf & k & -> & HP)%Hm & Hr)%try_inv. split; [by destruct r0; subst|eauto].
Qed.
Lemma adds_each (P : list call → Prop) {A} (f : A → M (list call) unit) l :
  P [] → (∀ a b, P a → P b → P (a ++ b)) → (∀ a, adds P (f a)) → adds P (each_call f l).
Proof. intros H0 HP Hf. induction l; cbn [each_call]; [apply adds_nil; [done|done]|]. apply adds_bind; auto. Qed.
Lemma adds_maybe (P : list call → Prop) w r : P [] → adds P (maybe_fail w r).
Proof. intros HP. apply adds_nil; [done|]. intros l. by destruct r. Qed.

Definition no_close (k : list call) : Prop := Forall (λ c, is_close c = false) k.
Lemma no_close_app a b : no_close a → no_close b → no_close (a ++ b).
Proof. apply Forall_app_2. Qed.
Lemma setup_body_no_close env controlling offer : adds no_close (setup_body env controlling offer).
Proof.
  assert (∀ c, is_close c = false → adds no_close (log c)) as Hlog.
  { intros c Hc. apply adds_log. by apply Forall_singleton. }
  assert (∀ w r, adds no_close (maybe_fail w r)) as Hmaybe by (intros w r; apply adds_maybe; constructor).
  assert (∀ A (m : M (list call) A) B (k : A → M (list call) B), adds no_close m → (∀ a, adds no_close (k a)) → adds no_close (bind m k)) as Hb.
  { intros. apply adds_bind; auto using no_close_app. }
  assert (∀ A e, adds no_close (@throw (list call) A e)) as Ht by (intros A e; apply adds_nil; [constructor|done]).
  assert (∀ A (a : A), adds no_close (@ret (list call) A a)) as Hr by (intros A a; apply adds_nil; [constructor|done]).
  assert (∀ A (f : A → M (list call) unit) l, (∀ a, adds no_close (f a)) → adds no_close (each_call f l)) as He.
  { intros. apply adds_each; auto using no_close_app. constructor. }
  unfold setup_body. apply Hb; [done|]. intros _. apply Hb; [destruct (de_credentials env); [apply Hr|apply Ht]|].
  intros [ufrag pwd]. cbv zeta. apply Hb; [done|]. intros _. apply Hb; [by apply Hlog|]. intros _.
  apply Hb; [done|]. intros _. apply Hb; [by apply Hlog|]. intros _.
  apply Hb; [apply He; intros c; by apply Hlog|]. intros _.
  apply Hb; [unfold take_incoming; apply He; intros m; destruct (_ && _); [by apply Hlog|apply Hr]|]. intros _.
  destruct (remote_credentials _ _ _); [|apply Ht]. apply Hb; [done|]. intros _.
  apply Hb; [by apply Hlog|]. intros _. apply Hb; [destruct controlling; by apply Hlog|]. intros _.
  apply Hb.
  - apply adds_try. apply Hb; [done|]. intros _. apply Hb; [destruct controlling; [apply Hr|done]|]. intros _. done.
  - intros [u|e]; [apply Hr|]. apply Hb; [by apply Hlog|]. intros _. apply Ht.
Qed.

Lemma closes_app a b : closes (a ++ b) = (closes a + closes b)%nat.
Proof. unfold closes. by rewrite List.filter_app, length_app. Qed.
Lemma no_close_closes k : no_close k → closes k = 0%nat.
Proof. unfold closes. induction 1 as [|c k Hc _ IH]; [done|]. cbn. by rewrite Hc. Qed.

(** C37: setting up a direct channel never leaks the ICE agent: it always
    comes back; if it fails, an agent that was created has been closed exactly
    once, and one that could not be created is not closed; if it succeeds the
    agent is open, for the channel to close. *)
Theorem setup_releases_agent env controlling offer opt r l :
  setup env controlling offer opt [] = (r, l) →
  finished r = true ∧ closes l = match r with Ok _ => 0 | _ => if created l then 1 else 0 end%nat.
Proof.
  unfold setup. intros E.
  assert (adds (λ k, no_close k ∧ created k = true) (log (NewAgent (mkAgentConfig (default DefaultSTUN (opt_STUN opt))
    (bool_decide (default DefaultSTUN (opt_STUN opt) ≠ [])) (opt_Loopback opt))))) as Hn.
  { apply adds_log. split; [by apply Forall_singleton|done]. }
  apply bind_inv in E as [([] & l1 & E1 & E2)|(r0 & E1 & Hr & ->)].
  - assert (no_close l1 ∧ created l1 = true) as [Hc1 Hk1].
    { unfold newAgent in E1. apply bind_Ok_inv in E1 as (? & l2 & E3 & E1).
      destruct (parse_uris _ _); [done|]. injection E3 as _ <-.
      apply bind_Ok_inv in E1 as (? & l2 & E3 & E1). destruct (de_new_agent env); [done|]. injection E3 as _ <-.
      by apply Hn in E1 as (_ & k & -> & ?). }
    apply bind_inv in E2 as [(x & l2 & (r1 & E2 & Hx)%try_inv & E3)|(r1 & (r2 & E2 & Hx)%try_inv & Hr & _)];
      apply setup_body_no_close in E2 as (Hf & k & -> & Hk).
    + assert (created (l1 ++ k) = true) as Hcr by (unfold created in *; by rewrite existsb_app, Hk1).
      destruct r1 as [u|e| | |]; try done; injection Hx as ->.
      * injection E3 as <- <-. split; [done|]. by rewrite closes_app, !no_close_closes.
      * injection E3 as <- <-. split; [done|].
        assert (created ((l1 ++ k) ++ [AgentClose]) = true) as ->.
        { unfold created in *. by rewrite existsb_app, Hcr. }
        by rewrite !closes_app, (no_close_closes l1), (no_close_closes k).
    + destruct r2 as [u|e| | |]; subst; try done; by destruct (Hr _ eq_refl).
  - assert (l = [] ∧ finished r0 = true) as [-> Hf].
    { unfold newAgent in E1. destruct (parse_uris _ _); [by injection E1 as <- <-|].
      rewrite bind_Ok with (a := ()) (s' := []) in E1 by done.
      destruct (de_new_agent env); [by injection E1 as <- <-|]. injection E1 as <- _. by destruct (Hr () eq_refl). }
    destruct r0 as [u|e| | |]; try done. by destruct (Hr u).
Qed.

Definition demo_direct : direct_env :=
  mkDirectEnv (λ _, None) None None (inl ("u", "p")) (λ _, None) None ["host 1"] [mkMsg "cand" "" "" "c1"; mkMsg "answer" "ru" "rp" ""]
    (λ _, true) None None None (Some (Errorf "timeout: no recent network activity")).
Lemma setup_releases_agent_witness :
  let run := setup demo_direct true (mkMsg "" "" "" "") (mkDirectOptions None false 0) [] in
  run.2 = [NewAgent (mkAgentConfig DefaultSTUN true false); Signalled (mkMsg "offer" "u" "p" ""); Gathered;
           Signalled (mkMsg "cand" "" "" "host 1"); AddedRemote "c1"; Connected true "ru" "rp"; QuicDial [ALPN];
           TransportClose; AgentClose] ∧
  finished run.1 = true ∧ closes run.2 = match run.1 with Ok _ => 0 | _ => if created run.2 then 1 else 0 end%nat.
Proof.
  cbv zeta. split; [by vm_compute|].
  apply (setup_releases_agent demo_direct true (mkMsg "" "" "" "") (mkDirectOptions None false 0)).
  apply surjective_pairing.
Defined.
